(** * SiteColor: a verification development for [site-color.js]

    The JavaScript class [SiteColor] holds three colour channels and an
    opacity, parses CSS colour strings, and offers a few transformations
    and colour-science computations.  This file embeds the class in Rocq
    and proves (or refutes) the properties stated about it.

    Layout:
    - [JS]: the ECMAScript built-ins the class calls ([parseInt],
      [parseFloat], [Math.min], [Math.max], [Number::toString], [<<]),
      over IEEE-754 binary64 numbers (Rocq's primitive floats);
    - [Re]: the four regular expressions, as deterministic matchers;
    - [SiteColor]: the class itself, method by method, in a state monad
      over a heap of objects, and calls with arguments whose conversion
      to a string throws;
    - the specification vocabulary: the predicates and the small programs
      the theorems are stated with;
    - the proofs: a theory of binary64 rounding (exact integers,
      magnitudes, and bounds that rounding does not cross), the printing
      and reading back of numbers ([Number::toString] followed by
      [parseInt]), and the theorems about the class, each introduced by
      the claim it settles (C1 to C10); then further properties of the
      methods (X1 to X21): the setters on numerals and on numbers below
      [1e-6], the [rgb] and [rgba] parsers and [fill], printing and
      reading back, and the ends and bounds of the transformations. *)

From Stdlib Require Import ZArith NArith QArith Qpower Qround String Ascii List Bool Lia Lqa Floats.
From stdpp Require Import base option gmap.

Set Warnings "-inexact-float".
#[local] Open Scope Z_scope.

(* ===================================================================== *)
(** * ECMAScript built-ins *)
(* ===================================================================== *)

Module JS.

(** ** Numbers

    A JavaScript Number is an IEEE-754 binary64 value: Rocq's primitive
    [float], whose operations are the hardware ones and are specified by
    [FloatAxioms] against [SpecFloat]. *)

Abbreviation number := float.

(** [isNaN] applied to a Number. *)
Definition isNaN (x : number) : bool := PrimFloat.is_nan x.

Definition is_neg_zero (x : number) : bool :=
  match PrimFloat.classify x with NZero => true | _ => false end.

Definition is_pos_zero (x : number) : bool :=
  match PrimFloat.classify x with PZero => true | _ => false end.

(** [Math.max(a, b)] (ES 21.3.2.24): NaN if either is NaN; [+0] counts as
    larger than [-0]. *)
Definition Math_max (a b : number) : number :=
  if isNaN a || isNaN b then nan
  else if (a <? b)%float then b
  else if is_neg_zero a && is_pos_zero b then b
  else a.

(** [Math.min(a, b)] (ES 21.3.2.25): NaN if either is NaN; [-0] counts as
    smaller than [+0]. *)
Definition Math_min (a b : number) : number :=
  if isNaN a || isNaN b then nan
  else if (b <? a)%float then b
  else if is_pos_zero a && is_neg_zero b then b
  else a.

(** The mathematical value of a finite double, truncated toward zero
    ([0] for NaN and the infinities). *)
Definition truncZ (x : number) : Z :=
  match Prim2SF x with
  | S754_finite s m e =>
      let a := if 0 <=? e then Zpos m * 2 ^ e else Zpos m / 2 ^ (- e) in
      if s then - a else a
  | _ => 0
  end.

(** The Number value for a mathematical integer: [𝔽(z)], round to nearest,
    ties to even. *)
Definition of_Z (z : Z) : number := SF2Prim (binary_normalize prec emax z 0 false).

(** The Number value for the rational [n / d]: round to nearest, ties
    to even ([SFdiv] computes the quotient of the two integers with one
    rounding). *)
Definition of_ratio (n d : positive) : number :=
  SF2Prim (SFdiv prec emax (S754_finite false n 0) (S754_finite false d 0)).

(** [𝔽(d * 10^x)] for a decimal literal with digits [d] and exponent [x]. *)
Definition of_decimal (d : N) (x : Z) : number :=
  match d with
  | N0 => 0%float
  | Npos p =>
      if 0 <=? x then of_Z (Zpos p * 10 ^ x)
      else of_ratio p (Z.to_pos (10 ^ (- x)))
  end.

(** [ToInt32] (ES 7.1.6). *)
Definition ToInt32 (x : number) : Z :=
  let k := truncZ x mod 2 ^ 32 in
  if k <? 2 ^ 31 then k else k - 2 ^ 32.

(** [a << n] for a Number [a] and a shift count [n] in [0, 31]: an Int32. *)
Definition shl (x : number) (n : Z) : Z :=
  let k := (ToInt32 x * 2 ^ n) mod 2 ^ 32 in
  if k <? 2 ^ 31 then k else k - 2 ^ 32.

(** ** Strings

    Strings are sequences of code units; the model keeps the code units
    below 256 (Rocq's [ascii]), which covers every character the class
    looks at. *)

Definition code (c : ascii) : Z := Z.of_N (N_of_ascii c).

(** [StrWhiteSpaceChar] restricted to code units below 256: TAB, LF, VT,
    FF, CR, SP and NBSP. *)
Definition is_white (c : ascii) : bool :=
  let n := code c in
  ((9 <=? n) && (n <=? 13)) || (n =? 32) || (n =? 160).

Fixpoint trim_start (s : string) : string :=
  match s with
  | String c s' => if is_white c then trim_start s' else s
  | EmptyString => s
  end.

(** The value of a digit character in radixes up to 36. *)
Definition digit_value (c : ascii) : option Z :=
  let n := code c in
  if (48 <=? n) && (n <=? 57) then Some (n - 48)
  else if (97 <=? n) && (n <=? 122) then Some (n - 87)
  else if (65 <=? n) && (n <=? 90) then Some (n - 55)
  else None.

Definition radix_digit (R : Z) (c : ascii) : option Z :=
  match digit_value c with
  | Some d => if d <? R then Some d else None
  | None => None
  end.

(** Reads the longest prefix of radix-[R] digits: the number of digits
    read, their value on top of [acc], and the rest of the string. *)
Fixpoint read_digits (R : Z) (s : string) (acc : Z) (cnt : nat) : Z * nat * string :=
  match s with
  | String c s' =>
      match radix_digit R c with
      | Some d => read_digits R s' (acc * R + d) (S cnt)
      | None => (acc, cnt, s)
      end
  | EmptyString => (acc, cnt, s)
  end.

Definition strip_sign (s : string) : bool * string :=
  match s with
  | String "-" s' => (true, s')
  | String "+" s' => (false, s')
  | _ => (false, s)
  end.

Definition strip_0x (s : string) : option string :=
  match s with
  | String "0" (String "x" s') => Some s'
  | String "0" (String "X" s') => Some s'
  | _ => None
  end.

(** The integer [parseInt] reads (ES 19.2.5, steps 1-13): [None] when the
    radix is out of range or no digit is found, else the sign and the
    mathematical integer. [radix] is [0] when the argument is absent. *)
Definition parseInt_math (input : string) (radix : Z) : option (bool * Z) :=
  let '(neg, str) := strip_sign (trim_start input) in
  if negb (radix =? 0) && ((radix <? 2) || (36 <? radix)) then None
  else
    let strip_prefix := (radix =? 0) || (radix =? 16) in
    let R := if radix =? 0 then 10 else radix in
    let '(R, str) :=
      match (if strip_prefix then strip_0x str else None) with
      | Some str' => (16, str')
      | None => (R, str)
      end in
    let '(mathInt, cnt, _) := read_digits R str 0 O in
    match cnt with
    | O => None
    | _ => Some (neg, mathInt)
    end.

(** Steps 14-16 of [parseInt]: the Number for the integer read. *)
Definition number_of_parse (p : option (bool * Z)) : number :=
  match p with
  | None => nan
  | Some (neg, mathInt) =>
      if mathInt =? 0 then (if neg then neg_zero else zero)
      else of_Z (if neg then - mathInt else mathInt)
  end.

Definition parseInt_string (input : string) (radix : Z) : number :=
  number_of_parse (parseInt_math input radix).

Definition strip_prefix_of (p s : string) : option string :=
  if String.prefix p s
  then Some (String.substring (String.length p) (String.length s - String.length p) s)
  else None.

(** The exponent part of a [StrDecimalLiteral]: [e] or [E], an optional
    sign and at least one digit; [0] when there is none. *)
Definition read_exponent (s : string) : Z :=
  match s with
  | String c s' =>
      if (code c =? 101) || (code c =? 69) then
        let '(neg, s'') := strip_sign s' in
        let '(v, cnt, _) := read_digits 10 s'' 0 O in
        match cnt with
        | O => 0
        | _ => if neg then - v else v
        end
      else 0
  | EmptyString => 0
  end.

(** [parseFloat] on a string (ES 19.2.4): the longest prefix of the trimmed
    string that is a [StrDecimalLiteral], rounded to a Number. *)
Definition parseFloat_string (input : string) : number :=
  let '(neg, str) := strip_sign (trim_start input) in
  let sgn (x : number) : number := if neg then (- x)%float else x in
  match strip_prefix_of "Infinity" str with
  | Some _ => sgn infinity
  | None =>
      let '(ip, icnt, s1) := read_digits 10 str 0 O in
      let '(m, fcnt, s2) :=
        match s1 with
        | String "." s1' =>
            let '(m, fcnt, s2) := read_digits 10 s1' ip O in
            match icnt, fcnt with
            | O, O => (ip, O, s1)
            | _, _ => (m, fcnt, s2)
            end
        | _ => (ip, O, s1)
        end in
      match icnt, fcnt with
      | O, O => nan
      | _, _ => sgn (of_decimal (Z.to_N m) (read_exponent s2 - Z.of_nat fcnt))
      end
  end.

(** ** [Number::toString] (ES 6.1.6.1.20), radix 10

    For a positive finite [x] the standard picks integers [n], [k], [s]
    with [10^(k-1) <= s < 10^k] such that [s * 10^(n-k)] rounds to [x],
    [k] as small as possible and, among those, [s * 10^(n-k)] closest to
    [x].  The digits of [s] are then laid out according to [n]. *)

(** [m * 2^e] and [s * 10^t] as rationals. *)
Definition dyadic (m e : Z) : Q :=
  if 0 <=? e then inject_Z (m * 2 ^ e) else Qmake m (Z.to_pos (2 ^ (- e))).

Definition decimal (s t : Z) : Q :=
  if 0 <=? t then inject_Z (s * 10 ^ t) else Qmake s (Z.to_pos (10 ^ (- t))).

Definition Qlt_bool (a b : Q) : bool := negb (Qle_bool b a).

(** The reals that round to the double [m * 2^e] lie between the midpoints
    to its two neighbours; the lower neighbour is twice as close when [m]
    is the least mantissa of a binade.  The midpoints themselves round to
    [m * 2^e] when [m] is even. *)
Definition binade_start (m : positive) (e : Z) : bool :=
  (Zpos m =? 2 ^ 52) && (-1074 <? e).

Definition lower_mid (m : positive) (e : Z) : Q :=
  dyadic (4 * Zpos m - (if binade_start m e then 1 else 2)) (e - 2).

Definition upper_mid (m : positive) (e : Z) : Q :=
  dyadic (4 * Zpos m + 2) (e - 2).

Definition rounds_to (m : positive) (e : Z) (v : Q) : bool :=
  if Z.even (Zpos m)
  then Qle_bool (lower_mid m e) v && Qle_bool v (upper_mid m e)
  else Qlt_bool (lower_mid m e) v && Qlt_bool v (upper_mid m e).

(** The decimal magnitude of [x]: the [n] with [10^(n-1) <= x < 10^n],
    from the binary magnitude and a correction of at most two steps. *)
Fixpoint adjust_up (fuel : nat) (x : Q) (n : Z) : Z :=
  match fuel with
  | O => n
  | S fuel' => if Qle_bool (decimal 1 n) x then adjust_up fuel' x (n + 1) else n
  end.

Fixpoint adjust_down (fuel : nat) (x : Q) (n : Z) : Z :=
  match fuel with
  | O => n
  | S fuel' => if Qlt_bool x (decimal 1 (n - 1)) then adjust_down fuel' x (n - 1) else n
  end.

Definition magnitude (m : positive) (e : Z) : Z :=
  let x := dyadic (Zpos m) e in
  let est := (Z.log2 (Zpos m) + e) * 1233 / 4096 + 1 in
  adjust_down 2 x (adjust_up 2 x est).

(** The [k]-digit decimals next to [x] on either side, [(s, n)] each; the
    upper one carries into the next magnitude when [s] reaches [10^k]. *)
Definition below (x : Q) (n0 k : Z) : Z * Z :=
  (Qfloor (x * decimal 1 (k - n0)), n0).

Definition above (x : Q) (n0 k : Z) : Z * Z :=
  let s := Qfloor (x * decimal 1 (k - n0)) + 1 in
  if s =? 10 ^ k then (10 ^ (k - 1), n0 + 1) else (s, n0).

Definition acceptable (m : positive) (e : Z) (k : Z) (c : Z * Z) : bool :=
  let '(s, n) := c in
  rounds_to m e (decimal s (n - k)) && (10 ^ (k - 1) <=? s) && (s <? 10 ^ k).

(** The acceptable [k]-digit decimal closest to [x], if any; the even one
    on a tie. *)
Definition candidate (m : positive) (e : Z) (n0 k : Z) : option (Z * Z) :=
  let x := dyadic (Zpos m) e in
  let lo := below x n0 k in
  let hi := above x n0 k in
  match acceptable m e k lo, acceptable m e k hi with
  | true, true =>
      match Qcompare (x - decimal (fst lo) (snd lo - k)) (decimal (fst hi) (snd hi - k) - x) with
      | Lt => Some lo
      | Gt => Some hi
      | Eq => if Z.even (fst lo) then Some lo else Some hi
      end
  | true, false => Some lo
  | false, true => Some hi
  | false, false => None
  end.

Fixpoint search (fuel : nat) (m : positive) (e : Z) (n0 k : Z) : option (Z * Z * Z) :=
  match fuel with
  | O => None
  | S fuel' =>
      match candidate m e n0 k with
      | Some (s, n) => Some (s, k, n)
      | None => search fuel' m e n0 (k + 1)
      end
  end.

(** Numerals: the digits of a non-negative integer in radix [R], most
    significant first, lower case. *)
Definition digit_char (d : Z) : ascii :=
  ascii_of_N (Z.to_N (if d <? 10 then 48 + d else 87 + d)).

Fixpoint show_digits (fuel : nat) (R z : Z) (acc : string) : string :=
  match fuel with
  | O => acc
  | S fuel' =>
      let acc' := String (digit_char (z mod R)) acc in
      if z <? R then acc' else show_digits fuel' R (z / R) acc'
  end.

Definition show_radix (R z : Z) : string :=
  show_digits (S (Z.to_nat (Z.log2 z))) R z EmptyString.

Definition dec (z : Z) : string := show_radix 10 z.

Fixpoint zeros (n : nat) : string :=
  match n with
  | O => EmptyString
  | S n' => String "0" (zeros n')
  end.

(** [z] in decimal, padded with zeros on the left to [w] digits. *)
Definition decpad (w : Z) (z : Z) : string :=
  (zeros (Z.to_nat w - String.length (dec z)) ++ dec z)%string.

(** The full decimal expansion of [m * 2^e], which always rounds to itself.
    Seventeen digits are enough for every double, so [shortest] never
    needs it; it keeps [shortest] total. *)
Definition expansion (m : positive) (e : Z) : Z * Z * Z :=
  let s := if 0 <=? e then Zpos m * 2 ^ e else Zpos m * 5 ^ (- e) in
  let k := Z.of_nat (String.length (dec s)) in
  (s, k, if 0 <=? e then k else k + e).

(** [(s, k, n)] for the positive double [m * 2^e]. *)
Definition shortest (m : positive) (e : Z) : Z * Z * Z :=
  match search 17 m e (magnitude m e) 1 with
  | Some r => r
  | None => expansion m e
  end.

(** Steps 6-12: the layout of the digits. *)
Definition layout (s k n : Z) : string :=
  if (k <=? n) && (n <=? 21) then
    (dec s ++ zeros (Z.to_nat (n - k)%Z))%string
  else if (0 <? n) && (n <=? 21) then
    (dec (s / 10 ^ (k - n))%Z ++ "." ++ decpad (k - n) (s mod 10 ^ (k - n))%Z)%string
  else if (-6 <? n) && (n <=? 0) then
    ("0." ++ zeros (Z.to_nat (- n)%Z) ++ dec s)%string
  else
    let ex := n - 1 in
    let tail := ("e" ++ (if (ex <? 0)%Z then "-" else "+") ++ dec (Z.abs ex))%string in
    if k =? 1 then (dec s ++ tail)%string
    else (dec (s / 10 ^ (k - 1))%Z ++ "." ++ decpad (k - 1) (s mod 10 ^ (k - 1))%Z ++ tail)%string.

Definition Number_toString (x : number) : string :=
  match Prim2SF x with
  | S754_nan => "NaN"
  | S754_zero _ => "0"
  | S754_infinity s => if s then "-Infinity" else "Infinity"
  | S754_finite sg m e =>
      let '(s, k, n) := shortest m e in
      ((if sg then "-" else "") ++ layout s k n)%string
  end.

(** ** Values and coercions *)

(** The primitive values other than Symbols: the values that [ToString]
    converts without fail.  Symbols and objects, whose conversion can
    throw, come with [argument] below. *)
Inductive value : Type :=
  | VUndefined
  | VNull
  | VBool (b : bool)
  | VNumber (x : number)
  | VString (s : string).

(** [ToString] (ES 7.1.17) on these values; [ToString_any] below is
    [ToString] on every argument, with its exceptions. *)
Definition ToString (v : value) : string :=
  match v with
  | VUndefined => "undefined"
  | VNull => "null"
  | VBool b => if b then "true" else "false"
  | VNumber x => Number_toString x
  | VString s => s
  end.

(** [parseInt(v)] and [parseInt(v, 16)]: the argument is first converted
    to a string, whatever its type. *)
Definition parseInt (v : value) : number := parseInt_string (ToString v) 0.

Definition parseInt16 (v : value) : number := parseInt_string (ToString v) 16.

Definition parseFloat (v : value) : number := parseFloat_string (ToString v).

(** ** Arguments whose conversion can throw

    A caller may pass any ECMAScript value.  On a Symbol [ToString]
    throws a [TypeError] (ES 7.1.17).  On an object it first runs the
    object's own conversion to a primitive ([ToPrimitive], ES 7.1.1: the
    object's [toString] or [valueOf]), which returns a primitive value or
    throws.  An object is represented by what that conversion does, taken
    to be the same each time it runs and without effect on the colours; a
    conversion that returns a Symbol counts as one that throws a
    [TypeError], which is what [ToString] then does. *)

Inductive exception : Type :=
  | TypeError
  | Raised.

Inductive completion (A : Type) : Type :=
  | Normal (a : A)
  | Throw (e : exception).

Arguments Normal {A} a.
Arguments Throw {A} e.

Inductive argument : Type :=
  | Plain (v : value)
  | Symbol
  | Object (conversion : completion value).

(** The value whose string [ToString] returns for an argument, or the
    exception [ToString] throws. *)
Definition printable (x : argument) : completion value :=
  match x with
  | Plain v => Normal v
  | Symbol => Throw TypeError
  | Object conversion => conversion
  end.

(** [ToString] (ES 7.1.17) on any argument. *)
Definition ToString_any (x : argument) : completion string :=
  match printable x with
  | Normal v => Normal (ToString v)
  | Throw e => Throw e
  end.

End JS.

(* ===================================================================== *)
(** * The regular expressions *)
(* ===================================================================== *)

(** Each pattern is anchored at both ends and its pieces ([\s*], digit
    runs, punctuation) use disjoint character classes, so matching is
    deterministic: a left-to-right scan that takes each repetition as far
    as it goes finds the match whenever there is one.  [exec] is modelled
    by the captured groups. *)

Module Re.
Import JS.

Definition is_digit (c : ascii) : bool := (48 <=? code c) && (code c <=? 57).

(** [[0-9a-f]] under the [i] flag. *)
Definition is_hex (c : ascii) : bool :=
  is_digit c
  || ((97 <=? code c) && (code c <=? 102))
  || ((65 <=? code c) && (code c <=? 70)).

(** [[0-9.]]. *)
Definition is_digit_or_dot (c : ascii) : bool := is_digit c || (code c =? 46).

Fixpoint all_chars (p : ascii -> bool) (s : string) : bool :=
  match s with
  | EmptyString => true
  | String c s' => p c && all_chars p s'
  end.

Definition upper (c : ascii) : ascii :=
  if (97 <=? code c) && (code c <=? 122) then ascii_of_N (N_of_ascii c - 32) else c.

(** A literal, compared case-insensitively; the rest of the input. *)
Fixpoint lit (p s : string) : option string :=
  match p, s with
  | EmptyString, _ => Some s
  | String a p', String c s' =>
      if Ascii.eqb (upper a) (upper c) then lit p' s' else None
  | String _ _, EmptyString => None
  end.

(** [\s*]. *)
Definition white (s : string) : string := trim_start s.

(** Up to [n] characters of a class. *)
Fixpoint take_upto (n : nat) (p : ascii -> bool) (s : string) : string * string :=
  match n, s with
  | S n', String c s' =>
      if p c then let '(a, rest) := take_upto n' p s' in (String c a, rest)
      else (EmptyString, s)
  | _, _ => (EmptyString, s)
  end.

(** [(class{1,3})]. *)
Definition group13 (p : ascii -> bool) (s : string) : option (string * string) :=
  match take_upto 3 p s with
  | (EmptyString, _) => None
  | r => Some r
  end.

Definition at_end (s : string) : option unit :=
  match s with
  | EmptyString => Some tt
  | _ => None
  end.

(** [/^#([0-9a-f]{3}|[0-9a-f]{6})$/i]: the captured digits. *)
Definition HEX_REGEXP (s : string) : option string :=
  match s with
  | String "#" body =>
      if all_chars is_hex body
         && (Nat.eqb (String.length body) 3 || Nat.eqb (String.length body) 6)
      then Some body
      else None
  | _ => None
  end.

(** [/^rgb\(\s*([0-9]{1,3})\s*,\s*([0-9]{1,3})\s*,\s*([0-9]{1,3})\s*\)$/i]. *)
Definition RGB_REGEXP (s : string) : option (string * string * string) :=
  s ← lit "rgb(" s;
  '(c1, s) ← group13 is_digit (white s);
  s ← lit "," (white s);
  '(c2, s) ← group13 is_digit (white s);
  s ← lit "," (white s);
  '(c3, s) ← group13 is_digit (white s);
  s ← lit ")" (white s);
  _ ← at_end s;
  Some (c1, c2, c3).

(** [/^rgba\(\s*([0-9]{1,3})\s*,\s*([0-9]{1,3})\s*,\s*([0-9]{1,3})\s*,\s*([0-9.]{1,3})\s*\)$/i]. *)
Definition RGBA_REGEXP (s : string) : option (string * string * string * string) :=
  s ← lit "rgba(" s;
  '(c1, s) ← group13 is_digit (white s);
  s ← lit "," (white s);
  '(c2, s) ← group13 is_digit (white s);
  s ← lit "," (white s);
  '(c3, s) ← group13 is_digit (white s);
  s ← lit "," (white s);
  '(c4, s) ← group13 is_digit_or_dot (white s);
  s ← lit ")" (white s);
  _ ← at_end s;
  Some (c1, c2, c3, c4).

(** [/^#?([a-f\d])([a-f\d])([a-f\d])$/i]. *)
Definition SHORT_HEX_REGEXP (s : string) : option (ascii * ascii * ascii) :=
  let body := match s with String "#" s' => s' | _ => s end in
  match body with
  | String r (String g (String b EmptyString)) =>
      if is_hex r && is_hex g && is_hex b then Some (r, g, b) else None
  | _ => None
  end.

(** [RegExp.prototype.test]. *)
Definition test {A : Type} (m : option A) : bool :=
  match m with
  | Some _ => true
  | None => false
  end.

End Re.

(* ===================================================================== *)
(** * The class *)
(* ===================================================================== *)

Module SiteColor.
Import JS Re.

(** A field holds [null] or a Number. *)
Inductive field : Type :=
  | Null
  | Num (x : number).

(** [ToNumber] on a field: [null] is [+0]. *)
Definition ToNumber (f : field) : number :=
  match f with
  | Null => 0%float
  | Num x => x
  end.

Record t : Type := mk { r : field; g : field; b : field; opacity : field }.

(** [new SiteColor()]. *)
Definition init : t := mk Null Null Null Null.

#[global] Instance t_inhabited : Inhabited t := populate init.

(** ** Objects and methods

    Objects live in a heap and are handled through references, so that a
    method can return its receiver and two arguments can be one object.
    A method is a state transformer on the heap. *)

Definition loc : Type := positive.
Abbreviation heap := (gmap loc t).

Definition M (A : Type) : Type := heap -> A * heap.

Definition ret {A : Type} (a : A) : M A := fun h => (a, h).

Definition bind {A B : Type} (c : M A) (k : A -> M B) : M B :=
  fun h => let '(a, h') := c h in k a h'.

Notation "'do' x <- c ; k" := (bind c (fun x => k))
  (at level 10, x name, c at level 100, k at level 200).

(** [this.f] and [this.f = v]. *)
Definition get (f : t -> field) (this : loc) : M field :=
  fun h => (f (h !!! this), h).

Definition put (upd : t -> t) (this : loc) : M unit :=
  fun h => (tt, alter upd this h).

Definition with_r (v : field) (o : t) : t := mk v (g o) (b o) (opacity o).
Definition with_g (v : field) (o : t) : t := mk (r o) v (b o) (opacity o).
Definition with_b (v : field) (o : t) : t := mk (r o) (g o) v (opacity o).
Definition with_opacity (v : field) (o : t) : t := mk (r o) (g o) (b o) v.

(** [new SiteColor()]: a fresh reference to an object with four [null]s. *)
Definition new : M loc :=
  fun h => let l := fresh (dom h) in (l, <[l := init]> h).

(** ** Internal utility functions *)

Definition numberBound (num min max : number) : number :=
  Math_min (Math_max num min) max.

(** [isNaN(x) ? null : x]. *)
Definition null_if_NaN (x : number) : field := if isNaN x then Null else Num x.

(** ** Setters *)

Definition setRed (this : loc) (red : value) : M loc :=
  let red := numberBound (parseInt red) 0 255 in
  do _ <- put (with_r (null_if_NaN red)) this;
  ret this.

Definition setGreen (this : loc) (green : value) : M loc :=
  let green := numberBound (parseInt green) 0 255 in
  do _ <- put (with_g (null_if_NaN green)) this;
  ret this.

Definition setBlue (this : loc) (blue : value) : M loc :=
  let blue := numberBound (parseInt blue) 0 255 in
  do _ <- put (with_b (null_if_NaN blue)) this;
  ret this.

Definition setOpacity (this : loc) (opacity : value) : M loc :=
  let opacity := numberBound (parseFloat opacity) 0 1 in
  do _ <- put (with_opacity (null_if_NaN opacity)) this;
  ret this.

(** ** Parsers *)

(** [res[i]]: a one-character string, or [undefined], which the [+] of
    [res[i] + res[j]] turns into the string "undefined" next to a
    string. *)
Definition char_at (res : string) (i : nat) : string :=
  match String.get i res with
  | Some c => String c EmptyString
  | None => "undefined"
  end.

(** [res.replace(SHORT_HEX_REGEXP, function (m, r, g, b) { return r + r + g + g + b + b; })]. *)
Definition expand_short (res : string) : string :=
  match SHORT_HEX_REGEXP res with
  | Some (r, g, b) =>
      String r (String r (String g (String g (String b (String b EmptyString)))))
  | None => res
  end.

Definition fillHex (this : loc) (hex : value) : M loc :=
  match HEX_REGEXP (ToString hex) with
  | Some res =>
      let res := if Nat.eqb (String.length res) 3 then expand_short res else res in
      do o <- setRed this (VNumber (parseInt16 (VString (char_at res 0 ++ char_at res 1))));
      do o <- setGreen o (VNumber (parseInt16 (VString (char_at res 2 ++ char_at res 3))));
      do o <- setBlue o (VNumber (parseInt16 (VString (char_at res 4 ++ char_at res 5))));
      do _ <- setOpacity o (VNumber 1);
      ret this
  | None => ret this
  end.

Definition fillRgb (this : loc) (rgb : value) : M loc :=
  match RGB_REGEXP (ToString rgb) with
  | Some (c1, c2, c3) =>
      do o <- setRed this (VString c1);
      do o <- setGreen o (VString c2);
      do o <- setBlue o (VString c3);
      do _ <- setOpacity o (VNumber 1);
      ret this
  | None => ret this
  end.

Definition fillRgba (this : loc) (rgba : value) : M loc :=
  match RGBA_REGEXP (ToString rgba) with
  | Some (c1, c2, c3, c4) =>
      do o <- setRed this (VString c1);
      do o <- setGreen o (VString c2);
      do o <- setBlue o (VString c3);
      do _ <- setOpacity o (VString c4);
      ret this
  | None => ret this
  end.

Definition fill (this : loc) (colorString : value) : M loc :=
  if test (HEX_REGEXP (ToString colorString)) then
    do _ <- fillHex this colorString; ret this
  else if test (RGB_REGEXP (ToString colorString)) then
    do _ <- fillRgb this colorString; ret this
  else if test (RGBA_REGEXP (ToString colorString)) then
    do _ <- fillRgba this colorString; ret this
  else ret this.

(** ** Transformations *)

Definition darken (this : loc) (percent : value) : M loc :=
  let percent := (1 - numberBound (parseFloat percent) 0 1)%float in
  do x <- get r this;
  do o <- setRed this (VNumber (ToNumber x * percent));
  do x <- get g this;
  do o <- setGreen o (VNumber (ToNumber x * percent));
  do x <- get b this;
  do _ <- setBlue o (VNumber (ToNumber x * percent));
  ret this.

Definition lighten (this : loc) (percent : value) : M loc :=
  let percent := (1 + numberBound (parseFloat percent) 0 1)%float in
  do x <- get r this;
  do o <- setRed this (VNumber (ToNumber x * percent));
  do x <- get g this;
  do o <- setGreen o (VNumber (ToNumber x * percent));
  do x <- get b this;
  do _ <- setBlue o (VNumber (ToNumber x * percent));
  ret this.

Definition blendWith (this : loc) (color : loc) (percent : value) : M loc :=
  let percent := numberBound (parseFloat percent) 0 1 in
  do c <- get r color;
  do x <- get r this;
  do o <- setRed this (VNumber ((ToNumber c - ToNumber x) * percent + ToNumber x));
  do c <- get g color;
  do x <- get g this;
  do o <- setGreen o (VNumber ((ToNumber c - ToNumber x) * percent + ToNumber x));
  do c <- get b color;
  do x <- get b this;
  do _ <- setBlue o (VNumber ((ToNumber c - ToNumber x) * percent + ToNumber x));
  ret this.

(** ** Serialisation *)

Definition toRgbArray (this : loc) : M (list field) :=
  do x <- get r this;
  do y <- get g this;
  do z <- get b this;
  ret [x; y; z].

(** [Array.prototype.join]: [null] elements give the empty string. *)
Definition field_string (f : field) : string :=
  match f with
  | Null => EmptyString
  | Num x => Number_toString x
  end.

Fixpoint join (sep : string) (l : list field) : string :=
  match l with
  | [] => EmptyString
  | [x] => field_string x
  | x :: l' => (field_string x ++ sep ++ join sep l')%string
  end.

Definition toRgb (this : loc) : M string :=
  do x <- get r this;
  do y <- get g this;
  do z <- get b this;
  ret ("rgb(" ++ join ", " [x; y; z] ++ ")")%string.

Definition toRgba (this : loc) : M string :=
  do x <- get r this;
  do y <- get g this;
  do z <- get b this;
  do a <- get opacity this;
  ret ("rgba(" ++ join ", " [x; y; z; a] ++ ")")%string.

(** [Number.prototype.toString(16)].  The sum [toHex] prints is an
    integer whenever the blue field is one; the digits after the point,
    which the standard leaves to the implementation for radixes other
    than 10, are not modelled. *)
Definition Number_toString16 (x : number) : string :=
  match Prim2SF x with
  | S754_nan => "NaN"
  | S754_zero _ => "0"
  | S754_infinity s => if s then "-Infinity" else "Infinity"
  | S754_finite s _ _ =>
      ((if s then "-" else "") ++ show_radix 16 (Z.abs (truncZ x)))%string
  end.

(** [s.slice(1)]. *)
Definition slice1 (s : string) : string :=
  match s with
  | String _ s' => s'
  | EmptyString => EmptyString
  end.

Definition toHex (this : loc) : M string :=
  do x <- get r this;
  do y <- get g this;
  do z <- get b this;
  ret ("#" ++ slice1 (Number_toString16
         (of_Z (shl 1 24) + of_Z (shl (ToNumber x) 16) + of_Z (shl (ToNumber y) 8) + ToNumber z)%float))%string.

(** [this.opacity === 1]. *)
Definition is_one (f : field) : bool :=
  match f with
  | Null => false
  | Num x => (x =? 1)%float
  end.

Definition toString (this : loc) : M string :=
  do a <- get opacity this;
  if is_one a then toHex this else toRgba this.

(** ** Colour science

    [Math.pow] is the one built-in the class uses whose result the
    standard does not fix (it is "implementation-approximated"), so the
    two methods that reach it take it as a parameter. *)

Section ColourScience.

Variable Math_pow : number -> number -> number.

Definition linearize (v : number) : number :=
  let v := (v / 255)%float in
  if (v <=? 0.03928)%float then (v / 12.92)%float
  else Math_pow ((v + 0.055) / 1.055)%float 2.4%float.

Definition luminanace (r g b : field) : number :=
  let a0 := linearize (ToNumber r) in
  let a1 := linearize (ToNumber g) in
  let a2 := linearize (ToNumber b) in
  (a0 * 0.2126 + a1 * 0.7152 + a2 * 0.0722)%float.

Definition nth_field (l : list field) (i : nat) : field := nth i l Null.

Definition contrast (rgb1 rgb2 : list field) : number :=
  let c := ((luminanace (nth_field rgb1 0) (nth_field rgb1 1) (nth_field rgb1 2) + 0.05)
            / (luminanace (nth_field rgb2 0) (nth_field rgb2 1) (nth_field rgb2 2) + 0.05))%float in
  if (c <? 1)%float then (1 / c)%float else c.

Definition getLuminance (this : loc) : M number :=
  do x <- get r this;
  do y <- get g this;
  do z <- get b this;
  ret (luminanace x y z).

Definition compareContrastTo (this : loc) (color : loc) : M number :=
  do rgb1 <- toRgbArray this;
  do rgb2 <- toRgbArray color;
  ret (contrast rgb1 rgb2).

End ColourScience.

(** ** Calls with any argument

    Every method that takes a value hands it, before it reads or writes a
    field, to a built-in that converts it to a string: [parseInt] and
    [parseFloat] (ES 19.2.5 and 19.2.4, step 1) in the setters and the
    transformations, [RegExp.prototype.exec] and [test] (ES 22.2.6) in
    the parsers.  When that conversion throws, the call ends there with
    the exception and the heap as it was; otherwise the method runs as
    above on the value the conversion went through, and completes
    normally. *)
Definition call {A : Type} (method : value -> M A) (x : argument) : heap -> completion A * heap :=
  fun h =>
    match printable x with
    | Normal v => let '(a, h') := method v h in (Normal a, h')
    | Throw e => (Throw e, h)
    end.

End SiteColor.

(* ===================================================================== *)
(** * Specification vocabulary *)
(* ===================================================================== *)

Import JS Re SiteColor.

(** Checking a decidable property on an interval of integers by
    evaluation. *)
Definition upto (n : nat) : list Z := List.map Z.of_nat (seq 0 n).

Definition clampZ (lo hi z : Z) : Z := Z.max lo (Z.min hi z).

(** A channel value: absent, or the Number of an integer in [0, 255]. *)
Definition channel_ok (f : field) : Prop :=
  f = Null \/ exists z, 0 <= z <= 255 /\ f = Num (of_Z z).

(** An opacity value: absent, or a Number between 0 and 1. *)
Definition opacity_ok (f : field) : Prop :=
  f = Null \/ exists x, f = Num x /\ (0 <=? x)%float = true /\ (x <=? 1)%float = true.

(** The state invariant of one object, and of a heap of them. *)
Definition object_ok (o : t) : Prop :=
  channel_ok (r o) /\ channel_ok (g o) /\ channel_ok (b o) /\ opacity_ok (opacity o).

Definition heap_ok (h : heap) : Prop := map_Forall (fun _ o => object_ok o) h.

(** What a channel setter and [setOpacity] store for an argument. *)
Definition stored_channel (v : value) : field :=
  null_if_NaN (numberBound (parseInt v) 0 255).

Definition stored_opacity (v : value) : field :=
  null_if_NaN (numberBound (parseFloat v) 0 1).

(** Four setters in a row, as the parsers call them. *)
Definition set_all (v1 v2 v3 v4 : value) (o : t) : t :=
  mk (stored_channel v1) (stored_channel v2) (stored_channel v3) (stored_opacity v4).

(** The public operations of the class, and the heap after one of them. *)
Inductive operation : Type :=
  | OpSetRed (v : value)
  | OpSetGreen (v : value)
  | OpSetBlue (v : value)
  | OpSetOpacity (v : value)
  | OpFillHex (v : value)
  | OpFillRgb (v : value)
  | OpFillRgba (v : value)
  | OpFill (v : value)
  | OpGetLuminance
  | OpCompareContrastTo (color : loc)
  | OpDarken (v : value)
  | OpLighten (v : value)
  | OpBlendWith (color : loc) (v : value)
  | OpToRgbArray
  | OpToRgb
  | OpToRgba
  | OpToHex
  | OpToString.

Definition perform (Math_pow : number -> number -> number)
    (this : loc) (op : operation) (h : heap) : heap :=
  match op with
  | OpSetRed v => snd (setRed this v h)
  | OpSetGreen v => snd (setGreen this v h)
  | OpSetBlue v => snd (setBlue this v h)
  | OpSetOpacity v => snd (setOpacity this v h)
  | OpFillHex v => snd (fillHex this v h)
  | OpFillRgb v => snd (fillRgb this v h)
  | OpFillRgba v => snd (fillRgba this v h)
  | OpFill v => snd (fill this v h)
  | OpGetLuminance => snd (getLuminance Math_pow this h)
  | OpCompareContrastTo color => snd (compareContrastTo Math_pow this color h)
  | OpDarken v => snd (darken this v h)
  | OpLighten v => snd (lighten this v h)
  | OpBlendWith color v => snd (blendWith this color v h)
  | OpToRgbArray => snd (toRgbArray this h)
  | OpToRgb => snd (toRgb this h)
  | OpToRgba => snd (toRgba this h)
  | OpToHex => snd (toHex this h)
  | OpToString => snd (toString this h)
  end.

(** A computation keeps the invariant of every object of the heap. *)
Definition preserves {A : Type} (c : M A) : Prop :=
  forall h, heap_ok h -> heap_ok (snd (c h)).

(** What a channel setter stores for an argument: nothing when no
    integer can be read from it, else the integer clamped to [0, 255]. *)
Definition channel_of (v : value) : field :=
  match parseInt_math (ToString v) 0 with
  | None => Null
  | Some (neg, z) => Num (of_Z (clampZ 0 255 (if neg then - z else z)))
  end.

(** What [setOpacity] stores: nothing when no number can be read, else
    the number clamped to [0, 1]. *)
Definition opacity_of (v : value) : field :=
  let x := parseFloat v in
  if isNaN x then Null
  else Num (if (x <? 0)%float then 0%float
            else if (1 <? x)%float then 1%float
            else if is_neg_zero x then 0%float
            else x).

(** The value of a hexadecimal digit, and of a pair of them. *)
Definition hex_digit (c : ascii) : Z :=
  if code c <=? 57 then code c - 48
  else if code c <=? 70 then code c - 55
  else code c - 87.

Definition hex_pair (hi lo : ascii) : Z := 16 * hex_digit hi + hex_digit lo.

Definition field_eqb (x y : field) : bool :=
  match x, y with
  | Null, Null => true
  | Num a, Num b => Leibniz.eqb a b
  | _, _ => false
  end.

Definition hex_chars : list ascii :=
  list_ascii_of_string "0123456789abcdefABCDEF".

(** The object [fillHex] leaves behind for the six digits it reads. *)
Definition hex_object (c1 c2 c3 c4 c5 c6 : ascii) : t :=
  mk (Num (of_Z (hex_pair c1 c2))) (Num (of_Z (hex_pair c3 c4)))
     (Num (of_Z (hex_pair c5 c6))) (Num 1).

(** The binary64 representation of a positive integer below [2^53]. *)
Definition canon (z : Z) : spec_float :=
  S754_finite false (Z.to_pos (z * 2 ^ (52 - Z.log2 z))) (Z.log2 z - 52).

(** Two lower-case hexadecimal digits for a byte. *)
Definition hex2 (x : Z) : string :=
  String (digit_char (x / 16)) (String (digit_char (x mod 16)) "").

(** [#] and six lower-case hexadecimal digits. *)
Definition is_lower_hex (c : ascii) : bool :=
  is_digit c || ((97 <=? code c) && (code c <=? 102)).

Definition hex6 (s : string) : bool :=
  match s with
  | String "#" body => Nat.eqb (String.length body) 6 && all_chars is_lower_hex body
  | _ => false
  end.

(** The round trip as a program: parse [x] into [this], print it, parse
    the print-out into a new object, and return the print-out with the
    channels of both objects. *)
Definition round_trip (this : loc) (x : value) : M (string * list field * list field) :=
  do c <- fillHex this x;
  do s <- toHex c;
  do d <- new;
  do d <- fillHex d (VString s);
  do again <- toRgbArray d;
  do first <- toRgbArray c;
  ret (s, again, first).

(** A zero or a finite number of the given sign whose exponent is at most
    [emaxr]. *)
Definition small_shape (sx : bool) (emaxr : Z) (r : spec_float) : Prop :=
  r = S754_zero sx \/ exists m e, r = S754_finite sx m e /\ e <= emaxr.

(** A finite or zero value, of either sign. *)
Definition finite_shape (emaxr : Z) (r : spec_float) : Prop :=
  exists s, small_shape s emaxr r.

(** The magnitude bound of a valid finite double. *)
Definition mag_le (k : Z) (r : spec_float) : Prop :=
  match r with
  | S754_zero _ => True
  | S754_finite _ m e => Zpos (digits2_pos m) + e <= k
  | _ => False
  end.

(** A percentage after clamping: [+0], or positive with magnitude at
    most 1. *)
Definition unit_shape (r : spec_float) : Prop :=
  r = S754_zero false \/
  exists m e, r = S754_finite false m e /\ Zpos (digits2_pos m) + e <= 1.

(** The object after [darken] or [lighten]: every channel is multiplied by
    the factor and handed to its setter; the opacity stays. *)
Definition scaled (factor : number) (o : t) : t :=
  mk (stored_channel (VNumber (ToNumber (r o) * factor)))
     (stored_channel (VNumber (ToNumber (g o) * factor)))
     (stored_channel (VNumber (ToNumber (b o) * factor)))
     (opacity o).

(** A fresh colour after [darken(p)], and after [lighten(p)]. *)
Definition fresh_darkened (p : value) : list field :=
  fst ((do o <- new; do o <- darken o p; toRgbArray o) ∅).

Definition fresh_lightened (p : value) : list field :=
  fst ((do o <- new; do o <- lighten o p; toRgbArray o) ∅).

(** [fill(hex)], then [darken(p)], then [lighten(p)]: the channels before
    and after the two transformations. *)
Definition darken_then_lighten (hex : string) (p : number) : list field * list field :=
  fst ((do o <- new;
        do o <- fill o (VString hex);
        do before <- toRgbArray o;
        do o <- darken o (VNumber p);
        do o <- lighten o (VNumber p);
        do after <- toRgbArray o;
        ret (before, after)) ∅).

Definition fields_eqb (l1 l2 : list field) : bool :=
  (length l1 =? length l2)%nat && forallb (fun '(x, y) => field_eqb x y) (combine l1 l2).

Definition channel_set (f : field) : bool :=
  match f with
  | Null => false
  | Num x => (0 <=? x)%float && (x <=? 255)%float
  end.

(** The number of digits of a numeral. *)
Definition numeral_length (q : Z) : nat := String.length (show_radix 10 q).

(** What may follow a numeral in the output of [Number::toString]: the
    end of the string or a decimal point. *)
Definition ends_numeral (rest : string) : Prop :=
  rest = ""%string \/ exists s, rest = String "." s.

(** The mantissa of the double [1e-6], whose exponent is [-72]. *)
Definition mantissa_1em6 : Z := 4722366482869645.

(** [m * 2^e] is at least the double [1e-6]. *)
Definition at_least_1em6 (m : positive) (e : Z) : Prop :=
  -72 < e \/ (e = -72 /\ mantissa_1em6 <= Zpos m).

(** [Number::toString] prints [x] without a negative exponent: [x] is a
    zero, or at least [1e-6] in absolute value. *)
Definition plain_notation (x : number) : bool :=
  (x =? 0)%float || (1e-6 <=? abs x)%float.

(** [x] truncated toward zero and clamped to [0, 255], as a channel. *)
Definition truncated (x : number) : field := Num (of_Z (clampZ 0 255 (truncZ x))).

(** The percentage after [numberBound(parseFloat(percent), 0, 1)]. *)
Definition clamped_percent (p : value) : number := numberBound (parseFloat p) 0 1.


(** [(other - own) * percent + own]. *)
Definition interpolant (other own percent : number) : number :=
  ((other - own) * percent + own)%float.


(** The double for the mantissa [mr] at the exponent [e1] that rounding
    arrives at: [mr] is at most [2^53], and [2^53] carries into the next
    exponent. *)
Definition normalized (sx : bool) (mr e1 : Z) : spec_float :=
  match mr with
  | Z0 => S754_zero sx
  | Zpos m =>
      if mr <? 2 ^ 53
      then (if e1 <=? 971 then S754_finite sx m e1 else S754_infinity sx)
      else (if e1 + 1 <=? 971 then S754_finite sx (2 ^ 52)%positive (e1 + 1)
            else S754_infinity sx)
  | Zneg _ => S754_nan
  end.

(** [m * 2^e] as a rational. *)
Definition real (m e : Z) : Q := (inject_Z m * 2 ^ e)%Q.

(** What a location adds to the mantissa it comes with: nothing when it
    is exact, less than one otherwise. *)
Definition excess (l : location) : Z :=
  match l with
  | loc_Exact => 0
  | loc_Inexact _ => 1
  end.

(** Not negative and not [NaN]. *)
Definition nonneg (x : spec_float) : Prop :=
  match x with
  | S754_zero _ => True
  | S754_finite s _ _ => s = false
  | S754_infinity s => s = false
  | S754_nan => False
  end.

(** A zero, or a positive finite number of value at most [B]. *)
Definition at_most (B : Q) (x : spec_float) : Prop :=
  match x with
  | S754_zero _ => True
  | S754_finite false m e => (real (Zpos m) e <= B)%Q
  | _ => False
  end.

(** What the development assumes of the platform's [Math.pow], whose
    results the standard leaves to the implementation: with the exponent
    2.4 it maps numbers between 0 and 1 to numbers between 0 and 1. *)
Definition pow_in_unit (pow : number -> number -> number) : Prop :=
  forall x, (0 <=? x)%float = true -> (x <=? 1)%float = true ->
    (0 <=? pow x 2.4)%float = true /\ (pow x 2.4 <=? 1)%float = true.

(** The relative luminance as the specification words it: each channel
    is divided by 255 and linearised, and the three are summed with the
    weights 0.2126, 0.7152 and 0.0722. *)
Definition srgb_linear (pow : number -> number -> number) (c : number) : number :=
  let v := (c / 255)%float in
  if (v <=? 0.03928)%float then (v / 12.92)%float
  else pow ((v + 0.055) / 1.055)%float 2.4%float.

Definition relative_luminance (pow : number -> number -> number) (r g b : number) : number :=
  (0.2126 * srgb_linear pow r + 0.7152 * srgb_linear pow g + 0.0722 * srgb_linear pow b)%float.

(** For the channel [z]: the branch of the linearisation it takes, and
    that what is computed before [Math.pow] lies between 0 and 1. *)
Definition linear_check (z : Z) : bool :=
  let v := (of_Z z / 255)%float in
  if (v <=? 0.03928)%float
  then (0 <=? v / 12.92)%float && (v / 12.92 <=? 1)%float
  else (0 <=? (v + 0.055) / 1.055)%float && ((v + 0.055) / 1.055 <=? 1)%float.

(** The contrast ratio as the specification words it. *)
Definition contrast_ratio (l1 l2 : number) : number :=
  let c := ((l1 + 0.05) / (l2 + 0.05))%float in
  if (c <? 1)%float then (1 / c)%float else c.

(** The least ratio of two luminances: [0.05 / 1.05]. *)
Definition least_ratio : number := (0.05 / 1.05)%float.

(** A stand-in for [Math.pow] where the computation does not reach it. *)
Definition pow_unreached : number -> number -> number := fun _ _ => nan.

(** The contrast of two colours filled from strings. *)
Definition contrast_of (pow : number -> number -> number) (hex1 hex2 : string) : number :=
  fst ((do a <- new; do a <- fill a (VString hex1);
        do c <- new; do c <- fill c (VString hex2);
        compareContrastTo pow a c) ∅).

(** The value of a string of decimal digits, on top of [acc]. *)
Fixpoint digits_value (acc : Z) (s : string) : Z :=
  match s with
  | EmptyString => acc
  | String c s' => digits_value (acc * 10 + (code c - 48)) s'
  end.

(** A non-empty string of decimal digits. *)
Definition is_numeral (s : string) : bool :=
  (1 <=? String.length s)%nat && all_chars is_digit s.

(** One to three characters of a class: what a group [(class{1,3})]
    captures. *)
Definition short_run (p : ascii -> bool) (s : string) : bool :=
  (1 <=? String.length s)%nat && (String.length s <=? 3)%nat && all_chars p s.

(** A string of white space. *)
Definition is_blank (s : string) : bool := all_chars is_white s.

(** The string is empty or starts outside the class. *)
Definition stops (p : ascii -> bool) (rest : string) : bool :=
  match rest with
  | EmptyString => true
  | String c _ => negb (p c)
  end.

(** [rgb(], three numerals separated by commas, and [)], with white space
    [w1] ... [w6] wherever the pattern has [\s*]. *)
Definition rgb_text (w1 c1 w2 w3 c2 w4 w5 c3 w6 : string) : string :=
  ("rgb(" ++ w1 ++ c1 ++ w2 ++ "," ++ w3 ++ c2 ++ w4 ++ "," ++ w5 ++ c3 ++ w6 ++ ")")%string.

(** The same with [rgba(] and a fourth group. *)
Definition rgba_text (w1 c1 w2 w3 c2 w4 w5 c3 w6 w7 c4 w8 : string) : string :=
  ("rgba(" ++ w1 ++ c1 ++ w2 ++ "," ++ w3 ++ c2 ++ w4 ++ "," ++ w5 ++ c3 ++ w6
     ++ "," ++ w7 ++ c4 ++ w8 ++ ")")%string.

(** The channel a setter stores for a numeral. *)
Definition numeral_channel (c : string) : field := Num (of_Z (Z.min 255 (digits_value 0 c))).

(** The characters of the class [[0-9.]], and every string of one to
    three of them. *)
Definition opacity_chars : list ascii := list_ascii_of_string "0123456789.".

Definition opacity_groups : list string :=
  let one := List.map (fun a => String a EmptyString) opacity_chars in
  let two := flat_map (fun a => List.map (String a) one) opacity_chars in
  let three := flat_map (fun a => List.map (String a) two) opacity_chars in
  one ++ two ++ three.

(** The opacities [fillRgba] can store: none, or a number of hundredths
    between 0 and 1. *)
Definition hundredths : list field :=
  Null :: List.map (fun k => Num (of_Z k / 100)%float) (upto 101).

(** For the channel [z]: it prints as its decimal numeral, which has at
    most three digits and spells [z]. *)
Definition byte_prints (z : Z) : bool :=
  String.eqb (Number_toString (of_Z z)) (dec z)
  && short_run is_digit (dec z)
  && (digits_value 0 (dec z) =? z).

(** Neither white space nor a closing parenthesis. *)
Definition plain_char (c : ascii) : bool := negb (is_white c) && negb (Ascii.eqb c ")").

(** The opacities that print in at most three characters. *)
Definition tenths : list number :=
  [0; 0.1; 0.2; 0.3; 0.4; 0.5; 0.6; 0.7; 0.8; 0.9; 1]%float.

(** For the opacity [a]: it prints as a group the [rgba] pattern accepts,
    and [setOpacity] reads [a] back from the print-out. *)
Definition opacity_prints (a : number) : bool :=
  short_run is_digit_or_dot (Number_toString a)
  && field_eqb (stored_opacity (VString (Number_toString a))) (Num a).

(** The byte [toHex] prints for a channel: 0 for an unset one. *)
Definition channel_byte (f : field) : Z :=
  match f with
  | Null => 0
  | Num x => truncZ x
  end.

(** The heap [h'] differs from [h] at most in the red, green and blue
    of the object at [this]. *)
Definition only_channels_of (this : loc) (h h' : heap) : Prop :=
  (forall l, l <> this -> h' !! l = h !! l) /\
  opacity <$> (h' !! this) = opacity <$> (h !! this).

(** For the integer [z]: the setter stores it, or 255 when it is larger. *)
Definition store_check (z : Z) : bool :=
  field_eqb (stored_channel (VNumber (of_Z z))) (Num (of_Z (Z.min 255 z))).

(** For the channel [z]: scaling by 1, 0 and 2 is exact, and so are the
    sums and the difference that blending a colour with itself computes. *)
Definition scale_check (z : Z) : bool :=
  Leibniz.eqb (of_Z z * (1 - 0))%float (of_Z z)
  && Leibniz.eqb (of_Z z * (1 + 0))%float (of_Z z)
  && Leibniz.eqb (of_Z z * (1 - 1))%float 0%float
  && Leibniz.eqb (of_Z z * (1 + 1))%float (of_Z (2 * z))
  && Leibniz.eqb (of_Z z - of_Z z)%float 0%float
  && Leibniz.eqb (0 + of_Z z)%float (of_Z z)
  && Leibniz.eqb (neg_zero + of_Z z)%float (of_Z z).

(** The Numbers of the integers from 0 to 255. *)
Definition channel_numbers : list number := List.map of_Z (upto 256).

(** For the channels [x] and [c]: blending at 0 and at 1 is exact. *)
Definition blend_check (x c : number) : bool :=
  Leibniz.eqb (interpolant c x 0) x && Leibniz.eqb (interpolant c x 1) c.

(** [m * 2^e] is below the double [1e-6]. *)
Definition below_1em6 (m : positive) (e : Z) : Prop :=
  e < -72 \/ (e = -72 /\ Zpos m < mantissa_1em6).

(** What may follow the first numeral of a number in exponent notation: a
    decimal point or the letter [e]. *)
Definition ends_mantissa (rest : string) : Prop :=
  (exists s, rest = String "." s) \/ (exists s, rest = String "e" s).

(* ===================================================================== *)
(** * Proofs *)
(* ===================================================================== *)

(** ** Comparisons of doubles *)

Lemma SFcompare_refl (s : spec_float) : s <> S754_nan -> SFcompare s s = Some Eq.
Proof.
  destruct s as [sg|sg| |sg m e]; intros H; try congruence; simpl.
  - reflexivity.
  - destruct sg; reflexivity.
  - destruct sg; rewrite Z.compare_refl, Pos.compare_cont_refl; reflexivity.
Qed.

Lemma SFcompare_antisym (a b : spec_float) (c : comparison) :
  SFcompare a b = Some c -> SFcompare b a = Some (CompOpp c).
Proof.
  destruct a as [sa|sa| |sa ma ea], b as [sb|sb| |sb mb eb]; simpl;
    intros H; try discriminate; injection H as <-;
    try (destruct sa; reflexivity); try (destruct sb; reflexivity);
    try (destruct sa, sb; reflexivity).
  destruct sa, sb; try reflexivity;
    rewrite (Z.compare_antisym ea eb);
    destruct (ea ?= eb); simpl; try reflexivity;
    rewrite (Pos.compare_cont_antisym ma mb Eq); simpl;
    try rewrite CompOpp_involutive; reflexivity.
Qed.

Lemma SFcompare_None (a b : spec_float) :
  SFcompare a b = None -> a = S754_nan \/ b = S754_nan.
Proof.
  destruct a as [sa|sa| |sa ma ea], b as [sb|sb| |sb mb eb]; simpl; intros H;
    try discriminate; auto.
Qed.

Lemma isNaN_Prim2SF (x : number) : isNaN x = true <-> Prim2SF x = S754_nan.
Proof.
  unfold isNaN, is_nan. rewrite FloatAxioms.eqb_spec. unfold SFeqb.
  destruct (Prim2SF x) eqn:E.
  1,2,4: rewrite SFcompare_refl by discriminate; simpl; split; discriminate.
  simpl. tauto.
Qed.

Lemma isNaN_false_Prim2SF (x : number) : isNaN x = false <-> Prim2SF x <> S754_nan.
Proof.
  rewrite <- isNaN_Prim2SF. destruct (isNaN x); split; congruence.
Qed.

Lemma ltb_false_leb (x y : number) :
  isNaN x = false -> isNaN y = false -> (x <? y)%float = false -> (y <=? x)%float = true.
Proof.
  rewrite !isNaN_false_Prim2SF, FloatAxioms.ltb_spec, FloatAxioms.leb_spec. unfold SFltb, SFleb.
  intros Hx Hy. destruct (SFcompare (Prim2SF x) (Prim2SF y)) as [c|] eqn:E.
  - rewrite (SFcompare_antisym _ _ _ E). destruct c; simpl; congruence.
  - destruct (SFcompare_None _ _ E); congruence.
Qed.

Lemma ltb_true_leb (x y : number) : (x <? y)%float = true -> (x <=? y)%float = true.
Proof.
  rewrite FloatAxioms.ltb_spec, FloatAxioms.leb_spec. unfold SFltb, SFleb.
  destruct (SFcompare (Prim2SF x) (Prim2SF y)) as [[]|]; congruence.
Qed.

Lemma leb_refl (x : number) : isNaN x = false -> (x <=? x)%float = true.
Proof.
  rewrite isNaN_false_Prim2SF, FloatAxioms.leb_spec. unfold SFleb. intros H.
  rewrite SFcompare_refl by assumption. reflexivity.
Qed.

Lemma ltb_not_NaN (x y : number) : (x <? y)%float = true -> isNaN x = false /\ isNaN y = false.
Proof.
  rewrite FloatAxioms.ltb_spec, !isNaN_false_Prim2SF. unfold SFltb.
  destruct (Prim2SF x), (Prim2SF y); simpl; intros H; split; congruence.
Qed.

Lemma Prim2SF_zero : Prim2SF 0%float = S754_zero false.
Proof. reflexivity. Qed.

Lemma is_neg_zero_Prim2SF (x : number) :
  is_neg_zero x = match Prim2SF x with S754_zero true => true | _ => false end.
Proof.
  unfold is_neg_zero. rewrite classify_spec. unfold SF64classify, SFclassify.
  destruct (Prim2SF x) as [[]|[]| |[] m e]; try reflexivity;
    destruct (Z.pos (digits2_pos m) =? prec); reflexivity.
Qed.

Lemma is_pos_zero_Prim2SF (x : number) :
  is_pos_zero x = match Prim2SF x with S754_zero false => true | _ => false end.
Proof.
  unfold is_pos_zero. rewrite classify_spec. unfold SF64classify, SFclassify.
  destruct (Prim2SF x) as [[]|[]| |[] m e]; try reflexivity;
    destruct (Z.pos (digits2_pos m) =? prec); reflexivity.
Qed.

Lemma Math_min_hi (y hi : number) :
  isNaN hi = false -> is_neg_zero hi = false ->
  Math_min y hi = if isNaN y then nan else if (hi <? y)%float then hi else y.
Proof.
  unfold Math_min. intros -> ->. rewrite orb_false_r, andb_false_r. reflexivity.
Qed.

Lemma Math_max_zero (x : number) :
  Math_max x 0 =
    if isNaN x then nan
    else if (x <? 0)%float then 0%float
    else if is_neg_zero x then 0%float
    else x.
Proof.
  unfold Math_max. change (isNaN 0%float) with false. change (is_pos_zero 0) with true.
  rewrite orb_false_r, andb_true_r. reflexivity.
Qed.

(** [numberBound] with lower bound [0] and a positive finite upper bound,
    as a decision list. *)
Lemma numberBound_eq (x hi : number) (mh : positive) (eh : Z) :
  Prim2SF hi = S754_finite false mh eh ->
  numberBound x 0 hi =
    if isNaN x then nan
    else if (x <? 0)%float then 0%float
    else if (hi <? x)%float then hi
    else if is_neg_zero x then 0%float
    else x.
Proof.
  intros Hhi.
  assert (Hn : isNaN hi = false) by (apply isNaN_false_Prim2SF; congruence).
  assert (Hh0 : (hi <? 0)%float = false).
  { rewrite FloatAxioms.ltb_spec, Hhi. reflexivity. }
  assert (Hhz : is_neg_zero hi = false) by (rewrite is_neg_zero_Prim2SF, Hhi; reflexivity).
  unfold numberBound. rewrite (Math_min_hi _ _ Hn Hhz), Math_max_zero.
  destruct (isNaN x) eqn:Hx; [reflexivity|].
  destruct (x <? 0)%float eqn:Hlt.
  { change (isNaN 0%float) with false. cbv iota. rewrite Hh0. reflexivity. }
  destruct (is_neg_zero x) eqn:Hz.
  { change (isNaN 0%float) with false. cbv iota. rewrite Hh0.
    replace (hi <? x)%float with false; [reflexivity|].
    rewrite FloatAxioms.ltb_spec, Hhi. rewrite is_neg_zero_Prim2SF in Hz.
    destruct (Prim2SF x) as [[]|[]| |[] m e]; try discriminate. reflexivity. }
  rewrite Hx. reflexivity.
Qed.

Lemma Prim2SF_255 : Prim2SF 255%float = S754_finite false 8972014882652160 (-45).
Proof. reflexivity. Qed.

Lemma Prim2SF_1 : Prim2SF 1%float = S754_finite false 4503599627370496 (-52).
Proof. reflexivity. Qed.

Lemma numberBound_NaN (x hi : number) (mh : positive) (eh : Z) :
  Prim2SF hi = S754_finite false mh eh ->
  isNaN (numberBound x 0 hi) = isNaN x.
Proof.
  intros Hhi. rewrite (numberBound_eq _ _ _ _ Hhi).
  assert (Hn : isNaN hi = false) by (apply isNaN_false_Prim2SF; congruence).
  destruct (isNaN x) eqn:Hx; [reflexivity|].
  destruct (x <? 0)%float; [reflexivity|].
  destruct (hi <? x)%float; [assumption|].
  destruct (is_neg_zero x); [reflexivity|assumption].
Qed.

Lemma numberBound_range (x hi : number) (mh : positive) (eh : Z) :
  Prim2SF hi = S754_finite false mh eh ->
  isNaN x = false ->
  (0 <=? numberBound x 0 hi)%float = true /\ (numberBound x 0 hi <=? hi)%float = true.
Proof.
  intros Hhi Hx. rewrite (numberBound_eq _ _ _ _ Hhi), Hx.
  assert (Hn : isNaN hi = false) by (apply isNaN_false_Prim2SF; congruence).
  assert (H0h : (0 <=? hi)%float = true).
  { rewrite FloatAxioms.leb_spec, Hhi. reflexivity. }
  destruct (x <? 0)%float eqn:Hlt; [split; [reflexivity|assumption]|].
  destruct (hi <? x)%float eqn:Hgt; [split; [assumption|apply leb_refl; assumption]|].
  destruct (is_neg_zero x); [split; [reflexivity|assumption]|].
  split; apply ltb_false_leb; auto.
Qed.

(** ** Rounding to a double *)

Lemma digits2_log2 (p : positive) : Zpos (digits2_pos p) = Z.log2 (Zpos p) + 1.
Proof.
  induction p as [p IH|p IH|]; simpl digits2_pos; try reflexivity.
  - rewrite Pos2Z.inj_succ, IH.
    change (Z.log2 (Zpos p~1)) with (Zpos (Pos.size p)).
    clear IH. induction p; simpl; try reflexivity; rewrite ?Pos2Z.inj_succ; lia.
  - rewrite Pos2Z.inj_succ, IH.
    change (Z.log2 (Zpos p~0)) with (Zpos (Pos.size p)).
    clear IH. induction p; simpl; try reflexivity; rewrite ?Pos2Z.inj_succ; lia.
Qed.

Lemma digits2_bounds (p : positive) :
  2 ^ (Zpos (digits2_pos p) - 1) <= Zpos p < 2 ^ Zpos (digits2_pos p).
Proof.
  rewrite digits2_log2. replace (Z.log2 (Zpos p) + 1 - 1) with (Z.log2 (Zpos p)) by lia.
  replace (Z.log2 (Zpos p) + 1) with (Z.succ (Z.log2 (Zpos p))) by lia.
  apply Z.log2_spec. lia.
Qed.

Lemma digits2_unique (p : positive) (d : Z) :
  2 ^ (d - 1) <= Zpos p < 2 ^ d -> Zpos (digits2_pos p) = d.
Proof.
  intros H. rewrite digits2_log2.
  assert (0 <= d - 1).
  { destruct (Z.le_gt_cases 0 (d - 1)); [assumption|].
    assert (d <= 0) by lia. destruct (Z.eq_dec d 0) as [->|].
    - simpl in H. lia.
    - rewrite (Z.pow_neg_r 2 d) in H by lia. lia. }
  rewrite (Z.log2_unique (Zpos p) (d - 1)); lia || (replace (Z.succ (d - 1)) with d by lia; assumption).
Qed.

Lemma pow2_xO (p : positive) : 2 ^ Zpos p~0 = 2 ^ Zpos p * 2 ^ Zpos p.
Proof. rewrite <- Z.pow_add_r by lia. f_equal. lia. Qed.

Lemma pow2_xI (p : positive) : 2 ^ Zpos p~1 = 2 * (2 ^ Zpos p * 2 ^ Zpos p).
Proof. rewrite <- Z.pow_add_r, <- Z.pow_succ_r by lia. f_equal. lia. Qed.

Lemma shr_1_m (mrs : shr_record) : 0 <= shr_m mrs -> shr_m (shr_1 mrs) = shr_m mrs / 2.
Proof.
  destruct mrs as [m r s]; simpl. intros Hm.
  destruct m as [|[p|p|]|p]; simpl; try reflexivity; try lia.
  - rewrite Pos2Z.inj_xI. apply Z.div_unique with 1; lia.
  - rewrite Pos2Z.inj_xO. apply Z.div_unique with 0; lia.
Qed.

Lemma shr_1_nonneg (mrs : shr_record) : 0 <= shr_m mrs -> 0 <= shr_m (shr_1 mrs).
Proof. intros H. rewrite shr_1_m by assumption. apply Z.div_pos; lia. Qed.

Lemma iter_shr_m (p : positive) (mrs : shr_record) :
  0 <= shr_m mrs ->
  0 <= shr_m (SpecFloat.iter_pos shr_1 p mrs) /\
  shr_m (SpecFloat.iter_pos shr_1 p mrs) = shr_m mrs / 2 ^ Zpos p.
Proof.
  revert mrs. induction p as [p IH|p IH|]; intros mrs Hm; simpl SpecFloat.iter_pos.
  - destruct (IH (shr_1 mrs) (shr_1_nonneg _ Hm)) as [H1 E1].
    destruct (IH _ H1) as [H2 E2]. split; [assumption|].
    rewrite E2, E1, shr_1_m by assumption.
    assert (0 < 2 ^ Zpos p) by (apply Z.pow_pos_nonneg; lia).
    rewrite !Z.div_div by lia. rewrite pow2_xI. reflexivity.
  - destruct (IH mrs Hm) as [H1 E1]. destruct (IH _ H1) as [H2 E2].
    split; [assumption|]. rewrite E2, E1.
    assert (0 < 2 ^ Zpos p) by (apply Z.pow_pos_nonneg; lia).
    rewrite Z.div_div by lia. rewrite pow2_xO. reflexivity.
  - split; [apply shr_1_nonneg; assumption|]. rewrite shr_1_m by assumption. reflexivity.
Qed.

Lemma shr_1_exact (m : Z) :
  0 <= m -> (2 | m) -> shr_1 (Build_shr_record m false false) = Build_shr_record (m / 2) false false.
Proof.
  intros Hm [k Hk].
  replace (m / 2) with k by (apply Z.div_unique with 0; lia).
  replace m with (2 * k) by lia.
  destruct k as [|p|p]; [reflexivity|reflexivity|].
  pose proof (Pos2Z.neg_is_neg p). lia.
Qed.

Lemma iter_pos_xI {A : Type} (f : A -> A) (p : positive) (x : A) :
  SpecFloat.iter_pos f p~1 x = SpecFloat.iter_pos f p (SpecFloat.iter_pos f p (f x)).
Proof. reflexivity. Qed.

Lemma iter_pos_xO {A : Type} (f : A -> A) (p : positive) (x : A) :
  SpecFloat.iter_pos f p~0 x = SpecFloat.iter_pos f p (SpecFloat.iter_pos f p x).
Proof. reflexivity. Qed.

Lemma iter_shr_exact (p : positive) (m : Z) :
  0 <= m -> (2 ^ Zpos p | m) ->
  SpecFloat.iter_pos shr_1 p (Build_shr_record m false false) =
  Build_shr_record (m / 2 ^ Zpos p) false false.
Proof.
  revert m. induction p as [p IH|p IH|]; intros m Hm [k Hk].
  - rewrite iter_pos_xI.
    assert (Hp : 0 < 2 ^ Zpos p) by (apply Z.pow_pos_nonneg; lia).
    rewrite pow2_xI in Hk |- *.
    assert (0 <= k) by nia.
    rewrite shr_1_exact by (try assumption; exists (k * (2 ^ Zpos p * 2 ^ Zpos p)); lia).
    replace (m / 2) with (k * 2 ^ Zpos p * 2 ^ Zpos p)
      by (apply Z.div_unique with 0; lia).
    rewrite IH by (try nia; exists (k * 2 ^ Zpos p); lia).
    rewrite Z.div_mul by lia.
    rewrite IH by (try nia; exists k; lia).
    rewrite Z.div_mul by lia.
    f_equal. apply Z.div_unique with 0; nia.
  - rewrite iter_pos_xO.
    assert (Hp : 0 < 2 ^ Zpos p) by (apply Z.pow_pos_nonneg; lia).
    rewrite pow2_xO in Hk |- *.
    assert (0 <= k) by nia.
    rewrite IH by (try assumption; exists (k * 2 ^ Zpos p); lia).
    replace (m / 2 ^ Zpos p) with (k * 2 ^ Zpos p)
      by (apply Z.div_unique with 0; nia).
    rewrite IH by (try nia; exists k; lia).
    rewrite Z.div_mul by lia.
    f_equal. apply Z.div_unique with 0; nia.
  - change (SpecFloat.iter_pos shr_1 1 ?x) with (shr_1 x).
    apply shr_1_exact; [assumption|]. exists k. rewrite Hk. reflexivity.
Qed.

Lemma rne_bounds (m : Z) (l : location) :
  m <= round_nearest_even m l <= m + 1.
Proof.
  destruct l as [|[]]; simpl; try lia. destruct (Z.even m); lia.
Qed.

Lemma fexp64_eq (e : Z) : fexp prec emax e = Z.max (e - 53) (-1074).
Proof. reflexivity. Qed.

Lemma shr_record_of_loc_m (m : Z) (l : location) : shr_m (shr_record_of_loc m l) = m.
Proof. destruct l as [|[]]; reflexivity. Qed.

(** The first alignment step of [binary_round_aux]. *)
Lemma shr_fexp_gen (m : positive) (e : Z) (l : location) :
  let e1 := fexp prec emax (Zpos (digits2_pos m) + e) in
  e <= e1 ->
  exists mrs,
    shr_fexp prec emax (Zpos m) e l = (mrs, e1) /\
    shr_m mrs = Zpos m / 2 ^ (e1 - e) /\
    (l = loc_Exact -> (2 ^ (e1 - e) | Zpos m) ->
     mrs = Build_shr_record (Zpos m / 2 ^ (e1 - e)) false false).
Proof.
  intros e1 He. unfold shr_fexp, shr. simpl Zdigits2. fold e1.
  destruct (e1 - e) as [|p|p] eqn:En.
  - exists (shr_record_of_loc (Zpos m) l). split; [f_equal; lia|].
    rewrite shr_record_of_loc_m, Z.div_1_r. split; [reflexivity|].
    intros -> _. reflexivity.
  - exists (SpecFloat.iter_pos shr_1 p (shr_record_of_loc (Zpos m) l)).
    split; [f_equal; lia|].
    destruct (iter_shr_m p (shr_record_of_loc (Zpos m) l)) as [_ E].
    { rewrite shr_record_of_loc_m. lia. }
    rewrite E, shr_record_of_loc_m. split; [reflexivity|].
    intros -> Hd. simpl shr_record_of_loc. apply iter_shr_exact; [lia|assumption].
  - lia.
Qed.

Lemma pow2_pos (n : Z) : 0 <= n -> 0 < 2 ^ n.
Proof. intros. apply Z.pow_pos_nonneg; lia. Qed.

Lemma pow2_le (a b : Z) : 0 <= a <= b -> 2 ^ a <= 2 ^ b.
Proof. intros. apply Z.pow_le_mono_r; lia. Qed.

Lemma pow2_lt (a b : Z) : 0 <= a < b -> 2 ^ a < 2 ^ b.
Proof. intros. apply Z.pow_lt_mono_r; lia. Qed.

Lemma div_pow2_bounds (m d n : Z) :
  0 <= n <= d - 1 -> 2 ^ (d - 1) <= m < 2 ^ d ->
  2 ^ (d - 1 - n) <= m / 2 ^ n < 2 ^ (d - n).
Proof.
  intros Hn [Hlo Hhi].
  pose proof (pow2_pos n ltac:(lia)) as Hp.
  split.
  - apply Z.div_le_lower_bound; [assumption|].
    rewrite <- Z.pow_add_r by lia. replace (n + (d - 1 - n)) with (d - 1) by lia. assumption.
  - apply Z.div_lt_upper_bound; [assumption|].
    rewrite <- Z.pow_add_r by lia. replace (n + (d - n)) with d by lia. assumption.
Qed.

(** [binary_round_aux] on a mantissa of at least 53 bits, away from the
    subnormal range: the mantissa is cut to 53 bits and rounded; a carry
    out of the rounding moves to the next binade. *)
Lemma bra_normal (sx : bool) (mx : positive) (ex : Z) :
  let d := Zpos (digits2_pos mx) in
  53 <= d -> -1074 <= d + ex - 53 ->
  exists m2 : positive,
    Zpos mx / 2 ^ (d - 53) <= Zpos m2 <= Zpos mx / 2 ^ (d - 53) + 1 /\
    ((2 ^ (d - 53) | Zpos mx) -> Zpos m2 = Zpos mx / 2 ^ (d - 53)) /\
    binary_round_aux prec emax sx (Zpos mx) ex loc_Exact =
      if Zpos m2 <? 2 ^ 53
      then (if d + ex - 53 <=? 971 then S754_finite sx m2 (d + ex - 53) else S754_infinity sx)
      else (if d + ex - 52 <=? 971 then S754_finite sx (2 ^ 52)%positive (d + ex - 52)
            else S754_infinity sx).
Proof.
  intros d Hd He.
  assert (E1 : fexp prec emax (d + ex) = d + ex - 53) by (rewrite fexp64_eq; lia).
  destruct (shr_fexp_gen mx ex loc_Exact) as (mrs & Hs & Hm & Hx).
  { fold d. rewrite E1. lia. }
  fold d in Hs, Hm, Hx. rewrite E1 in Hs, Hm, Hx.
  replace (d + ex - 53 - ex) with (d - 53) in Hm, Hx by lia.
  pose proof (digits2_bounds mx) as Hb. fold d in Hb.
  pose proof (div_pow2_bounds (Zpos mx) d (d - 53) ltac:(lia) Hb) as Hm1.
  replace (d - 1 - (d - 53)) with 52 in Hm1 by lia.
  replace (d - (d - 53)) with 53 in Hm1 by lia.
  set (m1 := Zpos mx / 2 ^ (d - 53)) in *.
  pose proof (rne_bounds (shr_m mrs) (loc_of_shr_record mrs)) as Hr.
  set (m2z := round_nearest_even (shr_m mrs) (loc_of_shr_record mrs)) in *.
  rewrite Hm in Hr.
  assert (Hpos : 0 < m2z) by (change (2 ^ 52) with 4503599627370496 in Hm1; lia).
  destruct m2z as [|m2|m2] eqn:Em2; try lia.
  exists m2. split; [lia|]. split.
  { intros Hdiv. specialize (Hx eq_refl Hdiv). subst m2z.
    rewrite <- Em2, Hx. reflexivity. }
  unfold binary_round_aux. rewrite Hs. fold m2z. rewrite Em2.
  destruct (Z.ltb_spec (Zpos m2) (2 ^ 53)) as [Hlt|Hge].
  - assert (Hd2 : Zpos (digits2_pos m2) = 53) by (apply digits2_unique; lia).
    destruct (shr_fexp_gen m2 (d + ex - 53) loc_Exact) as (mrs2 & Hs2 & Hm2 & Hx2).
    { rewrite Hd2, fexp64_eq. lia. }
    rewrite Hd2 in Hs2, Hm2, Hx2.
    assert (E2 : fexp prec emax (53 + (d + ex - 53)) = d + ex - 53) by (rewrite fexp64_eq; lia).
    rewrite E2 in Hs2, Hm2, Hx2. rewrite Hs2.
    replace (d + ex - 53 - (d + ex - 53)) with 0 in Hm2 by lia.
    rewrite Z.div_1_r in Hm2. rewrite Hm2. reflexivity.
  - assert (Em : Zpos m2 = 2 ^ 53) by lia.
    assert (Hd2 : Zpos (digits2_pos m2) = 54).
    { apply digits2_unique. rewrite Em. split; [reflexivity|]. reflexivity. }
    destruct (shr_fexp_gen m2 (d + ex - 53) loc_Exact) as (mrs2 & Hs2 & Hm2 & Hx2).
    { rewrite Hd2, fexp64_eq. lia. }
    rewrite Hd2 in Hs2, Hm2, Hx2.
    assert (E2 : fexp prec emax (54 + (d + ex - 53)) = d + ex - 52) by (rewrite fexp64_eq; lia).
    rewrite E2 in Hs2, Hm2, Hx2. rewrite Hs2.
    replace (d + ex - 52 - (d + ex - 53)) with 1 in Hm2 by lia.
    rewrite Hm2, Em. reflexivity.
Qed.

Lemma iter_xO_Z (m n : positive) : Zpos (Pos.iter xO m n) = Zpos m * 2 ^ Zpos n.
Proof.
  induction n as [|n IH] using Pos.peano_ind.
  - simpl. lia.
  - rewrite Pos.iter_succ, Pos2Z.inj_xO, IH, Pos2Z.inj_succ, Z.pow_succ_r by lia. lia.
Qed.

(** [binary_round] on a mantissa of at most 53 bits is exact. *)
Lemma br_small (sx : bool) (mx : positive) (ex : Z) :
  let d := Zpos (digits2_pos mx) in
  d <= 53 -> -1074 <= d + ex - 53 ->
  binary_round prec emax sx mx ex =
    if d + ex - 53 <=? 971
    then S754_finite sx (Z.to_pos (Zpos mx * 2 ^ (53 - d))) (d + ex - 53)
    else S754_infinity sx.
Proof.
  intros d Hd He. unfold binary_round, shl_align. fold d.
  assert (E1 : fexp prec emax (d + ex) = d + ex - 53) by (rewrite fexp64_eq; lia).
  rewrite E1.
  pose proof (digits2_bounds mx) as Hb. fold d in Hb.
  assert (Hshape : exists my : positive,
             Zpos my = Zpos mx * 2 ^ (53 - d) /\
             (let '(mz, ez) := match d + ex - 53 - ex with
                               | Z.neg n => (Pos.iter xO mx n, d + ex - 53)
                               | _ => (mx, ex)
                               end in
              binary_round_aux prec emax sx (Zpos mz) ez loc_Exact) =
             binary_round_aux prec emax sx (Zpos my) (d + ex - 53) loc_Exact).
  { destruct (d + ex - 53 - ex) as [|n|n] eqn:En.
    - exists mx. replace (53 - d) with 0 by lia. split; [lia|]. f_equal. lia.
    - lia.
    - exists (Pos.iter xO mx n). split; [|reflexivity].
      rewrite iter_xO_Z. f_equal. f_equal. lia. }
  destruct Hshape as (my & Emy & ->).
  assert (Hdy : Zpos (digits2_pos my) = 53).
  { apply digits2_unique. rewrite Emy.
    pose proof (pow2_pos (53 - d) ltac:(lia)).
    replace (2 ^ (53 - 1)) with (2 ^ (d - 1) * 2 ^ (53 - d))
      by (rewrite <- Z.pow_add_r by lia; f_equal; lia).
    replace (2 ^ 53) with (2 ^ d * 2 ^ (53 - d))
      by (rewrite <- Z.pow_add_r by lia; f_equal; lia).
    nia. }
  destruct (bra_normal sx my (d + ex - 53)) as (m2 & Hm2 & Hx & ->).
  { lia. } { lia. }
  rewrite Hdy in *. replace (53 - 53) with 0 in * by lia.
  rewrite Z.div_1_r in *.
  assert (Zpos m2 = Zpos my) by (apply Hx; exists (Zpos my); lia).
  assert (m2 = my) by lia. subst m2.
  pose proof (digits2_bounds my) as Hby. rewrite Hdy in Hby.
  destruct (Z.ltb_spec (Zpos my) (2 ^ 53)); [|lia].
  replace (53 + (d + ex - 53) - 53) with (d + ex - 53) by lia.
  rewrite <- Emy, Pos2Z.id. reflexivity.
Qed.

(** [binary_round] on a longer mantissa rounds it to 53 bits. *)
Lemma br_large (sx : bool) (mx : positive) (ex : Z) :
  let d := Zpos (digits2_pos mx) in
  53 <= d -> -1074 <= d + ex - 53 ->
  binary_round prec emax sx mx ex = binary_round_aux prec emax sx (Zpos mx) ex loc_Exact.
Proof.
  intros d Hd He. unfold binary_round, shl_align. fold d.
  assert (E1 : fexp prec emax (d + ex) = d + ex - 53) by (rewrite fexp64_eq; lia).
  rewrite E1. destruct (d + ex - 53 - ex) as [|n|n] eqn:En; try reflexivity. lia.
Qed.

Lemma valid_53 (s : bool) (m : positive) (e : Z) :
  Zpos (digits2_pos m) = 53 -> -1074 <= e <= 971 ->
  valid_binary (S754_finite s m e) = true.
Proof.
  intros Hd He. unfold SpecFloat.valid_binary, bounded, canonical_mantissa.
  rewrite Hd, fexp64_eq. apply andb_true_intro. split.
  - apply Z.eqb_eq. lia.
  - apply Z.leb_le. change (emax - prec) with 971. lia.
Qed.

(** The shape of [𝔽(z)] for a non-zero integer: an infinity, or a
    53-bit mantissa with an exponent fixed by the size of [z] up to one
    carry; exact when [z] fits in 53 bits. *)
Lemma round_int_shape (sx : bool) (p : positive) :
  let d := Zpos (digits2_pos p) in
  let r := binary_round prec emax sx p 0 in
  valid_binary r = true /\
  (r = S754_infinity sx \/
   exists m e, r = S754_finite sx m e /\ Zpos (digits2_pos m) = 53 /\ d - 53 <= e <= d - 52) /\
  (d <= 53 -> r = S754_finite sx (Z.to_pos (Zpos p * 2 ^ (53 - d))) (d - 53)).
Proof.
  intros d r.
  pose proof (digits2_bounds p) as Hb. fold d in Hb.
  assert (Hd1 : 1 <= d) by (unfold d; lia).
  destruct (Z.le_gt_cases d 53) as [Hs|Hl].
  - assert (Er : r = S754_finite sx (Z.to_pos (Zpos p * 2 ^ (53 - d))) (d - 53)).
    { unfold r. rewrite br_small by (fold d; lia). fold d.
      replace (d + 0 - 53) with (d - 53) by lia.
      destruct (Z.leb_spec (d - 53) 971); [reflexivity|lia]. }
    assert (Hdm : Zpos (digits2_pos (Z.to_pos (Zpos p * 2 ^ (53 - d)))) = 53).
    { apply digits2_unique.
      pose proof (pow2_pos (53 - d) ltac:(lia)).
      rewrite Z2Pos.id by nia.
      replace (2 ^ (53 - 1)) with (2 ^ (d - 1) * 2 ^ (53 - d))
        by (rewrite <- Z.pow_add_r by lia; f_equal; lia).
      replace (2 ^ 53) with (2 ^ d * 2 ^ (53 - d))
        by (rewrite <- Z.pow_add_r by lia; f_equal; lia).
      nia. }
    split; [rewrite Er; apply valid_53; [assumption|lia]|].
    split; [|intros _; assumption].
    right. eexists _, _. split; [exact Er|]. split; [assumption|lia].
  - assert (Er : r = binary_round_aux prec emax sx (Zpos p) 0 loc_Exact).
    { unfold r. apply br_large; fold d; lia. }
    destruct (bra_normal sx p 0) as (m2 & Hm2 & _ & E); [fold d; lia..|].
    fold d in Hm2, E. rewrite <- Er in E.
    pose proof (div_pow2_bounds (Zpos p) d (d - 53) ltac:(lia) Hb) as Hm1.
    replace (d - 1 - (d - 53)) with 52 in Hm1 by lia.
    replace (d - (d - 53)) with 53 in Hm1 by lia.
    split; [|split; [|lia]].
    + rewrite E. destruct (Z.ltb_spec (Zpos m2) (2 ^ 53)).
      * destruct (Z.leb_spec (d + 0 - 53) 971); [|reflexivity].
        apply valid_53; [apply digits2_unique|]; lia.
      * destruct (Z.leb_spec (d + 0 - 52) 971); [|reflexivity].
        apply valid_53; [reflexivity|lia].
    + rewrite E. destruct (Z.ltb_spec (Zpos m2) (2 ^ 53)).
      * destruct (Z.leb_spec (d + 0 - 53) 971); [|left; reflexivity].
        right. eexists _, _. split; [reflexivity|].
        split; [apply digits2_unique|]; lia.
      * destruct (Z.leb_spec (d + 0 - 52) 971); [|left; reflexivity].
        right. eexists _, _. split; [reflexivity|].
        split; [reflexivity|lia].
Qed.

Lemma Prim2SF_of_Z_pos (p : positive) :
  Prim2SF (of_Z (Zpos p)) = binary_round prec emax false p 0.
Proof.
  unfold of_Z. simpl binary_normalize.
  apply Prim2SF_SF2Prim. apply (round_int_shape false p).
Qed.

Lemma Prim2SF_of_Z_neg (p : positive) :
  Prim2SF (of_Z (Zneg p)) = binary_round prec emax true p 0.
Proof.
  unfold of_Z. simpl binary_normalize.
  apply Prim2SF_SF2Prim. apply (round_int_shape true p).
Qed.

(** Integers that fit in 53 bits are Numbers. *)
Lemma truncZ_of_Z (z : Z) : - 2 ^ 53 < z < 2 ^ 53 -> truncZ (of_Z z) = z.
Proof.
  intros Hz. unfold truncZ. destruct z as [|p|p].
  - reflexivity.
  - rewrite Prim2SF_of_Z_pos.
    pose proof (digits2_bounds p) as Hb.
    assert (Hd : Zpos (digits2_pos p) <= 53).
    { destruct (Z.le_gt_cases (Zpos (digits2_pos p)) 53); [assumption|].
      pose proof (pow2_le 53 (Zpos (digits2_pos p) - 1) ltac:(lia)). lia. }
    destruct (round_int_shape false p) as (_ & _ & E). rewrite (E Hd).
    set (d := Zpos (digits2_pos p)) in *.
    pose proof (pow2_pos (53 - d) ltac:(lia)).
    rewrite Z2Pos.id by nia.
    destruct (Z.leb_spec 0 (d - 53)).
    + replace d with 53 by lia. simpl. lia.
    + replace (- (d - 53)) with (53 - d) by lia. apply Z.div_mul. lia.
  - rewrite Prim2SF_of_Z_neg.
    pose proof (digits2_bounds p) as Hb.
    assert (Hp : Zpos p < 2 ^ 53) by lia.
    assert (Hd : Zpos (digits2_pos p) <= 53).
    { destruct (Z.le_gt_cases (Zpos (digits2_pos p)) 53); [assumption|].
      pose proof (pow2_le 53 (Zpos (digits2_pos p) - 1) ltac:(lia)). lia. }
    destruct (round_int_shape true p) as (_ & _ & E). rewrite (E Hd).
    set (d := Zpos (digits2_pos p)) in *.
    pose proof (pow2_pos (53 - d) ltac:(lia)).
    rewrite Z2Pos.id by nia.
    destruct (Z.leb_spec 0 (d - 53)).
    + replace d with 53 by lia. simpl. lia.
    + replace (- (d - 53)) with (53 - d) by lia. rewrite Z.div_mul by lia. lia.
Qed.

(** ** Clamping integers *)

Lemma upto_check (P : Z -> bool) (n : nat) :
  forallb P (upto n) = true -> forall z, 0 <= z < Z.of_nat n -> P z = true.
Proof.
  intros H z Hz. rewrite forallb_forall in H. apply H.
  unfold upto. apply in_map_iff. exists (Z.to_nat z). split; [lia|].
  apply in_seq. lia.
Qed.

Lemma isNaN_of_Z (z : Z) : isNaN (of_Z z) = false.
Proof.
  apply isNaN_false_Prim2SF. destruct z as [|p|p].
  - discriminate.
  - rewrite Prim2SF_of_Z_pos.
    destruct (round_int_shape false p) as (_ & [E|(m & e & E & _)] & _); rewrite E; discriminate.
  - rewrite Prim2SF_of_Z_neg.
    destruct (round_int_shape true p) as (_ & [E|(m & e & E & _)] & _); rewrite E; discriminate.
Qed.

Lemma numberBound_of_Z_small :
  forall z, 0 <= z < 256 -> numberBound (of_Z z) 0 255 = of_Z z.
Proof.
  intros z Hz. apply Leibniz.eqb_spec.
  apply (upto_check (fun z => Leibniz.eqb (numberBound (of_Z z) 0 255) (of_Z z)) 256);
    [vm_compute; reflexivity|lia].
Qed.

(** The channel setters' clamp, on the Number of an integer. *)
Lemma numberBound_of_Z (z : Z) :
  numberBound (of_Z z) 0 255 = of_Z (clampZ 0 255 z).
Proof.
  unfold clampZ.
  destruct (Z.lt_ge_cases z 0) as [Hneg|Hnn]; [|destruct (Z.lt_ge_cases z 256) as [Hs|Hb]].
  - replace (Z.max 0 (Z.min 255 z)) with 0 by lia.
    rewrite (numberBound_eq _ _ _ _ Prim2SF_255), isNaN_of_Z.
    replace (of_Z z <? 0)%float with true; [reflexivity|].
    rewrite FloatAxioms.ltb_spec. destruct z as [|p|p]; try lia.
    rewrite Prim2SF_of_Z_neg.
    destruct (round_int_shape true p) as (_ & [E|(m & e & E & _)] & _); rewrite E; reflexivity.
  - replace (Z.max 0 (Z.min 255 z)) with z by lia.
    apply numberBound_of_Z_small. lia.
  - replace (Z.max 0 (Z.min 255 z)) with 255 by lia.
    rewrite (numberBound_eq _ _ _ _ Prim2SF_255), isNaN_of_Z.
    destruct z as [|p|p]; try lia.
    pose proof (digits2_bounds p) as Hbd.
    assert (Hd : 9 <= Zpos (digits2_pos p)).
    { destruct (Z.le_gt_cases 9 (Zpos (digits2_pos p))); [assumption|].
      pose proof (pow2_le (Zpos (digits2_pos p)) 8 ltac:(lia)).
      change (2 ^ 8) with 256 in *. lia. }
    rewrite !FloatAxioms.ltb_spec, Prim2SF_of_Z_pos, Prim2SF_255.
    change (Prim2SF 0) with (S754_zero false).
    destruct (round_int_shape false p) as (_ & [E|(m & e & E & _ & He)] & _); rewrite E.
    + reflexivity.
    + assert (C2 : (-45 ?= e) = Lt) by (apply Z.compare_lt_iff; lia).
      cbv beta iota delta [SFltb SFcompare]. rewrite C2. reflexivity.
Qed.

Lemma of_Z_0 : of_Z 0 = 0%float.
Proof. reflexivity. Qed.

Lemma parse_channel_cases (p : option (bool * Z)) :
  null_if_NaN (numberBound (number_of_parse p) 0 255) =
    match p with
    | None => Null
    | Some (neg, z) => Num (of_Z (clampZ 0 255 (if neg then - z else z)))
    end.
Proof.
  destruct p as [[neg z]|]; simpl number_of_parse.
  - destruct (Z.eqb_spec z 0) as [->|Hz].
    + destruct neg; reflexivity.
    + rewrite numberBound_of_Z. unfold null_if_NaN. rewrite isNaN_of_Z. reflexivity.
  - reflexivity.
Qed.

Lemma channel_ok_set (v : value) :
  channel_ok (null_if_NaN (numberBound (parseInt v) 0 255)).
Proof.
  unfold parseInt, parseInt_string. rewrite parse_channel_cases.
  destruct (parseInt_math _ _) as [[neg z]|]; [right|left; reflexivity].
  eexists. split; [|reflexivity]. unfold clampZ. lia.
Qed.

Lemma opacity_ok_set (v : value) :
  opacity_ok (null_if_NaN (numberBound (parseFloat v) 0 1)).
Proof.
  unfold null_if_NaN. destruct (isNaN _) eqn:E; [left; reflexivity|right].
  rewrite (numberBound_NaN _ _ _ _ Prim2SF_1) in E.
  eexists. split; [reflexivity|]. exact (numberBound_range _ _ _ _ Prim2SF_1 E).
Qed.

(** ** Heap steps *)

Lemma alter_at (f : t -> t) (this : loc) (h : heap) (o : t) :
  h !! this = Some o -> alter f this h = <[this := f o]> h.
Proof.
  intros H. apply map_eq. intros j. rewrite lookup_alter, lookup_insert.
  destruct (decide (this = j)) as [->|]; [rewrite H|]; reflexivity.
Qed.

Lemma put_at (f : t -> t) (this : loc) (h : heap) (o : t) :
  h !! this = Some o -> put f this h = (tt, <[this := f o]> h).
Proof. intros H. unfold put. rewrite (alter_at _ _ _ _ H). reflexivity. Qed.

Lemma get_at (f : t -> field) (this : loc) (h : heap) (o : t) :
  h !! this = Some o -> get f this h = (f o, h).
Proof. intros H. unfold get. rewrite (lookup_total_correct _ _ _ H). reflexivity. Qed.

Lemma setRed_at (this : loc) (v : value) (h : heap) (o : t) :
  h !! this = Some o ->
  setRed this v h = (this, <[this := with_r (stored_channel v) o]> h).
Proof. intros H. unfold setRed, bind, ret. rewrite (put_at _ _ _ _ H). reflexivity. Qed.

Lemma setGreen_at (this : loc) (v : value) (h : heap) (o : t) :
  h !! this = Some o ->
  setGreen this v h = (this, <[this := with_g (stored_channel v) o]> h).
Proof. intros H. unfold setGreen, bind, ret. rewrite (put_at _ _ _ _ H). reflexivity. Qed.

Lemma setBlue_at (this : loc) (v : value) (h : heap) (o : t) :
  h !! this = Some o ->
  setBlue this v h = (this, <[this := with_b (stored_channel v) o]> h).
Proof. intros H. unfold setBlue, bind, ret. rewrite (put_at _ _ _ _ H). reflexivity. Qed.

Lemma setOpacity_at (this : loc) (v : value) (h : heap) (o : t) :
  h !! this = Some o ->
  setOpacity this v h = (this, <[this := with_opacity (stored_opacity v) o]> h).
Proof. intros H. unfold setOpacity, bind, ret. rewrite (put_at _ _ _ _ H). reflexivity. Qed.

Lemma set_all_at (this : loc) (v1 v2 v3 v4 : value) (h : heap) (o : t) :
  h !! this = Some o ->
  (do o1 <- setRed this v1; do o2 <- setGreen o1 v2; do o3 <- setBlue o2 v3;
   do _ <- setOpacity o3 v4; ret this) h
  = (this, <[this := set_all v1 v2 v3 v4 o]> h).
Proof.
  intros H. unfold bind at 1. rewrite (setRed_at _ _ _ _ H).
  unfold bind at 1. rewrite (setGreen_at _ _ _ _ (lookup_insert_eq _ _ _)), insert_insert_eq.
  unfold bind at 1. rewrite (setBlue_at _ _ _ _ (lookup_insert_eq _ _ _)), insert_insert_eq.
  unfold bind at 1. rewrite (setOpacity_at _ _ _ _ (lookup_insert_eq _ _ _)), insert_insert_eq.
  reflexivity.
Qed.

Lemma toRgbArray_at (this : loc) (h : heap) (o : t) :
  h !! this = Some o -> toRgbArray this h = ([r o; g o; b o], h).
Proof.
  intros H. unfold toRgbArray, bind, ret. rewrite !(get_at _ _ _ _ H). reflexivity.
Qed.

(** ** The state invariant *)

Lemma preserves_ret {A : Type} (a : A) : preserves (ret a).
Proof. intros h H. exact H. Qed.

Lemma preserves_bind {A B : Type} (c : M A) (k : A -> M B) :
  preserves c -> (forall a, preserves (k a)) -> preserves (bind c k).
Proof.
  intros Hc Hk h H. unfold bind. specialize (Hc h H).
  destruct (c h) as [a h']. apply Hk. exact Hc.
Qed.

Lemma preserves_get (f : t -> field) (this : loc) : preserves (get f this).
Proof. intros h H. exact H. Qed.

Lemma preserves_put (f : t -> t) (this : loc) :
  (forall o, object_ok o -> object_ok (f o)) -> preserves (put f this).
Proof.
  intros Hf h H l o. simpl. rewrite lookup_alter.
  destruct (decide (this = l)) as [->|].
  - destruct (h !! l) as [o'|] eqn:E; simpl; intros [= <-]. apply Hf. exact (H _ _ E).
  - intros E. exact (H _ _ E).
Qed.

Lemma preserves_setRed (this : loc) (v : value) : preserves (setRed this v).
Proof.
  apply preserves_bind; [|intros; apply preserves_ret].
  apply preserves_put. intros o (Hr & Hg & Hb & Ho).
  repeat split; try assumption. apply channel_ok_set.
Qed.

Lemma preserves_setGreen (this : loc) (v : value) : preserves (setGreen this v).
Proof.
  apply preserves_bind; [|intros; apply preserves_ret].
  apply preserves_put. intros o (Hr & Hg & Hb & Ho).
  repeat split; try assumption. apply channel_ok_set.
Qed.

Lemma preserves_setBlue (this : loc) (v : value) : preserves (setBlue this v).
Proof.
  apply preserves_bind; [|intros; apply preserves_ret].
  apply preserves_put. intros o (Hr & Hg & Hb & Ho).
  repeat split; try assumption. apply channel_ok_set.
Qed.

Lemma preserves_setOpacity (this : loc) (v : value) : preserves (setOpacity this v).
Proof.
  apply preserves_bind; [|intros; apply preserves_ret].
  apply preserves_put. intros o (Hr & Hg & Hb & Ho).
  repeat split; try assumption. apply opacity_ok_set.
Qed.

Create HintDb preserves.

#[local] Hint Resolve preserves_ret preserves_get preserves_setRed preserves_setGreen
  preserves_setBlue preserves_setOpacity : preserves.

Ltac preserves_steps :=
  cbv zeta;
  repeat first
    [ solve [auto with preserves]
    | apply preserves_bind; [|intro] ].

Lemma preserves_fillHex (this : loc) (v : value) : preserves (fillHex this v).
Proof. unfold fillHex. destruct (HEX_REGEXP _); preserves_steps. Qed.

Lemma preserves_fillRgb (this : loc) (v : value) : preserves (fillRgb this v).
Proof. unfold fillRgb. destruct (RGB_REGEXP _) as [[[c1 c2] c3]|]; preserves_steps. Qed.

Lemma preserves_fillRgba (this : loc) (v : value) : preserves (fillRgba this v).
Proof. unfold fillRgba. destruct (RGBA_REGEXP _) as [[[[c1 c2] c3] c4]|]; preserves_steps. Qed.

#[local] Hint Resolve preserves_fillHex preserves_fillRgb preserves_fillRgba : preserves.

Lemma preserves_fill (this : loc) (v : value) : preserves (fill this v).
Proof.
  unfold fill.
  destruct (test (HEX_REGEXP _)); [preserves_steps|].
  destruct (test (RGB_REGEXP _)); [preserves_steps|].
  destruct (test (RGBA_REGEXP _)); preserves_steps.
Qed.

Lemma preserves_toHex (this : loc) : preserves (toHex this).
Proof. unfold toHex. preserves_steps. Qed.

Lemma preserves_toRgba (this : loc) : preserves (toRgba this).
Proof. unfold toRgba. preserves_steps. Qed.

Lemma preserves_toRgbArray (this : loc) : preserves (toRgbArray this).
Proof. unfold toRgbArray. preserves_steps. Qed.

#[local] Hint Resolve preserves_toHex preserves_toRgba preserves_toRgbArray : preserves.

Lemma preserves_perform (Math_pow : number -> number -> number) (this : loc) (op : operation) :
  forall h, heap_ok h -> heap_ok (perform Math_pow this op h).
Proof.
  destruct op; unfold perform; intros h H;
    match goal with |- heap_ok (snd (?c h)) => revert h H; change (preserves c) end;
    auto with preserves.
  - apply preserves_fill.
  - unfold getLuminance. preserves_steps.
  - unfold compareContrastTo. preserves_steps.
  - unfold darken. preserves_steps.
  - unfold lighten. preserves_steps.
  - unfold blendWith. preserves_steps.
  - unfold toRgb. preserves_steps.
  - unfold toString. apply preserves_bind; [auto with preserves|].
    intros a. destruct (is_one a); auto with preserves.
Qed.

Lemma object_ok_init : object_ok init.
Proof. repeat split; left; reflexivity. Qed.

Lemma preserves_new : preserves new.
Proof.
  intros h H. unfold new. simpl. apply map_Forall_insert_2; [apply object_ok_init|exact H].
Qed.

(** C1. Every public operation preserves the state invariant: in every
    object of the heap each of red, green and blue is [null] or the Number
    of an integer in [0, 255], and the opacity is [null] or a Number in
    [0, 1].  A new object satisfies it; [setRed(300)] stores 255 and
    [setRed(-5)] stores 0. *)
Theorem invariant_preserved (Math_pow : number -> number -> number)
    (h : heap) (this : loc) :
  heap_ok h ->
  (forall op, heap_ok (perform Math_pow this op h)) /\
  heap_ok (snd (new h)) /\
  (forall o, h !! this = Some o ->
     snd (setRed this (VNumber 300) h) !! this = Some (with_r (Num 255) o) /\
     snd (setRed this (VNumber (-5)) h) !! this = Some (with_r (Num 0) o)).
Proof.
  intros H. split; [|split].
  - intros op. apply preserves_perform. exact H.
  - apply preserves_new. exact H.
  - intros o Ho. rewrite !(setRed_at _ _ _ _ Ho). simpl snd.
    rewrite !lookup_insert_eq. split; reflexivity.
Qed.

Lemma invariant_preserved_witness :
  heap_ok {[ 1%positive := init ]} /\
  heap_ok (perform (fun x _ => x) 1%positive (OpSetRed (VNumber 300)) {[ 1%positive := init ]}).
Proof.
  assert (H : heap_ok {[ 1%positive := init ]}).
  { apply map_Forall_singleton. repeat split; left; reflexivity. }
  split; [exact H|].
  apply (invariant_preserved (fun x _ => x) {[ 1%positive := init ]} 1%positive H).
Defined.

(** ** Setters and parsers *)

Lemma channel_of_eq (v : value) : stored_channel v = channel_of v.
Proof. unfold stored_channel, parseInt, parseInt_string, channel_of. apply parse_channel_cases. Qed.

Lemma opacity_of_eq (v : value) : stored_opacity v = opacity_of v.
Proof.
  unfold stored_opacity, null_if_NaN, opacity_of.
  rewrite (numberBound_NaN _ _ _ _ Prim2SF_1), (numberBound_eq _ _ _ _ Prim2SF_1).
  destruct (isNaN (parseFloat v)); reflexivity.
Qed.

Lemma fst_bind_ret {A : Type} (c : M A) (this : loc) (h : heap) :
  fst ((do _ <- c; ret this) h) = this.
Proof. unfold bind, ret. destruct (c h). reflexivity. Qed.

Lemma fillHex_fst (this : loc) (v : value) (h : heap) : fst (fillHex this v h) = this.
Proof.
  unfold fillHex. destruct (HEX_REGEXP _); [|reflexivity].
  cbv zeta. unfold bind, ret.
  repeat match goal with |- context [let '(_, _) := ?c in _] => destruct c end.
  reflexivity.
Qed.

Lemma fillRgb_fst (this : loc) (v : value) (h : heap) : fst (fillRgb this v h) = this.
Proof.
  unfold fillRgb. destruct (RGB_REGEXP _) as [[[c1 c2] c3]|]; [|reflexivity].
  unfold bind, ret.
  repeat match goal with |- context [let '(_, _) := ?c in _] => destruct c end.
  reflexivity.
Qed.

Lemma fillRgba_fst (this : loc) (v : value) (h : heap) : fst (fillRgba this v h) = this.
Proof.
  unfold fillRgba. destruct (RGBA_REGEXP _) as [[[[c1 c2] c3] c4]|]; [|reflexivity].
  unfold bind, ret.
  repeat match goal with |- context [let '(_, _) := ?c in _] => destruct c end.
  reflexivity.
Qed.

Lemma fill_fst (this : loc) (v : value) (h : heap) : fst (fill this v h) = this.
Proof.
  unfold fill.
  destruct (test (HEX_REGEXP _)); [apply fst_bind_ret|].
  destruct (test (RGB_REGEXP _)); [apply fst_bind_ret|].
  destruct (test (RGBA_REGEXP _)); [apply fst_bind_ret|reflexivity].
Qed.

(** On the values whose conversion cannot throw, setters and parsers run
    to the end and return their receiver.  A setter stores the clamped
    value, or [null] when no number can be read from its argument; a
    parser whose pattern does not match leaves the heap as it was. *)
Lemma setters_and_parsers_on_values (h : heap) (this : loc) (o : t) (v : value) :
  h !! this = Some o ->
  setRed this v h = (this, <[this := with_r (channel_of v) o]> h) /\
  setGreen this v h = (this, <[this := with_g (channel_of v) o]> h) /\
  setBlue this v h = (this, <[this := with_b (channel_of v) o]> h) /\
  setOpacity this v h = (this, <[this := with_opacity (opacity_of v) o]> h) /\
  (HEX_REGEXP (ToString v) = None -> fillHex this v h = (this, h)) /\
  (RGB_REGEXP (ToString v) = None -> fillRgb this v h = (this, h)) /\
  (RGBA_REGEXP (ToString v) = None -> fillRgba this v h = (this, h)) /\
  (HEX_REGEXP (ToString v) = None -> RGB_REGEXP (ToString v) = None ->
   RGBA_REGEXP (ToString v) = None -> fill this v h = (this, h)).
Proof.
  intros Ho.
  rewrite (setRed_at _ _ _ _ Ho), (setGreen_at _ _ _ _ Ho), (setBlue_at _ _ _ _ Ho),
    (setOpacity_at _ _ _ _ Ho), channel_of_eq, opacity_of_eq.
  repeat split.
  - intros E. unfold fillHex. rewrite E. reflexivity.
  - intros E. unfold fillRgb. rewrite E. reflexivity.
  - intros E. unfold fillRgba. rewrite E. reflexivity.
  - intros E1 E2 E3. unfold fill. rewrite E1, E2, E3. reflexivity.
Qed.

(** A call whose argument converts runs the method on the converted
    value; a call whose argument does not convert throws and leaves the
    heap. *)
Lemma call_normal {A : Type} (method : value -> M A) (x : argument) (v : value) (h : heap) :
  printable x = Normal v ->
  call method x h = (Normal (fst (method v h)), snd (method v h)).
Proof. intros E. unfold call. rewrite E. destruct (method v h). reflexivity. Qed.

Lemma call_throw {A : Type} (method : value -> M A) (x : argument) (e : exception) (h : heap) :
  printable x = Throw e -> call method x h = (Throw e, h).
Proof. intros E. unfold call. rewrite E. reflexivity. Qed.

(** [ToString] throws on an argument exactly when the argument has no
    printable value, and with the same exception. *)
Lemma ToString_any_throws (x : argument) (e : exception) :
  ToString_any x = Throw e <-> printable x = Throw e.
Proof.
  unfold ToString_any. destruct (printable x) as [v|e'].
  - split; intros H; discriminate H.
  - split; intros H; injection H as ->; reflexivity.
Qed.

(** C2, as stated, fails: a setter or a parser handed a Symbol throws a
    [TypeError], and handed an object whose [toString] throws, such as
    [{ toString: function () { throw new Error() } }], it throws that
    error; nothing is stored and no receiver is returned. *)
Lemma setters_and_parsers_throw_on_symbol :
  call (setRed 1%positive) Symbol {[ 1%positive := init ]}
    = (Throw TypeError, {[ 1%positive := init ]}) /\
  call (setGreen 1%positive) Symbol {[ 1%positive := init ]}
    = (Throw TypeError, {[ 1%positive := init ]}) /\
  call (setBlue 1%positive) Symbol {[ 1%positive := init ]}
    = (Throw TypeError, {[ 1%positive := init ]}) /\
  call (setOpacity 1%positive) Symbol {[ 1%positive := init ]}
    = (Throw TypeError, {[ 1%positive := init ]}) /\
  call (fillHex 1%positive) Symbol {[ 1%positive := init ]}
    = (Throw TypeError, {[ 1%positive := init ]}) /\
  call (fillRgb 1%positive) Symbol {[ 1%positive := init ]}
    = (Throw TypeError, {[ 1%positive := init ]}) /\
  call (fillRgba 1%positive) Symbol {[ 1%positive := init ]}
    = (Throw TypeError, {[ 1%positive := init ]}) /\
  call (fill 1%positive) Symbol {[ 1%positive := init ]}
    = (Throw TypeError, {[ 1%positive := init ]}) /\
  call (setRed 1%positive) (Object (Throw Raised)) {[ 1%positive := init ]}
    = (Throw Raised, {[ 1%positive := init ]}) /\
  call (fill 1%positive) (Object (Throw Raised)) {[ 1%positive := init ]}
    = (Throw Raised, {[ 1%positive := init ]}).
Proof. repeat split. Qed.

(** C2 (amended). A setter or a parser raises an error exactly when the
    conversion of its argument to a string does: for a Symbol, or an
    object whose conversion throws, the call throws that error and the
    heap is as it was.  For every other argument, that is every
    primitive value but a Symbol and every object whose conversion
    returns one, the call completes: a setter stores the clamped value,
    or [null] when no number can be read from the argument; a parser
    whose pattern does not match leaves the heap as it was; and each of
    them returns its receiver. *)
Theorem setters_and_parsers_throw_only_in_conversion (h : heap) (this : loc) (x : argument) :
  (forall e : exception, ToString_any x = Throw e ->
   call (setRed this) x h = (Throw e, h) /\
   call (setGreen this) x h = (Throw e, h) /\
   call (setBlue this) x h = (Throw e, h) /\
   call (setOpacity this) x h = (Throw e, h) /\
   call (fillHex this) x h = (Throw e, h) /\
   call (fillRgb this) x h = (Throw e, h) /\
   call (fillRgba this) x h = (Throw e, h) /\
   call (fill this) x h = (Throw e, h)) /\
  (forall (v : value) (o : t), printable x = Normal v -> h !! this = Some o ->
   call (setRed this) x h = (Normal this, <[this := with_r (channel_of v) o]> h) /\
   call (setGreen this) x h = (Normal this, <[this := with_g (channel_of v) o]> h) /\
   call (setBlue this) x h = (Normal this, <[this := with_b (channel_of v) o]> h) /\
   call (setOpacity this) x h = (Normal this, <[this := with_opacity (opacity_of v) o]> h) /\
   (HEX_REGEXP (ToString v) = None -> call (fillHex this) x h = (Normal this, h)) /\
   (RGB_REGEXP (ToString v) = None -> call (fillRgb this) x h = (Normal this, h)) /\
   (RGBA_REGEXP (ToString v) = None -> call (fillRgba this) x h = (Normal this, h)) /\
   (HEX_REGEXP (ToString v) = None -> RGB_REGEXP (ToString v) = None ->
    RGBA_REGEXP (ToString v) = None -> call (fill this) x h = (Normal this, h)) /\
   fst (call (fillHex this) x h) = Normal this /\
   fst (call (fillRgb this) x h) = Normal this /\
   fst (call (fillRgba this) x h) = Normal this /\
   fst (call (fill this) x h) = Normal this).
Proof.
  split.
  - intros e E. apply ToString_any_throws in E.
    rewrite !(call_throw _ x e h E). repeat split.
  - intros v o E Ho. rewrite !(call_normal _ x v h E).
    destruct (setters_and_parsers_on_values h this o v Ho)
      as (H1 & H2 & H3 & H4 & H5 & H6 & H7 & H8).
    rewrite H1, H2, H3, H4, fillHex_fst, fillRgb_fst, fillRgba_fst, fill_fst.
    cbn [fst snd].
    split; [reflexivity|]. split; [reflexivity|]. split; [reflexivity|].
    split; [reflexivity|].
    split; [intros E1; rewrite (H5 E1); reflexivity|].
    split; [intros E1; rewrite (H6 E1); reflexivity|].
    split; [intros E1; rewrite (H7 E1); reflexivity|].
    split; [intros E1 E2 E3; rewrite (H8 E1 E2 E3); reflexivity|].
    repeat split.
Qed.

Lemma setters_and_parsers_throw_only_in_conversion_witness :
  call (setRed 1%positive) (Plain (VString "abc")) {[ 1%positive := init ]}
    = (Normal 1%positive,
       <[1%positive := with_r (channel_of (VString "abc")) init]> {[ 1%positive := init ]}) /\
  call (fill 1%positive) (Object (Normal (VNumber 7))) {[ 1%positive := init ]}
    = (Normal 1%positive, {[ 1%positive := init ]}) /\
  call (fill 1%positive) (Object (Throw Raised)) {[ 1%positive := init ]}
    = (Throw Raised, {[ 1%positive := init ]}).
Proof.
  assert (Ho : ({[ 1%positive := init ]} : heap) !! 1%positive = Some init) by reflexivity.
  split; [|split].
  - exact (proj1 (proj2 (setters_and_parsers_throw_only_in_conversion
                           {[ 1%positive := init ]} 1%positive (Plain (VString "abc")))
                    (VString "abc") init eq_refl Ho)).
  - destruct (proj2 (setters_and_parsers_throw_only_in_conversion
                       {[ 1%positive := init ]} 1%positive (Object (Normal (VNumber 7))))
                (VNumber 7) init eq_refl Ho)
      as (_ & _ & _ & _ & _ & _ & _ & H & _).
    apply H; vm_compute; reflexivity.
  - destruct (proj1 (setters_and_parsers_throw_only_in_conversion
                       {[ 1%positive := init ]} 1%positive (Object (Throw Raised)))
                Raised eq_refl)
      as (_ & _ & _ & _ & _ & _ & _ & H).
    exact H.
Defined.

(** ** Numerals *)

Lemma string_app_cons (x : ascii) (a b : string) :
  (String x a ++ b)%string = String x (a ++ b)%string.
Proof. reflexivity. Qed.

Lemma string_app_assoc (a b c : string) : ((a ++ b) ++ c = a ++ (b ++ c))%string.
Proof.
  induction a as [|x a IH]; [reflexivity|].
  rewrite !string_app_cons, IH. reflexivity.
Qed.

Lemma string_app_length (a b : string) :
  String.length (a ++ b) = (String.length a + String.length b)%nat.
Proof.
  induction a as [|x a IH]; [reflexivity|].
  rewrite string_app_cons. simpl String.length. rewrite IH. reflexivity.
Qed.

Lemma string_app_nil_r (a : string) : (a ++ "")%string = a.
Proof.
  induction a as [|x a IH]; [reflexivity|].
  rewrite string_app_cons, IH. reflexivity.
Qed.

Lemma show_digits_app (f : nat) (R z : Z) (acc : string) :
  show_digits f R z acc = (show_digits f R z "" ++ acc)%string.
Proof.
  revert z acc. induction f as [|f IH]; intros z acc; [reflexivity|].
  change (show_digits (S f) R z acc)
    with (if z <? R then String (digit_char (z mod R)) acc
          else show_digits f R (z / R) (String (digit_char (z mod R)) acc)).
  change (show_digits (S f) R z "")
    with (if z <? R then String (digit_char (z mod R)) ""
          else show_digits f R (z / R) (String (digit_char (z mod R)) "")).
  destruct (z <? R); [reflexivity|].
  rewrite IH. rewrite (IH _ (String _ "")). rewrite string_app_assoc. reflexivity.
Qed.

Lemma show_digits_unfold (f : nat) (R z : Z) (acc : string) :
  show_digits (S f) R z acc =
    if z <? R then String (digit_char (z mod R)) acc
    else show_digits f R (z / R) (String (digit_char (z mod R)) acc).
Proof. reflexivity. Qed.

Lemma show_digits_more (f : nat) (R z : Z) (acc : string) :
  2 <= R -> 0 <= z < 2 ^ Z.of_nat (S f) ->
  show_digits (S (S f)) R z acc = show_digits (S f) R z acc.
Proof.
  intros HR. revert z acc. induction f as [|f IH]; intros z acc Hz.
  - change (2 ^ Z.of_nat 1) with 2 in Hz.
    rewrite !show_digits_unfold. destruct (Z.ltb_spec z R); [reflexivity|lia].
  - rewrite (show_digits_unfold (S (S f))), (show_digits_unfold (S f) R z acc).
    destruct (Z.ltb_spec z R); [reflexivity|].
    apply IH. split; [apply Z.div_pos; lia|].
    apply Z.div_lt_upper_bound; [lia|].
    rewrite (Nat2Z.inj_succ (S f)), Z.pow_succ_r in Hz by lia.
    assert (0 < 2 ^ Z.of_nat (S f)) by (apply Z.pow_pos_nonneg; lia). nia.
Qed.

(** Any fuel above the binary size of [z] gives the same numeral. *)
Lemma show_digits_fuel (f : nat) (R z : Z) (acc : string) :
  2 <= R -> 0 <= z < 2 ^ Z.of_nat (S f) ->
  show_digits (S f) R z acc = show_digits (S (Z.to_nat (Z.log2 z))) R z acc.
Proof.
  intros HR Hz.
  assert (Hl : (Z.to_nat (Z.log2 z) <= f)%nat).
  { destruct (Z.eq_dec z 0) as [->|]; [simpl; lia|].
    assert (Z.log2 z < Z.of_nat (S f)) by (apply Z.log2_lt_pow2; lia). lia. }
  assert (Hb : 0 <= z < 2 ^ Z.of_nat (S (Z.to_nat (Z.log2 z)))).
  { destruct (Z.eq_dec z 0) as [->|]; [simpl; lia|].
    rewrite Nat2Z.inj_succ, Z2Nat.id by apply Z.log2_nonneg.
    split; [lia|]. apply Z.log2_spec. lia. }
  clear Hz. induction Hl as [|f Hl IH]; [reflexivity|].
  rewrite show_digits_more; [exact IH|assumption|].
  split; [lia|]. eapply Z.lt_le_trans; [apply Hb|].
  apply Z.pow_le_mono_r; lia.
Qed.

Lemma show_radix_digit (R d : Z) : 0 <= d < R -> show_radix R d = String (digit_char d) "".
Proof.
  intros Hd. unfold show_radix. rewrite show_digits_unfold.
  destruct (Z.ltb_spec d R); [|lia]. rewrite Z.mod_small by lia. reflexivity.
Qed.

Lemma show_radix_step (R q d : Z) :
  2 <= R -> 0 < q -> 0 <= d < R ->
  show_radix R (q * R + d) = (show_radix R q ++ String (digit_char d) "")%string.
Proof.
  intros HR Hq Hd. unfold show_radix at 1. rewrite show_digits_unfold.
  destruct (Z.ltb_spec (q * R + d) R); [nia|].
  replace ((q * R + d) / R) with q by (apply Z.div_unique with d; lia).
  replace ((q * R + d) mod R) with d by (apply Z.mod_unique with q; lia).
  rewrite show_digits_app. f_equal.
  assert (Hz : 0 < q * R + d) by nia.
  pose proof (Z.log2_spec _ Hz) as [Hlo Hhi].
  pose proof (Z.log2_nonneg (q * R + d)) as Hn.
  assert (Hl1 : 1 <= Z.log2 (q * R + d)).
  { apply Z.log2_le_pow2; [lia|]. change (2 ^ 1) with 2. nia. }
  destruct (Z.to_nat (Z.log2 (q * R + d))) as [|f] eqn:Ef; [lia|].
  apply show_digits_fuel; [assumption|].
  split; [lia|].
  replace (Z.of_nat (S f)) with (Z.log2 (q * R + d)) by lia.
  replace (Z.succ (Z.log2 (q * R + d))) with (Z.log2 (q * R + d) + 1) in Hhi by lia.
  rewrite Z.pow_add_r in Hhi by lia. change (2 ^ 1) with 2 in Hhi. nia.
Qed.

(** ** Reading hexadecimal colours *)

Lemma field_eqb_eq (x y : field) : field_eqb x y = true -> x = y.
Proof.
  destruct x, y; simpl; try discriminate; [reflexivity|].
  intros H. f_equal. apply Leibniz.eqb_spec. exact H.
Qed.

Lemma is_hex_In (c : ascii) : is_hex c = true -> In c hex_chars.
Proof.
  destruct c as [[] [] [] [] [] [] [] []]; intros H; try discriminate H;
    vm_compute; tauto.
Qed.

Lemma hex_pair_range (c1 c2 : ascii) :
  is_hex c1 = true -> is_hex c2 = true -> 0 <= hex_pair c1 c2 <= 255.
Proof.
  intros H1 H2. apply is_hex_In in H1, H2.
  assert (forallb (fun p => (0 <=? hex_pair (fst p) (snd p)) && (hex_pair (fst p) (snd p) <=? 255))
            (list_prod hex_chars hex_chars) = true) as H by (vm_compute; reflexivity).
  rewrite forallb_forall in H. specialize (H (c1, c2)).
  rewrite in_prod_iff in H. specialize (H (conj H1 H2)).
  cbn [fst snd] in H. apply andb_prop in H. lia.
Qed.

(** A pair of hexadecimal digits read by [parseInt(_, 16)] and stored by a
    channel setter. *)
Lemma channel_of_hex_pair (c1 c2 : ascii) :
  is_hex c1 = true -> is_hex c2 = true ->
  stored_channel (VNumber (parseInt16 (VString (String c1 (String c2 ""))))) = Num (of_Z (hex_pair c1 c2)).
Proof.
  intros H1 H2. apply is_hex_In in H1, H2. apply field_eqb_eq.
  assert (forallb (fun p =>
            field_eqb (stored_channel (VNumber (parseInt16 (VString (String (fst p) (String (snd p) ""))))))
                      (Num (of_Z (hex_pair (fst p) (snd p)))))
            (list_prod hex_chars hex_chars) = true) as H by (vm_compute; reflexivity).
  rewrite forallb_forall in H. apply (H (c1, c2)). apply in_prod_iff. split; assumption.
Qed.

Lemma expand_short_hex (c1 c2 c3 : ascii) :
  is_hex c1 = true -> is_hex c2 = true -> is_hex c3 = true ->
  expand_short (String c1 (String c2 (String c3 ""))) =
  String c1 (String c1 (String c2 (String c2 (String c3 (String c3 ""))))).
Proof.
  intros H1 H2 H3. unfold expand_short, SHORT_HEX_REGEXP.
  assert (E : match String c1 (String c2 (String c3 "")) with
              | String "#" s' => s'
              | _ => String c1 (String c2 (String c3 ""))
              end = String c1 (String c2 (String c3 ""))).
  { apply is_hex_In in H1. vm_compute in H1.
    repeat (destruct H1 as [<-|H1]; [reflexivity|]). contradiction. }
  rewrite E, H1, H2, H3. reflexivity.
Qed.

Lemma HEX_REGEXP_3 (c1 c2 c3 : ascii) :
  is_hex c1 = true -> is_hex c2 = true -> is_hex c3 = true ->
  HEX_REGEXP (String "#" (String c1 (String c2 (String c3 "")))) =
  Some (String c1 (String c2 (String c3 ""))).
Proof. intros H1 H2 H3. simpl. rewrite H1, H2, H3. reflexivity. Qed.

Lemma HEX_REGEXP_6 (c1 c2 c3 c4 c5 c6 : ascii) :
  is_hex c1 = true -> is_hex c2 = true -> is_hex c3 = true ->
  is_hex c4 = true -> is_hex c5 = true -> is_hex c6 = true ->
  HEX_REGEXP (String "#" (String c1 (String c2 (String c3 (String c4 (String c5 (String c6 ""))))))) =
  Some (String c1 (String c2 (String c3 (String c4 (String c5 (String c6 "")))))).
Proof. intros H1 H2 H3 H4 H5 H6. simpl. rewrite H1, H2, H3, H4, H5, H6. reflexivity. Qed.

Lemma pair_at (c1 c2 c3 c4 c5 c6 : ascii) :
  let res := String c1 (String c2 (String c3 (String c4 (String c5 (String c6 ""))))) in
  (char_at res 0 ++ char_at res 1)%string = String c1 (String c2 "") /\
  (char_at res 2 ++ char_at res 3)%string = String c3 (String c4 "") /\
  (char_at res 4 ++ char_at res 5)%string = String c5 (String c6 "").
Proof. repeat split. Qed.

Lemma fillHex_6 (h : heap) (this : loc) (o : t) (c1 c2 c3 c4 c5 c6 : ascii) :
  h !! this = Some o ->
  is_hex c1 = true -> is_hex c2 = true -> is_hex c3 = true ->
  is_hex c4 = true -> is_hex c5 = true -> is_hex c6 = true ->
  fillHex this
    (VString (String "#" (String c1 (String c2 (String c3 (String c4 (String c5 (String c6 "")))))))) h
  = (this, <[this := hex_object c1 c2 c3 c4 c5 c6]> h).
Proof.
  intros Ho H1 H2 H3 H4 H5 H6. unfold fillHex.
  change (ToString (VString ?s)) with s.
  rewrite (HEX_REGEXP_6 _ _ _ _ _ _ H1 H2 H3 H4 H5 H6).
  change (Nat.eqb (String.length (String c1 (String c2 (String c3 (String c4 (String c5 (String c6 ""))))))) 3)
    with false.
  cbv iota zeta.
  rewrite (set_all_at _ _ _ _ _ _ _ Ho). f_equal. f_equal. unfold set_all, hex_object.
  destruct (pair_at c1 c2 c3 c4 c5 c6) as (-> & -> & ->).
  rewrite !channel_of_hex_pair by assumption. reflexivity.
Qed.

Lemma fillHex_3 (h : heap) (this : loc) (o : t) (c1 c2 c3 : ascii) :
  h !! this = Some o ->
  is_hex c1 = true -> is_hex c2 = true -> is_hex c3 = true ->
  fillHex this (VString (String "#" (String c1 (String c2 (String c3 ""))))) h
  = (this, <[this := hex_object c1 c1 c2 c2 c3 c3]> h).
Proof.
  intros Ho H1 H2 H3. unfold fillHex.
  change (ToString (VString ?s)) with s.
  rewrite (HEX_REGEXP_3 _ _ _ H1 H2 H3).
  change (Nat.eqb (String.length (String c1 (String c2 (String c3 "")))) 3) with true.
  cbv iota zeta. rewrite (expand_short_hex _ _ _ H1 H2 H3).
  rewrite (set_all_at _ _ _ _ _ _ _ Ho). f_equal. f_equal. unfold set_all, hex_object.
  destruct (pair_at c1 c1 c2 c2 c3 c3) as (-> & -> & ->).
  rewrite !channel_of_hex_pair by assumption. reflexivity.
Qed.

(** C3. For every string [#RGB] or [#RRGGBB] of hexadecimal digits, in
    either case, [fillHex] sets red, green and blue from the pairs of
    digits, a three-digit string counting each digit twice, and sets the
    opacity to 1; [fill('#f00').toHex()] is ['#ff0000'] and
    [fill('#ff00aa').toRgbArray()] is [[255, 0, 170]]. *)
Theorem fillHex_sets_channels (h : heap) (this : loc) (o : t) (c1 c2 c3 c4 c5 c6 : ascii) :
  h !! this = Some o ->
  is_hex c1 = true -> is_hex c2 = true -> is_hex c3 = true ->
  is_hex c4 = true -> is_hex c5 = true -> is_hex c6 = true ->
  fillHex this
    (VString (String "#" (String c1 (String c2 (String c3 (String c4 (String c5 (String c6 "")))))))) h
    = (this, <[this := mk (Num (of_Z (hex_pair c1 c2))) (Num (of_Z (hex_pair c3 c4)))
                          (Num (of_Z (hex_pair c5 c6))) (Num 1)]> h) /\
  fillHex this (VString (String "#" (String c1 (String c2 (String c3 ""))))) h
    = (this, <[this := mk (Num (of_Z (hex_pair c1 c1))) (Num (of_Z (hex_pair c2 c2)))
                          (Num (of_Z (hex_pair c3 c3))) (Num 1)]> h) /\
  fst ((do c <- fill this (VString "#f00"); toHex c) h) = "#ff0000"%string /\
  fst ((do c <- fill this (VString "#ff00aa"); toRgbArray c) h) = [Num 255; Num 0; Num 170].
Proof.
  intros Ho H1 H2 H3 H4 H5 H6. split; [|split; [|split]].
  - apply (fillHex_6 _ _ _ _ _ _ _ _ _ Ho); assumption.
  - apply (fillHex_3 _ _ _ _ _ _ Ho); assumption.
  - unfold fill, bind. change (test (HEX_REGEXP (ToString (VString "#f00")))) with true.
    cbv iota. unfold bind.
    rewrite (fillHex_3 h this o "f" "0" "0" Ho eq_refl eq_refl eq_refl).
    unfold ret, toHex, bind. rewrite !(get_at _ _ _ _ (lookup_insert_eq _ _ _)).
    vm_compute. reflexivity.
  - unfold fill, bind. change (test (HEX_REGEXP (ToString (VString "#ff00aa")))) with true.
    cbv iota. unfold bind.
    rewrite (fillHex_6 h this o "f" "f" "0" "0" "a" "a" Ho eq_refl eq_refl eq_refl eq_refl eq_refl eq_refl).
    unfold ret, toRgbArray, bind. rewrite !(get_at _ _ _ _ (lookup_insert_eq _ _ _)).
    vm_compute. reflexivity.
Qed.

Lemma fillHex_sets_channels_witness :
  ({[ 1%positive := init ]} : heap) !! 1%positive = Some init /\
  fillHex 1%positive (VString "#03F") {[ 1%positive := init ]}
    = (1%positive, <[1%positive := mk (Num (of_Z (hex_pair "0" "0"))) (Num (of_Z (hex_pair "3" "3")))
                          (Num (of_Z (hex_pair "F" "F"))) (Num 1)]> {[ 1%positive := init ]}).
Proof.
  split; [reflexivity|].
  apply (fillHex_sets_channels {[ 1%positive := init ]} 1%positive init "0" "3" "F" "0" "3" "F");
    reflexivity.
Defined.

(** ** Exact integer arithmetic *)

Lemma log2_bounds (z : Z) : 0 < z < 2 ^ 53 -> 0 <= Z.log2 z <= 52.
Proof.
  intros Hz. split; [apply Z.log2_nonneg|].
  assert (Z.log2 z < 53) by (apply Z.log2_lt_pow2; lia). lia.
Qed.

Lemma Prim2SF_of_Z_small (z : Z) : 0 < z < 2 ^ 53 -> Prim2SF (of_Z z) = canon z.
Proof.
  intros Hz. destruct z as [|p|p]; try lia.
  rewrite Prim2SF_of_Z_pos. destruct (round_int_shape false p) as (_ & _ & E).
  pose proof (log2_bounds _ Hz). rewrite digits2_log2 in E.
  rewrite E by lia. unfold canon. f_equal; [f_equal; f_equal; f_equal|]; lia.
Qed.

(** Rounding [z * 2^j], given as a mantissa and the exponent [-j], gives
    back [z]. *)
Lemma br_value (M : positive) (j z : Z) :
  0 <= j -> 0 < z < 2 ^ 53 -> Zpos M = z * 2 ^ j ->
  binary_round prec emax false M (- j) = canon z.
Proof.
  intros Hj Hz EM. pose proof (log2_bounds _ Hz) as Hl.
  pose proof (Z.log2_spec z ltac:(lia)) as [Hlo Hhi].
  set (lz := Z.log2 z) in *.
  pose proof (pow2_pos j Hj) as Hpj.
  assert (Hd : Zpos (digits2_pos M) = lz + 1 + j).
  { apply digits2_unique. rewrite EM.
    replace (lz + 1 + j - 1) with (lz + j) by lia.
    rewrite !Z.pow_add_r by lia. replace (Z.succ lz) with (lz + 1) in Hhi by lia.
    rewrite Z.pow_add_r in Hhi by lia. nia. }
  assert (Hval : forall k, 0 <= k -> k <= j -> z * 2 ^ j = z * 2 ^ (j - k) * 2 ^ k).
  { intros k Hk1 Hk2. rewrite <- Z.mul_assoc, <- Z.pow_add_r by lia. do 2 f_equal. lia. }
  unfold canon. fold lz.
  destruct (Z.le_gt_cases (lz + 1 + j) 53) as [Hs|Hb].
  - rewrite br_small by (rewrite Hd; lia). rewrite Hd.
    destruct (Z.leb_spec (lz + 1 + j + - j - 53) 971); [|lia].
    f_equal; [|lia]. f_equal. rewrite EM, <- Z.mul_assoc, <- Z.pow_add_r by lia.
    do 2 f_equal. lia.
  - rewrite br_large by (rewrite Hd; lia).
    destruct (bra_normal false M (- j)) as (m2 & _ & Hx & ->); [rewrite Hd; lia..|].
    rewrite Hd in *.
    assert (Hdiv : (2 ^ (lz + 1 + j - 53) | Zpos M)).
    { exists (z * 2 ^ (j - (lz + 1 + j - 53))). rewrite EM. apply Hval; lia. }
    specialize (Hx Hdiv).
    assert (Em2 : Zpos m2 = z * 2 ^ (52 - lz)).
    { rewrite Hx, EM, (Hval (lz + 1 + j - 53)) by lia.
      rewrite Z.div_mul by (pose proof (pow2_pos (lz + 1 + j - 53) ltac:(lia)); lia).
      do 2 f_equal. lia. }
    assert (Zpos m2 < 2 ^ 53).
    { rewrite Em2. replace 53 with (lz + 1 + (52 - lz)) by lia.
      rewrite (Z.pow_add_r 2 (lz + 1)) by lia.
      pose proof (pow2_pos (52 - lz) ltac:(lia)).
      replace (Z.succ lz) with (lz + 1) in Hhi by lia. nia. }
    destruct (Z.ltb_spec (Zpos m2) (2 ^ 53)); [|lia].
    destruct (Z.leb_spec (lz + 1 + j + - j - 53) 971); [|lia].
    f_equal; [|lia]. rewrite <- Em2, Pos2Z.id. reflexivity.
Qed.

Lemma shl_align_fst (m : positive) (e e' : Z) :
  e' <= e -> Zpos (fst (shl_align m e e')) = Zpos m * 2 ^ (e - e').
Proof.
  intros He. unfold shl_align. destruct (e' - e) as [|p|p] eqn:E.
  - replace (e - e') with 0 by lia. simpl fst. lia.
  - lia.
  - simpl fst. rewrite iter_xO_Z. do 2 f_equal. lia.
Qed.

(** Adding two non-negative integers whose sum is below [2^53] is exact. *)
Lemma add_of_Z (x y : Z) :
  0 <= x -> 0 <= y -> x + y < 2 ^ 53 -> (of_Z x + of_Z y)%float = of_Z (x + y).
Proof.
  intros Hx Hy Hs. apply Prim2SF_inj. rewrite add_spec.
  destruct (Z.eq_dec x 0) as [->|Hx0]; [|destruct (Z.eq_dec y 0) as [->|Hy0]].
  - change (Prim2SF (of_Z 0)) with (S754_zero false). rewrite Z.add_0_l.
    destruct (Z.eq_dec y 0) as [->|Hy0]; [reflexivity|].
    rewrite (Prim2SF_of_Z_small y) by lia. reflexivity.
  - change (Prim2SF (of_Z 0)) with (S754_zero false). rewrite Z.add_0_r.
    rewrite (Prim2SF_of_Z_small x) by lia. reflexivity.
  - rewrite (Prim2SF_of_Z_small x), (Prim2SF_of_Z_small y), (Prim2SF_of_Z_small (x + y)) by lia.
    pose proof (log2_bounds x ltac:(lia)) as Hlx.
    pose proof (log2_bounds y ltac:(lia)) as Hly.
    unfold canon at 1 2. unfold SF64add, SFadd.
    set (ex := Z.log2 x - 52). set (ey := Z.log2 y - 52).
    set (ez := Z.min ex ey).
    assert (Hez : ez <= ex /\ ez <= ey /\ ez <= 0) by (unfold ez, ex, ey; lia).
    cbn [cond_Zopp]. rewrite !shl_align_fst by lia.
    pose proof (pow2_pos (52 - Z.log2 x) ltac:(lia)).
    pose proof (pow2_pos (52 - Z.log2 y) ltac:(lia)).
    rewrite !Z2Pos.id by nia.
    assert (E : x * 2 ^ (52 - Z.log2 x) * 2 ^ (ex - ez) + y * 2 ^ (52 - Z.log2 y) * 2 ^ (ey - ez)
                = (x + y) * 2 ^ (- ez)).
    { rewrite <- !Z.mul_assoc, <- !Z.pow_add_r by lia.
      replace (52 - Z.log2 x + (ex - ez)) with (- ez) by (unfold ex; lia).
      replace (52 - Z.log2 y + (ey - ez)) with (- ez) by (unfold ey; lia). lia. }
    rewrite E. pose proof (pow2_pos (- ez) ltac:(lia)).
    destruct ((x + y) * 2 ^ (- ez)) as [|M|M] eqn:EM; try nia.
    simpl binary_normalize.
    rewrite <- (Z.opp_involutive ez) at 1.
    apply br_value; lia.
Qed.

(** ** Printing hexadecimal colours *)

Lemma shl_of_Z (a n : Z) :
  0 <= a < 256 -> 0 <= n <= 16 -> shl (of_Z a) n = a * 2 ^ n.
Proof.
  intros Ha Hn. unfold shl, ToInt32.
  rewrite truncZ_of_Z by (change (2 ^ 53) with 9007199254740992; lia).
  change (2 ^ 32) with 4294967296. change (2 ^ 31) with 2147483648.
  rewrite (Z.mod_small a) by lia.
  destruct (Z.ltb_spec a 2147483648); [|lia].
  assert (0 < 2 ^ n <= 2 ^ 16) by (split; [apply pow2_pos|apply pow2_le]; lia).
  change (2 ^ 16) with 65536 in *.
  rewrite Z.mod_small by nia.
  destruct (Z.ltb_spec (a * 2 ^ n) 2147483648); [reflexivity|nia].
Qed.

Lemma Number_toString16_of_Z (z : Z) :
  0 < z < 2 ^ 53 -> Number_toString16 (of_Z z) = show_radix 16 z.
Proof.
  intros Hz. unfold Number_toString16. rewrite (Prim2SF_of_Z_small z Hz).
  unfold canon. rewrite truncZ_of_Z by lia. rewrite Z.abs_eq by lia. reflexivity.
Qed.

Lemma show_radix_bytes (a b c : Z) :
  0 <= a < 256 -> 0 <= b < 256 -> 0 <= c < 256 ->
  show_radix 16 (16777216 + a * 65536 + b * 256 + c)
  = (String "1" (hex2 a ++ hex2 b ++ hex2 c))%string.
Proof.
  intros Ha Hb Hc.
  pose proof (Z.div_mod a 16 ltac:(lia)). pose proof (Z.mod_pos_bound a 16 ltac:(lia)).
  pose proof (Z.div_mod b 16 ltac:(lia)). pose proof (Z.mod_pos_bound b 16 ltac:(lia)).
  pose proof (Z.div_mod c 16 ltac:(lia)). pose proof (Z.mod_pos_bound c 16 ltac:(lia)).
  assert (0 <= a / 16 < 16) by (split; [apply Z.div_pos|apply Z.div_lt_upper_bound]; lia).
  assert (0 <= b / 16 < 16) by (split; [apply Z.div_pos|apply Z.div_lt_upper_bound]; lia).
  assert (0 <= c / 16 < 16) by (split; [apply Z.div_pos|apply Z.div_lt_upper_bound]; lia).
  replace (16777216 + a * 65536 + b * 256 + c)
    with (((((((1 * 16 + a / 16) * 16 + a mod 16) * 16 + b / 16) * 16 + b mod 16) * 16
            + c / 16) * 16) + c mod 16) by lia.
  rewrite !show_radix_step by lia.
  rewrite (show_radix_digit 16 1) by lia.
  unfold hex2. reflexivity.
Qed.

Lemma hex2_three (a b c : Z) :
  (hex2 a ++ hex2 b ++ hex2 c)%string =
  String (digit_char (a / 16)) (String (digit_char (a mod 16))
    (String (digit_char (b / 16)) (String (digit_char (b mod 16))
      (String (digit_char (c / 16)) (String (digit_char (c mod 16)) ""))))).
Proof. reflexivity. Qed.

(** [toHex] on an object whose channels are bytes. *)
Lemma toHex_bytes (h : heap) (this : loc) (o : t) (a b c : Z) :
  h !! this = Some o ->
  r o = Num (of_Z a) -> g o = Num (of_Z b) -> SiteColor.b o = Num (of_Z c) ->
  0 <= a < 256 -> 0 <= b < 256 -> 0 <= c < 256 ->
  toHex this h = (String "#" (hex2 a ++ hex2 b ++ hex2 c), h).
Proof.
  intros Ho Er Eg Eb Ha Hb Hc. unfold toHex, bind, ret.
  rewrite !(get_at _ _ _ _ Ho), Er, Eg, Eb. f_equal.
  cbn [ToNumber]. rewrite !shl_of_Z by lia.
  change (shl 1 24) with 16777216. change (2 ^ 16) with 65536. change (2 ^ 8) with 256.
  rewrite !add_of_Z by (change (2 ^ 53) with 9007199254740992; lia).
  rewrite Number_toString16_of_Z by (change (2 ^ 53) with 9007199254740992; lia).
  rewrite show_radix_bytes by lia. reflexivity.
Qed.

Lemma hex2_digits (a : Z) :
  0 <= a < 256 ->
  is_lower_hex (digit_char (a / 16)) = true /\
  is_lower_hex (digit_char (a mod 16)) = true /\
  is_hex (digit_char (a / 16)) = true /\
  is_hex (digit_char (a mod 16)) = true /\
  hex_pair (digit_char (a / 16)) (digit_char (a mod 16)) = a.
Proof.
  intros Ha.
  pose proof (upto_check
    (fun a => is_lower_hex (digit_char (a / 16)) && is_lower_hex (digit_char (a mod 16))
              && is_hex (digit_char (a / 16)) && is_hex (digit_char (a mod 16))
              && (hex_pair (digit_char (a / 16)) (digit_char (a mod 16)) =? a))
    256 ltac:(vm_compute; reflexivity) a ltac:(lia)) as H.
  cbv beta in H. repeat (apply andb_prop in H; destruct H as [H ?]).
  repeat split; try assumption. lia.
Qed.

(** The strings [HEX_REGEXP] accepts. *)
Lemma HEX_REGEXP_inv (s body : string) :
  HEX_REGEXP s = Some body ->
  s = String "#" body /\
  ((exists c1 c2 c3, body = String c1 (String c2 (String c3 ""))
      /\ is_hex c1 = true /\ is_hex c2 = true /\ is_hex c3 = true) \/
   (exists c1 c2 c3 c4 c5 c6,
      body = String c1 (String c2 (String c3 (String c4 (String c5 (String c6 "")))))
      /\ is_hex c1 = true /\ is_hex c2 = true /\ is_hex c3 = true
      /\ is_hex c4 = true /\ is_hex c5 = true /\ is_hex c6 = true)).
Proof.
  unfold HEX_REGEXP. destruct s as [|c s]; [discriminate|].
  destruct (Ascii.eqb_spec c "#") as [->|Hc].
  - destruct (all_chars is_hex s && _) eqn:E; [|discriminate].
    intros [= <-]. split; [reflexivity|].
    apply andb_prop in E. destruct E as [Ea El].
    destruct s as [|c1 [|c2 [|c3 [|c4 [|c5 [|c6 [|c7 s]]]]]]]; try discriminate El.
    + left. simpl in Ea. repeat (apply andb_prop in Ea; destruct Ea as [? Ea]).
      eexists _, _, _. repeat split; assumption.
    + right. simpl in Ea. repeat (apply andb_prop in Ea; destruct Ea as [? Ea]).
      eexists _, _, _, _, _, _. repeat split; assumption.
  - destruct c as [[] [] [] [] [] [] [] []]; try discriminate; contradiction Hc; reflexivity.
Qed.

Lemma fillHex_ToString (this : loc) (x : value) :
  fillHex this x = fillHex this (VString (ToString x)).
Proof. reflexivity. Qed.

(** What [fillHex] leaves in the receiver, for any accepted argument:
    three bytes and opacity 1. *)
Lemma fillHex_accepted (h : heap) (this : loc) (o : t) (x : value) :
  h !! this = Some o -> test (HEX_REGEXP (ToString x)) = true ->
  exists a b c,
    0 <= a < 256 /\ 0 <= b < 256 /\ 0 <= c < 256 /\
    fillHex this x h = (this, <[this := mk (Num (of_Z a)) (Num (of_Z b)) (Num (of_Z c)) (Num 1)]> h).
Proof.
  intros Ho Ht. destruct (HEX_REGEXP (ToString x)) as [body|] eqn:E; [|discriminate].
  apply HEX_REGEXP_inv in E.
  destruct E as [Es [(c1 & c2 & c3 & -> & H1 & H2 & H3)
                    |(c1 & c2 & c3 & c4 & c5 & c6 & -> & H1 & H2 & H3 & H4 & H5 & H6)]].
  - exists (hex_pair c1 c1), (hex_pair c2 c2), (hex_pair c3 c3).
    pose proof (hex_pair_range c1 c1 H1 H1). pose proof (hex_pair_range c2 c2 H2 H2).
    pose proof (hex_pair_range c3 c3 H3 H3).
    repeat (split; [lia|]).
    rewrite fillHex_ToString, Es. apply (fillHex_3 _ _ _ _ _ _ Ho); assumption.
  - exists (hex_pair c1 c2), (hex_pair c3 c4), (hex_pair c5 c6).
    pose proof (hex_pair_range c1 c2 H1 H2). pose proof (hex_pair_range c3 c4 H3 H4).
    pose proof (hex_pair_range c5 c6 H5 H6).
    repeat (split; [lia|]).
    rewrite fillHex_ToString, Es. apply (fillHex_6 _ _ _ _ _ _ _ _ _ Ho); assumption.
Qed.

(** C4. For every argument [fillHex] accepts, [fillHex(x).toHex()] is [#]
    followed by six lower-case hexadecimal digits, and parsing that
    string into a new object gives the same red, green and blue. *)
Theorem hex_round_trip (h : heap) (this : loc) (o : t) (x : value) :
  h !! this = Some o ->
  test (HEX_REGEXP (ToString x)) = true ->
  let '(s, again, first) := fst (round_trip this x h) in
  hex6 s = true /\ again = first.
Proof.
  intros Ho Ht.
  destruct (fillHex_accepted h this o x Ho Ht) as (a & b & c & Ha & Hb & Hc & E).
  unfold round_trip. unfold bind at 1. rewrite E.
  set (o1 := mk (Num (of_Z a)) (Num (of_Z b)) (Num (of_Z c)) (Num 1)).
  set (h1 := <[this := o1]> h).
  assert (Ho1 : h1 !! this = Some o1) by apply lookup_insert_eq.
  unfold bind at 1.
  rewrite (toHex_bytes h1 this o1 a b c Ho1 eq_refl eq_refl eq_refl Ha Hb Hc).
  unfold bind at 1, new.
  set (d := fresh (dom h1)). set (h2 := <[d := init]> h1).
  assert (Hd : h1 !! d = None) by (apply not_elem_of_dom, is_fresh).
  assert (Hdt : d <> this) by (intros ->; rewrite Ho1 in Hd; discriminate).
  assert (Hd2 : h2 !! d = Some init) by apply lookup_insert_eq.
  destruct (hex2_digits a ltac:(lia)) as (La1 & La2 & Xa1 & Xa2 & Pa).
  destruct (hex2_digits b ltac:(lia)) as (Lb1 & Lb2 & Xb1 & Xb2 & Pb).
  destruct (hex2_digits c ltac:(lia)) as (Lc1 & Lc2 & Xc1 & Xc2 & Pc).
  unfold bind at 1. rewrite !hex2_three.
  rewrite (fillHex_6 h2 d init _ _ _ _ _ _ Hd2 Xa1 Xa2 Xb1 Xb2 Xc1 Xc2).
  unfold hex_object. rewrite Pa, Pb, Pc. fold o1. cbv beta iota.
  set (h3 := <[d := o1]> h2).
  assert (Hd3 : h3 !! d = Some o1) by apply lookup_insert_eq.
  assert (Ht3 : h3 !! this = Some o1).
  { unfold h3, h2. rewrite !lookup_insert_ne by assumption. exact Ho1. }
  unfold bind, ret.
  rewrite (toRgbArray_at _ _ _ Hd3), (toRgbArray_at _ _ _ Ht3). cbn [fst].
  split; [|reflexivity].
  unfold hex6. cbn [String.length all_chars Nat.eqb].
  rewrite La1, La2, Lb1, Lb2, Lc1, Lc2. reflexivity.
Qed.

Lemma hex_round_trip_witness :
  ({[ 1%positive := init ]} : heap) !! 1%positive = Some init /\
  test (HEX_REGEXP (ToString (VString "#Fa1"))) = true /\
  let '(s, again, first) := fst (round_trip 1%positive (VString "#Fa1") {[ 1%positive := init ]}) in
  hex6 s = true /\ again = first.
Proof.
  split; [reflexivity|]. split; [reflexivity|].
  apply (hex_round_trip {[ 1%positive := init ]} 1%positive init (VString "#Fa1")); reflexivity.
Defined.

(** ** Magnitudes *)

(** The binary magnitude of [m * 2^e] is the number of bits of [m] plus
    [e].  Rounding keeps the exponent of the result within one of the
    exponent that magnitude calls for, which is enough to tell that small
    operands never overflow. *)

Lemma Zdigits2_pos (m : positive) : Zdigits2 (Zpos m) = Zpos (digits2_pos m).
Proof. reflexivity. Qed.

Lemma digits_le_of_lt (m : positive) (k : Z) : Zpos m < 2 ^ k -> Zpos (digits2_pos m) <= k.
Proof.
  intros H. pose proof (digits2_bounds m) as [Hlo _].
  destruct (Z.le_gt_cases (Zpos (digits2_pos m)) k) as [|Hgt]; [assumption|].
  assert (0 <= k).
  { destruct (Z.le_gt_cases 0 k); [assumption|]. rewrite Z.pow_neg_r in H by lia. lia. }
  pose proof (pow2_le k (Zpos (digits2_pos m) - 1) ltac:(lia)). lia.
Qed.

Lemma bra_shape (sx : bool) (mx : positive) (ex : Z) :
  ex <= fexp prec emax (Zpos (digits2_pos mx) + ex) ->
  fexp prec emax (Zpos (digits2_pos mx) + ex) + 1 <= 971 ->
  small_shape sx (fexp prec emax (Zpos (digits2_pos mx) + ex) + 1)
    (binary_round_aux prec emax sx (Zpos mx) ex loc_Exact).
Proof.
  set (e1 := fexp prec emax (Zpos (digits2_pos mx) + ex)). intros He Hmax.
  destruct (shr_fexp_gen mx ex loc_Exact He) as (mrs & Hs & Hm & _). fold e1 in Hs, Hm.
  unfold binary_round_aux. rewrite Hs.
  pose proof (rne_bounds (shr_m mrs) (loc_of_shr_record mrs)) as Hr.
  set (mr := round_nearest_even (shr_m mrs) (loc_of_shr_record mrs)) in *.
  rewrite Hm in Hr.
  pose proof (digits2_bounds mx) as Hb. set (d := Zpos (digits2_pos mx)) in *.
  assert (He1 : -1074 <= e1) by (unfold e1; rewrite fexp64_eq; lia).
  assert (Hd53 : d - (e1 - ex) <= 53) by (unfold e1; rewrite fexp64_eq; lia).
  assert (Hm1 : 0 <= Zpos mx / 2 ^ (e1 - ex) < 2 ^ 53).
  { pose proof (pow2_pos (e1 - ex) ltac:(lia)).
    split; [apply Z.div_pos; lia|]. apply Z.div_lt_upper_bound; [lia|].
    rewrite <- Z.pow_add_r by lia.
    eapply Z.lt_le_trans; [apply Hb|]. apply pow2_le. unfold d. lia. }
  destruct mr as [|m2|m2] eqn:Em2; try lia.
  - (* rounded to zero *)
    unfold shr_fexp, shr. simpl Zdigits2. rewrite fexp64_eq.
    destruct (Z.max (0 + e1 - 53) (-1074) - e1) as [|p|p] eqn:En; try lia; left; reflexivity.
  - assert (Hd2 : Zpos (digits2_pos m2) <= 54).
    { apply digits_le_of_lt. change (2 ^ 54) with (2 * 2 ^ 53). lia. }
    unfold shr_fexp, shr. rewrite Zdigits2_pos, fexp64_eq.
    destruct (Z.max (Zpos (digits2_pos m2) + e1 - 53) (-1074) - e1) as [|p|p] eqn:En.
    + simpl shr_m. destruct (Z.leb_spec e1 (emax - prec)); [|change (emax - prec) with 971 in *; lia].
      right. eexists _, _. split; [reflexivity|lia].
    + destruct (iter_shr_m p (shr_record_of_loc (Zpos m2) loc_Exact)) as [Hnn E]; [simpl; lia|].
      destruct (shr_m (SpecFloat.iter_pos shr_1 p (shr_record_of_loc (Zpos m2) loc_Exact)))
        as [|m3|m3]; try lia.
      * left. reflexivity.
      * destruct (Z.leb_spec (e1 + Zpos p) (emax - prec));
          [|change (emax - prec) with 971 in *; lia].
        right. eexists _, _. split; [reflexivity|lia].
    + simpl shr_m. destruct (Z.leb_spec e1 (emax - prec)); [|change (emax - prec) with 971 in *; lia].
      right. eexists _, _. split; [reflexivity|lia].
Qed.

Lemma digits_iter_xO (m n : positive) :
  Zpos (digits2_pos (Pos.iter xO m n)) = Zpos (digits2_pos m) + Zpos n.
Proof.
  apply digits2_unique. rewrite iter_xO_Z.
  pose proof (digits2_bounds m) as [Hlo Hhi].
  pose proof (pow2_pos (Zpos n) ltac:(lia)).
  assert (1 <= Zpos (digits2_pos m)) by lia.
  replace (Zpos (digits2_pos m) + Zpos n - 1) with (Zpos (digits2_pos m) - 1 + Zpos n) by lia.
  rewrite !Z.pow_add_r by lia. nia.
Qed.

Lemma br_shape (sx : bool) (mx : positive) (ex : Z) :
  fexp prec emax (Zpos (digits2_pos mx) + ex) + 1 <= 971 ->
  small_shape sx (fexp prec emax (Zpos (digits2_pos mx) + ex) + 1)
    (binary_round prec emax sx mx ex).
Proof.
  set (e1 := fexp prec emax (Zpos (digits2_pos mx) + ex)). intros Hmax.
  unfold binary_round, shl_align. fold e1.
  destruct (e1 - ex) as [|p|p] eqn:En.
  - apply bra_shape; fold e1; lia.
  - pose proof (Pos2Z.is_pos p). apply bra_shape; fold e1; lia.
  - pose proof (Pos2Z.neg_is_neg p).
    assert (E : fexp prec emax (Zpos (digits2_pos (Pos.iter xO mx p)) + e1) = e1).
    { rewrite digits_iter_xO. pose proof (Pos2Z.opp_pos p).
      replace (Zpos (digits2_pos mx) + Zpos p + e1) with (Zpos (digits2_pos mx) + ex) by lia.
      reflexivity. }
    pose proof (bra_shape sx (Pos.iter xO mx p) e1) as Hb.
    rewrite E in Hb. apply Hb; lia.
Qed.

Lemma small_shape_weaken (sx : bool) (a b : Z) (r : spec_float) :
  a <= b -> small_shape sx a r -> small_shape sx b r.
Proof.
  intros Hab [->|(m & e & -> & He)]; [left; reflexivity|].
  right. eexists _, _. split; [reflexivity|lia].
Qed.

Lemma fexp_mono (a b : Z) : a <= b -> fexp prec emax a <= fexp prec emax b.
Proof. rewrite !fexp64_eq. lia. Qed.

Lemma finite_shape_mag (k : Z) (r : spec_float) :
  valid_binary r = true -> -1021 <= k -> finite_shape (k - 53) r -> mag_le k r.
Proof.
  intros Hv Hk (s & [->|(m & e & -> & He)]); [exact I|].
  simpl. unfold SpecFloat.valid_binary, bounded, canonical_mantissa in Hv.
  apply andb_prop in Hv. destruct Hv as [Hc _]. apply Z.eqb_eq in Hc.
  rewrite fexp64_eq in Hc. lia.
Qed.

Lemma binary_normalize_shape (z e k : Z) :
  Z.abs z < 2 ^ (k - e) -> e <= k -> k <= 1023 ->
  finite_shape (fexp prec emax k + 1) (binary_normalize prec emax z e false).
Proof.
  intros Hz Hek Hk.
  assert (Hf : fexp prec emax k + 1 <= 971) by (rewrite fexp64_eq; lia).
  destruct z as [|p|p]; simpl binary_normalize.
  - exists false. left. reflexivity.
  - exists false. simpl in Hz.
    pose proof (digits_le_of_lt p (k - e) Hz).
    eapply small_shape_weaken; [|apply br_shape].
    + apply Z.add_le_mono_r. apply fexp_mono. lia.
    + pose proof (fexp_mono (Zpos (digits2_pos p) + e) k ltac:(lia)). lia.
  - exists true. simpl in Hz.
    pose proof (digits_le_of_lt p (k - e) Hz).
    eapply small_shape_weaken; [|apply br_shape].
    + apply Z.add_le_mono_r. apply fexp_mono. lia.
    + pose proof (fexp_mono (Zpos (digits2_pos p) + e) k ltac:(lia)). lia.
Qed.

(** ** Sums, differences and products of small operands *)

Lemma valid_digits (s : bool) (m : positive) (e : Z) :
  valid_binary (S754_finite s m e) = true ->
  Zpos (digits2_pos m) <= 53 /\ -1074 <= e <= 971 /\
  e = fexp prec emax (Zpos (digits2_pos m) + e).
Proof.
  unfold SpecFloat.valid_binary, bounded, canonical_mantissa. intros H.
  apply andb_prop in H. destruct H as [Hc He].
  apply Z.eqb_eq in Hc. apply Z.leb_le in He. change (emax - prec) with 971 in He.
  pose proof Hc as Hc'. rewrite fexp64_eq in Hc'. repeat split; lia.
Qed.

Lemma cond_Zopp_abs (s : bool) (z : Z) : Z.abs (cond_Zopp s z) = Z.abs z.
Proof. destruct s; simpl; lia. Qed.

Lemma aligned_bound (m : positive) (e ez k : Z) :
  ez <= e -> Zpos (digits2_pos m) + e <= k ->
  Zpos (fst (shl_align m e ez)) < 2 ^ (k - ez).
Proof.
  intros He Hk. rewrite shl_align_fst by assumption.
  pose proof (digits2_bounds m) as [_ Hhi].
  pose proof (pow2_pos (e - ez) ltac:(lia)).
  eapply Z.lt_le_trans.
  - apply Z.mul_lt_mono_pos_r; [assumption|exact Hhi].
  - rewrite <- Z.pow_add_r by lia. apply pow2_le. lia.
Qed.

(** The sum and the difference of two finite doubles of magnitude at most
    [k] are finite. *)
Lemma SFadd_shape (sx sy : bool) (mx my : positive) (ex ey k : Z) :
  Zpos (digits2_pos mx) + ex <= k -> Zpos (digits2_pos my) + ey <= k -> k <= 1022 ->
  finite_shape (fexp prec emax (k + 1) + 1)
    (SF64add (S754_finite sx mx ex) (S754_finite sy my ey)) /\
  finite_shape (fexp prec emax (k + 1) + 1)
    (SF64sub (S754_finite sx mx ex) (S754_finite sy my ey)).
Proof.
  intros Hx Hy Hk. unfold SF64add, SF64sub, SFadd, SFsub.
  set (ez := Z.min ex ey).
  pose proof (aligned_bound mx ex ez k ltac:(unfold ez; lia) Hx) as Ha.
  pose proof (aligned_bound my ey ez k ltac:(unfold ez; lia) Hy) as Hb.
  assert (He : 2 ^ (k + 1 - ez) = 2 * 2 ^ (k - ez)).
  { replace (k + 1 - ez) with (Z.succ (k - ez)) by lia. apply Z.pow_succ_r.
    pose proof (Pos2Z.is_pos (digits2_pos mx)). unfold ez. lia. }
  assert (Hez : ez <= k + 1).
  { pose proof (Pos2Z.is_pos (digits2_pos mx)). unfold ez. lia. }
  split; apply binary_normalize_shape; try lia; rewrite He.
  - pose proof (cond_Zopp_abs sx (Zpos (fst (shl_align mx ex ez)))).
    pose proof (cond_Zopp_abs sy (Zpos (fst (shl_align my ey ez)))).
    lia.
  - pose proof (cond_Zopp_abs sx (Zpos (fst (shl_align mx ex ez)))).
    pose proof (cond_Zopp_abs sy (Zpos (fst (shl_align my ey ez)))).
    lia.
Qed.

Lemma digits_mul (a b : positive) :
  Zpos (digits2_pos a) + Zpos (digits2_pos b) - 1 <= Zpos (digits2_pos (a * b))
  <= Zpos (digits2_pos a) + Zpos (digits2_pos b).
Proof.
  pose proof (digits2_bounds a) as [Ha1 Ha2]. pose proof (digits2_bounds b) as [Hb1 Hb2].
  pose proof (digits2_bounds (a * b)) as [Hc1 Hc2].
  set (da := Zpos (digits2_pos a)) in *. set (db := Zpos (digits2_pos b)) in *.
  set (dc := Zpos (digits2_pos (a * b))) in *.
  assert (1 <= da) by (unfold da; lia). assert (1 <= db) by (unfold db; lia).
  assert (1 <= dc) by (unfold dc; lia).
  rewrite Pos2Z.inj_mul in Hc1, Hc2.
  assert (Hlo : 2 ^ (da + db - 2) <= Zpos a * Zpos b).
  { replace (da + db - 2) with ((da - 1) + (db - 1)) by lia. rewrite Z.pow_add_r by lia.
    pose proof (pow2_pos (da - 1) ltac:(lia)). pose proof (pow2_pos (db - 1) ltac:(lia)). nia. }
  assert (Hhi : Zpos a * Zpos b < 2 ^ (da + db)).
  { rewrite Z.pow_add_r by lia.
    pose proof (pow2_pos da ltac:(lia)). pose proof (pow2_pos db ltac:(lia)). nia. }
  split.
  - destruct (Z.le_gt_cases (da + db - 1) dc); [assumption|].
    pose proof (pow2_le dc (da + db - 2) ltac:(lia)). lia.
  - destruct (Z.le_gt_cases dc (da + db)); [assumption|].
    pose proof (pow2_le (da + db) (dc - 1) ltac:(lia)). lia.
Qed.

(** The product of two valid finite doubles whose magnitudes add up to at
    most [k] is finite, with an exponent that [k] bounds. *)
Lemma SFmul_shape (sx sy : bool) (mx my : positive) (ex ey k : Z) :
  valid_binary (S754_finite sx mx ex) = true ->
  valid_binary (S754_finite sy my ey) = true ->
  Zpos (digits2_pos mx) + ex + (Zpos (digits2_pos my) + ey) <= k -> k <= 1023 ->
  small_shape (xorb sx sy) (fexp prec emax k + 1)
    (SF64mul (S754_finite sx mx ex) (S754_finite sy my ey)).
Proof.
  intros Vx Vy Hk Hmax. unfold SF64mul, SFmul.
  apply valid_digits in Vx, Vy. destruct Vx as (Hdx & Hex & Cx), Vy as (Hdy & Hey & Cy).
  pose proof (digits_mul mx my) as [Hd1 Hd2].
  rewrite fexp64_eq in Cx, Cy.
  assert (Hpre : ex + ey <= fexp prec emax (Zpos (digits2_pos (mx * my)) + (ex + ey))).
  { rewrite fexp64_eq.
    pose proof (Pos2Z.is_pos (digits2_pos mx)). pose proof (Pos2Z.is_pos (digits2_pos my)). lia. }
  eapply small_shape_weaken; [|apply bra_shape; [exact Hpre|]].
  - apply Z.add_le_mono_r, fexp_mono. lia.
  - pose proof (fexp_mono (Zpos (digits2_pos (mx * my)) + (ex + ey)) k ltac:(lia)).
    rewrite (fexp64_eq k) in *. lia.
Qed.

Lemma clamp01_shape (x : number) :
  isNaN x = false -> unit_shape (Prim2SF (numberBound x 0 1)).
Proof.
  intros Hx. rewrite (numberBound_eq _ _ _ _ Prim2SF_1), Hx.
  destruct (x <? 0)%float eqn:Hlt; [left; reflexivity|].
  destruct (1 <? x)%float eqn:Hgt.
  { right. rewrite Prim2SF_1. eexists _, _. split; [reflexivity|]. simpl. lia. }
  rewrite is_neg_zero_Prim2SF. rewrite FloatAxioms.ltb_spec in Hlt, Hgt.
  rewrite Prim2SF_1 in Hgt. change (Prim2SF 0) with (S754_zero false) in Hlt.
  apply isNaN_false_Prim2SF in Hx. pose proof (Prim2SF_valid x) as Hv.
  destruct (Prim2SF x) as [[]|[]| |[] m e] eqn:E; try discriminate; try congruence.
  - left. reflexivity.
  - left. exact E.
  - right. rewrite E. eexists _, _. split; [reflexivity|].
    apply valid_digits in Hv. destruct Hv as (Hd & _ & _).
    unfold SFltb, SFcompare in Hgt.
    destruct (Z.compare_spec (-52) e); try discriminate; lia.
Qed.

(** [1 - p] and [1 + p] for a clamped percentage [p] are finite. *)
Lemma one_minus_finite (c : number) :
  unit_shape (Prim2SF c) -> finite_shape 971 (Prim2SF (1 - c)) /\ finite_shape 971 (Prim2SF (1 + c)).
Proof.
  intros Hc. rewrite sub_spec, add_spec, Prim2SF_1.
  destruct Hc as [->|(m & e & -> & Hm)].
  - split; exists false; right; eexists _, _; (split; [reflexivity|lia]).
  - destruct (SFadd_shape false false 4503599627370496 m (-52) e 1 ltac:(simpl; lia) Hm ltac:(lia))
      as [Ha Hs].
    split.
    + destruct Hs as (s & Hs). exists s. eapply small_shape_weaken; [|exact Hs].
      rewrite fexp64_eq. lia.
    + destruct Ha as (s & Ha). exists s. eapply small_shape_weaken; [|exact Ha].
      rewrite fexp64_eq. lia.
Qed.

Lemma Prim2SF_zero_cases (x : number) (s : bool) :
  Prim2SF x = S754_zero s -> x = 0%float \/ x = neg_zero.
Proof.
  intros H. rewrite <- (SF2Prim_Prim2SF x), H. destruct s; [right|left]; reflexivity.
Qed.

(** Zero times a finite number is a zero. *)
Lemma zero_mul_finite (q : number) (k : Z) :
  finite_shape k (Prim2SF q) -> (0 * q = 0 \/ 0 * q = neg_zero)%float.
Proof.
  intros (s & Hq).
  assert (E : exists s', Prim2SF (0 * q) = S754_zero s').
  { rewrite mul_spec. change (Prim2SF 0) with (S754_zero false).
    destruct Hq as [->|(m & e & -> & _)]; eexists; reflexivity. }
  destruct E as [s' E]. exact (Prim2SF_zero_cases _ _ E).
Qed.

Lemma stored_channel_zero (x : number) :
  x = 0%float \/ x = neg_zero -> stored_channel (VNumber x) = Num 0.
Proof. intros [->| ->]; reflexivity. Qed.

(** ** Unset channels, and darkening before lightening *)

Lemma scale_at (factor : number) (this : loc) (h : heap) (o : t) :
  h !! this = Some o ->
  (do x <- get r this;
   do o1 <- setRed this (VNumber (ToNumber x * factor));
   do x <- get g this;
   do o2 <- setGreen o1 (VNumber (ToNumber x * factor));
   do x <- get b this;
   do _ <- setBlue o2 (VNumber (ToNumber x * factor));
   ret this) h
  = (this, <[this := scaled factor o]> h).
Proof.
  intros H. unfold bind at 1. rewrite (get_at _ _ _ _ H).
  unfold bind at 1. rewrite (setRed_at _ _ _ _ H).
  unfold bind at 1. rewrite (get_at _ _ _ _ (lookup_insert_eq _ _ _)).
  unfold bind at 1. rewrite (setGreen_at _ _ _ _ (lookup_insert_eq _ _ _)), insert_insert_eq.
  unfold bind at 1. rewrite (get_at _ _ _ _ (lookup_insert_eq _ _ _)).
  unfold bind at 1. rewrite (setBlue_at _ _ _ _ (lookup_insert_eq _ _ _)), insert_insert_eq.
  reflexivity.
Qed.

Lemma darken_at (this : loc) (p : value) (h : heap) (o : t) :
  h !! this = Some o ->
  darken this p h = (this, <[this := scaled (1 - numberBound (parseFloat p) 0 1) o]> h).
Proof. intros H. unfold darken. cbv zeta. apply scale_at, H. Qed.

Lemma lighten_at (this : loc) (p : value) (h : heap) (o : t) :
  h !! this = Some o ->
  lighten this p h = (this, <[this := scaled (1 + numberBound (parseFloat p) 0 1) o]> h).
Proof. intros H. unfold lighten. cbv zeta. apply scale_at, H. Qed.

Lemma fields_eqb_refl (l : list field) :
  Forall (fun f => field_eqb f f = true) l -> fields_eqb l l = true.
Proof.
  intros H. unfold fields_eqb. rewrite Nat.eqb_refl. simpl.
  induction H as [|f l Hf _ IH]; [reflexivity|]. simpl. rewrite Hf. exact IH.
Qed.

Lemma scaled_unset (factor : number) (o : t) (k : Z) :
  r o = Null -> g o = Null -> b o = Null ->
  finite_shape k (Prim2SF factor) ->
  scaled factor o = mk (Num 0) (Num 0) (Num 0) (opacity o).
Proof.
  intros Hr Hg Hb Hf. unfold scaled. rewrite Hr, Hg, Hb.
  change (ToNumber Null) with 0%float.
  rewrite (stored_channel_zero _ (zero_mul_finite _ _ Hf)). reflexivity.
Qed.

(** ** A percent that is not a number *)

(** There is one [NaN]. *)
Lemma isNaN_nan (x : number) : isNaN x = true -> x = nan.
Proof.
  intros H. apply isNaN_Prim2SF in H.
  rewrite <- (SF2Prim_Prim2SF x), H. reflexivity.
Qed.

Lemma Prim2SF_nan : Prim2SF nan = S754_nan.
Proof. reflexivity. Qed.

(** [NaN] is absorbing for the product, the sum and the difference. *)
Lemma mul_nan (x : number) : (x * nan)%float = nan.
Proof.
  apply Prim2SF_inj. rewrite mul_spec, Prim2SF_nan.
  destruct (Prim2SF x) as [s|s| |s m e]; reflexivity.
Qed.


(** The clamped percent, and both factors, are [NaN] with it. *)
Lemma clamped_percent_nan (p : value) :
  isNaN (parseFloat p) = true -> clamped_percent p = nan.
Proof.
  intros H. unfold clamped_percent. rewrite (isNaN_nan _ H).
  vm_compute. reflexivity.
Qed.

Lemma factors_nan (p : value) :
  isNaN (parseFloat p) = true ->
  (1 - numberBound (parseFloat p) 0 1)%float = nan /\
  (1 + numberBound (parseFloat p) 0 1)%float = nan.
Proof.
  intros H. fold (clamped_percent p). rewrite (clamped_percent_nan p H).
  split; vm_compute; reflexivity.
Qed.

(** A setter handed [NaN] stores [null]. *)
Lemma stored_channel_nan : stored_channel (VNumber nan) = Null.
Proof. vm_compute. reflexivity. Qed.

(** Scaling by [NaN] unsets the three channels, whatever they were. *)
Lemma scaled_nan (o : t) : scaled nan o = mk Null Null Null (opacity o).
Proof. unfold scaled. rewrite !mul_nan, stored_channel_nan. reflexivity. Qed.


Lemma darken_nan (this : loc) (p : value) (h : heap) (o : t) :
  h !! this = Some o -> isNaN (parseFloat p) = true ->
  darken this p h = (this, <[this := mk Null Null Null (opacity o)]> h).
Proof.
  intros Ho Hp. rewrite (darken_at _ _ _ _ Ho), (proj1 (factors_nan p Hp)), scaled_nan.
  reflexivity.
Qed.

Lemma lighten_nan (this : loc) (p : value) (h : heap) (o : t) :
  h !! this = Some o -> isNaN (parseFloat p) = true ->
  lighten this p h = (this, <[this := mk Null Null Null (opacity o)]> h).
Proof.
  intros Ho Hp. rewrite (lighten_at _ _ _ _ Ho), (proj2 (factors_nan p Hp)), scaled_nan.
  reflexivity.
Qed.

(** An object whose channels are unset is what [scaled nan] makes of it,
    so storing that leaves the heap as it was. *)
Lemma unset_stays (this : loc) (h : heap) (o : t) :
  h !! this = Some o -> r o = Null -> g o = Null -> b o = Null ->
  <[this := mk Null Null Null (opacity o)]> h = h.
Proof.
  intros Ho Hr Hg Hb. apply insert_id. rewrite Ho. f_equal.
  destruct o as [x y z a]. cbn in Hr, Hg, Hb |- *. subst. reflexivity.
Qed.

(** C10, as stated, fails: with a percent that is not a number, such as
    [darken('abc')], the factor is [NaN], every product is [NaN], and each
    setter stores [null] again, so the unset channels stay unset. *)
Lemma unset_channels_survive_bad_percent :
  fresh_darkened (VString "abc") = [Null; Null; Null] /\
  fresh_darkened (VString "abc") <> [Num 0; Num 0; Num 0] /\
  fresh_lightened VUndefined = [Null; Null; Null].
Proof.
  split; [vm_compute; reflexivity|]. split; [|vm_compute; reflexivity].
  intros H. vm_compute in H. discriminate H.
Qed.

(** C10 (amended). For a colour whose red, green and blue fields are unset,
    [darken(p)] and [lighten(p)] with a percent that [parseFloat] reads as
    a number store 0 in all three channels and leave the opacity as it
    was; with a percent that [parseFloat] reads as [NaN], whichever it
    is, the three channels stay unset and the heap is as it was. *)
Theorem unset_channels_become_zero (this : loc) (h : heap) (o : t) (p : value) :
  h !! this = Some o -> r o = Null -> g o = Null -> b o = Null ->
  (isNaN (parseFloat p) = false ->
   darken this p h = (this, <[this := mk (Num 0) (Num 0) (Num 0) (opacity o)]> h) /\
   lighten this p h = (this, <[this := mk (Num 0) (Num 0) (Num 0) (opacity o)]> h)) /\
  (isNaN (parseFloat p) = true ->
   darken this p h = (this, h) /\ lighten this p h = (this, h)).
Proof.
  intros Ho Hr Hg Hb. split; intros Hp.
  - destruct (one_minus_finite _ (clamp01_shape _ Hp)) as [Hs Ha].
    rewrite (darken_at _ _ _ _ Ho), (lighten_at _ _ _ _ Ho).
    rewrite (scaled_unset _ _ _ Hr Hg Hb Hs), (scaled_unset _ _ _ Hr Hg Hb Ha).
    split; reflexivity.
  - rewrite (darken_nan _ _ _ _ Ho Hp), (lighten_nan _ _ _ _ Ho Hp),
      (unset_stays _ _ _ Ho Hr Hg Hb).
    split; reflexivity.
Qed.

Lemma unset_channels_become_zero_witness :
  darken 1%positive (VNumber 0.2) {[1%positive := init]}
    = (1%positive, <[1%positive := mk (Num 0) (Num 0) (Num 0) Null]> {[1%positive := init]}) /\
  lighten 1%positive (VString "0.2") {[1%positive := init]}
    = (1%positive, <[1%positive := mk (Num 0) (Num 0) (Num 0) Null]> {[1%positive := init]}) /\
  darken 1%positive (VString "abc") {[1%positive := init]}
    = (1%positive, {[1%positive := init]}) /\
  lighten 1%positive VUndefined {[1%positive := init]}
    = (1%positive, {[1%positive := init]}).
Proof.
  assert (Ho : ({[1%positive := init]} : heap) !! 1%positive = Some init) by reflexivity.
  assert (H1 : isNaN (parseFloat (VNumber 0.2)) = false) by (vm_compute; reflexivity).
  assert (H2 : isNaN (parseFloat (VString "0.2")) = false) by (vm_compute; reflexivity).
  assert (H3 : isNaN (parseFloat (VString "abc")) = true) by (vm_compute; reflexivity).
  assert (H4 : isNaN (parseFloat VUndefined) = true) by (vm_compute; reflexivity).
  split; [|split; [|split]].
  - exact (proj1 (proj1 (unset_channels_become_zero _ _ _ (VNumber 0.2)
                           Ho eq_refl eq_refl eq_refl) H1)).
  - exact (proj2 (proj1 (unset_channels_become_zero _ _ _ (VString "0.2")
                           Ho eq_refl eq_refl eq_refl) H2)).
  - exact (proj1 (proj2 (unset_channels_become_zero _ _ _ (VString "abc")
                           Ho eq_refl eq_refl eq_refl) H3)).
  - exact (proj2 (proj2 (unset_channels_become_zero _ _ _ VUndefined
                           Ho eq_refl eq_refl eq_refl) H4)).
Defined.

(** C9. [darken(p)] followed by [lighten(p)] is not an exact inverse: for
    white and [p = 0.5], a colour with its channels set in [0, 255] and a
    percent in [0, 1], the channels after the two calls are 190, not the
    original 255 (127.5 is cut to 127, and 190.5 to 190). *)
Theorem darken_then_lighten_not_inverse :
  exists (hex : string) (p : number),
    (0 <=? p)%float = true /\ (p <=? 1)%float = true /\
    forallb channel_set (fst (darken_then_lighten hex p)) = true /\
    fst (darken_then_lighten hex p) <> snd (darken_then_lighten hex p) /\
    snd (darken_then_lighten hex p) = [Num 190; Num 190; Num 190].
Proof.
  exists "#ffffff"%string, 0.5%float.
  split; [vm_compute; reflexivity|]. split; [vm_compute; reflexivity|].
  split; [vm_compute; reflexivity|]. split; [|vm_compute; reflexivity].
  intros H. apply (f_equal (fun l => fields_eqb l (fst (darken_then_lighten "#ffffff" 0.5)))) in H.
  vm_compute in H. discriminate H.
Qed.

(** ** Reading back a numeral *)

Lemma digit_cases (d : Z) :
  0 <= d < 10 ->
  d = 0 \/ d = 1 \/ d = 2 \/ d = 3 \/ d = 4 \/ d = 5 \/ d = 6 \/ d = 7 \/ d = 8 \/ d = 9.
Proof. lia. Qed.

Lemma radix_digit_char (d : Z) : 0 <= d < 10 -> radix_digit 10 (digit_char d) = Some d.
Proof.
  intros H. destruct (digit_cases d H) as [->|[->|[->|[->|[->|[->|[->|[->|[->| ->]]]]]]]]];
    reflexivity.
Qed.

Lemma is_digit_char (d : Z) : 0 <= d < 10 -> is_digit (digit_char d) = true.
Proof.
  intros H. destruct (digit_cases d H) as [->|[->|[->|[->|[->|[->|[->|[->|[->| ->]]]]]]]]];
    reflexivity.
Qed.

Lemma split_last_digit (q : Z) :
  10 <= q -> exists q' d, q = q' * 10 + d /\ 0 < q' < q /\ 0 <= d < 10.
Proof.
  intros H. exists (q / 10), (q mod 10).
  pose proof (Z.div_mod q 10 ltac:(lia)). pose proof (Z.mod_pos_bound q 10 ltac:(lia)).
  lia.
Qed.

(** Reading [show_radix 10 q] gives [q] back and goes on with what
    follows. *)
Lemma read_show (q : Z) :
  0 <= q -> forall (rest : string) (acc : Z) (cnt : nat),
    read_digits 10 (show_radix 10 q ++ rest) acc cnt
    = read_digits 10 rest (acc * 10 ^ Z.of_nat (numeral_length q) + q) (cnt + numeral_length q).
Proof.
  intros Hq. generalize Hq. pattern q. apply Z_lt_induction; [|exact Hq]. clear q Hq.
  intros q IH Hq rest acc cnt. unfold numeral_length.
  destruct (Z.lt_ge_cases q 10) as [Hs|Hl].
  - rewrite (show_radix_digit 10 q) by lia. rewrite string_app_cons.
    cbn [read_digits String.length]. rewrite (radix_digit_char q) by lia.
    f_equal; try (change (10 ^ Z.of_nat 1) with 10); try (change (10 ^ 1) with 10); lia.
  - destruct (split_last_digit q Hl) as (q' & d & -> & Hq' & Hd).
    rewrite (show_radix_step 10 q' d) by lia.
    rewrite string_app_assoc, string_app_length, string_app_cons.
    rewrite (IH q') by lia. cbn [read_digits String.length]. rewrite (radix_digit_char d Hd).
    change (("" ++ rest)%string) with rest. unfold numeral_length.
    f_equal; [|lia].
    rewrite Nat2Z.inj_add. change (Z.of_nat 1) with 1.
    rewrite Z.pow_add_r by lia. change (10 ^ 1) with 10. ring.
Qed.

(** A numeral is a non-empty run of decimal digits, and it starts with
    [0] only when it is ["0"]. *)
Lemma show_head (q : Z) :
  0 <= q ->
  exists c tl, show_radix 10 q = String c tl /\ is_digit c = true /\
    (c = "0"%char -> tl = ""%string).
Proof.
  intros Hq. generalize Hq. pattern q. apply Z_lt_induction; [|exact Hq]. clear q Hq.
  intros q IH Hq. destruct (Z.lt_ge_cases q 10) as [Hs|Hl].
  - rewrite (show_radix_digit 10 q) by lia. exists (digit_char q), ""%string.
    split; [reflexivity|]. split; [apply is_digit_char; lia|reflexivity].
  - destruct (split_last_digit q Hl) as (q' & d & -> & Hq' & Hd).
    rewrite (show_radix_step 10 q' d) by lia.
    assert (Hnz : show_radix 10 q' <> "0"%string).
    { intros E. pose proof (read_show q' ltac:(lia) "" 0 O) as R. rewrite E in R.
      change (read_digits 10 ("0" ++ "") 0 0) with (0, 1%nat, ""%string) in R.
      apply (f_equal (fun x => fst (fst x))) in R. cbn [read_digits fst] in R. lia. }
    destruct (IH q' ltac:(lia) ltac:(lia)) as (c & tl & E & Hc & H0). rewrite E in *.
    exists c, (tl ++ String (digit_char d) "")%string. rewrite string_app_cons.
    split; [reflexivity|]. split; [exact Hc|].
    intros ->. rewrite (H0 eq_refl) in Hnz. contradiction.
Qed.

Lemma digit_not_white (c : ascii) : is_digit c = true -> is_white c = false.
Proof.
  unfold is_digit, is_white. intros H. apply andb_prop in H. destruct H as [H1 H2].
  apply Z.leb_le in H1, H2.
  destruct (Z.leb_spec 9 (code c)), (Z.leb_spec (code c) 13), (Z.eqb_spec (code c) 32),
    (Z.eqb_spec (code c) 160); simpl; try reflexivity; lia.
Qed.

Lemma code_inj (c1 c2 : ascii) : code c1 = code c2 -> c1 = c2.
Proof.
  unfold code. intros H. apply N2Z.inj in H.
  rewrite <- (ascii_N_embedding c1), <- (ascii_N_embedding c2), H. reflexivity.
Qed.

Lemma strip_sign_digit (c : ascii) (s : string) :
  is_digit c = true -> strip_sign (String c s) = (false, String c s).
Proof.
  intros H. unfold is_digit in H. apply andb_prop in H. destruct H as [H1 H2].
  apply Z.leb_le in H1, H2.
  destruct (ascii_dec c "-") as [->|H3]; [change (code "-") with 45 in H1; lia|].
  destruct (ascii_dec c "+") as [->|H4]; [change (code "+") with 43 in H1; lia|].
  destruct c as [[] [] [] [] [] [] [] []]; try reflexivity; contradiction.
Qed.

Lemma strip_0x_other (c : ascii) (s : string) :
  c <> "0"%char -> strip_0x (String c s) = None.
Proof.
  intros H. destruct c as [[] [] [] [] [] [] [] []]; try reflexivity. contradiction.
Qed.

Lemma read_stop (rest : string) (acc : Z) (cnt : nat) :
  ends_numeral rest -> read_digits 10 rest acc cnt = (acc, cnt, rest).
Proof. intros [->|(s & ->)]; reflexivity. Qed.

(** [parseInt] of a numeral, with or without a minus sign in front and
    followed by nothing or by a decimal point, is the integer the numeral
    stands for. *)
Lemma parseInt_numeral (sg : bool) (q : Z) (rest : string) :
  0 <= q -> ends_numeral rest ->
  parseInt_math ((if sg then "-" else "") ++ show_radix 10 q ++ rest) 0 = Some (sg, q).
Proof.
  intros Hq Hr. pose proof (read_show q Hq rest 0 O) as R.
  destruct (show_head q Hq) as (c & tl & E & Hc & H0). rewrite E in R |- *.
  rewrite string_app_cons in R |- *.
  assert (Hx : strip_0x (String c (tl ++ rest)) = None).
  { destruct (ascii_dec c "0") as [->|Hn]; [|apply strip_0x_other, Hn].
    rewrite (H0 eq_refl). destruct Hr as [->|(s & ->)]; reflexivity. }
  assert (Hs : strip_sign (trim_start ((if sg then "-" else "") ++ String c (tl ++ rest)))
               = (sg, String c (tl ++ rest))).
  { destruct sg.
    - reflexivity.
    - change ("" ++ String c (tl ++ rest))%string with (String c (tl ++ rest)).
      cbn [trim_start]. rewrite (digit_not_white c Hc). apply strip_sign_digit, Hc. }
  unfold parseInt_math. rewrite Hs.
  change (negb (0 =? 0) && ((0 <? 2) || (36 <? 0))) with false.
  change ((0 =? 0) || (0 =? 16)) with true. change (if 0 =? 0 then 10 else 0) with 10.
  cbv iota beta.
  rewrite Hx, R, (read_stop _ _ _ Hr). cbn [Nat.add].
  unfold numeral_length at 1. rewrite E. cbn [String.length]. f_equal.
Qed.

Lemma show_zeros (j : nat) (s : Z) :
  0 < s -> (show_radix 10 s ++ zeros j)%string = show_radix 10 (s * 10 ^ Z.of_nat j).
Proof.
  revert s. induction j as [|j IH]; intros s Hs.
  - rewrite string_app_nil_r. f_equal. simpl. lia.
  - cbn [zeros]. replace (String "0" (zeros j)) with (String "0" "" ++ zeros j)%string by reflexivity.
    rewrite <- string_app_assoc.
    change (String "0" "") with (String (digit_char 0) "").
    rewrite <- (show_radix_step 10 s 0) by lia. rewrite IH by lia. f_equal.
    rewrite Nat2Z.inj_succ, Z.pow_succ_r by lia. ring.
Qed.

(** ** [parseInt] of the decimal layout *)

Lemma pow10_pos (k : Z) : 0 <= k -> 0 < 10 ^ k.
Proof. intros H. apply Z.pow_pos_nonneg; lia. Qed.

Lemma pow10_le (a b : Z) : 0 <= a <= b -> 10 ^ a <= 10 ^ b.
Proof. intros H. apply Z.pow_le_mono_r; lia. Qed.

Lemma to_pos_pow (b k : Z) : 0 < b -> 0 <= k -> Zpos (Z.to_pos (b ^ k)) = b ^ k.
Proof. intros Hb Hk. apply Z2Pos.id. apply Z.pow_pos_nonneg; assumption. Qed.

Lemma Qfloor_decimal (s t : Z) :
  Qfloor (decimal s t) = if 0 <=? t then s * 10 ^ t else s / 10 ^ (- t).
Proof.
  unfold decimal. destruct (Z.leb_spec 0 t).
  - apply Qfloor_Z.
  - unfold Qfloor. rewrite to_pos_pow by lia. reflexivity.
Qed.

(** When [Number::toString] does not use the exponent notation, [parseInt]
    reads the integer part of the decimal it prints. *)
Lemma layout_parse (sg : bool) (s k n : Z) :
  1 <= k -> 10 ^ (k - 1) <= s < 10 ^ k -> -6 < n <= 21 ->
  parseInt_math ((if sg then "-" else "") ++ layout s k n) 0
  = Some (sg, Qfloor (decimal s (n - k))).
Proof.
  intros Hk Hs Hn. pose proof (pow10_pos (k - 1) ltac:(lia)) as Hp.
  rewrite Qfloor_decimal. unfold layout.
  destruct (Z.leb_spec k n) as [Hkn|Hkn].
  - destruct (Z.leb_spec n 21); [|lia]. cbn [andb].
    destruct (Z.leb_spec 0 (n - k)); [|lia].
    unfold dec. rewrite show_zeros by lia. rewrite Z2Nat.id by lia.
    rewrite <- (string_app_nil_r (show_radix 10 _)).
    apply parseInt_numeral; [|left; reflexivity].
    pose proof (pow10_pos (n - k) ltac:(lia)). nia.
  - cbn [andb]. destruct (Z.leb_spec 0 (n - k)); [lia|].
    replace (- (n - k)) with (k - n) by lia.
    pose proof (pow10_pos (k - n) ltac:(lia)) as Hq.
    destruct (Z.ltb_spec 0 n) as [Hn0|Hn0].
    + destruct (Z.leb_spec n 21); [|lia]. cbn [andb]. unfold dec.
      apply parseInt_numeral.
      * apply Z.div_pos; lia.
      * right. eexists. reflexivity.
    + cbn [andb]. destruct (Z.ltb_spec (-6) n); [|lia]. destruct (Z.leb_spec n 0); [|lia].
      cbn [andb].
      assert (E : s / 10 ^ (k - n) = 0).
      { apply Z.div_small. pose proof (pow10_le k (k - n) ltac:(lia)). lia. }
      rewrite E.
      change ("0." ++ zeros (Z.to_nat (- n)) ++ dec s)%string
        with (show_radix 10 0 ++ String "." (zeros (Z.to_nat (- n)) ++ dec s))%string.
      apply parseInt_numeral; [lia|]. right. eexists. reflexivity.
Qed.

(** ** Comparisons of dyadic and decimal rationals, in integers *)

Lemma Qle_bool_make (a b : Z) (p q : positive) :
  Qle_bool (Qmake a p) (Qmake b q) = (a * Zpos q <=? b * Zpos p).
Proof. reflexivity. Qed.

Lemma dyadic_neg (a e : Z) : e < 0 -> dyadic a e = Qmake a (Z.to_pos (2 ^ (- e))).
Proof. intros H. unfold dyadic. destruct (Z.leb_spec 0 e); [lia|reflexivity]. Qed.

Lemma dyadic_nonneg (a e : Z) : 0 <= e -> dyadic a e = Qmake (a * 2 ^ e) 1.
Proof. intros H. unfold dyadic. destruct (Z.leb_spec 0 e); [reflexivity|lia]. Qed.

Lemma decimal_neg (s t : Z) : t < 0 -> decimal s t = Qmake s (Z.to_pos (10 ^ (- t))).
Proof. intros H. unfold decimal. destruct (Z.leb_spec 0 t); [lia|reflexivity]. Qed.

Lemma decimal_nonneg (s t : Z) : 0 <= t -> decimal s t = Qmake (s * 10 ^ t) 1.
Proof. intros H. unfold decimal. destruct (Z.leb_spec 0 t); [reflexivity|lia]. Qed.

Lemma Qlt_bool_le (a b : Q) : Qlt_bool a b = true -> Qle_bool a b = true.
Proof.
  unfold Qlt_bool, Qle_bool. intros H. apply negb_true_iff in H.
  apply Z.leb_le. apply Z.leb_gt in H. lia.
Qed.

(** A decimal that rounds to [m * 2^e] lies between the two midpoints. *)
Lemma rounds_to_between (m : positive) (e : Z) (v : Q) :
  rounds_to m e v = true ->
  Qle_bool (lower_mid m e) v = true /\ Qle_bool v (upper_mid m e) = true.
Proof.
  unfold rounds_to. intros H. destruct (Z.even (Zpos m)); apply andb_prop in H; destruct H as [H1 H2].
  - split; assumption.
  - split; apply Qlt_bool_le; assumption.
Qed.

(** ** The integer part of a decimal that rounds to a double *)

Lemma lower_mid_le (m : positive) (e s t : Z) :
  e <= 0 -> Qle_bool (lower_mid m e) (decimal s t) = true ->
  if 0 <=? t then 4 * Zpos m - 2 <= s * 10 ^ t * (4 * 2 ^ (- e))
  else (4 * Zpos m - 2) * 10 ^ (- t) <= s * (4 * 2 ^ (- e)).
Proof.
  intros He H. unfold lower_mid in H. rewrite dyadic_neg in H by lia.
  assert (E : 2 ^ (- (e - 2)) = 4 * 2 ^ (- e)).
  { replace (- (e - 2)) with (2 + - e) by lia. rewrite Z.pow_add_r by lia. reflexivity. }
  pose proof (pow2_pos (- e) ltac:(lia)) as HD.
  assert (Hd : 1 <= (if binade_start m e then 1 else 2) <= 2) by (destruct (binade_start m e); lia).
  destruct (Z.leb_spec 0 t).
  - rewrite decimal_nonneg in H by lia. rewrite Qle_bool_make in H. apply Z.leb_le in H.
    rewrite E in H. rewrite Z2Pos.id in H by lia. lia.
  - rewrite decimal_neg in H by lia. rewrite Qle_bool_make in H. apply Z.leb_le in H.
    rewrite E in H. rewrite to_pos_pow in H by lia. rewrite Z2Pos.id in H by lia.
    pose proof (pow10_pos (- t) ltac:(lia)). nia.
Qed.

Lemma upper_mid_ge (m : positive) (e s t : Z) :
  e <= 0 -> Qle_bool (decimal s t) (upper_mid m e) = true ->
  if 0 <=? t then s * 10 ^ t * (4 * 2 ^ (- e)) <= 4 * Zpos m + 2
  else s * (4 * 2 ^ (- e)) <= (4 * Zpos m + 2) * 10 ^ (- t).
Proof.
  intros He H. unfold upper_mid in H. rewrite dyadic_neg in H by lia.
  assert (E : 2 ^ (- (e - 2)) = 4 * 2 ^ (- e)).
  { replace (- (e - 2)) with (2 + - e) by lia. rewrite Z.pow_add_r by lia. reflexivity. }
  pose proof (pow2_pos (- e) ltac:(lia)) as HD.
  destruct (Z.leb_spec 0 t).
  - rewrite decimal_nonneg in H by lia. rewrite Qle_bool_make in H. apply Z.leb_le in H.
    rewrite E in H. rewrite Z2Pos.id in H by lia. lia.
  - rewrite decimal_neg in H by lia. rewrite Qle_bool_make in H. apply Z.leb_le in H.
    rewrite E in H. rewrite to_pos_pow in H by lia. rewrite Z2Pos.id in H by lia.
    lia.
Qed.

Lemma dyadic_le_decimal (m e s t : Z) :
  e <= 0 -> t < 0 -> Qle_bool (dyadic m e) (decimal s t) = true ->
  m * 10 ^ (- t) <= s * 2 ^ (- e).
Proof.
  intros He Ht H. rewrite decimal_neg in H by lia.
  destruct (Z.eq_dec e 0) as [->|Hne].
  - rewrite dyadic_nonneg in H by lia. rewrite Qle_bool_make in H. apply Z.leb_le in H.
    rewrite to_pos_pow in H by lia. change (2 ^ (- 0)) with 1. change (2 ^ 0) with 1 in H. lia.
  - rewrite dyadic_neg in H by lia. rewrite Qle_bool_make in H. apply Z.leb_le in H.
    rewrite !to_pos_pow in H by lia. exact H.
Qed.

(** A decimal that rounds to the double [m * 2^e], [e <= 0], has the
    integer part of the double, provided it is not below a double that is
    an integer. *)
Lemma floor_of_rounding (m : positive) (e s t : Z) :
  e <= 0 ->
  rounds_to m e (decimal s t) = true ->
  (t < 0 -> Zpos m mod 2 ^ (- e) = 0 ->
   Qle_bool (dyadic (Zpos m) e) (decimal s t) = true) ->
  Qfloor (decimal s t) = Zpos m / 2 ^ (- e).
Proof.
  intros He Hr Hx. apply rounds_to_between in Hr. destruct Hr as [Hlo Hhi].
  apply lower_mid_le in Hlo; [|exact He]. apply upper_mid_ge in Hhi; [|exact He].
  rewrite Qfloor_decimal.
  pose proof (pow2_pos (- e) ltac:(lia)) as HD.
  set (D := 2 ^ (- e)) in *.
  pose proof (Z.div_mod (Zpos m) D ltac:(lia)) as Hdm.
  pose proof (Z.mod_pos_bound (Zpos m) D HD) as Hrho.
  set (N := Zpos m / D) in *. set (rho := Zpos m mod D) in *.
  destruct (Z.leb_spec 0 t) as [Ht|Ht].
  - set (V := s * 10 ^ t) in *.
    assert (V * D = Zpos m) by lia.
    assert (V * D = N * D + rho) by lia.
    assert (rho = (V - N) * D) by lia.
    assert (V - N = 0) by nia. lia.
  - pose proof (pow10_pos (- t) ltac:(lia)) as HT. set (T := 10 ^ (- t)) in *.
    symmetry. apply Z.div_unique with (s - N * T); [|lia]. left.
    split.
    + destruct (Z.eq_dec rho 0) as [E0|Hn0].
      * specialize (Hx Ht E0). apply dyadic_le_decimal in Hx; try lia.
        fold D T in Hx. rewrite Hdm, E0 in Hx.
        assert (N * T * D <= s * D) by lia.
        assert (N * T <= s) by nia. lia.
      * assert (4 * (N * T) * D < 4 * s * D) by nia.
        assert (N * T < s) by nia. lia.
    + assert (4 * s * D < 4 * ((N + 1) * T) * D) by nia.
      assert (s < (N + 1) * T) by nia. lia.
Qed.

(** ** What [shortest] returns *)

Lemma decimal_ge_dyadic (m e s t : Z) :
  e <= 0 -> t < 0 -> m * 10 ^ (- t) <= s * 2 ^ (- e) ->
  Qle_bool (dyadic m e) (decimal s t) = true.
Proof.
  intros He Ht H. rewrite decimal_neg by lia.
  destruct (Z.eq_dec e 0) as [->|Hne].
  - rewrite dyadic_nonneg by lia. rewrite Qle_bool_make. apply Z.leb_le.
    rewrite to_pos_pow by lia. change (2 ^ (- 0)) with 1 in H. change (2 ^ 0) with 1. lia.
  - rewrite dyadic_neg by lia. rewrite Qle_bool_make. apply Z.leb_le.
    rewrite !to_pos_pow by lia. exact H.
Qed.

Lemma Qfloor_scaled (m e j : Z) :
  e <= 0 -> 0 <= j ->
  Qfloor (dyadic m e * decimal 1 j) = m * 10 ^ j / 2 ^ (- e).
Proof.
  intros He Hj. rewrite decimal_nonneg by lia.
  destruct (Z.eq_dec e 0) as [->|Hne].
  - rewrite dyadic_nonneg by lia. unfold Qmult, Qfloor. cbn [Qnum Qden].
    change (2 ^ (- 0)) with 1. change (2 ^ 0) with 1. change (Zpos (1 * 1)) with 1.
    f_equal. lia.
  - rewrite dyadic_neg by lia. unfold Qmult, Qfloor. cbn [Qnum Qden].
    rewrite Pos.mul_1_r, to_pos_pow by lia. f_equal. lia.
Qed.

Lemma search_found (fuel : nat) (m : positive) (e n0 k0 s k n : Z) :
  search fuel m e n0 k0 = Some (s, k, n) -> k0 <= k /\ candidate m e n0 k = Some (s, n).
Proof.
  revert k0. induction fuel as [|fuel IH]; intros k0 H; [discriminate|].
  cbn [search] in H. destruct (candidate m e n0 k0) as [[s' n']|] eqn:E.
  - injection H as -> -> ->. split; [lia|exact E].
  - apply IH in H. destruct H as [H1 H2]. split; [lia|exact H2].
Qed.

Lemma candidate_found (m : positive) (e n0 k s n : Z) :
  candidate m e n0 k = Some (s, n) ->
  acceptable m e k (s, n) = true /\
  ((s, n) = below (dyadic (Zpos m) e) n0 k \/ (s, n) = above (dyadic (Zpos m) e) n0 k).
Proof.
  unfold candidate. cbv zeta.
  set (lo := below (dyadic (Zpos m) e) n0 k). set (hi := above (dyadic (Zpos m) e) n0 k).
  clearbody lo hi.
  destruct (acceptable m e k lo) eqn:Elo, (acceptable m e k hi) eqn:Ehi; try discriminate;
    [destruct (Qcompare _ _); [destruct (Z.even (fst lo))| |]| |];
    intros H; injection H as H; rewrite <- H; auto.
Qed.

Lemma acceptable_spec (m : positive) (e k s n : Z) :
  acceptable m e k (s, n) = true ->
  rounds_to m e (decimal s (n - k)) = true /\ 10 ^ (k - 1) <= s < 10 ^ k.
Proof.
  unfold acceptable. intros H. apply andb_prop in H. destruct H as [H H3].
  apply andb_prop in H. destruct H as [H1 H2].
  apply Z.leb_le in H2. apply Z.ltb_lt in H3. auto.
Qed.

(** The candidates are never below a double that is an integer, unless
    they are integers themselves. *)
Lemma below_exact (m : positive) (e n0 k s n : Z) :
  e <= 0 -> (s, n) = below (dyadic (Zpos m) e) n0 k ->
  n - k < 0 -> Zpos m mod 2 ^ (- e) = 0 ->
  Qle_bool (dyadic (Zpos m) e) (decimal s (n - k)) = true.
Proof.
  intros He H Hn Hm. unfold below in H.
  pose proof (f_equal fst H) as Es. pose proof (f_equal snd H) as En.
  cbn [fst snd] in Es, En. subst s n. clear H.
  rewrite Qfloor_scaled by lia. apply decimal_ge_dyadic; try lia.
  replace (- (n0 - k)) with (k - n0) by lia.
  pose proof (pow2_pos (- e) ltac:(lia)) as HD.
  apply Z.mod_divide in Hm; [|lia]. destruct Hm as [N HN]. rewrite HN.
  replace (N * 2 ^ (- e) * 10 ^ (k - n0)) with (N * 10 ^ (k - n0) * 2 ^ (- e)) by ring.
  rewrite Z.div_mul by lia. lia.
Qed.

Lemma above_greater (m : positive) (e n0 k s n : Z) :
  e <= 0 -> 1 <= k -> (s, n) = above (dyadic (Zpos m) e) n0 k ->
  n - k < 0 ->
  Qle_bool (dyadic (Zpos m) e) (decimal s (n - k)) = true.
Proof.
  intros He Hk H Hn. unfold above in H. cbv zeta in H.
  pose proof (pow2_pos (- e) ltac:(lia)) as HD.
  destruct (Z.eqb_spec (Qfloor (dyadic (Zpos m) e * decimal 1 (k - n0)) + 1) (10 ^ k)) as [E|E].
  - pose proof (f_equal fst H) as Es. pose proof (f_equal snd H) as En.
    cbn [fst snd] in Es, En. subst s n. clear H. rewrite Qfloor_scaled in E by lia.
    apply decimal_ge_dyadic; try lia.
    replace (- (n0 + 1 - k)) with (k - n0 - 1) by lia.
    pose proof (pow10_pos (k - n0 - 1) ltac:(lia)) as HT. pose proof (pow10_pos (k - 1) ltac:(lia)) as HK.
    assert (E1 : 10 ^ (k - n0) = 10 * 10 ^ (k - n0 - 1)).
    { replace (k - n0) with (Z.succ (k - n0 - 1)) at 1 by lia. apply Z.pow_succ_r. lia. }
    assert (E2 : 10 ^ k = 10 * 10 ^ (k - 1)).
    { replace k with (Z.succ (k - 1)) at 1 by lia. apply Z.pow_succ_r. lia. }
    set (a := Zpos m * 10 ^ (k - n0)) in *. set (D := 2 ^ (- e)) in *.
    pose proof (Z.div_mod a D ltac:(lia)). pose proof (Z.mod_pos_bound a D HD).
    assert (a < 10 ^ k * D) by nia.
    unfold a in *. rewrite E1, E2 in *. nia.
  - pose proof (f_equal fst H) as Es. pose proof (f_equal snd H) as En.
    cbn [fst snd] in Es, En. subst s n. clear H. rewrite Qfloor_scaled by lia.
    apply decimal_ge_dyadic; try lia.
    replace (- (n0 - k)) with (k - n0) by lia.
    set (a := Zpos m * 10 ^ (k - n0)) in *. set (D := 2 ^ (- e)) in *.
    pose proof (Z.div_mod a D ltac:(lia)). pose proof (Z.mod_pos_bound a D HD). nia.
Qed.

Lemma numeral_length_bounds (q : Z) :
  0 < q ->
  (1 <= numeral_length q)%nat /\
  10 ^ (Z.of_nat (numeral_length q) - 1) <= q < 10 ^ Z.of_nat (numeral_length q).
Proof.
  intros Hq. generalize Hq. pattern q. apply Z_lt_induction; [|lia]. clear q Hq.
  intros q IH Hq. unfold numeral_length. destruct (Z.lt_ge_cases q 10) as [Hs|Hl].
  - rewrite (show_radix_digit 10 q) by lia. cbn [String.length].
    change (10 ^ (Z.of_nat 1 - 1)) with 1. change (10 ^ Z.of_nat 1) with 10. lia.
  - destruct (split_last_digit q Hl) as (q' & d & -> & Hq' & Hd).
    rewrite (show_radix_step 10 q' d) by lia. rewrite string_app_length. cbn [String.length].
    destruct (IH q' ltac:(lia) ltac:(lia)) as (Hl1 & Hlo & Hhi). unfold numeral_length in *.
    set (len := String.length (show_radix 10 q')) in *.
    split; [lia|].
    replace (Z.of_nat (len + 1) - 1) with (Z.succ (Z.of_nat len - 1)) by lia.
    replace (Z.of_nat (len + 1)) with (Z.succ (Z.of_nat len)) by lia.
    rewrite !Z.pow_succ_r by lia. lia.
Qed.

Lemma Qlt_bool_make (a b : Z) (p q : positive) :
  b * Zpos p < a * Zpos q -> Qlt_bool (Qmake b q) (Qmake a p) = true.
Proof.
  intros H. unfold Qlt_bool. rewrite Qle_bool_make. apply negb_true_iff, Z.leb_gt. lia.
Qed.

Lemma rounds_to_inside (m : positive) (e : Z) (v : Q) :
  Qlt_bool (lower_mid m e) v = true -> Qlt_bool v (upper_mid m e) = true ->
  rounds_to m e v = true.
Proof.
  intros H1 H2. unfold rounds_to. destruct (Z.even (Zpos m)).
  - rewrite (Qlt_bool_le _ _ H1), (Qlt_bool_le _ _ H2). reflexivity.
  - rewrite H1, H2. reflexivity.
Qed.

(** The full expansion of a double is a decimal for it. *)
Lemma expansion_spec (m : positive) (e s k n : Z) :
  e <= 0 -> expansion m e = (s, k, n) ->
  1 <= k /\ 10 ^ (k - 1) <= s < 10 ^ k /\
  rounds_to m e (decimal s (n - k)) = true /\
  (n - k < 0 -> Qle_bool (dyadic (Zpos m) e) (decimal s (n - k)) = true).
Proof.
  intros He H. unfold expansion in H. cbv zeta in H.
  pose proof (pow2_pos (- e) ltac:(lia)) as HD.
  assert (HF : 0 < 5 ^ (- e)) by (apply Z.pow_pos_nonneg; lia).
  assert (H10 : 10 ^ (- e) = 2 ^ (- e) * 5 ^ (- e)) by (rewrite <- Z.pow_mul_l; reflexivity).
  assert (E4 : 2 ^ (- (e - 2)) = 4 * 2 ^ (- e)).
  { replace (- (e - 2)) with (2 + - e) by lia. rewrite Z.pow_add_r by lia. reflexivity. }
  assert (Hd : 1 <= (if binade_start m e then 1 else 2) <= 2) by (destruct (binade_start m e); lia).
  destruct (Z.leb_spec 0 e) as [H0|H0].
  - assert (e = 0) by lia. subst e. change (2 ^ 0) with 1 in H. rewrite Z.mul_1_r in H.
    injection H as <- <- <-.
    destruct (numeral_length_bounds (Zpos m) ltac:(lia)) as (Hl & Hb).
    unfold numeral_length in Hl, Hb. unfold dec.
    split; [lia|]. split; [exact Hb|]. split; [|lia].
    rewrite Z.sub_diag, decimal_nonneg by lia. change (10 ^ 0) with 1.
    apply rounds_to_inside.
    + unfold lower_mid. rewrite dyadic_neg by lia. apply Qlt_bool_make.
      change (Zpos (Z.to_pos (2 ^ (- (0 - 2))))) with 4. lia.
    + unfold upper_mid. rewrite dyadic_neg by lia. apply Qlt_bool_make.
      change (Zpos (Z.to_pos (2 ^ (- (0 - 2))))) with 4. lia.
  - injection H as <- <- <-.
    destruct (numeral_length_bounds (Zpos m * 5 ^ (- e)) ltac:(lia)) as (Hl & Hb).
    unfold numeral_length in Hl, Hb. unfold dec.
    set (k := Z.of_nat (String.length (show_radix 10 (Zpos m * 5 ^ (- e))))) in *.
    split; [lia|]. split; [exact Hb|].
    replace (k + e - k) with e by lia.
    split.
    + rewrite decimal_neg by lia. apply rounds_to_inside.
      * unfold lower_mid. rewrite dyadic_neg by lia. apply Qlt_bool_make.
        rewrite E4, to_pos_pow, Z2Pos.id, H10 by lia. nia.
      * unfold upper_mid. rewrite dyadic_neg by lia. apply Qlt_bool_make.
        rewrite E4, to_pos_pow, Z2Pos.id, H10 by lia. nia.
    + intros _. apply decimal_ge_dyadic; lia.
Qed.

(** [shortest] returns [k] digits [s] and a magnitude [n] whose decimal
    rounds to the double; the decimal is not below a double that is an
    integer, unless it is an integer itself. *)
Lemma shortest_spec (m : positive) (e s k n : Z) :
  e <= 0 -> shortest m e = (s, k, n) ->
  1 <= k /\ 10 ^ (k - 1) <= s < 10 ^ k /\
  rounds_to m e (decimal s (n - k)) = true /\
  (n - k < 0 -> Zpos m mod 2 ^ (- e) = 0 ->
   Qle_bool (dyadic (Zpos m) e) (decimal s (n - k)) = true).
Proof.
  intros He H. unfold shortest in H.
  destruct (search 17 m e (magnitude m e) 1) as [[[s' k'] n']|] eqn:E.
  - injection H as -> -> ->. apply search_found in E. destruct E as [Hk Hc].
    apply candidate_found in Hc. destruct Hc as [Ha Hc].
    apply acceptable_spec in Ha. destruct Ha as [Hr Hs].
    split; [lia|]. split; [exact Hs|]. split; [exact Hr|].
    intros Hn Hm. destruct Hc as [Hc|Hc].
    + exact (below_exact _ _ _ _ _ _ He Hc Hn Hm).
    + exact (above_greater _ _ _ _ _ _ He Hk Hc Hn).
  - apply expansion_spec in H; [|exact He]. destruct H as (H1 & H2 & H3 & H4).
    repeat split; try assumption; try lia. intros Hn _. exact (H4 Hn).
Qed.

(** ** The decimal layout of the numbers from [1e-6] up to [2^53] *)

Lemma pow10_split (a b : Z) : 0 <= a -> 0 <= b -> 10 ^ (a + b) = 10 ^ a * 10 ^ b.
Proof. intros. apply Z.pow_add_r; assumption. Qed.

(** No exponent notation: the magnitude of a decimal for a double in that
    range is between [-5] and [21]. *)
Lemma magnitude_range (m : positive) (e s k n : Z) :
  e <= 0 -> Zpos m < 2 ^ 53 -> (2 ^ 52 <= Zpos m \/ e = -1074) ->
  -72 < e \/ (e = -72 /\ mantissa_1em6 < Zpos m) ->
  1 <= k -> 10 ^ (k - 1) <= s < 10 ^ k ->
  rounds_to m e (decimal s (n - k)) = true ->
  -6 < n <= 21.
Proof.
  intros He Hm Hv Hb Hk Hs Hr. apply rounds_to_between in Hr. destruct Hr as [Hlo Hhi].
  apply lower_mid_le in Hlo; [|exact He]. apply upper_mid_ge in Hhi; [|exact He].
  pose proof (pow2_pos (- e) ltac:(lia)) as HD.
  pose proof (pow10_pos (k - 1) ltac:(lia)) as HK1.
  pose proof (pow10_pos k ltac:(lia)) as HK.
  change (2 ^ 53) with 9007199254740992 in Hm. change (2 ^ 52) with 4503599627370496 in Hv.
  split.
  - destruct (Z.lt_ge_cases (-6) n) as [|Hn]; [assumption|exfalso].
    destruct (Z.leb_spec 0 (n - k)); [lia|].
    pose proof (pow10_split k (- n - 6) ltac:(lia) ltac:(lia)) as E1.
    pose proof (pow10_split (k + (- n - 6)) 6 ltac:(lia) ltac:(lia)) as E2.
    replace (k + (- n - 6) + 6) with (- (n - k)) in E2 by lia.
    pose proof (pow10_pos (- n - 6) ltac:(lia)) as HT. change (10 ^ 6) with 1000000 in E2.
    set (T := 10 ^ (- n - 6)) in *. set (K := 10 ^ k) in *. set (D := 2 ^ (- e)) in *.
    rewrite E2, E1 in Hlo.
    assert (H0 : s * (4 * D) < K * (4 * D)) by (apply Z.mul_lt_mono_pos_r; lia).
    set (X := (4 * Zpos m - 2) * 1000000) in *.
    assert (HX : 0 <= X * K) by (apply Z.mul_nonneg_nonneg; unfold X; lia).
    assert (H2 : X * K * 1 <= X * K * T) by (apply Z.mul_le_mono_nonneg_l; lia).
    assert (H1 : X * K < 4 * D * K).
    { replace ((4 * Zpos m - 2) * (K * T * 1000000)) with (X * K * T) in Hlo by (unfold X; ring).
      lia. }
    assert (H3 : X < 4 * D) by (apply (Z.mul_lt_mono_pos_r K); lia).
    unfold X in H3.
    destruct Hb as [Hb|[Hb1 Hb2]].
    + pose proof (pow2_le (- e) 71 ltac:(lia)) as Hle. fold D in Hle.
      change (2 ^ 71) with 2361183241434822606848 in Hle. lia.
    + unfold D in H3. rewrite Hb1 in H3. change (2 ^ (- -72)) with 4722366482869645213696 in H3.
      unfold mantissa_1em6 in Hb2. lia.
  - destruct (Z.le_gt_cases n 21) as [|Hn]; [assumption|exfalso].
    pose proof (pow10_split (n - 22) 21 ltac:(lia) ltac:(lia)) as E0.
    replace (n - 22 + 21) with (n - 1) in E0 by lia.
    pose proof (pow10_pos (n - 22) ltac:(lia)) as HN.
    change (10 ^ 21) with 1000000000000000000000 in E0.
    set (D := 2 ^ (- e)) in *.
    destruct (Z.leb_spec 0 (n - k)).
    + pose proof (pow10_split (k - 1) (n - k) ltac:(lia) ltac:(lia)) as E1.
      replace (k - 1 + (n - k)) with (n - 1) in E1 by lia.
      pose proof (pow10_pos (n - k) ltac:(lia)) as HT.
      set (T := 10 ^ (n - k)) in *. set (K1 := 10 ^ (k - 1)) in *. set (N := 10 ^ (n - 22)) in *.
      assert (H1 : K1 * T <= s * T) by (apply Z.mul_le_mono_nonneg_r; lia).
      assert (H2 : 1 * 1000000000000000000000 <= N * 1000000000000000000000)
        by (apply Z.mul_le_mono_nonneg_r; lia).
      assert (H3 : 1000000000000000000000 <= s * T) by lia.
      assert (H4 : s * T * (4 * 1) <= s * T * (4 * D)) by (apply Z.mul_le_mono_nonneg_l; lia).
      lia.
    + pose proof (pow10_split (- (n - k)) (n - 1) ltac:(lia) ltac:(lia)) as E1.
      replace (- (n - k) + (n - 1)) with (k - 1) in E1 by lia.
      pose proof (pow10_pos (- (n - k)) ltac:(lia)) as HT.
      set (T := 10 ^ (- (n - k))) in *. set (N := 10 ^ (n - 22)) in *.
      set (K1 := 10 ^ (k - 1)) in *.
      assert (H2 : T * (1 * 1000000000000000000000) <= T * (N * 1000000000000000000000))
        by (apply Z.mul_le_mono_nonneg_l; lia).
      assert (H3 : T * 1000000000000000000000 <= s) by (rewrite E0 in E1; lia).
      assert (H4 : T * 1000000000000000000000 * (4 * D) <= s * (4 * D))
        by (apply Z.mul_le_mono_nonneg_r; lia).
      assert (H5 : 1000000000000000000000 * (4 * D) * T <= (4 * Zpos m + 2) * T) by lia.
      assert (H6 : 1000000000000000000000 * (4 * D) <= 4 * Zpos m + 2)
        by (apply (Z.mul_le_mono_pos_r _ _ T); lia).
      lia.
Qed.

Lemma valid_mantissa (s : bool) (m : positive) (e : Z) :
  valid_binary (S754_finite s m e) = true ->
  Zpos m < 2 ^ 53 /\ (2 ^ 52 <= Zpos m \/ e = -1074).
Proof.
  intros Hv. apply valid_digits in Hv. destruct Hv as (Hd & He & Hc).
  rewrite fexp64_eq in Hc. pose proof (digits2_bounds m) as [Hlo Hhi]. split.
  - eapply Z.lt_le_trans; [exact Hhi|]. apply pow2_le. lia.
  - destruct (Z.eq_dec e (-1074)) as [|Hne]; [right; assumption|left].
    assert (E : Zpos (digits2_pos m) = 53) by lia. rewrite E in Hlo. exact Hlo.
Qed.

(** [parseInt] applied to the string of a number between [1e-6] and [2^53]
    in absolute value reads its integer part. *)
Lemma toString_parse (x : number) (sg : bool) (m : positive) (e : Z) :
  Prim2SF x = S754_finite sg m e -> e <= 0 -> at_least_1em6 m e ->
  parseInt_math (Number_toString x) 0 = Some (sg, Zpos m / 2 ^ (- e)).
Proof.
  intros Hx He Hb. pose proof (Prim2SF_valid x) as Hv. rewrite Hx in Hv.
  apply valid_mantissa in Hv. destruct Hv as [Hm Hn].
  unfold Number_toString. rewrite Hx.
  destruct (Z.eq_dec e (-72)) as [E72|N72].
  - destruct (Z.eq_dec (Zpos m) mantissa_1em6) as [Em|Nm].
    + unfold mantissa_1em6 in Em. injection Em as ->. subst e.
      destruct sg; vm_compute; reflexivity.
    + destruct (shortest m e) as [[s k] n] eqn:Es.
      destruct (shortest_spec _ _ _ _ _ He Es) as (Hk & Hs & Hr & Hi).
      assert (Hr' : -6 < n <= 21).
      { apply (magnitude_range m e s k n); try assumption.
        right. destruct Hb as [Hb|[_ Hb]]; lia. }
      rewrite (layout_parse sg s k n Hk Hs Hr'). f_equal. f_equal.
      apply floor_of_rounding; assumption.
  - destruct (shortest m e) as [[s k] n] eqn:Es.
    destruct (shortest_spec _ _ _ _ _ He Es) as (Hk & Hs & Hr & Hi).
    assert (Hr' : -6 < n <= 21).
    { apply (magnitude_range m e s k n); try assumption.
      left. destruct Hb as [Hb|[Hb _]]; lia. }
    rewrite (layout_parse sg s k n Hk Hs Hr'). f_equal. f_equal.
    apply floor_of_rounding; assumption.
Qed.

Lemma truncZ_finite (x : number) (sg : bool) (m : positive) (e : Z) :
  Prim2SF x = S754_finite sg m e -> e <= 0 ->
  truncZ x = if sg then - (Zpos m / 2 ^ (- e)) else Zpos m / 2 ^ (- e).
Proof.
  intros Hx He. unfold truncZ. rewrite Hx. cbv zeta.
  destruct (Z.leb_spec 0 e); [|reflexivity].
  assert (e = 0) by lia. subst e. change (2 ^ (- 0)) with 1. change (2 ^ 0) with 1.
  rewrite Z.div_1_r, Z.mul_1_r. reflexivity.
Qed.

(** The setter path on such a number: truncation toward zero, then the
    clamp to [0, 255]. *)
Lemma stored_channel_trunc (x : number) (sg : bool) (m : positive) (e : Z) :
  Prim2SF x = S754_finite sg m e -> e <= 0 -> at_least_1em6 m e ->
  stored_channel (VNumber x) = Num (of_Z (clampZ 0 255 (truncZ x))).
Proof.
  intros Hx He Hb. rewrite channel_of_eq. unfold channel_of.
  change (ToString (VNumber x)) with (Number_toString x).
  rewrite (toString_parse x sg m e Hx He Hb), (truncZ_finite x sg m e Hx He). reflexivity.
Qed.

(** ** The products that [darken] and [lighten] hand to the setters *)

(** In the normal range, rounding keeps the exponent that the size of the
    mantissa calls for, up to one carry. *)
Lemma bra_exp (sx : bool) (mx : positive) (ex : Z) :
  53 <= Zpos (digits2_pos mx) ->
  -1074 <= Zpos (digits2_pos mx) + ex - 53 -> Zpos (digits2_pos mx) + ex - 52 <= 971 ->
  exists m e,
    binary_round_aux prec emax sx (Zpos mx) ex loc_Exact = S754_finite sx m e /\
    Zpos (digits2_pos mx) + ex - 53 <= e <= Zpos (digits2_pos mx) + ex - 52.
Proof.
  intros Hd Hlo Hhi. pose proof (bra_normal sx mx ex) as H. cbv zeta in H.
  destruct (H Hd Hlo) as (m2 & _ & _ & ->).
  destruct (Z.ltb_spec (Zpos m2) (2 ^ 53)).
  - destruct (Z.leb_spec (Zpos (digits2_pos mx) + ex - 53) 971); [|lia].
    eexists _, _. split; [reflexivity|lia].
  - destruct (Z.leb_spec (Zpos (digits2_pos mx) + ex - 52) 971); [|lia].
    eexists _, _. split; [reflexivity|lia].
Qed.

Lemma br_exp (sx : bool) (mx : positive) (ex : Z) :
  -1074 <= Zpos (digits2_pos mx) + ex - 53 -> Zpos (digits2_pos mx) + ex - 52 <= 971 ->
  exists m e,
    binary_round prec emax sx mx ex = S754_finite sx m e /\
    Zpos (digits2_pos mx) + ex - 53 <= e <= Zpos (digits2_pos mx) + ex - 52.
Proof.
  intros Hlo Hhi. destruct (Z.le_gt_cases (Zpos (digits2_pos mx)) 53) as [Hs|Hl].
  - pose proof (br_small sx mx ex) as H. cbv zeta in H. rewrite (H Hs Hlo).
    destruct (Z.leb_spec (Zpos (digits2_pos mx) + ex - 53) 971); [|lia].
    eexists _, _. split; [reflexivity|lia].
  - pose proof (br_large sx mx ex) as H. cbv zeta in H. rewrite (H ltac:(lia) Hlo).
    apply bra_exp; lia.
Qed.

Lemma digits_ge_of_le (m : positive) (k : Z) : 2 ^ k <= Zpos m -> k + 1 <= Zpos (digits2_pos m).
Proof.
  intros H. pose proof (digits2_bounds m) as [_ Hhi].
  destruct (Z.le_gt_cases (k + 1) (Zpos (digits2_pos m))) as [|Hgt]; [assumption|].
  pose proof (pow2_le (Zpos (digits2_pos m)) k ltac:(lia)). lia.
Qed.

(** [1 + p] for a clamped percentage [p]: a positive normal number between
    1 and 2. *)
Lemma one_plus_shape (c : number) :
  unit_shape (Prim2SF c) ->
  exists m e, Prim2SF (1 + c) = S754_finite false m e /\ -52 <= e <= -50.
Proof.
  intros Hc. rewrite add_spec, Prim2SF_1. pose proof (Prim2SF_valid c) as Hv.
  destruct Hc as [E|(m & e & E & Hm)]; rewrite E in *.
  - eexists _, _. split; [reflexivity|lia].
  - unfold SF64add, SFadd. set (ez := Z.min (-52) e).
    pose proof (shl_align_fst 4503599627370496 (-52) ez ltac:(unfold ez; lia)) as E1.
    pose proof (aligned_bound 4503599627370496 (-52) ez 1 ltac:(unfold ez; lia) ltac:(simpl; lia)) as B1.
    pose proof (aligned_bound m e ez 1 ltac:(unfold ez; lia) Hm) as B2.
    cbn [cond_Zopp]. rewrite <- Pos2Z.inj_add.
    set (p := (fst (shl_align 4503599627370496 (-52) ez) + fst (shl_align m e ez))%positive) in *.
    cbn [binary_normalize].
    assert (Hp : 2 ^ (- ez) <= Zpos p < 2 ^ (2 - ez)).
    { unfold p. rewrite Pos2Z.inj_add, E1. change (Zpos 4503599627370496) with (2 ^ 52).
      rewrite <- Z.pow_add_r by (unfold ez; lia).
      replace (52 + (-52 - ez)) with (- ez) by lia.
      replace (2 - ez) with (Z.succ (1 - ez)) by lia. rewrite Z.pow_succ_r by (unfold ez; lia).
      rewrite E1 in B1. change (Zpos 4503599627370496) with (2 ^ 52) in B1.
      rewrite <- Z.pow_add_r in B1 by (unfold ez; lia).
      replace (52 + (-52 - ez)) with (- ez) in B1 by lia.
      pose proof (Pos2Z.is_pos (fst (shl_align m e ez))). lia. }
    destruct Hp as [Hp1 Hp2].
    apply digits_ge_of_le in Hp1. apply digits_le_of_lt in Hp2.
    destruct (br_exp false p ez) as (m' & e' & -> & He'); try lia.
    eexists _, _. split; [reflexivity|lia].
Qed.

(** An integer channel: a zero or a positive normal number below 256. *)
Lemma channel_shape (z : Z) :
  0 <= z <= 255 ->
  Prim2SF (of_Z z) = S754_zero false \/
  exists m e, Prim2SF (of_Z z) = S754_finite false m e /\ -52 <= e <= -45.
Proof.
  intros Hz. destruct (Z.eq_dec z 0) as [->|Hn]; [left; reflexivity|right].
  rewrite Prim2SF_of_Z_small by (change (2 ^ 53) with 9007199254740992; lia).
  unfold canon. eexists _, _. split; [reflexivity|].
  pose proof (Z.log2_nonneg z).
  assert (Z.log2 z < 8) by (apply Z.log2_lt_pow2; [lia|change (2 ^ 8) with 256; lia]).
  lia.
Qed.

Lemma valid_normal_digits (s : bool) (m : positive) (e : Z) :
  valid_binary (S754_finite s m e) = true -> -1074 < e -> Zpos (digits2_pos m) = 53.
Proof.
  intros Hv He. apply valid_digits in Hv. destruct Hv as (Hd & _ & Hc).
  rewrite fexp64_eq in Hc. lia.
Qed.

(** The product of a channel and a factor between 1 and 2 is a zero or a
    number between [2^-52] and [2^12]. *)
Lemma bright_product_shape (z : Z) (f : number) (mf : positive) (ef : Z) :
  0 <= z <= 255 -> Prim2SF f = S754_finite false mf ef -> -52 <= ef <= -50 ->
  Prim2SF (of_Z z * f) = S754_zero false \/
  exists m e, Prim2SF (of_Z z * f) = S754_finite false m e /\ -52 <= e <= 0.
Proof.
  intros Hz Hf He. rewrite mul_spec, Hf.
  pose proof (Prim2SF_valid f) as Vf. rewrite Hf in Vf.
  pose proof (Prim2SF_valid (of_Z z)) as Vz.
  destruct (channel_shape z Hz) as [->|(m & e & E & Hez)]; [left; reflexivity|right].
  rewrite E in *. unfold SF64mul, SFmul. cbn [xorb].
  pose proof (valid_normal_digits _ _ _ Vz ltac:(lia)) as Dz.
  pose proof (valid_normal_digits _ _ _ Vf ltac:(lia)) as Df.
  pose proof (digits_mul m mf) as Hd. rewrite Dz, Df in Hd.
  destruct (bra_exp false (m * mf) (e + ef)) as (m' & e' & -> & He'); try lia.
  eexists _, _. split; [reflexivity|lia].
Qed.

Lemma truncated_zero (x : number) (s : bool) :
  Prim2SF x = S754_zero s -> stored_channel (VNumber x) = truncated x.
Proof.
  intros E. rewrite (stored_channel_zero x (Prim2SF_zero_cases x s E)).
  unfold truncated, truncZ. rewrite E. reflexivity.
Qed.

(** [lighten]: every product is truncated and clamped. *)
Lemma lighten_channel (z : Z) (c : number) :
  0 <= z <= 255 -> unit_shape (Prim2SF c) ->
  stored_channel (VNumber (of_Z z * (1 + c))) = truncated (of_Z z * (1 + c)).
Proof.
  intros Hz Hc. destruct (one_plus_shape c Hc) as (mf & ef & Ef & Hef).
  destruct (bright_product_shape z (1 + c) mf ef Hz Ef Hef) as [E|(m & e & E & He)].
  - exact (truncated_zero _ _ E).
  - apply (stored_channel_trunc _ false m e E); [lia|]. left. lia.
Qed.

Lemma Prim2SF_1em6 : Prim2SF 1e-6 = S754_finite false 4722366482869645 (-72).
Proof. reflexivity. Qed.

Lemma plain_notation_finite (x : number) (s : bool) (m : positive) (e : Z) :
  Prim2SF x = S754_finite s m e -> plain_notation x = true -> at_least_1em6 m e.
Proof.
  intros E H. unfold plain_notation in H. apply orb_prop in H. destruct H as [H|H].
  - rewrite FloatAxioms.eqb_spec, E in H. change (Prim2SF 0) with (S754_zero false) in H.
    destruct s; discriminate H.
  - rewrite FloatAxioms.leb_spec, abs_spec, E, Prim2SF_1em6 in H.
    unfold SFabs, SFleb, SFcompare in H. unfold at_least_1em6, mantissa_1em6.
    revert H. destruct (Z.compare_spec (-72) e) as [He|He|He].
    + change (Pos.compare_cont Eq 4722366482869645 m) with (4722366482869645 ?= m)%positive.
      destruct (Pos.compare_spec 4722366482869645 m) as [Hm|Hm|Hm]; intros H.
      * right. split; [symmetry; exact He|]. rewrite Hm. apply Z.le_refl.
      * right. split; [symmetry; exact He|]. apply Z.lt_le_incl. exact Hm.
      * discriminate H.
    + intros _. left. exact He.
    + intros H. discriminate H.
Qed.

(** The setter path on a product that is printed without a negative
    exponent: truncation and clamp. *)
Lemma stored_plain (x : number) :
  finite_shape 0 (Prim2SF x) -> plain_notation x = true ->
  stored_channel (VNumber x) = truncated x.
Proof.
  intros (s & [E|(m & e & E & He)]) Hp.
  - exact (truncated_zero _ _ E).
  - exact (stored_channel_trunc _ s m e E He (plain_notation_finite _ _ _ _ E Hp)).
Qed.

Lemma mul_fits (a b : number) (ka kb : Z) :
  mag_le ka (Prim2SF a) -> mag_le kb (Prim2SF b) -> ka + kb <= 52 ->
  finite_shape 0 (Prim2SF (a * b)).
Proof.
  intros Ha Hb Hk. rewrite mul_spec.
  pose proof (Prim2SF_valid a) as Va. pose proof (Prim2SF_valid b) as Vb.
  destruct (Prim2SF a) as [sa| | |sa ma ea], (Prim2SF b) as [sb| | |sb mb eb];
    try contradiction; try (eexists; left; reflexivity).
  simpl in Ha, Hb. exists (xorb sa sb).
  eapply small_shape_weaken; [|apply (SFmul_shape sa sb ma mb ea eb (ka + kb) Va Vb); lia].
  rewrite fexp64_eq. lia.
Qed.

Lemma channel_mag (z : Z) : 0 <= z <= 255 -> mag_le 8 (Prim2SF (of_Z z)).
Proof.
  intros Hz. pose proof (Prim2SF_valid (of_Z z)) as Vz.
  destruct (channel_shape z Hz) as [->|(m & e & E & He)]; [exact I|].
  rewrite E in *. simpl. rewrite (valid_normal_digits _ _ _ Vz ltac:(lia)). lia.
Qed.

Lemma factor_mag (c : number) :
  unit_shape (Prim2SF c) -> mag_le 3 (Prim2SF (1 - c)).
Proof.
  intros Hc. apply finite_shape_mag; [apply Prim2SF_valid|lia|].
  rewrite sub_spec, Prim2SF_1. destruct Hc as [->|(m & e & -> & Hm)].
  - exists false. right. eexists _, _. split; [reflexivity|lia].
  - destruct (SFadd_shape false false 4503599627370496 m (-52) e 1 ltac:(simpl; lia) Hm ltac:(lia))
      as [_ (s & Hs)].
    exists s. eapply small_shape_weaken; [|exact Hs]. rewrite fexp64_eq. lia.
Qed.

(** [darken]: a product printed without a negative exponent is truncated
    and clamped. *)
Lemma darken_channel (z : Z) (c : number) :
  0 <= z <= 255 -> unit_shape (Prim2SF c) ->
  plain_notation (of_Z z * (1 - c)) = true ->
  stored_channel (VNumber (of_Z z * (1 - c))) = truncated (of_Z z * (1 - c)).
Proof.
  intros Hz Hc Hp. apply stored_plain; [|exact Hp].
  apply (mul_fits _ _ 8 3); [apply channel_mag, Hz|apply factor_mag, Hc|lia].
Qed.

Lemma clamped_percent_range (p : value) :
  isNaN (parseFloat p) = false ->
  (0 <=? clamped_percent p)%float = true /\ (clamped_percent p <=? 1)%float = true.
Proof. intros H. exact (numberBound_range _ _ _ _ Prim2SF_1 H). Qed.





(** ** The interpolants that [blendWith] hands to the setters *)







Lemma blendWith_at (this color : loc) (p : value) (h : heap) (o oc : t) :
  h !! this = Some o -> h !! color = Some oc ->
  blendWith this color p h
  = (this, <[this := mk
       (stored_channel (VNumber (interpolant (ToNumber (r oc)) (ToNumber (r o)) (clamped_percent p))))
       (stored_channel (VNumber (interpolant (ToNumber (g oc)) (ToNumber (g o)) (clamped_percent p))))
       (stored_channel (VNumber (interpolant (ToNumber (b oc)) (ToNumber (b o)) (clamped_percent p))))
       (opacity o)]> h).
Proof.
  intros Ho Hc. unfold blendWith, interpolant, clamped_percent. cbv zeta.
  set (c := numberBound (parseFloat p) 0 1).
  unfold bind at 1. rewrite (get_at _ _ _ _ Hc).
  unfold bind at 1. rewrite (get_at _ _ _ _ Ho).
  unfold bind at 1. rewrite (setRed_at _ _ _ _ Ho).
  set (o1 := with_r _ o).
  assert (Hc1 : exists oc1, <[this := o1]> h !! color = Some oc1 /\ g oc1 = g oc /\ b oc1 = b oc).
  { destruct (decide (color = this)) as [->|Hne].
    - exists o1. rewrite lookup_insert_eq. rewrite Ho in Hc. injection Hc as <-. auto.
    - exists oc. rewrite lookup_insert_ne by congruence. auto. }
  destruct Hc1 as (oc1 & Hc1 & Eg & _).
  unfold bind at 1. rewrite (get_at _ _ _ _ Hc1), Eg.
  unfold bind at 1. rewrite (get_at _ _ _ _ (lookup_insert_eq _ _ _)).
  unfold bind at 1. rewrite (setGreen_at _ _ _ _ (lookup_insert_eq _ _ _)), insert_insert_eq.
  set (o2 := with_g _ o1).
  assert (Hc2 : exists oc2, <[this := o2]> h !! color = Some oc2 /\ b oc2 = b oc).
  { destruct (decide (color = this)) as [->|Hne].
    - exists o2. rewrite lookup_insert_eq. rewrite Ho in Hc. injection Hc as <-. auto.
    - exists oc. rewrite lookup_insert_ne by congruence. auto. }
  destruct Hc2 as (oc2 & Hc2 & Eb).
  unfold bind at 1. rewrite (get_at _ _ _ _ Hc2), Eb.
  unfold bind at 1. rewrite (get_at _ _ _ _ (lookup_insert_eq _ _ _)).
  unfold bind at 1. rewrite (setBlue_at _ _ _ _ (lookup_insert_eq _ _ _)), insert_insert_eq.
  reflexivity.
Qed.




(** ** Rounding, for any location *)

Lemma normalized_round (sx : bool) (mr e1 : Z) :
  0 <= mr <= 2 ^ 53 -> -1074 <= e1 ->
  (let '(mrs, e2) := shr_fexp prec emax mr e1 loc_Exact in
   match shr_m mrs with
   | Z0 => S754_zero sx
   | Zpos m => if e2 <=? emax - prec then S754_finite sx m e2 else S754_infinity sx
   | Zneg _ => S754_nan
   end) = normalized sx mr e1.
Proof.
  intros Hm He. change (emax - prec) with 971. unfold normalized.
  destruct mr as [|m|m]; [| |lia].
  - unfold shr_fexp, shr. simpl Zdigits2. rewrite fexp64_eq.
    destruct (Z.max (0 + e1 - 53) (-1074) - e1) as [|p|p] eqn:En; try lia; reflexivity.
  - destruct (Z.ltb_spec (Zpos m) (2 ^ 53)) as [Hlt|Hge].
    + pose proof (digits_le_of_lt m 53 Hlt) as Hd.
      unfold shr_fexp, shr. rewrite Zdigits2_pos, fexp64_eq.
      destruct (Z.max (Zpos (digits2_pos m) + e1 - 53) (-1074) - e1) as [|p|p] eqn:En;
        try lia; reflexivity.
    + assert (Em : Zpos m = 2 ^ 53) by lia.
      assert (Hd : Zpos (digits2_pos m) = 54).
      { apply digits2_unique. rewrite Em. split; reflexivity. }
      destruct (shr_fexp_gen m e1 loc_Exact) as (mrs2 & Hs2 & Hm2 & _).
      { rewrite Hd, fexp64_eq. lia. }
      rewrite Hd in Hs2, Hm2.
      assert (E2 : fexp prec emax (54 + e1) = e1 + 1) by (rewrite fexp64_eq; lia).
      rewrite E2 in Hs2, Hm2. rewrite Hs2.
      replace (e1 + 1 - e1) with 1 in Hm2 by lia. rewrite Hm2, Em. reflexivity.
Qed.

(** [binary_round_aux] on a mantissa that is not shorter than its format
    asks for: the mantissa is cut at the exponent of the format and moves
    up by at most one; it stays when nothing is cut off. *)
Lemma bra_gen (sx : bool) (mx : positive) (ex : Z) (l : location) :
  ex <= fexp prec emax (Zpos (digits2_pos mx) + ex) ->
  exists mr,
    Zpos mx / 2 ^ (fexp prec emax (Zpos (digits2_pos mx) + ex) - ex) <= mr
      <= Zpos mx / 2 ^ (fexp prec emax (Zpos (digits2_pos mx) + ex) - ex) + 1 /\
    (l = loc_Exact -> (2 ^ (fexp prec emax (Zpos (digits2_pos mx) + ex) - ex) | Zpos mx) ->
     mr = Zpos mx / 2 ^ (fexp prec emax (Zpos (digits2_pos mx) + ex) - ex)) /\
    mr <= 2 ^ 53 /\
    binary_round_aux prec emax sx (Zpos mx) ex l
    = normalized sx mr (fexp prec emax (Zpos (digits2_pos mx) + ex)).
Proof.
  set (e1 := fexp prec emax (Zpos (digits2_pos mx) + ex)). intros He.
  destruct (shr_fexp_gen mx ex l He) as (mrs & Hs & Hm & Hx). fold e1 in Hs, Hm, Hx.
  pose proof (rne_bounds (shr_m mrs) (loc_of_shr_record mrs)) as Hr.
  set (mr := round_nearest_even (shr_m mrs) (loc_of_shr_record mrs)) in *.
  rewrite Hm in Hr.
  pose proof (digits2_bounds mx) as Hb. set (d := Zpos (digits2_pos mx)) in *.
  assert (He1 : -1074 <= e1) by (unfold e1; rewrite fexp64_eq; lia).
  assert (Hd53 : d - (e1 - ex) <= 53) by (unfold e1; rewrite fexp64_eq; lia).
  assert (Hm1 : 0 <= Zpos mx / 2 ^ (e1 - ex) < 2 ^ 53).
  { pose proof (pow2_pos (e1 - ex) ltac:(lia)).
    split; [apply Z.div_pos; lia|]. apply Z.div_lt_upper_bound; [lia|].
    rewrite <- Z.pow_add_r by lia.
    eapply Z.lt_le_trans; [apply Hb|]. apply pow2_le. unfold d. lia. }
  exists mr. split; [exact Hr|]. split.
  { intros El Hdiv. unfold mr. rewrite (Hx El Hdiv). reflexivity. }
  split; [lia|].
  unfold binary_round_aux. rewrite Hs. fold mr.
  apply normalized_round; lia.
Qed.

(** ** The real value of a double, and the order of doubles *)

Lemma pow2Q_pos (e : Z) : (0 < 2 ^ e)%Q.
Proof. apply Qpower_0_lt. reflexivity. Qed.

Lemma pow2Q_add (a b : Z) : (2 ^ (a + b) == 2 ^ a * 2 ^ b)%Q.
Proof. apply Qpower_plus. discriminate. Qed.

Lemma pow2Q_Z (k : Z) : 0 <= k -> (inject_Z (2 ^ k) == 2 ^ k)%Q.
Proof. intros H. rewrite Zpower_Qpower by assumption. reflexivity. Qed.

Lemma real_shift (m e k : Z) : 0 <= k -> (real (m * 2 ^ k) (e - k) == real m e)%Q.
Proof.
  intros Hk. unfold real. rewrite inject_Z_mult, pow2Q_Z by assumption.
  replace e with ((e - k) + k) at 2 by lia. rewrite pow2Q_add. ring.
Qed.

Lemma real_le (a b e : Z) : (real a e <= real b e)%Q <-> a <= b.
Proof.
  unfold real. pose proof (pow2Q_pos e) as Hp. split; intros H.
  - rewrite Zle_Qle. apply Qmult_le_r with (z := (2 ^ e)%Q); assumption.
  - apply Qmult_le_r; [assumption|]. rewrite <- Zle_Qle. exact H.
Qed.

Lemma real_lt (a b e : Z) : (real a e < real b e)%Q <-> a < b.
Proof.
  unfold real. pose proof (pow2Q_pos e) as Hp. split; intros H.
  - rewrite Zlt_Qlt. apply Qmult_lt_r with (z := (2 ^ e)%Q); assumption.
  - apply Qmult_lt_r; [assumption|]. rewrite <- Zlt_Qlt. exact H.
Qed.

Lemma real_mul (a b ea eb : Z) : (real a ea * real b eb == real (a * b) (ea + eb))%Q.
Proof. unfold real. rewrite inject_Z_mult, pow2Q_add. ring. Qed.

Lemma real_add (a b e : Z) : (real a e + real b e == real (a + b) e)%Q.
Proof. unfold real. rewrite inject_Z_plus. ring. Qed.

(** Comparing at the lower of two exponents. *)
Lemma real_le_low (a b ea eb : Z) :
  ea <= eb -> (real a ea <= real b eb)%Q <-> a <= b * 2 ^ (eb - ea).
Proof.
  intros H. rewrite <- (real_shift b eb (eb - ea)) by lia.
  replace (eb - (eb - ea)) with ea by lia. apply real_le.
Qed.

Lemma real_le_high (a b ea eb : Z) :
  eb <= ea -> (real a ea <= real b eb)%Q <-> a * 2 ^ (ea - eb) <= b.
Proof.
  intros H. rewrite <- (real_shift a ea (ea - eb)) by lia.
  replace (ea - (ea - eb)) with eb by lia. apply real_le.
Qed.

Lemma real_pos (m : positive) (e : Z) : (0 < real (Zpos m) e)%Q.
Proof.
  unfold real. apply Qmult_lt_0_compat; [|apply pow2Q_pos].
  change 0%Q with (inject_Z 0). rewrite <- Zlt_Qlt. lia.
Qed.

(** A valid positive double: its mantissa and exponent. *)
Lemma valid_shape (s : bool) (m : positive) (e : Z) :
  valid_binary (S754_finite s m e) = true ->
  Zpos m < 2 ^ 53 /\ -1074 <= e <= 971 /\ (-1074 < e -> 2 ^ 52 <= Zpos m).
Proof.
  intros Hv. destruct (valid_mantissa _ _ _ Hv) as [H1 H2].
  apply valid_digits in Hv. destruct Hv as (_ & He & _).
  split; [exact H1|]. split; [exact He|]. intros Hn. destruct H2; [assumption|lia].
Qed.

(** The order of two valid positive doubles is the order of their
    values. *)
Lemma SFleb_of_value (m1 m2 : positive) (e1 e2 : Z) :
  valid_binary (S754_finite false m1 e1) = true ->
  valid_binary (S754_finite false m2 e2) = true ->
  (real (Zpos m1) e1 <= real (Zpos m2) e2)%Q ->
  SFleb (S754_finite false m1 e1) (S754_finite false m2 e2) = true.
Proof.
  intros V1 V2 H. apply valid_shape in V1, V2.
  destruct V1 as (A1 & B1 & C1), V2 as (A2 & B2 & C2).
  change (2 ^ 53) with 9007199254740992 in *. change (2 ^ 52) with 4503599627370496 in *.
  unfold SFleb, SFcompare. destruct (Z.compare_spec e1 e2) as [E|E|E]; [|reflexivity|].
  - subst e2. apply real_le in H.
    change (Pos.compare_cont Eq m1 m2) with (m1 ?= m2)%positive.
    destruct (Pos.compare_spec m1 m2); try reflexivity. lia.
  - exfalso. apply real_le_high in H; [|lia].
    pose proof (pow2_le 1 (e1 - e2) ltac:(lia)) as Hp. change (2 ^ 1) with 2 in Hp.
    specialize (C1 ltac:(lia)). nia.
Qed.

Lemma value_of_SFleb (m1 m2 : positive) (e1 e2 : Z) :
  valid_binary (S754_finite false m1 e1) = true ->
  valid_binary (S754_finite false m2 e2) = true ->
  SFleb (S754_finite false m1 e1) (S754_finite false m2 e2) = true ->
  (real (Zpos m1) e1 <= real (Zpos m2) e2)%Q.
Proof.
  intros V1 V2. apply valid_shape in V1, V2.
  destruct V1 as (A1 & B1 & C1), V2 as (A2 & B2 & C2).
  change (2 ^ 53) with 9007199254740992 in *. change (2 ^ 52) with 4503599627370496 in *.
  unfold SFleb, SFcompare. destruct (Z.compare_spec e1 e2) as [E|E|E].
  - subst e2. change (Pos.compare_cont Eq m1 m2) with (m1 ?= m2)%positive.
    destruct (Pos.compare_spec m1 m2); intros Hc; try discriminate Hc; apply real_le; lia.
  - intros _. apply real_le_low; [lia|].
    pose proof (pow2_le 1 (e2 - e1) ltac:(lia)) as Hp. change (2 ^ 1) with 2 in Hp.
    specialize (C2 ltac:(lia)). nia.
  - intros H. discriminate H.
Qed.

(** ** Rounding does not cross a double *)

Lemma pow2Q_le (a b : Z) : a <= b -> (2 ^ a <= 2 ^ b)%Q.
Proof. intros H. apply Qpower_le_compat_l; [assumption|]. discriminate. Qed.

Lemma pow2Q_lt_inv (a b : Z) : (2 ^ a < 2 ^ b)%Q -> a < b.
Proof. intros H. apply (Qpower_lt_compat_l_inv 2); [assumption|reflexivity]. Qed.

Lemma real_lower (m : positive) (e : Z) :
  (2 ^ (Zpos (digits2_pos m) - 1 + e) <= real (Zpos m) e)%Q.
Proof.
  pose proof (digits2_bounds m) as [Hlo _].
  rewrite pow2Q_add, <- pow2Q_Z by lia. apply real_le. exact Hlo.
Qed.

Lemma real_upper (m : positive) (e : Z) :
  (real (Zpos m) e < 2 ^ (Zpos (digits2_pos m) + e))%Q.
Proof.
  pose proof (digits2_bounds m) as [_ Hhi].
  rewrite pow2Q_add, <- pow2Q_Z by lia. apply real_lt. exact Hhi.
Qed.

(** The magnitudes of two positive numbers are ordered as the numbers. *)
Lemma magnitude_le (m1 m2 : positive) (e1 e2 : Z) :
  (real (Zpos m1) e1 <= real (Zpos m2) e2)%Q ->
  Zpos (digits2_pos m1) + e1 <= Zpos (digits2_pos m2) + e2.
Proof.
  intros H. pose proof (real_lower m1 e1) as H1. pose proof (real_upper m2 e2) as H2.
  assert (H3 : (2 ^ (Zpos (digits2_pos m1) - 1 + e1) < 2 ^ (Zpos (digits2_pos m2) + e2))%Q).
  { eapply Qle_lt_trans; [exact H1|]. eapply Qle_lt_trans; [exact H|exact H2]. }
  apply pow2Q_lt_inv in H3. lia.
Qed.

Lemma valid_exponent (s : bool) (m : positive) (e : Z) :
  valid_binary (S754_finite s m e) = true -> e = fexp prec emax (Zpos (digits2_pos m) + e).
Proof. intros H. apply valid_digits in H. tauto. Qed.

Lemma compare_cont_le (a b : positive) :
  Zpos a <= Zpos b ->
  match Pos.compare_cont Eq a b with Gt => false | _ => true end = true.
Proof.
  intros H. change (Pos.compare_cont Eq a b) with (a ?= b)%positive.
  destruct (Pos.compare_spec a b) as [E|E|E]; try reflexivity.
  apply Pos2Z.pos_lt_pos in E. exfalso. apply (Z.lt_irrefl (Zpos a)).
  eapply Z.le_lt_trans; [exact H|exact E].
Qed.

Lemma normalized_le (mr e1 : Z) (mB : positive) (eB : Z) :
  valid_binary (S754_finite false mB eB) = true ->
  0 <= mr <= 2 ^ 53 -> e1 <= eB -> mr <= Zpos mB * 2 ^ (eB - e1) ->
  SFleb (normalized false mr e1) (S754_finite false mB eB) = true.
Proof.
  intros VB Hm He Hb. apply valid_shape in VB. destruct VB as (A & B & C).
  unfold normalized.
  change (2 ^ 53) with 9007199254740992 in *. change (2 ^ 52) with 4503599627370496 in *.
  change (2 ^ 52)%positive with 4503599627370496%positive.
  destruct mr as [|m|m]; [reflexivity| |lia].
  destruct (Z.ltb_spec (Zpos m) 9007199254740992) as [Hlt|Hge].
  - destruct (Z.leb_spec e1 971); [|lia]. unfold SFleb, SFcompare.
    destruct (Z.compare_spec e1 eB) as [E|E|E]; [|reflexivity|lia].
    subst eB. rewrite Z.sub_diag in Hb. change (2 ^ 0) with 1 in Hb.
    apply compare_cont_le. lia.
  - assert (Hk : 1 <= eB - e1).
    { destruct (Z.le_gt_cases 1 (eB - e1)); [assumption|].
      assert (E : eB - e1 = 0) by lia. rewrite E in Hb. change (2 ^ 0) with 1 in Hb. lia. }
    destruct (Z.leb_spec (e1 + 1) 971); [|lia]. unfold SFleb, SFcompare.
    destruct (Z.compare_spec (e1 + 1) eB) as [E|E|E]; [|reflexivity|lia].
    assert (E' : eB - e1 = 1) by lia. rewrite E' in Hb. change (2 ^ 1) with 2 in Hb.
    apply compare_cont_le. change (Zpos 4503599627370496) with 4503599627370496. lia.
Qed.

Lemma normalized_ge (mr e1 : Z) (mB : positive) (eB : Z) :
  1 <= mr <= 2 ^ 53 -> eB <= e1 -> (e1 = eB -> Zpos mB <= mr) ->
  SFleb (S754_finite false mB eB) (normalized false mr e1) = true.
Proof.
  intros Hm He Hb. unfold normalized.
  change (2 ^ 53) with 9007199254740992 in *.
  destruct mr as [|m|m]; [lia| |lia].
  destruct (Z.ltb_spec (Zpos m) 9007199254740992) as [Hlt|Hge].
  - destruct (Z.leb_spec e1 971); [|reflexivity]. unfold SFleb, SFcompare.
    destruct (Z.compare_spec eB e1) as [E|E|E]; [|reflexivity|lia].
    specialize (Hb (eq_sym E)). apply compare_cont_le. exact Hb.
  - destruct (Z.leb_spec (e1 + 1) 971); [|reflexivity]. unfold SFleb, SFcompare.
    destruct (Z.compare_spec eB (e1 + 1)) as [E|E|E]; [lia|reflexivity|lia].
Qed.

(** Rounding a number that is at most the double [B] gives at most
    [B]. *)
Lemma bra_le (mx : positive) (ex : Z) (l : location) (mB : positive) (eB : Z) :
  valid_binary (S754_finite false mB eB) = true ->
  ex <= fexp prec emax (Zpos (digits2_pos mx) + ex) -> ex <= eB ->
  Zpos mx + excess l <= Zpos mB * 2 ^ (eB - ex) ->
  SFleb (binary_round_aux prec emax false (Zpos mx) ex l) (S754_finite false mB eB) = true.
Proof.
  intros VB He HeB Hb.
  set (e1 := fexp prec emax (Zpos (digits2_pos mx) + ex)) in *.
  assert (Hx0 : 0 <= excess l <= 1) by (destruct l; simpl; lia).
  assert (He1 : e1 <= eB).
  { rewrite (valid_exponent _ _ _ VB). apply fexp_mono. apply magnitude_le.
    apply real_le_low; [exact HeB|]. lia. }
  destruct (bra_gen false mx ex l He) as (mr & Hr & Hx & Hm & ->). fold e1 in Hr, Hx |- *.
  pose proof (pow2_pos (e1 - ex) ltac:(lia)) as HN.
  pose proof (pow2_pos (eB - e1) ltac:(lia)) as HK.
  assert (EB : 2 ^ (eB - ex) = 2 ^ (eB - e1) * 2 ^ (e1 - ex)).
  { rewrite <- Z.pow_add_r by lia. f_equal. lia. }
  rewrite EB in Hb.
  set (N := 2 ^ (e1 - ex)) in *. set (MB := Zpos mB * 2 ^ (eB - e1)).
  replace (Zpos mB * (2 ^ (eB - e1) * N)) with (MB * N) in Hb by (unfold MB; ring).
  pose proof (Z.div_mod (Zpos mx) N ltac:(lia)) as Hdm.
  pose proof (Z.mod_pos_bound (Zpos mx) N HN) as Hrho.
  set (q := Zpos mx / N) in *. set (rho := Zpos mx mod N) in *.
  assert (Hq0 : 0 <= q) by (apply Z.div_pos; lia).
  apply normalized_le; [exact VB|lia|exact He1|]. fold MB.
  destruct (Z.lt_ge_cases q MB) as [Hlt|Hge]; [lia|].
  assert (Hqm : q * N <= MB * N) by lia.
  assert (Hq : q = MB).
  { apply Z.le_antisymm; [|lia]. apply (Z.mul_le_mono_pos_r _ _ N HN). lia. }
  assert (Hrho0 : rho = 0) by (rewrite Hq in Hdm; lia).
  assert (Hl : excess l = 0) by (rewrite Hq in Hdm; lia).
  rewrite (Hx ltac:(destruct l; [reflexivity|discriminate Hl])
              ltac:(exists q; rewrite Hdm, Hrho0; ring)). lia.
Qed.

(** Rounding a number that is at least the double [B] gives at least
    [B]. *)
Lemma bra_ge (mx : positive) (ex : Z) (l : location) (mB : positive) (eB : Z) :
  valid_binary (S754_finite false mB eB) = true ->
  ex <= fexp prec emax (Zpos (digits2_pos mx) + ex) ->
  (real (Zpos mB) eB <= real (Zpos mx) ex)%Q ->
  SFleb (S754_finite false mB eB) (binary_round_aux prec emax false (Zpos mx) ex l) = true.
Proof.
  intros VB He Hb.
  set (e1 := fexp prec emax (Zpos (digits2_pos mx) + ex)) in *.
  assert (He1 : eB <= e1).
  { rewrite (valid_exponent _ _ _ VB). apply fexp_mono. apply magnitude_le. exact Hb. }
  destruct (bra_gen false mx ex l He) as (mr & Hr & Hx & Hm & ->). fold e1 in Hr, Hx |- *.
  pose proof (pow2_pos (e1 - ex) ltac:(lia)) as HN.
  pose proof (digits2_bounds mx) as Hd.
  apply valid_shape in VB. destruct VB as (A & B & C).
  assert (Hq : e1 = eB -> Zpos mB <= Zpos mx / 2 ^ (e1 - ex)).
  { intros E. apply Z.div_le_lower_bound; [lia|].
    apply real_le_high in Hb; [|lia]. rewrite E. lia. }
  assert (Hq1 : 1 <= Zpos mx / 2 ^ (e1 - ex)).
  { destruct (Z.eq_dec e1 eB) as [E|E]; [specialize (Hq E); lia|].
    assert (En : e1 - ex = Zpos (digits2_pos mx) - 53) by (unfold e1 in *; rewrite fexp64_eq in *; lia).
    rewrite En. apply Z.div_le_lower_bound; [apply pow2_pos; lia|].
    eapply Z.le_trans; [|apply Hd]. rewrite Z.mul_1_r. apply pow2_le. lia. }
  apply normalized_ge; [lia|exact He1|]. intros E. specialize (Hq E). lia.
Qed.

(** ** Products and sums of positive doubles against a bound *)

Lemma bra_exact_le (mx : positive) (ex : Z) (mB : positive) (eB : Z) :
  valid_binary (S754_finite false mB eB) = true ->
  ex <= fexp prec emax (Zpos (digits2_pos mx) + ex) ->
  (real (Zpos mx) ex <= real (Zpos mB) eB)%Q ->
  SFleb (binary_round_aux prec emax false (Zpos mx) ex loc_Exact) (S754_finite false mB eB) = true.
Proof.
  intros VB He H.
  assert (HeB : ex <= eB).
  { eapply Z.le_trans; [exact He|]. rewrite (valid_exponent _ _ _ VB).
    apply fexp_mono, magnitude_le, H. }
  apply bra_le; try assumption. simpl excess. rewrite Z.add_0_r.
  apply real_le_low; assumption.
Qed.

(** [shl_align] keeps the value and brings the exponent down to the one
    asked for. *)
Lemma shl_align_value (m : positive) (e e' : Z) :
  (real (Zpos (fst (shl_align m e e'))) (snd (shl_align m e e')) == real (Zpos m) e)%Q /\
  snd (shl_align m e e') = Z.min e e'.
Proof.
  unfold shl_align. destruct (e' - e) as [|p|p] eqn:E; cbn [fst snd].
  - split; [reflexivity|lia].
  - pose proof (Pos2Z.is_pos p). split; [reflexivity|lia].
  - pose proof (Pos2Z.neg_is_neg p). split; [|lia].
    rewrite iter_xO_Z. replace e' with (e - Zpos p) by lia.
    apply real_shift. lia.
Qed.

Lemma real_digits (m1 m2 : positive) (e1 e2 : Z) :
  (real (Zpos m1) e1 == real (Zpos m2) e2)%Q ->
  Zpos (digits2_pos m1) + e1 = Zpos (digits2_pos m2) + e2.
Proof.
  intros H. apply Z.le_antisymm; apply magnitude_le; rewrite H; apply Qle_refl.
Qed.

(** [binary_round] as [binary_round_aux] on an aligned mantissa of the
    same value. *)
Lemma br_aligned (mx : positive) (ex : Z) :
  exists (mz : positive) (ez : Z),
    binary_round prec emax false mx ex = binary_round_aux prec emax false (Zpos mz) ez loc_Exact /\
    (real (Zpos mz) ez == real (Zpos mx) ex)%Q /\
    ez <= fexp prec emax (Zpos (digits2_pos mz) + ez).
Proof.
  unfold binary_round.
  pose proof (shl_align_value mx ex (fexp prec emax (Zpos (digits2_pos mx) + ex))) as [Hv Hs].
  destruct (shl_align mx ex (fexp prec emax (Zpos (digits2_pos mx) + ex))) as [mz ez].
  cbn [fst snd] in Hv, Hs. exists mz, ez. split; [reflexivity|]. split; [exact Hv|].
  rewrite (real_digits _ _ _ _ Hv). lia.
Qed.

Lemma br_le (mx : positive) (ex : Z) (mB : positive) (eB : Z) :
  valid_binary (S754_finite false mB eB) = true ->
  (real (Zpos mx) ex <= real (Zpos mB) eB)%Q ->
  SFleb (binary_round prec emax false mx ex) (S754_finite false mB eB) = true.
Proof.
  intros VB H. destruct (br_aligned mx ex) as (mz & ez & -> & Hv & He).
  apply bra_exact_le; try assumption. rewrite Hv. exact H.
Qed.

Lemma br_ge (mx : positive) (ex : Z) (mB : positive) (eB : Z) :
  valid_binary (S754_finite false mB eB) = true ->
  (real (Zpos mB) eB <= real (Zpos mx) ex)%Q ->
  SFleb (S754_finite false mB eB) (binary_round prec emax false mx ex) = true.
Proof.
  intros VB H. destruct (br_aligned mx ex) as (mz & ez & -> & Hv & He).
  apply bra_ge; try assumption. rewrite Hv. exact H.
Qed.

(** The product of two valid positive doubles. *)
Lemma mul_le (mx my mB : positive) (ex ey eB : Z) :
  valid_binary (S754_finite false mx ex) = true ->
  valid_binary (S754_finite false my ey) = true ->
  valid_binary (S754_finite false mB eB) = true ->
  (real (Zpos mx) ex * real (Zpos my) ey <= real (Zpos mB) eB)%Q ->
  SFleb (SF64mul (S754_finite false mx ex) (S754_finite false my ey)) (S754_finite false mB eB)
  = true.
Proof.
  intros Vx Vy VB H. unfold SF64mul, SFmul. cbn [xorb].
  apply bra_exact_le; [exact VB| |].
  - apply valid_digits in Vx, Vy. destruct Vx as (Hdx & Hex & Cx), Vy as (Hdy & Hey & Cy).
    pose proof (digits_mul mx my) as [Hd1 Hd2]. rewrite fexp64_eq in *.
    pose proof (Pos2Z.is_pos (digits2_pos mx)). pose proof (Pos2Z.is_pos (digits2_pos my)). lia.
  - rewrite Pos2Z.inj_mul, <- real_mul. exact H.
Qed.

(** The sum of two positive doubles. *)
Lemma add_sum (mx my : positive) (ex ey : Z) :
  exists p : positive,
    SF64add (S754_finite false mx ex) (S754_finite false my ey)
    = binary_round prec emax false p (Z.min ex ey) /\
    (real (Zpos p) (Z.min ex ey) == real (Zpos mx) ex + real (Zpos my) ey)%Q.
Proof.
  unfold SF64add, SFadd. cbn [cond_Zopp].
  pose proof (shl_align_value mx ex (Z.min ex ey)) as [Hx Sx].
  pose proof (shl_align_value my ey (Z.min ex ey)) as [Hy Sy].
  rewrite <- Pos2Z.inj_add. cbn [binary_normalize].
  eexists. split; [reflexivity|].
  rewrite Pos2Z.inj_add, <- real_add.
  replace (Z.min ex (Z.min ex ey)) with (Z.min ex ey) in Sx by lia.
  replace (Z.min ey (Z.min ex ey)) with (Z.min ex ey) in Sy by lia.
  rewrite Sx in Hx. rewrite Sy in Hy. rewrite Hx, Hy. reflexivity.
Qed.

Lemma add_le (mx my mB : positive) (ex ey eB : Z) :
  valid_binary (S754_finite false mB eB) = true ->
  (real (Zpos mx) ex + real (Zpos my) ey <= real (Zpos mB) eB)%Q ->
  SFleb (SF64add (S754_finite false mx ex) (S754_finite false my ey)) (S754_finite false mB eB)
  = true.
Proof.
  intros VB H. destruct (add_sum mx my ex ey) as (p & -> & Hp).
  apply br_le; [exact VB|]. rewrite Hp. exact H.
Qed.

Lemma add_ge (mx my mB : positive) (ex ey eB : Z) :
  valid_binary (S754_finite false mB eB) = true ->
  (real (Zpos mB) eB <= real (Zpos mx) ex + real (Zpos my) ey)%Q ->
  SFleb (S754_finite false mB eB) (SF64add (S754_finite false mx ex) (S754_finite false my ey))
  = true.
Proof.
  intros VB H. destruct (add_sum mx my ex ey) as (p & -> & Hp).
  apply br_ge; [exact VB|]. rewrite Hp. exact H.
Qed.

(** ** Quotients of normal positive doubles against a bound *)

Lemma excess_new_location (n r : Z) : excess (new_location n r) = if r =? 0 then 0 else 1.
Proof.
  unfold new_location, new_location_even, new_location_odd.
  destruct (Z.even n), (r =? 0); reflexivity.
Qed.

(** The division of two normal doubles: the quotient of the first
    mantissa, moved up by 53 bits, by the second, with the remainder
    recorded in the location. *)
Lemma div_core (mx my : positive) (ex ey : Z) :
  Zpos (digits2_pos mx) = 53 -> Zpos (digits2_pos my) = 53 -> -1021 <= ex - ey ->
  exists (q : positive) (r : Z) (l : location),
    SF64div (S754_finite false mx ex) (S754_finite false my ey)
    = binary_round_aux prec emax false (Zpos q) (ex - ey - 53) l /\
    Zpos mx * 2 ^ 53 = Zpos q * Zpos my + r /\ 0 <= r < Zpos my /\
    excess l = (if r =? 0 then 0 else 1) /\
    2 ^ 52 <= Zpos q /\
    ex - ey - 53 <= fexp prec emax (Zpos (digits2_pos q) + (ex - ey - 53)).
Proof.
  intros Dx Dy He. unfold SF64div, SFdiv, SFdiv_core_binary. cbn [xorb].
  change (Zdigits2 (Zpos mx)) with (Zpos (digits2_pos mx)).
  change (Zdigits2 (Zpos my)) with (Zpos (digits2_pos my)).
  rewrite Dx, Dy, fexp64_eq.
  replace (Z.min (Z.max (53 + ex - (53 + ey) - 53) (-1074)) (ex - ey)) with (ex - ey - 53) by lia.
  replace (ex - ey - (ex - ey - 53)) with 53 by lia. cbv iota.
  rewrite Z.shiftl_mul_pow2 by lia.
  pose proof (Z.div_eucl_eq (Zpos mx * 2 ^ 53) (Zpos my) ltac:(lia)) as Hdm.
  pose proof (Z.mod_pos_bound (Zpos mx * 2 ^ 53) (Zpos my) ltac:(lia)) as Hr.
  unfold Z.modulo in Hr.
  destruct (Z.div_eucl (Zpos mx * 2 ^ 53) (Zpos my)) as [q r]. cbn [snd] in Hr.
  pose proof (digits2_bounds mx) as [Hx1 Hx2]. pose proof (digits2_bounds my) as [Hy1 Hy2].
  rewrite Dx in Hx1, Hx2. rewrite Dy in Hy1, Hy2.
  change (2 ^ (53 - 1)) with 4503599627370496 in *. change (2 ^ 53) with 9007199254740992 in *.
  change (2 ^ 52) with 4503599627370496.
  assert (Hq : 4503599627370496 <= q) by nia.
  destruct q as [|q|q]; try lia.
  exists q, r, (new_location (Zpos my) r).
  split; [reflexivity|]. split; [lia|]. split; [exact Hr|].
  split; [apply excess_new_location|]. split; [exact Hq|].
  pose proof (digits_ge_of_le q 52 Hq). rewrite fexp64_eq. lia.
Qed.

Lemma div_le (mx my mB : positive) (ex ey eB : Z) :
  Zpos (digits2_pos mx) = 53 -> Zpos (digits2_pos my) = 53 -> -1021 <= ex - ey ->
  valid_binary (S754_finite false mB eB) = true ->
  (real (Zpos mx) ex <= real (Zpos mB) eB * real (Zpos my) ey)%Q ->
  SFleb (SF64div (S754_finite false mx ex) (S754_finite false my ey)) (S754_finite false mB eB)
  = true.
Proof.
  intros Dx Dy He VB H.
  destruct (div_core mx my ex ey Dx Dy He) as (q & r & l & -> & Hdm & Hr & Hl & Hq & Hpre).
  set (e' := ex - ey - 53) in *.
  assert (Hx : (real (Zpos mx) ex == real (Zpos q * Zpos my + r) (e' + ey))%Q).
  { rewrite <- Hdm. rewrite <- (real_shift (Zpos mx) ex 53) by lia.
    replace (e' + ey) with (ex - 53) by (unfold e'; lia). reflexivity. }
  assert (Hqy : (real (Zpos q) e' * real (Zpos my) ey <= real (Zpos mx) ex)%Q).
  { rewrite Hx, real_mul. apply real_le. lia. }
  assert (Hqb : (real (Zpos q) e' <= real (Zpos mB) eB)%Q).
  { apply Qmult_le_r with (z := real (Zpos my) ey); [apply real_pos|].
    eapply Qle_trans; [exact Hqy|exact H]. }
  assert (HeB : e' <= eB).
  { eapply Z.le_trans; [exact Hpre|]. rewrite (valid_exponent _ _ _ VB).
    apply fexp_mono, magnitude_le, Hqb. }
  apply bra_le; try assumption.
  rewrite Hx, real_mul in H. apply real_le_low in H; [|lia].
  replace (eB + ey - (e' + ey)) with (eB - e') in H by lia.
  pose proof (pow2_pos (eB - e') ltac:(lia)) as HK.
  set (MB := Zpos mB * 2 ^ (eB - e')) in *.
  replace (Zpos mB * Zpos my * 2 ^ (eB - e')) with (MB * Zpos my) in H by (unfold MB; ring).
  rewrite Hl. destruct (Z.eqb_spec r 0) as [E|E].
  - rewrite E, Z.add_0_r in *. apply (Z.mul_le_mono_pos_r _ _ (Zpos my)); lia.
  - assert (Hlt : Zpos q * Zpos my < MB * Zpos my) by lia.
    apply (Z.mul_lt_mono_pos_r (Zpos my)) in Hlt; lia.
Qed.

Lemma div_ge (mx my mB : positive) (ex ey eB : Z) :
  Zpos (digits2_pos mx) = 53 -> Zpos (digits2_pos my) = 53 -> -1021 <= ex - ey ->
  valid_binary (S754_finite false mB eB) = true ->
  (real (Zpos mB) eB * real (Zpos my) ey <= real (Zpos mx) ex)%Q ->
  SFleb (S754_finite false mB eB) (SF64div (S754_finite false mx ex) (S754_finite false my ey))
  = true.
Proof.
  intros Dx Dy He VB H.
  destruct (div_core mx my ex ey Dx Dy He) as (q & r & l & -> & Hdm & Hr & Hl & Hq & Hpre).
  set (e' := ex - ey - 53) in *.
  assert (Hx : (real (Zpos mx) ex == real (Zpos q * Zpos my + r) (e' + ey))%Q).
  { rewrite <- Hdm. rewrite <- (real_shift (Zpos mx) ex 53) by lia.
    replace (e' + ey) with (ex - 53) by (unfold e'; lia). reflexivity. }
  apply bra_ge; try assumption.
  pose proof (valid_shape _ _ _ VB) as (A & B & C).
  change (2 ^ 53) with 9007199254740992 in A. change (2 ^ 52) with 4503599627370496 in Hq.
  destruct (Z.le_gt_cases e' eB) as [Hle|Hgt].
  - apply real_le_high; [exact Hle|].
    rewrite Hx, real_mul in H. apply real_le_high in H; [|lia].
    replace (eB + ey - (e' + ey)) with (eB - e') in H by lia.
    pose proof (pow2_pos (eB - e') ltac:(lia)) as HK.
    set (MB := Zpos mB * 2 ^ (eB - e')) in *.
    replace (Zpos mB * Zpos my * 2 ^ (eB - e')) with (MB * Zpos my) in H by (unfold MB; ring).
    assert (Hlt : MB * Zpos my < (Zpos q + 1) * Zpos my) by lia.
    apply (Z.mul_lt_mono_pos_r (Zpos my)) in Hlt; lia.
  - apply real_le_low; [lia|].
    pose proof (pow2_le 1 (e' - eB) ltac:(lia)) as Hp. change (2 ^ 1) with 2 in Hp.
    assert (4503599627370496 * 2 <= Zpos q * 2 ^ (e' - eB)).
    { apply Z.mul_le_mono_nonneg; lia. }
    lia.
Qed.

(** ** Numbers between zero and a bound *)

Lemma normalized_nonneg (mr e1 : Z) : 0 <= mr -> nonneg (normalized false mr e1).
Proof.
  intros H. unfold normalized. destruct mr as [|m|m]; [exact I| |lia].
  destruct (Zpos m <? 2 ^ 53); [destruct (e1 <=? 971)|destruct (e1 + 1 <=? 971)]; reflexivity.
Qed.

Lemma bra_nonneg (mx : positive) (ex : Z) (l : location) :
  ex <= fexp prec emax (Zpos (digits2_pos mx) + ex) ->
  nonneg (binary_round_aux prec emax false (Zpos mx) ex l).
Proof.
  intros He. destruct (bra_gen false mx ex l He) as (mr & Hr & _ & _ & ->).
  apply normalized_nonneg.
  pose proof (pow2_pos (fexp prec emax (Zpos (digits2_pos mx) + ex) - ex) ltac:(lia)).
  pose proof (Z.div_pos (Zpos mx) _ ltac:(lia) H). lia.
Qed.

Lemma br_nonneg (mx : positive) (ex : Z) : nonneg (binary_round prec emax false mx ex).
Proof.
  destruct (br_aligned mx ex) as (mz & ez & -> & _ & He). apply bra_nonneg, He.
Qed.

Lemma at_most_intro (x : spec_float) (mB : positive) (eB : Z) :
  nonneg x -> valid_binary x = true ->
  valid_binary (S754_finite false mB eB) = true ->
  SFleb x (S754_finite false mB eB) = true ->
  at_most (real (Zpos mB) eB) x.
Proof.
  intros Hn Vx VB H. destruct x as [s|s| |s m e]; simpl in Hn; try contradiction.
  - exact I.
  - subst s. discriminate H.
  - subst s. simpl. apply value_of_SFleb; assumption.
Qed.

Lemma at_most_weaken (A B : Q) (x : spec_float) : (A <= B)%Q -> at_most A x -> at_most B x.
Proof.
  intros HAB. destruct x as [s|s| |[] m e]; simpl; auto.
  intros H. eapply Qle_trans; eassumption.
Qed.

(** A Number between 0 and 1. *)
Lemma unit_at_most (a : number) :
  (0 <=? a)%float = true -> (a <=? 1)%float = true -> at_most 1 (Prim2SF a).
Proof.
  rewrite !FloatAxioms.leb_spec, Prim2SF_1. change (Prim2SF 0) with (S754_zero false).
  pose proof (Prim2SF_valid a) as Va.
  destruct (Prim2SF a) as [s|[]| |[] m e]; simpl; intros H0 H1; try discriminate; try exact I.
  apply (value_of_SFleb m 4503599627370496 e (-52) Va eq_refl) in H1.
  eapply Qle_trans; [exact H1|]. vm_compute. discriminate.
Qed.

Lemma at_most_leb (x b : number) (mB : positive) (eB : Z) :
  Prim2SF b = S754_finite false mB eB -> at_most (real (Zpos mB) eB) (Prim2SF x) ->
  (0 <=? x)%float = true /\ (x <=? b)%float = true.
Proof.
  intros Eb H. rewrite !FloatAxioms.leb_spec, Eb. change (Prim2SF 0) with (S754_zero false).
  pose proof (Prim2SF_valid x) as Vx. pose proof (Prim2SF_valid b) as Vb. rewrite Eb in Vb.
  destruct (Prim2SF x) as [s|s| |[] m e]; simpl in H; try contradiction.
  - split; reflexivity.
  - split; [reflexivity|]. apply SFleb_of_value; assumption.
Qed.

(** A number between 0 and 1 times a positive weight is at most the
    weight. *)
Lemma mul_at_most (a w : number) (mw : positive) (ew : Z) :
  at_most 1 (Prim2SF a) -> Prim2SF w = S754_finite false mw ew ->
  at_most (real (Zpos mw) ew) (Prim2SF (a * w)).
Proof.
  intros Ha Ew. pose proof (Prim2SF_valid (a * w)) as Vr.
  pose proof (Prim2SF_valid a) as Va. pose proof (Prim2SF_valid w) as Vw.
  rewrite mul_spec in Vr |- *. rewrite Ew in *.
  destruct (Prim2SF a) as [s|s| |[] m e]; simpl in Ha; try contradiction; [exact I|].
  assert (Hq : (real (Zpos m) e * real (Zpos mw) ew <= real (Zpos mw) ew)%Q).
  { pose proof (real_pos mw ew). pose proof (real_pos m e). nra. }
  apply at_most_intro; try assumption.
  - unfold SF64mul, SFmul. cbn [xorb]. apply bra_nonneg.
    apply valid_digits in Va, Vw. destruct Va as (Hdx & Hex & Cx), Vw as (Hdy & Hey & Cy).
    pose proof (digits_mul m mw) as [Hd1 Hd2]. rewrite fexp64_eq in *.
    pose proof (Pos2Z.is_pos (digits2_pos m)). pose proof (Pos2Z.is_pos (digits2_pos mw)). lia.
  - apply mul_le; assumption.
Qed.

(** The sum of two bounded numbers, against a double that is at least the
    sum of the bounds. *)
Lemma add_at_most (x y b : number) (Bx By : Q) (mB : positive) (eB : Z) :
  at_most Bx (Prim2SF x) -> at_most By (Prim2SF y) -> (0 <= Bx)%Q -> (0 <= By)%Q ->
  Prim2SF b = S754_finite false mB eB -> (Bx + By <= real (Zpos mB) eB)%Q ->
  at_most (real (Zpos mB) eB) (Prim2SF (x + y)).
Proof.
  intros Hx Hy Px Py Eb HB. pose proof (Prim2SF_valid (x + y)) as Vr.
  pose proof (Prim2SF_valid b) as Vb. rewrite Eb in Vb.
  rewrite add_spec in Vr |- *.
  destruct (Prim2SF x) as [sx|sx| |[] mx ex], (Prim2SF y) as [sy|sy| |[] my ey];
    simpl in Hx, Hy; try contradiction.
  - unfold SF64add, SFadd. destruct sx, sy; exact I.
  - simpl. lra.
  - simpl. lra.
  - apply at_most_intro; try assumption.
    + destruct (add_sum mx my ex ey) as (p & -> & _). apply br_nonneg.
    + apply add_le; [assumption|]. lra.
Qed.

(** ** Relative luminance *)

Lemma SFmul_comm (x y : spec_float) : SF64mul x y = SF64mul y x.
Proof.
  unfold SF64mul, SFmul.
  destruct x as [sx|sx| |sx mx ex], y as [sy|sy| |sy my ey];
    try reflexivity; try (rewrite (xorb_comm sx sy); reflexivity).
  rewrite (xorb_comm sx sy), (Pos.mul_comm mx my), (Z.add_comm ex ey). reflexivity.
Qed.

Lemma mul_comm (a b : number) : (a * b = b * a)%float.
Proof. apply Prim2SF_inj. rewrite !mul_spec. apply SFmul_comm. Qed.

Lemma luminanace_spec (pow : number -> number -> number) (x y z : number) :
  luminanace pow (Num x) (Num y) (Num z) = relative_luminance pow x y z.
Proof.
  unfold luminanace, relative_luminance. cbv zeta. cbn [ToNumber].
  rewrite (mul_comm 0.2126), (mul_comm 0.7152), (mul_comm 0.0722). reflexivity.
Qed.

Lemma linearize_unit (pow : number -> number -> number) (z : Z) :
  pow_in_unit pow -> 0 <= z <= 255 ->
  (0 <=? linearize pow (of_Z z))%float = true /\ (linearize pow (of_Z z) <=? 1)%float = true.
Proof.
  intros Hp Hz.
  assert (H : linear_check z = true).
  { apply (upto_check linear_check 256); [vm_compute; reflexivity|lia]. }
  unfold linear_check in H. unfold linearize. cbv zeta in H |- *.
  destruct (of_Z z / 255 <=? 0.03928)%float; apply andb_prop in H; destruct H as [H0 H1].
  - split; assumption.
  - apply Hp; assumption.
Qed.

Lemma Prim2SF_weights :
  Prim2SF 0.2126 = S754_finite false 7659722246231740 (-55) /\
  Prim2SF 0.7152 = S754_finite false 6441948906990757 (-53) /\
  Prim2SF 0.0722 = S754_finite false 5202558289538397 (-56) /\
  Prim2SF (0.2126 + 0.7152) = S754_finite false 8356879468548692 (-53).
Proof. repeat split; reflexivity. Qed.

(** The weighted sum of three numbers between 0 and 1 is between 0
    and 1: no rounding step goes past the sum of the weights. *)
Lemma weighted_sum_unit (a0 a1 a2 : number) :
  at_most 1 (Prim2SF a0) -> at_most 1 (Prim2SF a1) -> at_most 1 (Prim2SF a2) ->
  at_most 1 (Prim2SF (a0 * 0.2126 + a1 * 0.7152 + a2 * 0.0722)).
Proof.
  intros H0 H1 H2. destruct Prim2SF_weights as (W0 & W1 & W2 & W01).
  pose proof (mul_at_most a0 _ _ _ H0 W0) as P0.
  pose proof (mul_at_most a1 _ _ _ H1 W1) as P1.
  pose proof (mul_at_most a2 _ _ _ H2 W2) as P2.
  assert (S01 : at_most (real 8356879468548692 (-53)) (Prim2SF (a0 * 0.2126 + a1 * 0.7152))).
  { apply (add_at_most _ _ (0.2126 + 0.7152)%float _ _ _ _ P0 P1); try assumption;
      vm_compute; discriminate. }
  assert (S : at_most (real 4503599627370496 (-52)) (Prim2SF (a0 * 0.2126 + a1 * 0.7152 + a2 * 0.0722))).
  { apply (add_at_most _ _ 1%float _ _ _ _ S01 P2); try exact Prim2SF_1;
      vm_compute; discriminate. }
  eapply at_most_weaken; [|exact S]. vm_compute. discriminate.
Qed.

Lemma luminance_unit (pow : number -> number -> number) (zr zg zb : Z) :
  pow_in_unit pow -> 0 <= zr <= 255 -> 0 <= zg <= 255 -> 0 <= zb <= 255 ->
  at_most 1 (Prim2SF (luminanace pow (Num (of_Z zr)) (Num (of_Z zg)) (Num (of_Z zb)))).
Proof.
  intros Hp Hr Hg Hb. unfold luminanace. cbv zeta. cbn [ToNumber].
  destruct (linearize_unit pow zr Hp Hr) as [R0 R1].
  destruct (linearize_unit pow zg Hp Hg) as [G0 G1].
  destruct (linearize_unit pow zb Hp Hb) as [B0 B1].
  apply weighted_sum_unit; apply unit_at_most; assumption.
Qed.

Lemma getLuminance_at (pow : number -> number -> number) (this : loc) (h : heap) (o : t) :
  h !! this = Some o -> getLuminance pow this h = (luminanace pow (r o) (g o) (b o), h).
Proof.
  intros H. unfold getLuminance, bind, ret. rewrite !(get_at _ _ _ _ H). reflexivity.
Qed.

(** C5. For a colour with its three channels set to integers in
    [0, 255], [getLuminance] returns the relative luminance: each channel
    divided by 255, linearised as [v / 12.92] when [v <= 0.03928] and as
    [((v + 0.055) / 1.055) ^ 2.4] otherwise, summed with the weights
    0.2126, 0.7152 and 0.0722; it leaves the heap as it was; and the
    result lies between 0 and 1, for every [Math.pow] that maps numbers
    between 0 and 1 to numbers between 0 and 1 at the exponent 2.4. *)
Theorem getLuminance_relative (pow : number -> number -> number)
    (h : heap) (this : loc) (o : t) (zr zg zb : Z) :
  pow_in_unit pow ->
  h !! this = Some o ->
  r o = Num (of_Z zr) -> g o = Num (of_Z zg) -> b o = Num (of_Z zb) ->
  0 <= zr <= 255 -> 0 <= zg <= 255 -> 0 <= zb <= 255 ->
  getLuminance pow this h = (relative_luminance pow (of_Z zr) (of_Z zg) (of_Z zb), h) /\
  (0 <=? relative_luminance pow (of_Z zr) (of_Z zg) (of_Z zb))%float = true /\
  (relative_luminance pow (of_Z zr) (of_Z zg) (of_Z zb) <=? 1)%float = true.
Proof.
  intros Hp Ho Hr Hg Hb Zr Zg Zb.
  rewrite (getLuminance_at pow _ _ _ Ho), Hr, Hg, Hb.
  pose proof (luminance_unit pow zr zg zb Hp Zr Zg Zb) as HL.
  rewrite luminanace_spec in HL |- *.
  split; [reflexivity|]. exact (at_most_leb _ 1%float _ _ Prim2SF_1
    ltac:(eapply at_most_weaken; [|exact HL]; vm_compute; discriminate)).
Qed.

Lemma getLuminance_relative_witness :
  getLuminance (fun x _ => x) 1%positive
    {[1%positive := mk (Num (of_Z 255)) (Num (of_Z 170)) (Num (of_Z 17)) (Num 1)]}
  = (relative_luminance (fun x _ => x) (of_Z 255) (of_Z 170) (of_Z 17),
     {[1%positive := mk (Num (of_Z 255)) (Num (of_Z 170)) (Num (of_Z 17)) (Num 1)]}) /\
  (0 <=? relative_luminance (fun x _ => x) (of_Z 255) (of_Z 170) (of_Z 17))%float = true /\
  (relative_luminance (fun x _ => x) (of_Z 255) (of_Z 170) (of_Z 17) <=? 1)%float = true.
Proof.
  assert (Hp : pow_in_unit (fun x _ => x)) by (intros x H0 H1; split; assumption).
  assert (Ho : ({[1%positive := mk (Num (of_Z 255)) (Num (of_Z 170)) (Num (of_Z 17)) (Num 1)]} : heap)
               !! 1%positive
               = Some (mk (Num (of_Z 255)) (Num (of_Z 170)) (Num (of_Z 17)) (Num 1))) by reflexivity.
  exact (getLuminance_relative (fun x _ => x) _ 1%positive _ 255 170 17 Hp Ho
           eq_refl eq_refl eq_refl ltac:(lia) ltac:(lia) ltac:(lia)).
Defined.

(** ** Contrast *)

(** A positive normal double between two others. *)
Lemma between_shape (x lo hi : number) (mlo mhi : positive) (elo ehi : Z) :
  Prim2SF lo = S754_finite false mlo elo -> Prim2SF hi = S754_finite false mhi ehi ->
  -1074 < elo ->
  (lo <=? x)%float = true -> (x <=? hi)%float = true ->
  exists m e,
    Prim2SF x = S754_finite false m e /\ valid_binary (S754_finite false m e) = true /\
    elo <= e <= ehi /\ Zpos (digits2_pos m) = 53 /\
    (real (Zpos mlo) elo <= real (Zpos m) e)%Q /\ (real (Zpos m) e <= real (Zpos mhi) ehi)%Q.
Proof.
  intros Elo Ehi Hn. rewrite !FloatAxioms.leb_spec, Elo, Ehi.
  pose proof (Prim2SF_valid x) as Vx. pose proof (Prim2SF_valid lo) as Vlo.
  pose proof (Prim2SF_valid hi) as Vhi. rewrite Elo in Vlo. rewrite Ehi in Vhi.
  destruct (Prim2SF x) as [s|[]| |[] m e]; intros H0 H1; try discriminate H0; try discriminate H1.
  exists m, e. split; [reflexivity|]. split; [exact Vx|].
  assert (He : elo <= e <= ehi).
  { unfold SFleb, SFcompare in H0, H1.
    destruct (Z.compare_spec elo e), (Z.compare_spec e ehi); try discriminate; lia. }
  split; [exact He|]. split; [apply (valid_normal_digits _ _ _ Vx); lia|].
  split; apply value_of_SFleb; assumption.
Qed.

Lemma Prim2SF_contrast_constants :
  Prim2SF 0.05 = S754_finite false 7205759403792794 (-57) /\
  Prim2SF 1.05 = S754_finite false 4728779608739021 (-52) /\
  Prim2SF 21 = S754_finite false 5910974510923776 (-48) /\
  Prim2SF least_ratio = S754_finite false 6862628003612184 (-57).
Proof. repeat split; reflexivity. Qed.

(** A luminance between 0 and 1, plus 0.05. *)
Lemma luminance_offset (l : number) :
  at_most 1 (Prim2SF l) ->
  (0.05 <=? l + 0.05)%float = true /\ (l + 0.05 <=? 1.05)%float = true.
Proof.
  intros Hl. destruct Prim2SF_contrast_constants as (E5 & E105 & _ & _).
  rewrite !FloatAxioms.leb_spec, add_spec, E5, E105.
  destruct (Prim2SF l) as [s|s| |[] m e]; simpl in Hl; try contradiction.
  - split; reflexivity.
  - split.
    + apply add_ge; [reflexivity|]. pose proof (real_pos m e). lra.
    + apply add_le; [reflexivity|].
      assert (H : (1 + real 7205759403792794 (-57) <= real 4728779608739021 (-52))%Q)
        by (vm_compute; discriminate).
      lra.
Qed.

(** The ratio of two such numbers is between [0.05 / 1.05] and 21. *)
Lemma ratio_bounds (x y : number) :
  (0.05 <=? x)%float = true -> (x <=? 1.05)%float = true ->
  (0.05 <=? y)%float = true -> (y <=? 1.05)%float = true ->
  (least_ratio <=? x / y)%float = true /\ (x / y <=? 21)%float = true.
Proof.
  intros X0 X1 Y0 Y1. destruct Prim2SF_contrast_constants as (E5 & E105 & E21 & Ec).
  destruct (between_shape x _ _ _ _ _ _ E5 E105 ltac:(lia) X0 X1)
    as (mx & ex & Ex & Vx & Hex & Dx & Lx & Ux).
  destruct (between_shape y _ _ _ _ _ _ E5 E105 ltac:(lia) Y0 Y1)
    as (my & ey & Ey & Vy & Hey & Dy & Ly & Uy).
  rewrite !FloatAxioms.leb_spec, div_spec, Ex, Ey, E21, Ec.
  pose proof (real_pos my ey) as Py. pose proof (real_pos mx ex) as Px.
  split.
  - apply div_ge; try assumption; [lia|reflexivity|].
    assert (H : (real 6862628003612184 (-57) * real 4728779608739021 (-52)
                 <= real 7205759403792794 (-57))%Q) by (vm_compute; discriminate).
    assert (Hc : (0 <= real 6862628003612184 (-57))%Q) by (vm_compute; discriminate).
    set (k := real 6862628003612184 (-57)) in *. nra.
  - apply div_le; try assumption; [lia|reflexivity|].
    assert (H : (real 4728779608739021 (-52)
                 <= real 5910974510923776 (-48) * real 7205759403792794 (-57))%Q)
      by (vm_compute; discriminate).
    assert (Hc : (0 <= real 5910974510923776 (-48))%Q) by (vm_compute; discriminate).
    set (k := real 5910974510923776 (-48)) in *. nra.
Qed.

(** A double above [0.05 / 1.05] is at least the next double. *)
Lemma above_least_ratio (m : positive) (e : Z) :
  valid_binary (S754_finite false m e) = true -> -57 <= e ->
  (real 6862628003612184 (-57) <= real (Zpos m) e)%Q ->
  S754_finite false m e <> S754_finite false 6862628003612184 (-57) ->
  (real 6862628003612185 (-57) <= real (Zpos m) e)%Q.
Proof.
  intros V He H Hne. apply valid_shape in V. destruct V as (A & B & C).
  change (2 ^ 53) with 9007199254740992 in A. change (2 ^ 52) with 4503599627370496 in C.
  destruct (Z.eq_dec e (-57)) as [->|En].
  - apply real_le in H. apply real_le.
    assert (Zpos m <> 6862628003612184) by (intros E; apply Hne; injection E as ->; reflexivity).
    lia.
  - apply real_le_low; [lia|]. specialize (C ltac:(lia)).
    pose proof (pow2_le 1 (e - -57) ltac:(lia)) as Hp. change (2 ^ 1) with 2 in Hp.
    assert (4503599627370496 * 2 <= Zpos m * 2 ^ (e - -57)) by (apply Z.mul_le_mono_nonneg; lia).
    lia.
Qed.

Lemma isNaN_finite (x : number) (s : bool) (m : positive) (e : Z) :
  Prim2SF x = S754_finite s m e -> isNaN x = false.
Proof. intros E. apply isNaN_false_Prim2SF. rewrite E. discriminate. Qed.

(** The contrast of two luminances between 0 and 1 is between 1
    and 21. *)
Lemma contrast_ratio_bounds (l1 l2 : number) :
  at_most 1 (Prim2SF l1) -> at_most 1 (Prim2SF l2) ->
  (1 <=? contrast_ratio l1 l2)%float = true /\ (contrast_ratio l1 l2 <=? 21)%float = true.
Proof.
  intros H1 H2. destruct (luminance_offset l1 H1) as [X0 X1].
  destruct (luminance_offset l2 H2) as [Y0 Y1].
  destruct (ratio_bounds _ _ X0 X1 Y0 Y1) as [C0 C1].
  unfold contrast_ratio. cbv zeta. set (c := ((l1 + 0.05) / (l2 + 0.05))%float) in *.
  destruct Prim2SF_contrast_constants as (_ & _ & E21 & Ec).
  destruct (between_shape c _ _ _ _ _ _ Ec E21 ltac:(lia) C0 C1)
    as (m & e & E & V & He & D & L & U).
  destruct (c <? 1)%float eqn:Hlt.
  - apply ltb_true_leb in Hlt.
    assert (Hc1 : (real (Zpos m) e <= 1)%Q).
    { rewrite FloatAxioms.leb_spec, E, Prim2SF_1 in Hlt.
      apply (value_of_SFleb m 4503599627370496 e (-52) V eq_refl) in Hlt.
      eapply Qle_trans; [exact Hlt|]. vm_compute. discriminate. }
    pose proof (real_pos m e) as Pc.
    rewrite !FloatAxioms.leb_spec, div_spec, E, Prim2SF_1, E21. split.
    + apply div_ge; try assumption; [reflexivity|lia|reflexivity|].
      assert (H : (real 4503599627370496 (-52) == 1)%Q) by (vm_compute; reflexivity).
      rewrite H. lra.
    + assert (Hd : S754_finite false m e = S754_finite false 6862628003612184 (-57) \/
                   S754_finite false m e <> S754_finite false 6862628003612184 (-57)).
      { destruct (Pos.eq_dec m 6862628003612184%positive) as [->|Hm], (Z.eq_dec e (-57)) as [->|Hz];
          [left; reflexivity|right; congruence..]. }
      destruct Hd as [Eq|Hne].
      * rewrite Eq. vm_compute. reflexivity.
      * pose proof (above_least_ratio m e V ltac:(lia) L Hne) as Hs.
        apply div_le; try assumption; [reflexivity|lia|reflexivity|].
        assert (H : (real 4503599627370496 (-52)
                     <= real 5910974510923776 (-48) * real 6862628003612185 (-57))%Q)
          by (vm_compute; discriminate).
        assert (Hc : (0 <= real 5910974510923776 (-48))%Q) by (vm_compute; discriminate).
        set (k := real 5910974510923776 (-48)) in *. nra.
  - split; [|exact C1].
    apply ltb_false_leb; [exact (isNaN_finite _ _ _ _ E)|reflexivity|exact Hlt].
Qed.

Lemma contrast_spec (pow : number -> number -> number) (x1 y1 z1 x2 y2 z2 : number) :
  contrast pow [Num x1; Num y1; Num z1] [Num x2; Num y2; Num z2]
  = contrast_ratio (relative_luminance pow x1 y1 z1) (relative_luminance pow x2 y2 z2).
Proof.
  unfold contrast, contrast_ratio, nth_field. cbn [nth]. rewrite !luminanace_spec. reflexivity.
Qed.

Lemma compareContrastTo_at (pow : number -> number -> number)
    (this color : loc) (h : heap) (o oc : t) :
  h !! this = Some o -> h !! color = Some oc ->
  compareContrastTo pow this color h
  = (contrast pow [r o; g o; b o] [r oc; g oc; b oc], h).
Proof.
  intros Ho Hc. unfold compareContrastTo, bind, ret.
  rewrite (toRgbArray_at _ _ _ Ho), (toRgbArray_at _ _ _ Hc). reflexivity.
Qed.

(** Whatever [Math.pow] is, black against [#000003] gives two different
    numbers in the two orders: neither colour reaches [Math.pow]. *)
Lemma contrast_order_matters (pow : number -> number -> number) :
  contrast_of pow "#000" "#000003" = 1.0013148788927337%float /\
  contrast_of pow "#000003" "#000" = 1.0013148788927335%float.
Proof. split; vm_compute; reflexivity. Qed.

Lemma white_black_contrast (pow : number -> number -> number) :
  pow 1%float 2.4%float = 1%float ->
  contrast_of pow "#fff" "#000" = 21%float /\ contrast_of pow "#000" "#fff" = 21%float.
Proof.
  intros H. split; vm_compute; rewrite H; vm_compute; reflexivity.
Qed.

(** C6, as stated, fails: the contrast is not symmetric.  For black and
    [#000003], two colours that do not reach [Math.pow],
    [a.compareContrastTo(b)] is [1.0013148788927337] and
    [b.compareContrastTo(a)] is [1.0013148788927335]: the second is the
    rounded reciprocal of a rounded quotient. *)
Lemma compareContrastTo_not_symmetric :
  contrast_of pow_unreached "#000" "#000003" = 1.0013148788927337%float /\
  contrast_of pow_unreached "#000003" "#000" = 1.0013148788927335%float /\
  (contrast_of pow_unreached "#000" "#000003"
   =? contrast_of pow_unreached "#000003" "#000")%float = false.
Proof. repeat split; vm_compute; reflexivity. Qed.

(** C6 (amended). For two colours with their channels set to integers in
    [0, 255], [a.compareContrastTo(b)] is [(L1 + 0.05) / (L2 + 0.05)] for
    the two relative luminances, inverted when it is less than 1; it
    leaves the heap as it was; the result is at least 1 and at most 21,
    for every [Math.pow] that maps numbers between 0 and 1 to numbers
    between 0 and 1 at the exponent 2.4; and white against black is
    exactly 21 in both orders when [Math.pow(1, 2.4)] is 1. *)
Theorem compareContrastTo_bounds (pow : number -> number -> number)
    (h : heap) (this color : loc) (o oc : t) (zr zg zb cr cg cb : Z) :
  pow_in_unit pow ->
  h !! this = Some o -> h !! color = Some oc ->
  r o = Num (of_Z zr) -> g o = Num (of_Z zg) -> b o = Num (of_Z zb) ->
  r oc = Num (of_Z cr) -> g oc = Num (of_Z cg) -> b oc = Num (of_Z cb) ->
  0 <= zr <= 255 -> 0 <= zg <= 255 -> 0 <= zb <= 255 ->
  0 <= cr <= 255 -> 0 <= cg <= 255 -> 0 <= cb <= 255 ->
  compareContrastTo pow this color h
    = (contrast_ratio (relative_luminance pow (of_Z zr) (of_Z zg) (of_Z zb))
                      (relative_luminance pow (of_Z cr) (of_Z cg) (of_Z cb)), h) /\
  (1 <=? contrast_ratio (relative_luminance pow (of_Z zr) (of_Z zg) (of_Z zb))
                        (relative_luminance pow (of_Z cr) (of_Z cg) (of_Z cb)))%float = true /\
  (contrast_ratio (relative_luminance pow (of_Z zr) (of_Z zg) (of_Z zb))
                  (relative_luminance pow (of_Z cr) (of_Z cg) (of_Z cb)) <=? 21)%float = true /\
  (pow 1%float 2.4%float = 1%float ->
   contrast_of pow "#fff" "#000" = 21%float /\ contrast_of pow "#000" "#fff" = 21%float).
Proof.
  intros Hp Ho Hc Hr Hg Hb Cr Cg Cb Zr Zg Zb Kr Kg Kb.
  rewrite (compareContrastTo_at pow _ _ _ _ _ Ho Hc), Hr, Hg, Hb, Cr, Cg, Cb, contrast_spec.
  pose proof (luminance_unit pow zr zg zb Hp Zr Zg Zb) as L1.
  pose proof (luminance_unit pow cr cg cb Hp Kr Kg Kb) as L2.
  rewrite luminanace_spec in L1, L2.
  destruct (contrast_ratio_bounds _ _ L1 L2) as [B1 B2].
  split; [reflexivity|]. split; [exact B1|]. split; [exact B2|].
  exact (white_black_contrast pow).
Qed.

Lemma compareContrastTo_bounds_witness :
  (1 <=? contrast_ratio (relative_luminance (fun x _ => x) (of_Z 255) (of_Z 170) (of_Z 17))
                        (relative_luminance (fun x _ => x) (of_Z 0) (of_Z 0) (of_Z 3)))%float
    = true /\
  (contrast_ratio (relative_luminance (fun x _ => x) (of_Z 255) (of_Z 170) (of_Z 17))
                  (relative_luminance (fun x _ => x) (of_Z 0) (of_Z 0) (of_Z 3)) <=? 21)%float
    = true.
Proof.
  assert (Hp : pow_in_unit (fun x _ => x)) by (intros x H0 H1; split; assumption).
  assert (Ho : ({[1%positive := mk (Num (of_Z 255)) (Num (of_Z 170)) (Num (of_Z 17)) (Num 1);
                  2%positive := mk (Num (of_Z 0)) (Num (of_Z 0)) (Num (of_Z 3)) (Num 1)]} : heap)
               !! 1%positive
               = Some (mk (Num (of_Z 255)) (Num (of_Z 170)) (Num (of_Z 17)) (Num 1)))
    by reflexivity.
  assert (Hc : ({[1%positive := mk (Num (of_Z 255)) (Num (of_Z 170)) (Num (of_Z 17)) (Num 1);
                  2%positive := mk (Num (of_Z 0)) (Num (of_Z 0)) (Num (of_Z 3)) (Num 1)]} : heap)
               !! 2%positive
               = Some (mk (Num (of_Z 0)) (Num (of_Z 0)) (Num (of_Z 3)) (Num 1)))
    by reflexivity.
  pose proof (compareContrastTo_bounds (fun x _ => x) _ 1%positive 2%positive _ _
                255 170 17 0 0 3 Hp Ho Hc eq_refl eq_refl eq_refl eq_refl eq_refl eq_refl
                ltac:(lia) ltac:(lia) ltac:(lia) ltac:(lia) ltac:(lia) ltac:(lia))
    as (_ & B1 & B2 & _).
  split; [exact B1|exact B2].
Defined.

(** ** The setters as a truncation *)

Lemma Prim2SF_2p53 : Prim2SF 9007199254740992 = S754_finite false 4503599627370496 1.
Proof. vm_compute. reflexivity. Qed.

Lemma SFltb_finite (s : bool) (m mB : positive) (e eB : Z) :
  SFltb (S754_finite false m e) (S754_finite false mB eB) = true ->
  e < eB \/ (e = eB /\ Zpos m < Zpos mB).
Proof.
  unfold SFltb, SFcompare.
  destruct (Z.compare_spec e eB) as [E|E|E]; intros H.
  - right. split; [exact E|].
    change (Pos.compare_cont Eq m mB) with (m ?= mB)%positive in H.
    destruct (m ?= mB)%positive eqn:Ec; try discriminate H.
    apply Pos.compare_lt_iff in Ec. exact (Pos2Z.pos_lt_pos _ _ Ec).
  - left. exact E.
  - discriminate H.
Qed.

Lemma below_2p53_fits (x : number) :
  (abs x <? 9007199254740992)%float = true -> finite_shape 0 (Prim2SF x).
Proof.
  rewrite FloatAxioms.ltb_spec, abs_spec, Prim2SF_2p53. pose proof (Prim2SF_valid x) as Vx.
  destruct (Prim2SF x) as [s|s| |s m e]; cbn [SFabs]; intros H.
  - exists s. left. reflexivity.
  - exfalso. revert H. generalize 4503599627370496%positive. intros p H. discriminate H.
  - exfalso. revert H. generalize 4503599627370496%positive. intros p H. discriminate H.
  - exists s. right. eexists _, _. split; [reflexivity|].
    apply valid_shape in Vx. destruct Vx as (A & B & C).
    apply (SFltb_finite s) in H.
    destruct (Z_le_gt_dec e 0) as [E|E]; [exact E|exfalso].
    assert (C' : 2 ^ 52 <= Zpos m) by (apply C; clear - E; lia). clear C.
    revert H C'. change (2 ^ 52) with (Zpos 4503599627370496).
    generalize 4503599627370496%positive. intros p H C'.
    clear - H C' E. lia.
Qed.

(** X1. A channel setter applied to a Number that is zero, or between [1e-6]
    and [2^53] in absolute value, stores the Number truncated toward zero
    and clamped to [0, 255]. *)
Theorem setter_truncates (h : heap) (this : loc) (o : t) (x : number) :
  h !! this = Some o ->
  plain_notation x = true -> (abs x <? 9007199254740992)%float = true ->
  setRed this (VNumber x) h = (this, <[this := with_r (truncated x) o]> h) /\
  setGreen this (VNumber x) h = (this, <[this := with_g (truncated x) o]> h) /\
  setBlue this (VNumber x) h = (this, <[this := with_b (truncated x) o]> h).
Proof.
  intros Ho Hp Hx.
  rewrite (setRed_at _ _ _ _ Ho), (setGreen_at _ _ _ _ Ho), (setBlue_at _ _ _ _ Ho).
  rewrite (stored_plain x (below_2p53_fits x Hx) Hp). repeat split.
Qed.

Lemma setter_truncates_witness :
  setRed 1%positive (VNumber 127.5) {[1%positive := init]}
  = (1%positive, <[1%positive := with_r (truncated 127.5) init]> {[1%positive := init]}) /\
  truncated 127.5 = Num 127 /\ truncated (-3.7) = Num 0 /\ truncated 300.2 = Num 255.
Proof.
  assert (Ho : ({[1%positive := init]} : heap) !! 1%positive = Some init) by reflexivity.
  assert (Hp : plain_notation 127.5 = true) by (vm_compute; reflexivity).
  assert (Hx : (abs 127.5 <? 9007199254740992)%float = true) by (vm_compute; reflexivity).
  split; [exact (proj1 (setter_truncates _ _ _ 127.5%float Ho Hp Hx))|].
  repeat split; vm_compute; reflexivity.
Defined.

(** ** Decimal numerals as setter arguments *)

Lemma radix_digit_digit (c : ascii) :
  is_digit c = true -> radix_digit 10 c = Some (code c - 48).
Proof.
  unfold is_digit, radix_digit, digit_value. intros H. rewrite H.
  apply andb_true_iff in H. destruct H as [H1 H2].
  apply Z.leb_le in H1, H2.
  destruct (code c - 48 <? 10) eqn:E; [reflexivity|].
  apply Z.ltb_ge in E. lia.
Qed.

Lemma read_digits_all (s : string) :
  all_chars is_digit s = true ->
  forall acc cnt, read_digits 10 s acc cnt = (digits_value acc s, (cnt + String.length s)%nat, ""%string).
Proof.
  induction s as [|c s IH]; intros H acc cnt.
  - cbn. rewrite Nat.add_0_r. reflexivity.
  - cbn in H. apply andb_true_iff in H. destruct H as [Hc Hs].
    cbn [read_digits]. rewrite (radix_digit_digit c Hc), (IH Hs).
    cbn [digits_value String.length]. rewrite Nat.add_succ_r. reflexivity.
Qed.

Lemma digits_value_ge (s : string) :
  all_chars is_digit s = true -> forall acc, 0 <= acc -> 0 <= digits_value acc s.
Proof.
  induction s as [|c s IH]; intros H acc Ha; [exact Ha|].
  cbn in H. apply andb_true_iff in H. destruct H as [Hc Hs].
  cbn [digits_value]. apply (IH Hs).
  unfold is_digit in Hc. apply andb_true_iff in Hc. destruct Hc as [H1 H2].
  apply Z.leb_le in H1, H2. lia.
Qed.

Lemma strip_0x_numeral (s : string) :
  all_chars is_digit s = true -> strip_0x s = None.
Proof.
  destruct s as [|c [|d s]]; intros H; try reflexivity.
  - destruct (ascii_dec c "0") as [->|Hn]; [reflexivity|].
    apply strip_0x_other. exact Hn.
  - destruct (ascii_dec c "0") as [->|Hn]; [|apply strip_0x_other; exact Hn].
    cbn [all_chars] in H. apply andb_true_iff in H. destruct H as [_ H].
    apply andb_true_iff in H. destruct H as [Hd _].
    destruct (ascii_dec d "x") as [->|Hx]; [vm_compute in Hd; discriminate Hd|].
    destruct (ascii_dec d "X") as [->|HX]; [vm_compute in Hd; discriminate Hd|].
    unfold strip_0x.
    destruct d as [[] [] [] [] [] [] [] []]; try reflexivity; congruence.
Qed.

Lemma parseInt_digits (s : string) :
  is_numeral s = true -> parseInt_math s 0 = Some (false, digits_value 0 s).
Proof.
  unfold is_numeral. intros H. apply andb_true_iff in H. destruct H as [Hl Hd].
  destruct s as [|c s]; [discriminate Hl|].
  assert (Hc : is_digit c = true) by (cbn in Hd; apply andb_true_iff in Hd; tauto).
  unfold parseInt_math.
  assert (Ht : trim_start (String c s) = String c s)
    by (cbn [trim_start]; rewrite (digit_not_white c Hc); reflexivity).
  rewrite Ht, (strip_sign_digit c s Hc).
  change (negb (0 =? 0) && ((0 <? 2) || (36 <? 0))) with false. cbv iota.
  change ((0 =? 0) || (0 =? 16)) with true. cbv iota.
  rewrite (strip_0x_numeral _ Hd). change (0 =? 0) with true. cbv iota.
  rewrite (read_digits_all _ Hd). reflexivity.
Qed.

Lemma stored_channel_digits (s : string) :
  is_numeral s = true ->
  stored_channel (VString s) = Num (of_Z (Z.min 255 (digits_value 0 s))).
Proof.
  intros H. rewrite channel_of_eq. unfold channel_of. cbn [ToString].
  rewrite (parseInt_digits s H). unfold clampZ.
  unfold is_numeral in H. apply andb_true_iff in H. destruct H as [_ Hd].
  pose proof (digits_value_ge s Hd 0 (Z.le_refl 0)) as Hv.
  f_equal. f_equal. lia.
Qed.

(** X2. A channel setter given a string of decimal digits stores the number
    the digits spell, or 255 when that is larger. *)
Theorem setter_reads_numeral (h : heap) (this : loc) (o : t) (s : string) :
  h !! this = Some o -> is_numeral s = true ->
  setRed this (VString s) h
    = (this, <[this := with_r (Num (of_Z (Z.min 255 (digits_value 0 s)))) o]> h) /\
  setGreen this (VString s) h
    = (this, <[this := with_g (Num (of_Z (Z.min 255 (digits_value 0 s)))) o]> h) /\
  setBlue this (VString s) h
    = (this, <[this := with_b (Num (of_Z (Z.min 255 (digits_value 0 s)))) o]> h).
Proof.
  intros Ho Hs.
  rewrite (setRed_at _ _ _ _ Ho), (setGreen_at _ _ _ _ Ho), (setBlue_at _ _ _ _ Ho).
  rewrite (stored_channel_digits s Hs). repeat split.
Qed.

Lemma setter_reads_numeral_witness :
  setRed 1%positive (VString "0300") {[1%positive := init]}
    = (1%positive, <[1%positive := with_r (Num (of_Z (Z.min 255 (digits_value 0 "0300")))) init]>
                     {[1%positive := init]}) /\
  Z.min 255 (digits_value 0 "0300") = 255 /\ Z.min 255 (digits_value 0 "017") = 17.
Proof.
  assert (Ho : ({[1%positive := init]} : heap) !! 1%positive = Some init) by reflexivity.
  assert (Hs : is_numeral "0300" = true) by reflexivity.
  split; [exact (proj1 (setter_reads_numeral _ _ _ "0300" Ho Hs))|].
  split; reflexivity.
Defined.

(** ** Matching the [rgb] and [rgba] patterns *)

Lemma lit_app (p s : string) : lit p (p ++ s) = Some s.
Proof.
  induction p as [|a p IH]; [reflexivity|].
  rewrite string_app_cons. cbn [lit]. rewrite Ascii.eqb_refl. exact IH.
Qed.

Lemma white_blank (w s : string) : is_blank w = true -> white (w ++ s) = white s.
Proof.
  unfold is_blank, white. induction w as [|a w IH]; intros H; [reflexivity|].
  cbn [all_chars] in H. apply andb_true_iff in H. destruct H as [Ha Hw].
  rewrite string_app_cons. cbn [trim_start]. rewrite Ha. exact (IH Hw).
Qed.

Lemma white_stops (s : string) : stops is_white s = true -> white s = s.
Proof.
  destruct s as [|c s]; [reflexivity|]. cbn [stops]. intros H.
  apply negb_true_iff in H. unfold white. cbn [trim_start]. rewrite H. reflexivity.
Qed.

Lemma take_upto_run (p : ascii -> bool) (c : string) :
  forall (n : nat) (rest : string),
    all_chars p c = true -> (String.length c <= n)%nat ->
    stops p rest = true \/ String.length c = n ->
    take_upto n p (c ++ rest) = (c, rest).
Proof.
  induction c as [|a c IH]; intros n rest Hc Hn Hr.
  - change ("" ++ rest)%string with rest.
    destruct n as [|n]; [reflexivity|].
    destruct Hr as [Hr|Hr]; [|discriminate Hr].
    destruct rest as [|d rest]; [reflexivity|].
    cbn [stops] in Hr. apply negb_true_iff in Hr. cbn [take_upto]. rewrite Hr. reflexivity.
  - cbn [all_chars] in Hc. apply andb_true_iff in Hc. destruct Hc as [Ha Hc].
    cbn [String.length] in Hn, Hr.
    destruct n as [|n]; [lia|].
    rewrite string_app_cons. cbn [take_upto]. rewrite Ha.
    rewrite (IH n rest Hc); [reflexivity|lia|].
    destruct Hr as [Hr|Hr]; [left; exact Hr|right; lia].
Qed.

Lemma short_run_parts (p : ascii -> bool) (c : string) :
  short_run p c = true ->
  (1 <= String.length c <= 3)%nat /\ all_chars p c = true.
Proof.
  unfold short_run. intros H. apply andb_true_iff in H. destruct H as [H Hc].
  apply andb_true_iff in H. destruct H as [H1 H3].
  apply Nat.leb_le in H1, H3. auto.
Qed.

Lemma group13_run (p : ascii -> bool) (c rest : string) :
  short_run p c = true -> stops p rest = true \/ String.length c = 3%nat ->
  group13 p (c ++ rest) = Some (c, rest).
Proof.
  intros H Hr. apply short_run_parts in H. destruct H as [[H1 H3] Hc].
  unfold group13. rewrite (take_upto_run p c 3 rest Hc H3 Hr).
  destruct c; [cbn in H1; lia|reflexivity].
Qed.

Lemma run_stops_white (p : ascii -> bool) (c rest : string) :
  (forall a, p a = true -> is_white a = false) ->
  short_run p c = true -> stops is_white (c ++ rest) = true.
Proof.
  intros Hp H. apply short_run_parts in H. destruct H as [[H1 _] Hc].
  destruct c as [|a c]; [cbn in H1; lia|].
  cbn [all_chars] in Hc. apply andb_true_iff in Hc. destruct Hc as [Ha _].
  rewrite string_app_cons. cbn [stops]. rewrite (Hp a Ha). reflexivity.
Qed.

Lemma blank_stops (p : ascii -> bool) (w : string) (sep : ascii) (rest : string) :
  (forall a, p a = true -> is_white a = false) ->
  is_blank w = true -> p sep = false ->
  stops p (w ++ String sep rest) = true.
Proof.
  intros Hp Hw Hs. destruct w as [|a w].
  - cbn [stops append]. change ("" ++ String sep rest)%string with (String sep rest).
    cbn [stops]. rewrite Hs. reflexivity.
  - unfold is_blank in Hw. cbn [all_chars] in Hw. apply andb_true_iff in Hw.
    destruct Hw as [Ha _]. rewrite string_app_cons. cbn [stops].
    destruct (p a) eqn:E; [|reflexivity]. rewrite (Hp a E) in Ha. discriminate Ha.
Qed.

Lemma digit_or_dot_not_white (a : ascii) : is_digit_or_dot a = true -> is_white a = false.
Proof.
  unfold is_digit_or_dot. intros H. apply orb_true_iff in H. destruct H as [H|H].
  - exact (digit_not_white a H).
  - apply Z.eqb_eq in H. unfold is_white. rewrite H. reflexivity.
Qed.

(** One group of the pattern with the white space before it. *)
Lemma group_field (p : ascii -> bool) (w c rest : string) :
  (forall a, p a = true -> is_white a = false) ->
  is_blank w = true -> short_run p c = true ->
  stops p rest = true \/ String.length c = 3%nat ->
  group13 p (white (w ++ c ++ rest)) = Some (c, rest).
Proof.
  intros Hp Hw Hc Hr.
  rewrite (white_blank _ _ Hw), (white_stops _ (run_stops_white p c rest Hp Hc)).
  exact (group13_run p c rest Hc Hr).
Qed.

(** One punctuation character of the pattern with the white space before
    it. *)
Lemma sep_field (sep : ascii) (w rest : string) :
  is_white sep = false -> is_blank w = true ->
  lit (String sep "") (white (w ++ String sep rest)) = Some rest.
Proof.
  intros Hs Hw. rewrite (white_blank _ _ Hw).
  unfold white. cbn [trim_start]. rewrite Hs. cbn [lit]. rewrite Ascii.eqb_refl. reflexivity.
Qed.

Ltac cons_separators :=
  repeat match goal with
         | |- context [("," ++ ?x)%string] => change ("," ++ x)%string with (String "," x)
         end.

Ltac split_all H :=
  cbn [forallb] in H;
  repeat (let H' := fresh "B" in apply andb_true_iff in H; destruct H as [H' H]).

Lemma comma_not_digit : is_digit "," = false /\ is_digit_or_dot "," = false /\ is_white "," = false.
Proof. repeat split; reflexivity. Qed.

Lemma paren_not_digit : is_digit ")" = false /\ is_digit_or_dot ")" = false /\ is_white ")" = false.
Proof. repeat split; reflexivity. Qed.

Lemma RGB_REGEXP_text (w1 c1 w2 w3 c2 w4 w5 c3 w6 : string) :
  forallb is_blank [w1; w2; w3; w4; w5; w6] = true ->
  forallb (short_run is_digit) [c1; c2; c3] = true ->
  RGB_REGEXP (rgb_text w1 c1 w2 w3 c2 w4 w5 c3 w6) = Some (c1, c2, c3).
Proof.
  intros Hw Hc. split_all Hw. split_all Hc.
  destruct comma_not_digit as (Cd & _ & Cw). destruct paren_not_digit as (Pd & _ & Pw).
  unfold RGB_REGEXP, rgb_text. cons_separators.
  rewrite lit_app. cbn [mbind option_bind].
  rewrite (group_field is_digit w1 c1) by (auto using digit_not_white, blank_stops).
  cbn [mbind option_bind]. rewrite sep_field by assumption. cbn [mbind option_bind].
  rewrite (group_field is_digit w3 c2) by (auto using digit_not_white, blank_stops).
  cbn [mbind option_bind]. rewrite sep_field by assumption. cbn [mbind option_bind].
  rewrite (group_field is_digit w5 c3) by (auto using digit_not_white, blank_stops).
  cbn [mbind option_bind]. rewrite sep_field by assumption. reflexivity.
Qed.

Lemma RGBA_REGEXP_text (w1 c1 w2 w3 c2 w4 w5 c3 w6 w7 c4 w8 : string) :
  forallb is_blank [w1; w2; w3; w4; w5; w6; w7; w8] = true ->
  forallb (short_run is_digit) [c1; c2; c3] = true ->
  short_run is_digit_or_dot c4 = true ->
  RGBA_REGEXP (rgba_text w1 c1 w2 w3 c2 w4 w5 c3 w6 w7 c4 w8) = Some (c1, c2, c3, c4).
Proof.
  intros Hw Hc H4. split_all Hw. split_all Hc.
  destruct comma_not_digit as (Cd & _ & Cw). destruct paren_not_digit as (Pd & Pdd & Pw).
  unfold RGBA_REGEXP, rgba_text. cons_separators.
  rewrite lit_app. cbn [mbind option_bind].
  rewrite (group_field is_digit w1 c1) by (auto using digit_not_white, blank_stops).
  cbn [mbind option_bind]. rewrite sep_field by assumption. cbn [mbind option_bind].
  rewrite (group_field is_digit w3 c2) by (auto using digit_not_white, blank_stops).
  cbn [mbind option_bind]. rewrite sep_field by assumption. cbn [mbind option_bind].
  rewrite (group_field is_digit w5 c3) by (auto using digit_not_white, blank_stops).
  cbn [mbind option_bind]. rewrite sep_field by assumption. cbn [mbind option_bind].
  rewrite (group_field is_digit_or_dot w7 c4) by (auto using digit_or_dot_not_white, blank_stops).
  cbn [mbind option_bind]. rewrite sep_field by assumption. reflexivity.
Qed.

Lemma short_numeral (c : string) : short_run is_digit c = true -> is_numeral c = true.
Proof.
  intros H. apply short_run_parts in H. destruct H as [[H1 _] Hc].
  unfold is_numeral. rewrite Hc. apply Nat.leb_le in H1. rewrite H1. reflexivity.
Qed.

Lemma stored_opacity_one : stored_opacity (VNumber 1) = Num 1.
Proof. vm_compute. reflexivity. Qed.

Lemma fillRgb_match (h : heap) (this : loc) (o : t) (v : value) (c1 c2 c3 : string) :
  h !! this = Some o -> RGB_REGEXP (ToString v) = Some (c1, c2, c3) ->
  fillRgb this v h
  = (this, <[this := set_all (VString c1) (VString c2) (VString c3) (VNumber 1) o]> h).
Proof.
  intros Ho Hs. unfold fillRgb. rewrite Hs.
  exact (set_all_at this _ _ _ _ h o Ho).
Qed.

Lemma fillRgba_match (h : heap) (this : loc) (o : t) (v : value) (c1 c2 c3 c4 : string) :
  h !! this = Some o -> RGBA_REGEXP (ToString v) = Some (c1, c2, c3, c4) ->
  fillRgba this v h
  = (this, <[this := set_all (VString c1) (VString c2) (VString c3) (VString c4) o]> h).
Proof.
  intros Ho Hs. unfold fillRgba. rewrite Hs.
  exact (set_all_at this _ _ _ _ h o Ho).
Qed.

(** X3. [fillRgb] on a string of the form [rgb(r, g, b)], with any white
    space around the numerals: each channel becomes the number its
    numeral spells, or 255 when that is larger, and the opacity becomes
    1. *)
Theorem fillRgb_reads_numerals (h : heap) (this : loc) (o : t)
    (w1 c1 w2 w3 c2 w4 w5 c3 w6 : string) :
  h !! this = Some o ->
  forallb is_blank [w1; w2; w3; w4; w5; w6] = true ->
  forallb (short_run is_digit) [c1; c2; c3] = true ->
  fillRgb this (VString (rgb_text w1 c1 w2 w3 c2 w4 w5 c3 w6)) h
  = (this, <[this := mk (numeral_channel c1) (numeral_channel c2) (numeral_channel c3) (Num 1)]> h).
Proof.
  intros Ho Hw Hc.
  rewrite (fillRgb_match h this o (VString _) c1 c2 c3 Ho (RGB_REGEXP_text _ _ _ _ _ _ _ _ _ Hw Hc)).
  split_all Hc. unfold set_all.
  rewrite !stored_channel_digits by (apply short_numeral; assumption).
  rewrite stored_opacity_one. reflexivity.
Qed.

Lemma fillRgb_reads_numerals_witness :
  fillRgb 1%positive (VString "rgb( 255,0 , 999)") {[1%positive := init]}
  = (1%positive, <[1%positive := mk (Num 255) (Num 0) (Num 255) (Num 1)]> {[1%positive := init]}).
Proof.
  assert (Ho : ({[1%positive := init]} : heap) !! 1%positive = Some init) by reflexivity.
  assert (Hw : forallb is_blank [" "; ""; ""; " "; " "; ""]%string = true) by reflexivity.
  assert (Hc : forallb (short_run is_digit) ["255"; "0"; "999"]%string = true) by reflexivity.
  exact (fillRgb_reads_numerals _ _ _ " " "255" "" "" "0" " " " " "999" "" Ho Hw Hc).
Defined.

(** ** The opacity group of the [rgba] pattern *)

Lemma opacity_char_In (a : ascii) : is_digit_or_dot a = true -> In a opacity_chars.
Proof.
  intros H.
  assert (Hr : 46 <= code a <= 57).
  { unfold is_digit_or_dot, is_digit in H. apply orb_true_iff in H. destruct H as [H|H].
    - apply andb_true_iff in H. destruct H as [H1 H2]. apply Z.leb_le in H1, H2. lia.
    - apply Z.eqb_eq in H. lia. }
  destruct (Z.eq_dec (code a) 47) as [E|E].
  { exfalso. unfold is_digit_or_dot, is_digit in H. rewrite E in H. discriminate H. }
  assert (Hc : code a = 46 \/ code a = 48 \/ code a = 49 \/ code a = 50 \/ code a = 51 \/
               code a = 52 \/ code a = 53 \/ code a = 54 \/ code a = 55 \/ code a = 56 \/
               code a = 57) by lia.
  unfold opacity_chars. cbn [list_ascii_of_string In].
  repeat (destruct Hc as [Hc|Hc];
          [ repeat (first [ left; apply code_inj; rewrite Hc; reflexivity | right ]) | ]).
  repeat (first [ left; apply code_inj; rewrite Hc; reflexivity | right ]).
Qed.

Lemma opacity_group_In (c : string) : short_run is_digit_or_dot c = true -> In c opacity_groups.
Proof.
  intros H. apply short_run_parts in H. destruct H as [[H1 H3] Hc].
  unfold opacity_groups.
  destruct c as [|a1 [|a2 [|a3 [|a4 c]]]]; cbn [String.length] in H1, H3; try lia;
    cbn [all_chars] in Hc;
    repeat (let A := fresh "A" in apply andb_true_iff in Hc; destruct Hc as [A Hc]).
  - apply in_or_app. left.
    apply (in_map (fun a => String a EmptyString)). apply opacity_char_In. exact A.
  - apply in_or_app. right. apply in_or_app. left.
    apply in_flat_map. exists a1. split; [apply opacity_char_In; exact A|].
    apply (in_map (String a1)).
    apply (in_map (fun a => String a EmptyString)). apply opacity_char_In. exact A0.
  - apply in_or_app. right. apply in_or_app. right.
    apply in_flat_map. exists a1. split; [apply opacity_char_In; exact A|].
    apply (in_map (String a1)).
    apply in_flat_map. exists a2. split; [apply opacity_char_In; exact A0|].
    apply (in_map (String a2)).
    apply (in_map (fun a => String a EmptyString)). apply opacity_char_In. exact A1.
Qed.

Lemma opacity_groups_hundredths :
  forallb (fun c => existsb (field_eqb (stored_opacity (VString c))) hundredths) opacity_groups
  = true.
Proof. vm_compute. reflexivity. Qed.

Lemma stored_opacity_group (c : string) :
  short_run is_digit_or_dot c = true -> In (stored_opacity (VString c)) hundredths.
Proof.
  intros H. apply opacity_group_In in H.
  pose proof opacity_groups_hundredths as A.
  rewrite forallb_forall in A. specialize (A c H).
  apply existsb_exists in A. destruct A as (f & Hf & E).
  apply field_eqb_eq in E. rewrite E. exact Hf.
Qed.

(** X4. [fillRgba] on a string of the form [rgba(r, g, b, a)], with any
    white space around the groups: each channel becomes the number its
    numeral spells, or 255 when that is larger; the opacity becomes what
    [setOpacity] stores for the fourth group, which is nothing or a
    number of hundredths between 0 and 1. *)
Theorem fillRgba_reads_groups (h : heap) (this : loc) (o : t)
    (w1 c1 w2 w3 c2 w4 w5 c3 w6 w7 c4 w8 : string) :
  h !! this = Some o ->
  forallb is_blank [w1; w2; w3; w4; w5; w6; w7; w8] = true ->
  forallb (short_run is_digit) [c1; c2; c3] = true ->
  short_run is_digit_or_dot c4 = true ->
  fillRgba this (VString (rgba_text w1 c1 w2 w3 c2 w4 w5 c3 w6 w7 c4 w8)) h
  = (this, <[this := mk (numeral_channel c1) (numeral_channel c2) (numeral_channel c3)
                        (stored_opacity (VString c4))]> h) /\
  In (stored_opacity (VString c4)) hundredths.
Proof.
  intros Ho Hw Hc H4. split; [|exact (stored_opacity_group c4 H4)].
  rewrite (fillRgba_match h this o (VString _) c1 c2 c3 c4 Ho
             (RGBA_REGEXP_text _ _ _ _ _ _ _ _ _ _ _ _ Hw Hc H4)).
  split_all Hc. unfold set_all.
  rewrite !stored_channel_digits by (apply short_numeral; assumption).
  reflexivity.
Qed.

Lemma fillRgba_reads_groups_witness :
  fillRgba 1%positive (VString "rgba(255, 0, 170, .25 )") {[1%positive := init]}
  = (1%positive, <[1%positive := mk (Num 255) (Num 0) (Num 170) (Num 0.25)]> {[1%positive := init]})
  /\ In (Num 0.25) hundredths.
Proof.
  assert (Ho : ({[1%positive := init]} : heap) !! 1%positive = Some init) by reflexivity.
  assert (Hw : forallb is_blank [""; ""; " "; ""; " "; ""; " "; " "]%string = true) by reflexivity.
  assert (Hc : forallb (short_run is_digit) ["255"; "0"; "170"]%string = true) by reflexivity.
  assert (H4 : short_run is_digit_or_dot ".25" = true) by reflexivity.
  exact (fillRgba_reads_groups _ _ _ "" "255" "" " " "0" "" " " "170" "" " " ".25" " " Ho Hw Hc H4).
Defined.

(** ** What the patterns accept *)

Lemma take_upto_inv (p : ascii -> bool) (n : nat) :
  forall s c rest, take_upto n p s = (c, rest) ->
    all_chars p c = true /\ (String.length c <= n)%nat.
Proof.
  induction n as [|n IH]; intros s c rest H.
  - destruct s; injection H as <- _; split; cbn; auto.
  - destruct s as [|a s]; [injection H as <- _; split; cbn; auto with arith|].
    cbn [take_upto] in H. destruct (p a) eqn:Ea.
    + destruct (take_upto n p s) as [c' rest'] eqn:E. injection H as <- _.
      destruct (IH _ _ _ E) as [Hc Hl]. cbn [all_chars String.length]. rewrite Ea, Hc.
      split; [reflexivity|lia].
    + injection H as <- _. split; cbn; auto with arith.
Qed.

Lemma group13_inv (p : ascii -> bool) (s c rest : string) :
  group13 p s = Some (c, rest) -> short_run p c = true.
Proof.
  unfold group13. destruct (take_upto 3 p s) as [c' rest'] eqn:E.
  destruct (take_upto_inv p 3 _ _ _ E) as [Hc Hl].
  destruct c' as [|a c']; [discriminate|]. intros H. injection H as <- _.
  unfold short_run. rewrite Hc. cbn [String.length] in *.
  apply Nat.leb_le in Hl. rewrite Hl. reflexivity.
Qed.

Ltac bind_step H E :=
  match type of H with
  | mbind _ ?m = Some _ => destruct m eqn:E; cbn [mbind option_bind] in H; [|discriminate H]
  end.

Lemma RGB_REGEXP_inv (s c1 c2 c3 : string) :
  RGB_REGEXP s = Some (c1, c2, c3) ->
  forallb (short_run is_digit) [c1; c2; c3] = true /\ lit "rgb(" s <> None.
Proof.
  unfold RGB_REGEXP. intros H.
  bind_step H E1. bind_step H E2. destruct p as [a1 r1].
  bind_step H E3. bind_step H E4. destruct p as [a2 r2].
  bind_step H E5. bind_step H E6. destruct p as [a3 r3].
  bind_step H E7. bind_step H E8. injection H as <- <- <-.
  split; [|discriminate].
  cbn [forallb]. rewrite (group13_inv _ _ _ _ E2), (group13_inv _ _ _ _ E4), (group13_inv _ _ _ _ E6).
  reflexivity.
Qed.

Lemma RGBA_REGEXP_inv (s c1 c2 c3 c4 : string) :
  RGBA_REGEXP s = Some (c1, c2, c3, c4) ->
  forallb (short_run is_digit) [c1; c2; c3] = true /\ short_run is_digit_or_dot c4 = true /\
  lit "rgba(" s <> None.
Proof.
  unfold RGBA_REGEXP. intros H.
  bind_step H E1. bind_step H E2. destruct p as [a1 r1].
  bind_step H E3. bind_step H E4. destruct p as [a2 r2].
  bind_step H E5. bind_step H E6. destruct p as [a3 r3].
  bind_step H E7. bind_step H E8. destruct p as [a4 r4].
  bind_step H E9. bind_step H E10. injection H as <- <- <- <-.
  split; [|split; [exact (group13_inv _ _ _ _ E8)|discriminate]].
  cbn [forallb]. rewrite (group13_inv _ _ _ _ E2), (group13_inv _ _ _ _ E4), (group13_inv _ _ _ _ E6).
  reflexivity.
Qed.

(** The three patterns start differently: [#], [rgb(] and [rgba(]. *)
Lemma lit_rgb_not_rgba (s : string) : lit "rgb(" s <> None -> lit "rgba(" s = None.
Proof.
  destruct s as [|a1 [|a2 [|a3 [|a4 s]]]]; cbn [lit]; intros H; try reflexivity;
    try (destruct (Ascii.eqb (upper "r") (upper a1)); [|reflexivity]);
    try (destruct (Ascii.eqb (upper "g") (upper a2)); [|reflexivity]);
    try (destruct (Ascii.eqb (upper "b") (upper a3)); [|reflexivity]);
    try reflexivity.
  destruct (Ascii.eqb (upper "(") (upper a4)) eqn:E4; [|exfalso; apply H; reflexivity].
  apply Ascii.eqb_eq in E4. rewrite <- E4. reflexivity.
Qed.

Lemma HEX_not_rgb (s body : string) :
  HEX_REGEXP s = Some body -> lit "rgb(" s = None /\ lit "rgba(" s = None.
Proof.
  intros H. apply HEX_REGEXP_inv in H. destruct H as [-> _]. split; reflexivity.
Qed.

Lemma RGB_None_of_lit (s : string) : lit "rgb(" s = None -> RGB_REGEXP s = None.
Proof. unfold RGB_REGEXP. intros ->. reflexivity. Qed.

Lemma RGBA_None_of_lit (s : string) : lit "rgba(" s = None -> RGBA_REGEXP s = None.
Proof. unfold RGBA_REGEXP. intros ->. reflexivity. Qed.

Lemma test_Some {A : Type} (m : option A) : test m = true -> exists x, m = Some x.
Proof. destruct m as [x|]; [eauto|discriminate]. Qed.

Lemma bind_ret_fst (c : M loc) (this : loc) (h : heap) :
  fst (c h) = this -> (do _ <- c; ret this) h = c h.
Proof. unfold bind, ret. destruct (c h) as [a h']. cbn. intros ->. reflexivity. Qed.

Lemma fill_hex_case (this : loc) (v : value) :
  test (HEX_REGEXP (ToString v)) = true -> forall h, fill this v h = fillHex this v h.
Proof.
  intros T h. unfold fill. rewrite T. apply bind_ret_fst. apply fillHex_fst.
Qed.

Lemma regexps_exclusive (s : string) :
  (test (HEX_REGEXP s) = true -> RGB_REGEXP s = None /\ RGBA_REGEXP s = None) /\
  (test (RGB_REGEXP s) = true -> HEX_REGEXP s = None /\ RGBA_REGEXP s = None) /\
  (test (RGBA_REGEXP s) = true -> HEX_REGEXP s = None /\ RGB_REGEXP s = None).
Proof.
  assert (Hx : forall body, HEX_REGEXP s = Some body -> RGB_REGEXP s = None /\ RGBA_REGEXP s = None).
  { intros body H. destruct (HEX_not_rgb _ _ H) as [A B].
    split; [exact (RGB_None_of_lit _ A)|exact (RGBA_None_of_lit _ B)]. }
  assert (Hr : forall c, RGB_REGEXP s = Some c -> HEX_REGEXP s = None /\ RGBA_REGEXP s = None).
  { intros [[c1 c2] c3] H. split.
    - destruct (HEX_REGEXP s) as [body|] eqn:E; [|reflexivity].
      destruct (Hx body eq_refl) as [A _]. rewrite A in H. discriminate H.
    - destruct (RGB_REGEXP_inv _ _ _ _ H) as [_ L].
      exact (RGBA_None_of_lit _ (lit_rgb_not_rgba _ L)). }
  split; [|split]; intros T; apply test_Some in T; destruct T as [x T].
  - exact (Hx x T).
  - exact (Hr x T).
  - split.
    + destruct (HEX_REGEXP s) as [body|] eqn:E; [|reflexivity].
      destruct (Hx body eq_refl) as [_ B]. rewrite B in T. discriminate T.
    + destruct (RGB_REGEXP s) as [c|] eqn:E; [|reflexivity].
      destruct (Hr c eq_refl) as [_ B]. rewrite B in T. discriminate T.
Qed.

Lemma fill_rgb_case (this : loc) (v : value) :
  test (RGB_REGEXP (ToString v)) = true ->
  (forall h, fill this v h = fillRgb this v h) /\ exists c, RGB_REGEXP (ToString v) = Some c.
Proof.
  intros T. destruct (proj1 (proj2 (regexps_exclusive (ToString v))) T) as [A B].
  split; [|exact (test_Some _ T)].
  intros h. unfold fill. rewrite A, T. cbn [test]. apply bind_ret_fst. apply fillRgb_fst.
Qed.

Lemma fill_rgba_case (this : loc) (v : value) :
  test (RGBA_REGEXP (ToString v)) = true ->
  (forall h, fill this v h = fillRgba this v h) /\ exists c, RGBA_REGEXP (ToString v) = Some c.
Proof.
  intros T. destruct (proj2 (proj2 (regexps_exclusive (ToString v))) T) as [A B].
  split; [|exact (test_Some _ T)].
  intros h. unfold fill. rewrite A, B, T. cbn [test]. apply bind_ret_fst. apply fillRgba_fst.
Qed.

(** X5. At most one of the three patterns accepts a string, and [fill] is
    the parser of the one that does. *)
Theorem fill_dispatch (this : loc) (v : value) (h : heap) :
  (test (HEX_REGEXP (ToString v)) = true ->
     RGB_REGEXP (ToString v) = None /\ RGBA_REGEXP (ToString v) = None /\
     fill this v h = fillHex this v h) /\
  (test (RGB_REGEXP (ToString v)) = true ->
     HEX_REGEXP (ToString v) = None /\ RGBA_REGEXP (ToString v) = None /\
     fill this v h = fillRgb this v h) /\
  (test (RGBA_REGEXP (ToString v)) = true ->
     HEX_REGEXP (ToString v) = None /\ RGB_REGEXP (ToString v) = None /\
     fill this v h = fillRgba this v h).
Proof.
  destruct (regexps_exclusive (ToString v)) as (X1 & X2 & X3).
  split; [|split]; intros T.
  - destruct (X1 T) as [A B]. repeat split; try assumption. exact (fill_hex_case this v T h).
  - destruct (X2 T) as [A B]. repeat split; try assumption.
    exact (proj1 (fill_rgb_case this v T) h).
  - destruct (X3 T) as [A B]. repeat split; try assumption.
    exact (proj1 (fill_rgba_case this v T) h).
Qed.

Lemma numeral_channel_range (c : string) :
  short_run is_digit c = true ->
  exists z, 0 <= z <= 255 /\ stored_channel (VString c) = Num (of_Z z).
Proof.
  intros H. pose proof (short_numeral c H) as Hn.
  exists (Z.min 255 (digits_value 0 c)). split; [|exact (stored_channel_digits c Hn)].
  unfold is_numeral in Hn. apply andb_true_iff in Hn. destruct Hn as [_ Hd].
  pose proof (digits_value_ge c Hd 0 (Z.le_refl 0)). lia.
Qed.

Lemma opacity_ok_one : opacity_ok (Num 1).
Proof. right. exists 1%float. repeat split; reflexivity. Qed.

(** X6. A string that one of the three patterns accepts determines the whole
    object: whatever the object held before, [fill] leaves the three
    channels set to integers between 0 and 255 and the opacity to nothing
    or a number between 0 and 1. *)
Theorem fill_accepted_sets_all (this : loc) (v : value) :
  test (HEX_REGEXP (ToString v)) || test (RGB_REGEXP (ToString v))
    || test (RGBA_REGEXP (ToString v)) = true ->
  exists (zr zg zb : Z) (a : field),
    0 <= zr <= 255 /\ 0 <= zg <= 255 /\ 0 <= zb <= 255 /\ opacity_ok a /\
    forall (h : heap) (o : t), h !! this = Some o ->
      fill this v h = (this, <[this := mk (Num (of_Z zr)) (Num (of_Z zg)) (Num (of_Z zb)) a]> h).
Proof.
  intros T. apply orb_true_iff in T. destruct T as [T|T]; [apply orb_true_iff in T; destruct T as [T|T]|].
  - assert (Hf : forall h, fill this v h = fillHex this (VString (ToString v)) h).
    { intros h. unfold fill. rewrite T. rewrite <- fillHex_ToString.
      apply bind_ret_fst. apply fillHex_fst. }
    apply test_Some in T. destruct T as [body T].
    apply HEX_REGEXP_inv in T. destruct T as [E [(c1 & c2 & c3 & -> & H1 & H2 & H3) |
      (c1 & c2 & c3 & c4 & c5 & c6 & -> & H1 & H2 & H3 & H4 & H5 & H6)]].
    + exists (hex_pair c1 c1), (hex_pair c2 c2), (hex_pair c3 c3), (Num 1).
      repeat split; try apply hex_pair_range; try assumption; try apply opacity_ok_one.
      intros h o Ho. rewrite Hf, E. exact (fillHex_3 h this o c1 c2 c3 Ho H1 H2 H3).
    + exists (hex_pair c1 c2), (hex_pair c3 c4), (hex_pair c5 c6), (Num 1).
      repeat split; try apply hex_pair_range; try assumption; try apply opacity_ok_one.
      intros h o Ho. rewrite Hf, E. exact (fillHex_6 h this o c1 c2 c3 c4 c5 c6 Ho H1 H2 H3 H4 H5 H6).
  - destruct (fill_rgb_case this v T) as [Hf [[[c1 c2] c3] E]].
    destruct (RGB_REGEXP_inv _ _ _ _ E) as [Hc _]. split_all Hc.
    destruct (numeral_channel_range c1 B) as (zr & Rr & Er).
    destruct (numeral_channel_range c2 B0) as (zg & Rg & Eg).
    destruct (numeral_channel_range c3 B1) as (zb & Rb & Eb).
    exists zr, zg, zb, (Num 1). repeat split; try tauto; try apply opacity_ok_one.
    intros h o Ho. rewrite Hf, (fillRgb_match h this o v c1 c2 c3 Ho E).
    unfold set_all. rewrite Er, Eg, Eb, stored_opacity_one. reflexivity.
  - destruct (fill_rgba_case this v T) as [Hf [[[[c1 c2] c3] c4] E]].
    destruct (RGBA_REGEXP_inv _ _ _ _ _ E) as [Hc _]. split_all Hc.
    destruct (numeral_channel_range c1 B) as (zr & Rr & Er).
    destruct (numeral_channel_range c2 B0) as (zg & Rg & Eg).
    destruct (numeral_channel_range c3 B1) as (zb & Rb & Eb).
    exists zr, zg, zb, (stored_opacity (VString c4)).
    repeat split; try tauto; try apply opacity_ok_set.
    intros h o Ho. rewrite Hf, (fillRgba_match h this o v c1 c2 c3 c4 Ho E).
    unfold set_all. rewrite Er, Eg, Eb. reflexivity.
Qed.

Lemma fill_accepted_sets_all_witness :
  exists (zr zg zb : Z) (a : field),
    0 <= zr <= 255 /\ 0 <= zg <= 255 /\ 0 <= zb <= 255 /\ opacity_ok a /\
    forall (h : heap) (o : t), h !! 1%positive = Some o ->
      fill 1%positive (VString "rgba(1, 2, 3, 0.5)") h
      = (1%positive, <[1%positive := mk (Num (of_Z zr)) (Num (of_Z zg)) (Num (of_Z zb)) a]> h).
Proof. apply (fill_accepted_sets_all 1%positive (VString "rgba(1, 2, 3, 0.5)")). reflexivity. Defined.

(** ** Printing as [rgb(...)] and reading it back *)

Lemma toRgb_at (this : loc) (h : heap) (o : t) :
  h !! this = Some o ->
  toRgb this h = (("rgb(" ++ join ", " [r o; g o; b o] ++ ")")%string, h).
Proof.
  intros Ho. unfold toRgb, bind, ret. rewrite !(get_at _ _ _ _ Ho). reflexivity.
Qed.

Lemma toRgba_at (this : loc) (h : heap) (o : t) :
  h !! this = Some o ->
  toRgba this h = (("rgba(" ++ join ", " [r o; g o; b o; opacity o] ++ ")")%string, h).
Proof.
  intros Ho. unfold toRgba, bind, ret. rewrite !(get_at _ _ _ _ Ho). reflexivity.
Qed.

Lemma bytes_print : forallb byte_prints (upto 256) = true.
Proof. vm_compute. reflexivity. Qed.

Lemma byte_numeral (z : Z) :
  0 <= z <= 255 ->
  Number_toString (of_Z z) = dec z /\ short_run is_digit (dec z) = true /\
  digits_value 0 (dec z) = z.
Proof.
  intros Hz. assert (H : byte_prints z = true) by (apply (upto_check _ 256 bytes_print); lia).
  unfold byte_prints in H. apply andb_true_iff in H. destruct H as [H H3].
  apply andb_true_iff in H. destruct H as [H1 H2].
  apply String.eqb_eq in H1. apply Z.eqb_eq in H3. auto.
Qed.

Lemma numeral_channel_byte (z : Z) : 0 <= z <= 255 -> numeral_channel (dec z) = Num (of_Z z).
Proof.
  intros Hz. destruct (byte_numeral z Hz) as (_ & _ & E).
  unfold numeral_channel. rewrite E. f_equal. f_equal. lia.
Qed.

Lemma rgb_text_plain (c1 c2 c3 : string) :
  ("rgb(" ++ (c1 ++ ", " ++ c2 ++ ", " ++ c3) ++ ")")%string
  = rgb_text "" c1 "" " " c2 "" " " c3 "".
Proof.
  unfold rgb_text. rewrite !string_app_assoc. reflexivity.
Qed.

Lemma rgba_text_plain (c1 c2 c3 c4 : string) :
  ("rgba(" ++ (c1 ++ ", " ++ c2 ++ ", " ++ c3 ++ ", " ++ c4) ++ ")")%string
  = rgba_text "" c1 "" " " c2 "" " " c3 "" " " c4 "".
Proof.
  unfold rgba_text. rewrite !string_app_assoc. reflexivity.
Qed.

Lemma plain_blanks :
  forallb is_blank [""; ""; " "; ""; " "; ""]%string = true /\
  forallb is_blank [""; ""; " "; ""; " "; ""; " "; ""]%string = true.
Proof. split; reflexivity. Qed.

(** X7. [toRgb] on a colour whose channels are set prints them in decimal,
    separated by a comma and a space; [fill] on that string, into any
    object, restores the three channels and sets the opacity to 1. *)
Theorem rgb_round_trip (h : heap) (this c : loc) (o oc : t) (zr zg zb : Z) :
  h !! this = Some o -> h !! c = Some oc ->
  r o = Num (of_Z zr) -> g o = Num (of_Z zg) -> b o = Num (of_Z zb) ->
  0 <= zr <= 255 -> 0 <= zg <= 255 -> 0 <= zb <= 255 ->
  toRgb this h = (("rgb(" ++ dec zr ++ ", " ++ dec zg ++ ", " ++ dec zb ++ ")")%string, h) /\
  (do s <- toRgb this; fill c (VString s)) h
  = (c, <[c := mk (r o) (g o) (b o) (Num 1)]> h).
Proof.
  intros Ho Hc Er Eg Eb Rr Rg Rb.
  destruct (byte_numeral zr Rr) as (Pr & Sr & _).
  destruct (byte_numeral zg Rg) as (Pg & Sg & _).
  destruct (byte_numeral zb Rb) as (Pb & Sb & _).
  assert (Ht : toRgb this h = (rgb_text "" (dec zr) "" " " (dec zg) "" " " (dec zb) "", h)).
  { rewrite (toRgb_at _ _ _ Ho), Er, Eg, Eb. cbn [join field_string].
    rewrite Pr, Pg, Pb, rgb_text_plain. reflexivity. }
  split.
  - rewrite Ht. unfold rgb_text. reflexivity.
  - unfold bind at 1. rewrite Ht.
    assert (Hs : forallb (short_run is_digit) [dec zr; dec zg; dec zb] = true)
      by (cbn [forallb]; rewrite Sr, Sg, Sb; reflexivity).
    pose proof (RGB_REGEXP_text _ _ _ _ _ _ _ _ _ (proj1 plain_blanks) Hs) as Hm.
    assert (T : test (RGB_REGEXP (ToString (VString
                 (rgb_text "" (dec zr) "" " " (dec zg) "" " " (dec zb) "")))) = true)
      by (cbn [ToString]; rewrite Hm; reflexivity).
    rewrite (proj1 (fill_rgb_case c _ T) h).
    rewrite (fillRgb_match h c oc (VString _) _ _ _ Hc Hm).
    unfold set_all. rewrite !stored_channel_digits by (apply short_numeral; assumption).
    fold (numeral_channel (dec zr)). fold (numeral_channel (dec zg)). fold (numeral_channel (dec zb)).
    rewrite !numeral_channel_byte by assumption.
    rewrite stored_opacity_one, Er, Eg, Eb. reflexivity.
Qed.

Lemma rgb_round_trip_witness :
  toRgb 1%positive {[1%positive := mk (Num (of_Z 255)) (Num (of_Z 0)) (Num (of_Z 170)) Null;
                     2%positive := init]}
  = ("rgb(255, 0, 170)"%string,
     {[1%positive := mk (Num (of_Z 255)) (Num (of_Z 0)) (Num (of_Z 170)) Null; 2%positive := init]}).
Proof.
  pose (o := mk (Num (of_Z 255)) (Num (of_Z 0)) (Num (of_Z 170)) Null).
  assert (Ho : ({[1%positive := o; 2%positive := init]} : heap) !! 1%positive = Some o) by reflexivity.
  assert (Hc : ({[1%positive := o; 2%positive := init]} : heap) !! 2%positive = Some init)
    by reflexivity.
  exact (proj1 (rgb_round_trip _ 1%positive 2%positive o init 255 0 170 Ho Hc
                  eq_refl eq_refl eq_refl ltac:(lia) ltac:(lia) ltac:(lia))).
Defined.

(** ** What [fill] does not read back *)

Lemma all_chars_app (p : ascii -> bool) (a b : string) :
  all_chars p (a ++ b) = all_chars p a && all_chars p b.
Proof.
  induction a as [|x a IH]; [reflexivity|].
  rewrite string_app_cons. cbn [all_chars]. rewrite IH. apply andb_assoc.
Qed.

Lemma digit_plain (c : ascii) : is_digit c = true -> plain_char c = true.
Proof.
  intros H. unfold plain_char. rewrite (digit_not_white c H). cbn [negb andb].
  destruct (Ascii.eqb c ")") eqn:E; [|reflexivity].
  apply Ascii.eqb_eq in E. subst c. discriminate H.
Qed.

Lemma show_digits_plain (f : nat) :
  forall (z : Z) (acc : string),
    all_chars plain_char acc = true -> all_chars plain_char (show_digits f 10 z acc) = true.
Proof.
  induction f as [|f IH]; intros z acc H; [exact H|].
  assert (Hc : all_chars plain_char (String (digit_char (z mod 10)) acc) = true).
  { cbn [all_chars]. rewrite H, andb_true_r. apply digit_plain. apply is_digit_char.
    apply Z.mod_pos_bound. lia. }
  cbn [show_digits]. destruct (z <? 10); [exact Hc|]. apply IH. exact Hc.
Qed.

Lemma dec_plain (z : Z) : all_chars plain_char (dec z) = true.
Proof. unfold dec, show_radix. apply show_digits_plain. reflexivity. Qed.

Lemma zeros_plain (n : nat) : all_chars plain_char (zeros n) = true.
Proof. induction n as [|n IH]; [reflexivity|]. cbn [zeros all_chars]. rewrite IH. reflexivity. Qed.

Lemma decpad_plain (w z : Z) : all_chars plain_char (decpad w z) = true.
Proof. unfold decpad. rewrite all_chars_app, zeros_plain, dec_plain. reflexivity. Qed.

Lemma layout_plain (s k n : Z) : all_chars plain_char (layout s k n) = true.
Proof.
  unfold layout.
  repeat match goal with
         | |- context [if ?c then _ else _] => destruct c
         end;
    repeat rewrite all_chars_app;
    repeat rewrite dec_plain; repeat rewrite zeros_plain; repeat rewrite decpad_plain;
    reflexivity.
Qed.

Lemma Number_toString_plain (x : number) : all_chars plain_char (Number_toString x) = true.
Proof.
  unfold Number_toString. destruct (Prim2SF x) as [s|s| |sg m e]; try reflexivity.
  - destruct s; reflexivity.
  - destruct (shortest m e) as [[s k] n]. rewrite all_chars_app, layout_plain.
    destruct sg; reflexivity.
Qed.

Lemma take_upto_app (p : ascii -> bool) (n : nat) :
  forall s c rest, take_upto n p s = (c, rest) -> s = (c ++ rest)%string.
Proof.
  induction n as [|n IH]; intros s c rest H.
  - destruct s; injection H as <- <-; reflexivity.
  - destruct s as [|a s]; [injection H as <- <-; reflexivity|].
    cbn [take_upto] in H. destruct (p a).
    + destruct (take_upto n p s) as [c' rest'] eqn:E. injection H as <- <-.
      rewrite string_app_cons. f_equal. exact (IH _ _ _ E).
    + injection H as <- <-. reflexivity.
Qed.

Lemma split_inside (q : ascii -> bool) (c : string) :
  forall T R rest,
    (c ++ rest)%string = (T ++ R)%string -> (String.length c < String.length T)%nat ->
    all_chars q T = true -> exists a t, rest = String a t /\ q a = true.
Proof.
  induction c as [|x c IH]; intros T R rest E L HT.
  - destruct T as [|a T]; [cbn in L; lia|].
    cbn [all_chars] in HT. apply andb_true_iff in HT. destruct HT as [Ha _].
    change ("" ++ rest)%string with rest in E. rewrite string_app_cons in E.
    exists a, (T ++ R)%string. split; [exact E|exact Ha].
  - destruct T as [|a T]; [cbn in L; lia|].
    cbn [all_chars] in HT. apply andb_true_iff in HT. destruct HT as [_ HT].
    rewrite !string_app_cons in E. injection E as _ E.
    cbn [String.length] in L. apply (IH T R rest E); [lia|exact HT].
Qed.

Lemma lit_paren (a : ascii) (t : string) :
  Ascii.eqb a ")" = false -> lit ")" (String a t) = None.
Proof.
  intros H. cbn [lit].
  destruct (Ascii.eqb (upper ")") (upper a)) eqn:E; [|reflexivity].
  exfalso. revert H E.
  destruct a as [[] [] [] [] [] [] [] []]; vm_compute; congruence.
Qed.

Lemma plain_stops_white (T rest : string) :
  all_chars plain_char T = true -> (1 <= String.length T)%nat ->
  stops is_white (T ++ rest) = true.
Proof.
  destruct T as [|a T]; [cbn; lia|]. intros H _.
  cbn [all_chars] in H. apply andb_true_iff in H. destruct H as [Ha _].
  unfold plain_char in Ha. apply andb_true_iff in Ha. destruct Ha as [Ha _].
  rewrite string_app_cons. cbn [stops]. exact Ha.
Qed.

(** A fourth group of more than three characters leaves something other
    than the closing parenthesis behind. *)
Lemma long_group_rest (p : ascii -> bool) (w T c4 s : string) :
  is_blank w = true -> all_chars plain_char T = true -> (4 <= String.length T)%nat ->
  group13 p (white (w ++ T ++ ")")) = Some (c4, s) -> lit ")" (white s) = None.
Proof.
  intros Hw HT HL. rewrite (white_blank _ _ Hw).
  rewrite (white_stops _ (plain_stops_white T ")" HT ltac:(lia))).
  unfold group13. destruct (take_upto 3 p (T ++ ")")) as [c rest] eqn:E.
  destruct c as [|x c]; [discriminate|]. intros H. injection H as <- <-.
  destruct (take_upto_inv p 3 _ _ _ E) as [_ L3].
  apply take_upto_app in E. symmetry in E.
  destruct (split_inside plain_char _ _ _ _ E ltac:(lia) HT) as (a & t & -> & Ha).
  unfold plain_char in Ha. apply andb_true_iff in Ha. destruct Ha as [A1 A2].
  apply negb_true_iff in A1, A2.
  unfold white. cbn [trim_start]. rewrite A1. exact (lit_paren a t A2).
Qed.

Lemma fill_rejected (this : loc) (v : value) (h : heap) :
  HEX_REGEXP (ToString v) = None -> RGB_REGEXP (ToString v) = None ->
  RGBA_REGEXP (ToString v) = None -> fill this v h = (this, h).
Proof. intros A B C. unfold fill. rewrite A, B, C. reflexivity. Qed.

Lemma rgba_long_opacity (c1 c2 c3 T : string) :
  forallb (short_run is_digit) [c1; c2; c3] = true ->
  all_chars plain_char T = true -> (4 <= String.length T)%nat ->
  RGBA_REGEXP (rgba_text "" c1 "" " " c2 "" " " c3 "" " " T "") = None.
Proof.
  intros Hc HT HL. split_all Hc.
  destruct comma_not_digit as (Cd & _ & Cw).
  unfold RGBA_REGEXP, rgba_text. cons_separators.
  rewrite lit_app. cbn [mbind option_bind].
  rewrite (group_field is_digit "" c1) by (auto using digit_not_white, blank_stops).
  cbn [mbind option_bind]. rewrite sep_field by auto. cbn [mbind option_bind].
  rewrite (group_field is_digit " " c2) by (auto using digit_not_white, blank_stops).
  cbn [mbind option_bind]. rewrite sep_field by auto. cbn [mbind option_bind].
  rewrite (group_field is_digit " " c3) by (auto using digit_not_white, blank_stops).
  cbn [mbind option_bind]. rewrite sep_field by auto. cbn [mbind option_bind].
  change ("" ++ ")")%string with ")"%string.
  destruct (group13 is_digit_or_dot (white (" " ++ T ++ ")"))) as [[c4 s]|] eqn:E; [|reflexivity].
  cbn [mbind option_bind].
  rewrite (long_group_rest is_digit_or_dot " " T c4 s eq_refl HT HL E). reflexivity.
Qed.

Lemma rgba_no_opacity (c1 c2 c3 : string) :
  forallb (short_run is_digit) [c1; c2; c3] = true ->
  RGBA_REGEXP (rgba_text "" c1 "" " " c2 "" " " c3 "" " " "" "") = None.
Proof.
  intros Hc. split_all Hc.
  destruct comma_not_digit as (Cd & _ & Cw).
  unfold RGBA_REGEXP, rgba_text. cons_separators.
  rewrite lit_app. cbn [mbind option_bind].
  rewrite (group_field is_digit "" c1) by (auto using digit_not_white, blank_stops).
  cbn [mbind option_bind]. rewrite sep_field by auto. cbn [mbind option_bind].
  rewrite (group_field is_digit " " c2) by (auto using digit_not_white, blank_stops).
  cbn [mbind option_bind]. rewrite sep_field by auto. cbn [mbind option_bind].
  rewrite (group_field is_digit " " c3) by (auto using digit_not_white, blank_stops).
  cbn [mbind option_bind]. rewrite sep_field by auto. reflexivity.
Qed.

Lemma rgba_text_other (w1 c1 w2 w3 c2 w4 w5 c3 w6 w7 c4 w8 : string) :
  HEX_REGEXP (rgba_text w1 c1 w2 w3 c2 w4 w5 c3 w6 w7 c4 w8) = None /\
  RGB_REGEXP (rgba_text w1 c1 w2 w3 c2 w4 w5 c3 w6 w7 c4 w8) = None.
Proof. split; reflexivity. Qed.

Lemma rgb_text_other (w1 c1 w2 w3 c2 w4 w5 c3 w6 : string) :
  HEX_REGEXP (rgb_text w1 c1 w2 w3 c2 w4 w5 c3 w6) = None /\
  RGBA_REGEXP (rgb_text w1 c1 w2 w3 c2 w4 w5 c3 w6) = None.
Proof. split; reflexivity. Qed.

Lemma toRgba_text (this : loc) (h : heap) (o : t) (zr zg zb : Z) :
  h !! this = Some o ->
  r o = Num (of_Z zr) -> g o = Num (of_Z zg) -> b o = Num (of_Z zb) ->
  0 <= zr <= 255 -> 0 <= zg <= 255 -> 0 <= zb <= 255 ->
  toRgba this h
  = (rgba_text "" (dec zr) "" " " (dec zg) "" " " (dec zb) "" " " (field_string (opacity o)) "", h)
  /\ forallb (short_run is_digit) [dec zr; dec zg; dec zb] = true.
Proof.
  intros Ho Er Eg Eb Rr Rg Rb.
  destruct (byte_numeral zr Rr) as (Pr & Sr & _).
  destruct (byte_numeral zg Rg) as (Pg & Sg & _).
  destruct (byte_numeral zb Rb) as (Pb & Sb & _).
  split; [|cbn [forallb]; rewrite Sr, Sg, Sb; reflexivity].
  rewrite (toRgba_at _ _ _ Ho), Er, Eg, Eb.
  cbn [join]. cbn [field_string]. rewrite Pr, Pg, Pb, rgba_text_plain. reflexivity.
Qed.

(** X8. [toRgba] on a colour whose channels are set and whose opacity is
    unset, or prints in more than three characters (0.25 does), gives a
    string that [fill] ignores: the pattern allows the opacity at most
    three characters. *)
Theorem rgba_not_read_back (h : heap) (this c : loc) (o : t) (zr zg zb : Z) :
  h !! this = Some o ->
  r o = Num (of_Z zr) -> g o = Num (of_Z zg) -> b o = Num (of_Z zb) ->
  0 <= zr <= 255 -> 0 <= zg <= 255 -> 0 <= zb <= 255 ->
  (opacity o = Null \/
   exists a, opacity o = Num a /\ (4 <= String.length (Number_toString a))%nat) ->
  toRgba this h
  = (("rgba(" ++ dec zr ++ ", " ++ dec zg ++ ", " ++ dec zb ++ ", "
       ++ field_string (opacity o) ++ ")")%string, h) /\
  (do s <- toRgba this; fill c (VString s)) h = (c, h).
Proof.
  intros Ho Er Eg Eb Rr Rg Rb Ha.
  destruct (toRgba_text this h o zr zg zb Ho Er Eg Eb Rr Rg Rb) as [Ht Hs].
  split; [rewrite Ht; unfold rgba_text; reflexivity|].
  unfold bind at 1. rewrite Ht.
  destruct (rgba_text_other "" (dec zr) "" " " (dec zg) "" " " (dec zb) "" " "
              (field_string (opacity o)) "") as [X1 X2].
  apply fill_rejected; cbn [ToString]; [exact X1|exact X2|].
  destruct Ha as [->|(a & -> & L)].
  - exact (rgba_no_opacity _ _ _ Hs).
  - cbn [field_string]. exact (rgba_long_opacity _ _ _ _ Hs (Number_toString_plain a) L).
Qed.

Lemma rgba_not_read_back_witness :
  (do s <- toRgba 1%positive; fill 2%positive (VString s))
    {[1%positive := mk (Num (of_Z 255)) (Num (of_Z 0)) (Num (of_Z 170)) (Num 0.25);
      2%positive := init]}
  = (2%positive,
     {[1%positive := mk (Num (of_Z 255)) (Num (of_Z 0)) (Num (of_Z 170)) (Num 0.25);
       2%positive := init]}).
Proof.
  pose (o := mk (Num (of_Z 255)) (Num (of_Z 0)) (Num (of_Z 170)) (Num 0.25)).
  assert (Ho : ({[1%positive := o; 2%positive := init]} : heap) !! 1%positive = Some o) by reflexivity.
  assert (Ha : opacity o = Null \/
               exists a, opacity o = Num a /\ (4 <= String.length (Number_toString a))%nat).
  { right. exists 0.25%float. split; [reflexivity|]. vm_compute. lia. }
  exact (proj2 (rgba_not_read_back _ 1%positive 2%positive o 255 0 170 Ho
                  eq_refl eq_refl eq_refl ltac:(lia) ltac:(lia) ltac:(lia) Ha)).
Defined.

(** ** Unset channels in print *)

(** A group with nothing in it does not match. *)
Lemma group_stuck (p : ascii -> bool) (s : string) (sep : ascii) (rest : string) :
  white s = String sep rest -> p sep = false -> group13 p (white s) = None.
Proof.
  intros -> Hp. unfold group13. cbn [take_upto]. rewrite Hp. reflexivity.
Qed.

Ltac stuck_at sep pf :=
  match goal with
  | |- context [group13 ?p (white ?s)] =>
      rewrite (group_stuck p s sep _ eq_refl pf); reflexivity
  end.

Lemma rgb_unset (c1 c2 c3 : string) :
  Forall (fun c => c = ""%string \/ short_run is_digit c = true) [c1; c2; c3] ->
  c1 = ""%string \/ c2 = ""%string \/ c3 = ""%string ->
  RGB_REGEXP (rgb_text "" c1 "" " " c2 "" " " c3 "") = None.
Proof.
  intros Hc Hn.
  apply Forall_cons in Hc. destruct Hc as [H1 Hc].
  apply Forall_cons in Hc. destruct Hc as [H2 Hc].
  apply Forall_cons in Hc. destruct Hc as [H3 _].
  destruct comma_not_digit as (Cd & _ & Cw). destruct paren_not_digit as (Pd & _ & Pw).
  unfold RGB_REGEXP, rgb_text. cons_separators.
  rewrite lit_app. cbn [mbind option_bind].
  destruct H1 as [->|S1].
  { stuck_at ","%char Cd. }
  rewrite (group_field is_digit "" c1) by (auto using digit_not_white, blank_stops).
  cbn [mbind option_bind]. rewrite sep_field by auto. cbn [mbind option_bind].
  destruct H2 as [->|S2].
  { stuck_at ","%char Cd. }
  rewrite (group_field is_digit " " c2) by (auto using digit_not_white, blank_stops).
  cbn [mbind option_bind]. rewrite sep_field by auto. cbn [mbind option_bind].
  destruct H3 as [->|S3].
  { stuck_at ")"%char Pd. }
  exfalso. destruct Hn as [E | [E | E]]; subst; discriminate.
Qed.

(** The text of a channel: nothing for an unset one, else its numeral. *)
Lemma channel_text (f : field) :
  channel_ok f ->
  (f = Null /\ field_string f = ""%string) \/
  (f <> Null /\ short_run is_digit (field_string f) = true).
Proof.
  intros [->|(z & Hz & ->)]; [left; split; reflexivity|right].
  split; [discriminate|]. cbn [field_string].
  destruct (byte_numeral z Hz) as (P & S & _). rewrite P. exact S.
Qed.

(** X9. A colour with an unset channel prints with an empty place, as in
    [rgb(, , )] for a new colour, and [fill] ignores that string. *)
Theorem unset_channel_not_read_back (h : heap) (this c : loc) (o : t) :
  h !! this = Some o ->
  channel_ok (r o) -> channel_ok (g o) -> channel_ok (b o) ->
  r o = Null \/ g o = Null \/ b o = Null ->
  (do s <- toRgb this; fill c (VString s)) h = (c, h) /\
  (r o = Null -> g o = Null -> b o = Null -> fst (toRgb this h) = "rgb(, , )"%string).
Proof.
  intros Ho Cr Cg Cb Hn. split.
  - unfold bind at 1. rewrite (toRgb_at _ _ _ Ho). cbn [join].
    rewrite rgb_text_plain.
    destruct (rgb_text_other "" (field_string (r o)) "" " " (field_string (g o)) "" " "
                (field_string (b o)) "") as [X1 X2].
    apply fill_rejected; cbn [ToString]; [exact X1| |exact X2].
    apply rgb_unset.
    + repeat apply Forall_cons_2; try apply Forall_nil_2;
        [destruct (channel_text _ Cr) as [[_ E]|[_ E]]
        |destruct (channel_text _ Cg) as [[_ E]|[_ E]]
        |destruct (channel_text _ Cb) as [[_ E]|[_ E]]]; auto.
    + destruct Hn as [E|[E|E]]; rewrite E; cbn [field_string]; auto.
  - intros Er Eg Eb. rewrite (toRgb_at _ _ _ Ho), Er, Eg, Eb. reflexivity.
Qed.

Lemma unset_channel_not_read_back_witness :
  (do s <- toRgb 1%positive; fill 1%positive (VString s))
    {[1%positive := mk (Num (of_Z 12)) Null (Num (of_Z 0)) (Num 1)]}
  = (1%positive, {[1%positive := mk (Num (of_Z 12)) Null (Num (of_Z 0)) (Num 1)]}).
Proof.
  pose (o := mk (Num (of_Z 12)) Null (Num (of_Z 0)) (Num 1)).
  assert (Ho : ({[1%positive := o]} : heap) !! 1%positive = Some o) by reflexivity.
  assert (Cr : channel_ok (r o)) by (right; exists 12; split; [lia|reflexivity]).
  assert (Cg : channel_ok (g o)) by (left; reflexivity).
  assert (Cb : channel_ok (b o)) by (right; exists 0; split; [lia|reflexivity]).
  assert (Hn : r o = Null \/ g o = Null \/ b o = Null) by (right; left; reflexivity).
  exact (proj1 (unset_channel_not_read_back _ 1%positive 1%positive o Ho Cr Cg Cb Hn)).
Defined.

(** ** Printing as [rgba(...)] and reading it back *)

Lemma tenths_print : forallb opacity_prints tenths = true.
Proof. vm_compute. reflexivity. Qed.

Lemma tenth_prints (a : number) :
  In a tenths ->
  short_run is_digit_or_dot (Number_toString a) = true /\
  stored_opacity (VString (Number_toString a)) = Num a.
Proof.
  intros H. pose proof tenths_print as A. rewrite forallb_forall in A.
  specialize (A a H). unfold opacity_prints in A.
  apply andb_true_iff in A. destruct A as [A1 A2].
  split; [exact A1|exact (field_eqb_eq _ _ A2)].
Qed.

Lemma toRgba_prints (h : heap) (this : loc) (o : t) (zr zg zb : Z) (a : number) :
  h !! this = Some o ->
  r o = Num (of_Z zr) -> g o = Num (of_Z zg) -> b o = Num (of_Z zb) ->
  0 <= zr <= 255 -> 0 <= zg <= 255 -> 0 <= zb <= 255 ->
  opacity o = Num a ->
  toRgba this h
  = (("rgba(" ++ dec zr ++ ", " ++ dec zg ++ ", " ++ dec zb ++ ", "
       ++ Number_toString a ++ ")")%string, h).
Proof.
  intros Ho Er Eg Eb Rr Rg Rb Ea.
  destruct (toRgba_text this h o zr zg zb Ho Er Eg Eb Rr Rg Rb) as [Ht _].
  rewrite Ea in Ht. cbn [field_string] in Ht. rewrite Ht. unfold rgba_text. reflexivity.
Qed.

Lemma rgba_read_back (h : heap) (this c : loc) (o oc : t) (zr zg zb : Z) (a : number) :
  h !! this = Some o -> h !! c = Some oc ->
  r o = Num (of_Z zr) -> g o = Num (of_Z zg) -> b o = Num (of_Z zb) ->
  0 <= zr <= 255 -> 0 <= zg <= 255 -> 0 <= zb <= 255 ->
  opacity o = Num a -> In a tenths ->
  (do s <- toRgba this; fill c (VString s)) h = (c, <[c := o]> h).
Proof.
  intros Ho Hc Er Eg Eb Rr Rg Rb Ea Ha.
  destruct (toRgba_text this h o zr zg zb Ho Er Eg Eb Rr Rg Rb) as [Ht Hs].
  rewrite Ea in Ht. cbn [field_string] in Ht.
  unfold bind at 1. rewrite Ht.
  destruct (tenth_prints a Ha) as [Sa Pa].
  pose proof (RGBA_REGEXP_text _ _ _ _ _ _ _ _ _ _ _ _ (proj2 plain_blanks) Hs Sa) as Hm.
  assert (T : test (RGBA_REGEXP (ToString (VString
               (rgba_text "" (dec zr) "" " " (dec zg) "" " " (dec zb) "" " "
                  (Number_toString a) "")))) = true)
    by (cbn [ToString]; rewrite Hm; reflexivity).
  rewrite (proj1 (fill_rgba_case c _ T) h).
  rewrite (fillRgba_match h c oc (VString _) _ _ _ _ Hc Hm).
  split_all Hs. unfold set_all.
  rewrite !stored_channel_digits by (apply short_numeral; assumption).
  fold (numeral_channel (dec zr)). fold (numeral_channel (dec zg)). fold (numeral_channel (dec zb)).
  rewrite !numeral_channel_byte by assumption. rewrite Pa.
  destruct o as [xr xg xb xa]. cbn in Er, Eg, Eb, Ea. subst. reflexivity.
Qed.

(** X10. [toRgba] on a colour whose channels are set and whose opacity is a
    whole number of tenths prints a string from which [fill], into any
    object, restores the colour with its opacity. *)
Theorem rgba_round_trip (h : heap) (this c : loc) (o oc : t) (zr zg zb : Z) (a : number) :
  h !! this = Some o -> h !! c = Some oc ->
  r o = Num (of_Z zr) -> g o = Num (of_Z zg) -> b o = Num (of_Z zb) ->
  0 <= zr <= 255 -> 0 <= zg <= 255 -> 0 <= zb <= 255 ->
  opacity o = Num a -> In a tenths ->
  toRgba this h
  = (("rgba(" ++ dec zr ++ ", " ++ dec zg ++ ", " ++ dec zb ++ ", "
       ++ Number_toString a ++ ")")%string, h) /\
  (do s <- toRgba this; fill c (VString s)) h = (c, <[c := o]> h).
Proof.
  intros Ho Hc Er Eg Eb Rr Rg Rb Ea Ha. split.
  - exact (toRgba_prints h this o zr zg zb a Ho Er Eg Eb Rr Rg Rb Ea).
  - exact (rgba_read_back h this c o oc zr zg zb a Ho Hc Er Eg Eb Rr Rg Rb Ea Ha).
Qed.

Lemma rgba_round_trip_witness :
  (do s <- toRgba 1%positive; fill 2%positive (VString s))
    {[1%positive := mk (Num (of_Z 255)) (Num (of_Z 0)) (Num (of_Z 170)) (Num 0.6);
      2%positive := init]}
  = (2%positive,
     <[2%positive := mk (Num (of_Z 255)) (Num (of_Z 0)) (Num (of_Z 170)) (Num 0.6)]>
       {[1%positive := mk (Num (of_Z 255)) (Num (of_Z 0)) (Num (of_Z 170)) (Num 0.6);
         2%positive := init]}).
Proof.
  pose (o := mk (Num (of_Z 255)) (Num (of_Z 0)) (Num (of_Z 170)) (Num 0.6)).
  assert (Ho : ({[1%positive := o; 2%positive := init]} : heap) !! 1%positive = Some o) by reflexivity.
  assert (Hc : ({[1%positive := o; 2%positive := init]} : heap) !! 2%positive = Some init)
    by reflexivity.
  assert (Ha : In 0.6%float tenths) by (unfold tenths; cbn [In]; tauto).
  exact (proj2 (rgba_round_trip _ 1%positive 2%positive o init 255 0 170 0.6%float Ho Hc
                  eq_refl eq_refl eq_refl ltac:(lia) ltac:(lia) ltac:(lia) eq_refl Ha)).
Defined.

(** ** [toHex] and [toString] *)

Lemma channel_byte_ok (f : field) :
  channel_ok f -> 0 <= channel_byte f <= 255 /\ ToNumber f = of_Z (channel_byte f).
Proof.
  intros [->|(z & Hz & ->)]; cbn [channel_byte ToNumber].
  - split; [lia|]. symmetry. exact of_Z_0.
  - rewrite truncZ_of_Z by (change (2 ^ 53) with 9007199254740992; lia). auto.
Qed.

Lemma toHex_numbers (h : heap) (this : loc) (o : t) (a b c : Z) :
  h !! this = Some o ->
  ToNumber (r o) = of_Z a -> ToNumber (g o) = of_Z b -> ToNumber (SiteColor.b o) = of_Z c ->
  0 <= a < 256 -> 0 <= b < 256 -> 0 <= c < 256 ->
  toHex this h = (String "#" (hex2 a ++ hex2 b ++ hex2 c), h).
Proof.
  intros Ho Er Eg Eb Ha Hb Hc. unfold toHex, bind, ret.
  rewrite !(get_at _ _ _ _ Ho), Er, Eg, Eb. f_equal.
  rewrite !shl_of_Z by lia.
  change (shl 1 24) with 16777216. change (2 ^ 16) with 65536. change (2 ^ 8) with 256.
  rewrite !add_of_Z by (change (2 ^ 53) with 9007199254740992; lia).
  rewrite Number_toString16_of_Z by (change (2 ^ 53) with 9007199254740992; lia).
  rewrite show_radix_bytes by lia. reflexivity.
Qed.

Lemma hex6_bytes (a b c : Z) :
  0 <= a < 256 -> 0 <= b < 256 -> 0 <= c < 256 ->
  hex6 (String "#" (hex2 a ++ hex2 b ++ hex2 c)) = true.
Proof.
  intros Ha Hb Hc.
  destruct (hex2_digits a Ha) as (La1 & La2 & _).
  destruct (hex2_digits b Hb) as (Lb1 & Lb2 & _).
  destruct (hex2_digits c Hc) as (Lc1 & Lc2 & _).
  rewrite hex2_three. unfold hex6. cbn [String.length all_chars Nat.eqb].
  rewrite La1, La2, Lb1, Lb2, Lc1, Lc2. reflexivity.
Qed.

(** X11. [toHex] on any object that satisfies the invariant returns [#] and
    six lower-case hexadecimal digits, two for each channel, an unset
    channel printing as [00]. *)
Theorem toHex_total (h : heap) (this : loc) (o : t) :
  h !! this = Some o ->
  channel_ok (r o) -> channel_ok (g o) -> channel_ok (b o) ->
  toHex this h
  = (String "#" (hex2 (channel_byte (r o)) ++ hex2 (channel_byte (g o))
                   ++ hex2 (channel_byte (b o))), h) /\
  hex6 (fst (toHex this h)) = true.
Proof.
  intros Ho Cr Cg Cb.
  destruct (channel_byte_ok _ Cr) as [Rr Er].
  destruct (channel_byte_ok _ Cg) as [Rg Eg].
  destruct (channel_byte_ok _ Cb) as [Rb Eb].
  rewrite (toHex_numbers h this o _ _ _ Ho Er Eg Eb) by lia.
  split; [reflexivity|]. cbn [fst]. apply hex6_bytes; lia.
Qed.

Lemma toHex_total_witness :
  toHex 1%positive {[1%positive := mk Null (Num (of_Z 171)) Null Null]}
  = ("#00ab00"%string, {[1%positive := mk Null (Num (of_Z 171)) Null Null]}).
Proof.
  pose (o := mk Null (Num (of_Z 171)) Null Null).
  assert (Ho : ({[1%positive := o]} : heap) !! 1%positive = Some o) by reflexivity.
  assert (Cr : channel_ok (r o)) by (left; reflexivity).
  assert (Cg : channel_ok (g o)) by (right; exists 171; split; [lia|reflexivity]).
  exact (proj1 (toHex_total _ 1%positive o Ho Cr Cg Cr)).
Defined.

Lemma toString_at (this : loc) (h : heap) (o : t) :
  h !! this = Some o ->
  toString this h = if is_one (opacity o) then toHex this h else toRgba this h.
Proof.
  intros Ho. unfold toString, bind. rewrite (get_at _ _ _ _ Ho).
  destruct (is_one (opacity o)); reflexivity.
Qed.

Lemma hex_read_back (h : heap) (c : loc) (oc : t) (zr zg zb : Z) :
  h !! c = Some oc ->
  0 <= zr <= 255 -> 0 <= zg <= 255 -> 0 <= zb <= 255 ->
  fill c (VString (String "#" (hex2 zr ++ hex2 zg ++ hex2 zb))) h
  = (c, <[c := mk (Num (of_Z zr)) (Num (of_Z zg)) (Num (of_Z zb)) (Num 1)]> h).
Proof.
  intros Hc Rr Rg Rb.
  destruct (hex2_digits zr ltac:(lia)) as (_ & _ & Xa1 & Xa2 & Pa).
  destruct (hex2_digits zg ltac:(lia)) as (_ & _ & Xb1 & Xb2 & Pb).
  destruct (hex2_digits zb ltac:(lia)) as (_ & _ & Xc1 & Xc2 & Pc).
  rewrite hex2_three.
  rewrite fill_hex_case
    by (cbn [ToString]; rewrite (HEX_REGEXP_6 _ _ _ _ _ _ Xa1 Xa2 Xb1 Xb2 Xc1 Xc2); reflexivity).
  rewrite (fillHex_6 h c oc _ _ _ _ _ _ Hc Xa1 Xa2 Xb1 Xb2 Xc1 Xc2).
  unfold hex_object. rewrite Pa, Pb, Pc. reflexivity.
Qed.

Lemma tenth_is_one (a : number) :
  In a tenths -> (a = 1%float /\ is_one (Num a) = true) \/ (a <> 1%float /\ is_one (Num a) = false).
Proof.
  unfold tenths. cbn [In]. intros H.
  repeat (destruct H as [<-|H]; [first [left; split; reflexivity
                                       |right; split; [intros E; apply (f_equal Prim2SF) in E;
                                                       vm_compute in E; discriminate E
                                                      |reflexivity]]|]).
  contradiction.
Qed.

(** X12. [toString] on a colour whose channels are set and whose opacity is a
    whole number of tenths: the hexadecimal form when the opacity is 1,
    the [rgba] form otherwise; in both cases [fill] restores the colour
    from the string, into any object. *)
Theorem toString_round_trip (h : heap) (this c : loc) (o oc : t) (zr zg zb : Z) (a : number) :
  h !! this = Some o -> h !! c = Some oc ->
  r o = Num (of_Z zr) -> g o = Num (of_Z zg) -> b o = Num (of_Z zb) ->
  0 <= zr <= 255 -> 0 <= zg <= 255 -> 0 <= zb <= 255 ->
  opacity o = Num a -> In a tenths ->
  (a = 1%float -> toString this h = (String "#" (hex2 zr ++ hex2 zg ++ hex2 zb), h)) /\
  (a <> 1%float ->
   toString this h
   = (("rgba(" ++ dec zr ++ ", " ++ dec zg ++ ", " ++ dec zb ++ ", "
        ++ Number_toString a ++ ")")%string, h)) /\
  (do s <- toString this; fill c (VString s)) h = (c, <[c := o]> h).
Proof.
  intros Ho Hc Er Eg Eb Rr Rg Rb Ea Ha.
  pose proof (toString_at this h o Ho) as Hs. rewrite Ea in Hs.
  assert (Hx : toHex this h = (String "#" (hex2 zr ++ hex2 zg ++ hex2 zb), h))
    by (apply (toHex_bytes h this o zr zg zb Ho Er Eg Eb); lia).
  pose proof (toRgba_prints h this o zr zg zb a Ho Er Eg Eb Rr Rg Rb Ea) as Ht.
  pose proof (rgba_read_back h this c o oc zr zg zb a Ho Hc Er Eg Eb Rr Rg Rb Ea Ha) as Hb.
  destruct (tenth_is_one a Ha) as [[E1 I]|[E1 I]]; rewrite I in Hs.
  - split; [intros _; rewrite Hs; exact Hx|]. split; [intros N; contradiction|].
    unfold bind at 1. rewrite Hs, Hx. rewrite (hex_read_back h c oc zr zg zb Hc Rr Rg Rb).
    destruct o as [xr xg xb xa]. cbn in Er, Eg, Eb, Ea. subst. reflexivity.
  - split; [intros E; contradiction|]. split; [intros _; rewrite Hs; exact Ht|].
    unfold bind at 1. rewrite Hs. exact Hb.
Qed.

Lemma toString_round_trip_witness :
  (do s <- toString 1%positive; fill 2%positive (VString s))
    {[1%positive := mk (Num (of_Z 255)) (Num (of_Z 0)) (Num (of_Z 170)) (Num 1);
      2%positive := mk Null Null Null (Num 0.5)]}
  = (2%positive,
     <[2%positive := mk (Num (of_Z 255)) (Num (of_Z 0)) (Num (of_Z 170)) (Num 1)]>
       {[1%positive := mk (Num (of_Z 255)) (Num (of_Z 0)) (Num (of_Z 170)) (Num 1);
         2%positive := mk Null Null Null (Num 0.5)]}).
Proof.
  pose (o := mk (Num (of_Z 255)) (Num (of_Z 0)) (Num (of_Z 170)) (Num 1)).
  pose (oc := mk Null Null Null (Num 0.5)).
  assert (Ho : ({[1%positive := o; 2%positive := oc]} : heap) !! 1%positive = Some o) by reflexivity.
  assert (Hc : ({[1%positive := o; 2%positive := oc]} : heap) !! 2%positive = Some oc)
    by reflexivity.
  assert (Ha : In 1%float tenths) by (unfold tenths; cbn [In]; tauto).
  exact (proj2 (proj2 (toString_round_trip _ 1%positive 2%positive o oc 255 0 170 1%float Ho Hc
                  eq_refl eq_refl eq_refl ltac:(lia) ltac:(lia) ltac:(lia) eq_refl Ha))).
Defined.

(** ** What the transformations leave alone *)

Lemma only_channels_refl (this : loc) (h : heap) : only_channels_of this h h.
Proof. split; reflexivity. Qed.

Lemma only_channels_alter (this : loc) (f : t -> t) (h h' : heap) :
  (forall o, opacity (f o) = opacity o) ->
  only_channels_of this h h' -> only_channels_of this h (alter f this h').
Proof.
  intros Hf [A B]. split.
  - intros l Hl. rewrite lookup_alter_ne by congruence. exact (A l Hl).
  - rewrite lookup_alter_eq. rewrite <- B.
    destruct (h' !! this) as [o|]; cbn; [rewrite Hf|]; reflexivity.
Qed.

Lemma setRed_alter (this : loc) (v : value) (h : heap) :
  setRed this v h = (this, alter (with_r (stored_channel v)) this h).
Proof. reflexivity. Qed.

Lemma setGreen_alter (this : loc) (v : value) (h : heap) :
  setGreen this v h = (this, alter (with_g (stored_channel v)) this h).
Proof. reflexivity. Qed.

Lemma setBlue_alter (this : loc) (v : value) (h : heap) :
  setBlue this v h = (this, alter (with_b (stored_channel v)) this h).
Proof. reflexivity. Qed.

(** X13. [darken], [lighten] and [blendWith] write nothing but the red, green
    and blue of their receiver: its opacity, every other object, and so
    the colour passed to [blendWith] when it is another object, stay as
    they were. *)
Theorem transformations_frame (this color : loc) (p : value) (h : heap) :
  only_channels_of this h (snd (darken this p h)) /\
  only_channels_of this h (snd (lighten this p h)) /\
  only_channels_of this h (snd (blendWith this color p h)) /\
  (color <> this -> snd (blendWith this color p h) !! color = h !! color).
Proof.
  assert (D : only_channels_of this h (snd (darken this p h))).
  { unfold darken, bind, get, ret. cbv zeta. rewrite setRed_alter, setGreen_alter, setBlue_alter.
    cbn [snd].
    repeat apply only_channels_alter; try (intros o; reflexivity). apply only_channels_refl. }
  assert (L : only_channels_of this h (snd (lighten this p h))).
  { unfold lighten, bind, get, ret. cbv zeta. rewrite setRed_alter, setGreen_alter, setBlue_alter.
    cbn [snd].
    repeat apply only_channels_alter; try (intros o; reflexivity). apply only_channels_refl. }
  assert (B : only_channels_of this h (snd (blendWith this color p h))).
  { unfold blendWith, bind, get, ret. cbv zeta. rewrite setRed_alter, setGreen_alter, setBlue_alter.
    cbn [snd].
    repeat apply only_channels_alter; try (intros o; reflexivity). apply only_channels_refl. }
  split; [exact D|]. split; [exact L|]. split; [exact B|].
  intros Hc. exact (proj1 B color Hc).
Qed.

(** ** The ends of the percentage range *)

Lemma SFcompare_Eq_finite (m1 : positive) (e1 : Z) (y : spec_float) :
  SFcompare (S754_finite false m1 e1) y = Some Eq -> y = S754_finite false m1 e1.
Proof.
  destruct y as [s|s| |s m e]; try (destruct s; discriminate).
  - discriminate.
  - destruct s; [discriminate|]. unfold SFcompare.
    destruct (Z.compare_spec e1 e) as [E|E|E]; try discriminate.
    change (Pos.compare_cont Eq m1 m) with (m1 ?= m)%positive.
    destruct (m1 ?= m)%positive eqn:Ec; try discriminate.
    apply Pos.compare_eq in Ec. intros _. subst. reflexivity.
Qed.

Lemma clamp_low (x : number) : (x <=? 0)%float = true -> numberBound x 0 1 = 0%float.
Proof.
  intros H. rewrite (numberBound_eq x 1 _ _ Prim2SF_1).
  assert (N : isNaN x = false).
  { rewrite FloatAxioms.leb_spec in H. apply isNaN_false_Prim2SF. intros E. rewrite E in H.
    discriminate H. }
  rewrite N.
  destruct (x <? 0)%float eqn:L; [reflexivity|].
  rewrite FloatAxioms.leb_spec in H. rewrite FloatAxioms.ltb_spec in L.
  rewrite Prim2SF_zero in H, L.
  destruct (Prim2SF x) as [s|s| |s m e] eqn:Ex.
  - destruct (Prim2SF_zero_cases x s Ex) as [-> | ->]; reflexivity.
  - destruct s; discriminate.
  - discriminate.
  - destruct s; discriminate.
Qed.

Lemma clamp_high (x : number) : (1 <=? x)%float = true -> numberBound x 0 1 = 1%float.
Proof.
  intros H. rewrite (numberBound_eq x 1 _ _ Prim2SF_1).
  assert (N : isNaN x = false).
  { rewrite FloatAxioms.leb_spec in H. apply isNaN_false_Prim2SF. intros E. rewrite E in H.
    rewrite Prim2SF_1 in H. discriminate H. }
  rewrite N.
  destruct (1 <? x)%float eqn:G.
  - destruct (x <? 0)%float eqn:L; [|reflexivity]. exfalso.
    rewrite FloatAxioms.ltb_spec in L, G. rewrite Prim2SF_zero in L. rewrite Prim2SF_1 in G.
    revert G L. generalize 4503599627370496%positive. intros q.
    destruct (Prim2SF x) as [s|s| |s m e]; try destruct s; discriminate.
  - assert (E : Prim2SF x = Prim2SF 1).
    { rewrite FloatAxioms.leb_spec in H. rewrite FloatAxioms.ltb_spec in G.
      rewrite Prim2SF_1 in *. apply SFcompare_Eq_finite.
      unfold SFleb in H. unfold SFltb in G.
      destruct (SFcompare (S754_finite false 4503599627370496 (-52)) (Prim2SF x)) as [[]|];
        try discriminate; reflexivity. }
    apply Prim2SF_inj in E. subst x. reflexivity.
Qed.

Lemma scales_checked : forallb scale_check (upto 256) = true.
Proof. vm_compute. reflexivity. Qed.

Lemma stores_checked : forallb store_check (upto 511) = true.
Proof. vm_compute. reflexivity. Qed.

Lemma stored_integer (z : Z) :
  0 <= z <= 510 -> stored_channel (VNumber (of_Z z)) = Num (of_Z (Z.min 255 z)).
Proof.
  intros Hz. apply field_eqb_eq. apply (upto_check store_check 511 stores_checked). lia.
Qed.

Lemma stored_byte (z : Z) : 0 <= z <= 255 -> stored_channel (VNumber (of_Z z)) = Num (of_Z z).
Proof. intros Hz. rewrite stored_integer by lia. rewrite Z.min_r by lia. reflexivity. Qed.

Lemma scale_ends (z : Z) :
  0 <= z <= 255 ->
  (of_Z z * (1 - 0) = of_Z z /\ of_Z z * (1 + 0) = of_Z z /\ of_Z z * (1 - 1) = 0 /\
   of_Z z * (1 + 1) = of_Z (2 * z) /\ of_Z z - of_Z z = 0 /\ 0 + of_Z z = of_Z z /\
   neg_zero + of_Z z = of_Z z)%float.
Proof.
  intros Hz. pose proof (upto_check scale_check 256 scales_checked z ltac:(lia)) as A.
  unfold scale_check in A.
  repeat (apply andb_true_iff in A; destruct A as [A ?]).
  repeat match goal with H : Leibniz.eqb _ _ = true |- _ => apply Leibniz.eqb_spec in H end.
  repeat split; assumption.
Qed.

Lemma blends_checked :
  (let l := channel_numbers in forallb (fun x => forallb (blend_check x) l) l) = true.
Proof. vm_compute. reflexivity. Qed.

Lemma channel_number_In (z : Z) : 0 <= z <= 255 -> In (of_Z z) channel_numbers.
Proof.
  intros Hz. apply in_map. unfold upto. apply in_map_iff. exists (Z.to_nat z).
  split; [lia|]. apply in_seq. lia.
Qed.

Lemma blend_ends (z c : Z) :
  0 <= z <= 255 -> 0 <= c <= 255 ->
  interpolant (of_Z c) (of_Z z) 0 = of_Z z /\ interpolant (of_Z c) (of_Z z) 1 = of_Z c.
Proof.
  intros Hz Hc. pose proof blends_checked as A. cbv zeta in A.
  rewrite forallb_forall in A. specialize (A _ (channel_number_In z Hz)).
  rewrite forallb_forall in A. specialize (A _ (channel_number_In c Hc)).
  unfold blend_check in A. apply andb_true_iff in A. destruct A as [A1 A2].
  apply Leibniz.eqb_spec in A1. apply Leibniz.eqb_spec in A2. auto.
Qed.

Lemma scaled_set (factor : number) (o : t) (zr zg zb : Z) :
  r o = Num (of_Z zr) -> g o = Num (of_Z zg) -> b o = Num (of_Z zb) ->
  scaled factor o
  = mk (stored_channel (VNumber (of_Z zr * factor))) (stored_channel (VNumber (of_Z zg * factor)))
       (stored_channel (VNumber (of_Z zb * factor))) (opacity o).
Proof. intros Er Eg Eb. unfold scaled. rewrite Er, Eg, Eb. reflexivity. Qed.

Lemma object_eta (o : t) (x y z : field) :
  r o = x -> g o = y -> b o = z -> mk x y z (opacity o) = o.
Proof. destruct o. cbn. intros <- <- <-. reflexivity. Qed.

(** X14. With a percentage of zero or less, [darken], [lighten] and
    [blendWith] leave a colour whose channels are set as it is. *)
Theorem nothing_at_zero_percent (h : heap) (this color : loc) (o oc : t) (p : value)
    (zr zg zb cr cg cb : Z) :
  h !! this = Some o -> h !! color = Some oc ->
  r o = Num (of_Z zr) -> g o = Num (of_Z zg) -> b o = Num (of_Z zb) ->
  r oc = Num (of_Z cr) -> g oc = Num (of_Z cg) -> b oc = Num (of_Z cb) ->
  0 <= zr <= 255 -> 0 <= zg <= 255 -> 0 <= zb <= 255 ->
  0 <= cr <= 255 -> 0 <= cg <= 255 -> 0 <= cb <= 255 ->
  (parseFloat p <=? 0)%float = true ->
  darken this p h = (this, h) /\ lighten this p h = (this, h) /\
  blendWith this color p h = (this, h).
Proof.
  intros Ho Hc Er Eg Eb Fr Fg Fb Rr Rg Rb Sr Sg Sb Hp.
  pose proof (clamp_low _ Hp) as Ec.
  destruct (scale_ends zr Rr) as (Ar & Br & _). destruct (scale_ends zg Rg) as (Ag & Bg & _).
  destruct (scale_ends zb Rb) as (Ab & Bb & _).
  rewrite (darken_at _ _ _ _ Ho), (lighten_at _ _ _ _ Ho), (blendWith_at _ _ _ _ _ _ Ho Hc).
  unfold clamped_percent. rewrite Ec, !(scaled_set _ o zr zg zb Er Eg Eb).
  rewrite Er, Eg, Eb, Fr, Fg, Fb. cbn [ToNumber].
  rewrite Ar, Ag, Ab, Br, Bg, Bb.
  rewrite (proj1 (blend_ends zr cr Rr Sr)), (proj1 (blend_ends zg cg Rg Sg)),
    (proj1 (blend_ends zb cb Rb Sb)).
  rewrite !stored_byte by assumption.
  rewrite (object_eta o _ _ _ Er Eg Eb), (insert_id h this o Ho). auto.
Qed.

Lemma nothing_at_zero_percent_witness :
  darken 1%positive (VString "-20")
    {[1%positive := mk (Num (of_Z 255)) (Num (of_Z 170)) (Num (of_Z 17)) (Num 1)]}
  = (1%positive, {[1%positive := mk (Num (of_Z 255)) (Num (of_Z 170)) (Num (of_Z 17)) (Num 1)]}).
Proof.
  pose (o := mk (Num (of_Z 255)) (Num (of_Z 170)) (Num (of_Z 17)) (Num 1)).
  assert (Ho : ({[1%positive := o]} : heap) !! 1%positive = Some o) by reflexivity.
  assert (Hp : (parseFloat (VString "-20") <=? 0)%float = true) by (vm_compute; reflexivity).
  exact (proj1 (nothing_at_zero_percent _ 1%positive 1%positive o o (VString "-20")
                  255 170 17 255 170 17 Ho Ho eq_refl eq_refl eq_refl eq_refl eq_refl eq_refl
                  ltac:(lia) ltac:(lia) ltac:(lia) ltac:(lia) ltac:(lia) ltac:(lia) Hp)).
Defined.

(** X15. With a percentage of one or more, [darken] sets every channel to 0,
    [lighten] doubles every channel up to 255, and [blendWith] gives the
    receiver the channels of the other colour. *)
Theorem everything_at_full_percent (h : heap) (this color : loc) (o oc : t) (p : value)
    (zr zg zb cr cg cb : Z) :
  h !! this = Some o -> h !! color = Some oc ->
  r o = Num (of_Z zr) -> g o = Num (of_Z zg) -> b o = Num (of_Z zb) ->
  r oc = Num (of_Z cr) -> g oc = Num (of_Z cg) -> b oc = Num (of_Z cb) ->
  0 <= zr <= 255 -> 0 <= zg <= 255 -> 0 <= zb <= 255 ->
  0 <= cr <= 255 -> 0 <= cg <= 255 -> 0 <= cb <= 255 ->
  (1 <=? parseFloat p)%float = true ->
  darken this p h = (this, <[this := mk (Num 0) (Num 0) (Num 0) (opacity o)]> h) /\
  lighten this p h
  = (this, <[this := mk (Num (of_Z (Z.min 255 (2 * zr)))) (Num (of_Z (Z.min 255 (2 * zg))))
                        (Num (of_Z (Z.min 255 (2 * zb)))) (opacity o)]> h) /\
  blendWith this color p h = (this, <[this := mk (r oc) (g oc) (b oc) (opacity o)]> h).
Proof.
  intros Ho Hc Er Eg Eb Fr Fg Fb Rr Rg Rb Sr Sg Sb Hp.
  pose proof (clamp_high _ Hp) as Ec.
  destruct (scale_ends zr Rr) as (_ & _ & Ar & Br & _).
  destruct (scale_ends zg Rg) as (_ & _ & Ag & Bg & _).
  destruct (scale_ends zb Rb) as (_ & _ & Ab & Bb & _).
  rewrite (darken_at _ _ _ _ Ho), (lighten_at _ _ _ _ Ho), (blendWith_at _ _ _ _ _ _ Ho Hc).
  unfold clamped_percent. rewrite Ec, !(scaled_set _ o zr zg zb Er Eg Eb).
  rewrite Er, Eg, Eb, Fr, Fg, Fb. cbn [ToNumber].
  rewrite Ar, Ag, Ab, Br, Bg, Bb.
  rewrite (proj2 (blend_ends zr cr Rr Sr)), (proj2 (blend_ends zg cg Rg Sg)),
    (proj2 (blend_ends zb cb Rb Sb)).
  rewrite (stored_byte cr Sr), (stored_byte cg Sg), (stored_byte cb Sb).
  rewrite (stored_integer (2 * zr)), (stored_integer (2 * zg)), (stored_integer (2 * zb)) by lia.
  rewrite (stored_channel_zero 0 (or_introl eq_refl)). auto.
Qed.

Lemma everything_at_full_percent_witness :
  lighten 1%positive (VString "1.5")
    {[1%positive := mk (Num (of_Z 255)) (Num (of_Z 100)) (Num (of_Z 17)) (Num 1)]}
  = (1%positive,
     <[1%positive := mk (Num (of_Z 255)) (Num (of_Z 200)) (Num (of_Z 34)) (Num 1)]>
       {[1%positive := mk (Num (of_Z 255)) (Num (of_Z 100)) (Num (of_Z 17)) (Num 1)]}).
Proof.
  pose (o := mk (Num (of_Z 255)) (Num (of_Z 100)) (Num (of_Z 17)) (Num 1)).
  assert (Ho : ({[1%positive := o]} : heap) !! 1%positive = Some o) by reflexivity.
  assert (Hp : (1 <=? parseFloat (VString "1.5"))%float = true) by (vm_compute; reflexivity).
  exact (proj1 (proj2 (everything_at_full_percent _ 1%positive 1%positive o o (VString "1.5")
                  255 100 17 255 100 17 Ho Ho eq_refl eq_refl eq_refl eq_refl eq_refl eq_refl
                  ltac:(lia) ltac:(lia) ltac:(lia) ltac:(lia) ltac:(lia) ltac:(lia) Hp))).
Defined.

Lemma unit_finite (c : number) : unit_shape (Prim2SF c) -> finite_shape 1 (Prim2SF c).
Proof.
  intros [E|(m & e & E & L)]; exists false; [left; exact E|right].
  exists m, e. split; [exact E|]. pose proof (Pos2Z.is_pos (digits2_pos m)). lia.
Qed.

Lemma blend_same (z : Z) (c : number) :
  0 <= z <= 255 -> unit_shape (Prim2SF c) -> interpolant (of_Z z) (of_Z z) c = of_Z z.
Proof.
  intros Hz Hc. unfold interpolant.
  destruct (scale_ends z Hz) as (_ & _ & _ & _ & D & P0 & N0).
  rewrite D. destruct (zero_mul_finite c 1 (unit_finite c Hc)) as [-> | ->]; assumption.
Qed.

(** X16. Blending a colour whose channels are set with itself changes
    nothing, whatever the percentage, as long as it is a number. *)
Theorem blend_with_itself (h : heap) (this : loc) (o : t) (p : value) (zr zg zb : Z) :
  h !! this = Some o ->
  r o = Num (of_Z zr) -> g o = Num (of_Z zg) -> b o = Num (of_Z zb) ->
  0 <= zr <= 255 -> 0 <= zg <= 255 -> 0 <= zb <= 255 ->
  isNaN (parseFloat p) = false ->
  blendWith this this p h = (this, h).
Proof.
  intros Ho Er Eg Eb Rr Rg Rb Hp.
  pose proof (clamp01_shape _ Hp) as Hc.
  rewrite (blendWith_at _ _ _ _ _ _ Ho Ho). rewrite Er, Eg, Eb. cbn [ToNumber].
  unfold clamped_percent.
  rewrite (blend_same zr _ Rr Hc), (blend_same zg _ Rg Hc), (blend_same zb _ Rb Hc).
  rewrite !stored_byte by assumption.
  rewrite (object_eta o _ _ _ Er Eg Eb), (insert_id h this o Ho). reflexivity.
Qed.

Lemma blend_with_itself_witness :
  blendWith 1%positive 1%positive (VNumber 0.3)
    {[1%positive := mk (Num (of_Z 255)) (Num (of_Z 170)) (Num (of_Z 17)) (Num 1)]}
  = (1%positive, {[1%positive := mk (Num (of_Z 255)) (Num (of_Z 170)) (Num (of_Z 17)) (Num 1)]}).
Proof.
  pose (o := mk (Num (of_Z 255)) (Num (of_Z 170)) (Num (of_Z 17)) (Num 1)).
  assert (Ho : ({[1%positive := o]} : heap) !! 1%positive = Some o) by reflexivity.
  assert (Hp : isNaN (parseFloat (VNumber 0.3)) = false) by (vm_compute; reflexivity).
  exact (blend_with_itself _ 1%positive o (VNumber 0.3) 255 170 17 Ho eq_refl eq_refl eq_refl
           ltac:(lia) ltac:(lia) ltac:(lia) Hp).
Defined.

(** ** How far [lighten] moves a channel *)

Lemma mul_ge (mx my mB : positive) (ex ey eB : Z) :
  valid_binary (S754_finite false mx ex) = true ->
  valid_binary (S754_finite false my ey) = true ->
  valid_binary (S754_finite false mB eB) = true ->
  (real (Zpos mB) eB <= real (Zpos mx) ex * real (Zpos my) ey)%Q ->
  SFleb (S754_finite false mB eB) (SF64mul (S754_finite false mx ex) (S754_finite false my ey))
  = true.
Proof.
  intros Vx Vy VB H. unfold SF64mul, SFmul. cbn [xorb].
  apply bra_ge; [exact VB| |].
  - apply valid_digits in Vx, Vy. destruct Vx as (Hdx & Hex & Cx), Vy as (Hdy & Hey & Cy).
    pose proof (digits_mul mx my) as [Hd1 Hd2]. rewrite fexp64_eq in *.
    pose proof (Pos2Z.is_pos (digits2_pos mx)). pose proof (Pos2Z.is_pos (digits2_pos my)). lia.
  - rewrite Pos2Z.inj_mul, <- real_mul. exact H.
Qed.

(** The double of a positive integer below [2^53] has its value. *)
Lemma real_of_Z (z : Z) :
  0 < z < 2 ^ 53 ->
  exists m e, Prim2SF (of_Z z) = S754_finite false m e /\ (real (Zpos m) e == inject_Z z)%Q.
Proof.
  intros Hz. rewrite (Prim2SF_of_Z_small z Hz). unfold canon.
  eexists _, _. split; [reflexivity|].
  pose proof (log2_bounds z Hz) as Hl.
  rewrite Z2Pos.id by (apply Z.mul_pos_pos; [lia|apply pow2_pos; lia]).
  replace (Z.log2 z - 52) with (0 - (52 - Z.log2 z)) by lia.
  rewrite real_shift by lia. unfold real. change (2 ^ 0)%Q with 1%Q. ring.
Qed.

Lemma Prim2SF_2 : Prim2SF 2 = S754_finite false 4503599627370496 (-51).
Proof. reflexivity. Qed.

(** [1 + p] for a clamped percentage [p] lies between 1 and 2. *)
Lemma one_plus_bounds (c : number) :
  unit_shape (Prim2SF c) -> at_most 1 (Prim2SF c) ->
  exists m e, Prim2SF (1 + c) = S754_finite false m e /\ -52 <= e <= -50 /\
    (1 <= real (Zpos m) e)%Q /\ (real (Zpos m) e <= 2)%Q.
Proof.
  intros Hu Ha. destruct (one_plus_shape c Hu) as (m & e & E & He).
  exists m, e. split; [exact E|]. split; [exact He|].
  pose proof (Prim2SF_valid (1 + c)) as V. rewrite E in V.
  pose proof (Prim2SF_valid c) as Vc.
  rewrite add_spec, Prim2SF_1 in E.
  assert (R1 : (real 4503599627370496 (-52) == 1)%Q) by (vm_compute; reflexivity).
  assert (R2 : (real 4503599627370496 (-51) == 2)%Q) by (vm_compute; reflexivity).
  destruct (Prim2SF c) as [s|s| |[] mc ec]; simpl in Ha; try contradiction.
  - unfold SF64add, SFadd in E. injection E as <- <-. rewrite R1. split; lra.
  - pose proof (real_pos mc ec) as Pc. split.
    + rewrite <- R1. apply (value_of_SFleb 4503599627370496 m (-52) e eq_refl V). rewrite <- E.
      apply add_ge; [reflexivity|]. lra.
    + rewrite <- R2. apply (value_of_SFleb m 4503599627370496 e (-51) V eq_refl). rewrite <- E.
      apply add_le; [reflexivity|]. rewrite R1, R2. lra.
Qed.

(** A channel times a factor between 1 and 2, truncated, lies between the
    channel and its double. *)
Lemma bright_bounds (z : Z) (f : number) (mf : positive) (ef : Z) :
  0 <= z <= 255 -> Prim2SF f = S754_finite false mf ef -> -52 <= ef <= -50 ->
  (1 <= real (Zpos mf) ef)%Q -> (real (Zpos mf) ef <= 2)%Q ->
  z <= truncZ (of_Z z * f) <= 2 * z.
Proof.
  intros Hz Ef Hef L1 L2.
  destruct (Z.eq_dec z 0) as [->|Hn].
  { assert (Fs : finite_shape 0 (Prim2SF f)).
    { exists false. right. exists mf, ef. split; [exact Ef|lia]. }
    rewrite of_Z_0. unfold truncZ.
    destruct (zero_mul_finite f 0 Fs) as [-> | ->]; cbn; lia. }
  assert (Hz1 : 0 < z < 2 ^ 53) by (change (2 ^ 53) with 9007199254740992; lia).
  assert (Hz2 : 0 < 2 * z < 2 ^ 53) by (change (2 ^ 53) with 9007199254740992; lia).
  destruct (real_of_Z z Hz1) as (mz & ez & Ez & Rz).
  destruct (real_of_Z (2 * z) Hz2) as (md & ed & Ed & Rd).
  pose proof (Prim2SF_valid (of_Z z)) as Vz. rewrite Ez in Vz.
  pose proof (Prim2SF_valid (of_Z (2 * z))) as Vd. rewrite Ed in Vd.
  pose proof (Prim2SF_valid f) as Vf. rewrite Ef in Vf.
  pose proof (Prim2SF_valid (of_Z z * f)) as Vp.
  assert (Pz : (0 < inject_Z z)%Q) by (change 0%Q with (inject_Z 0); rewrite <- Zlt_Qlt; lia).
  assert (Lo : SFleb (S754_finite false mz ez) (Prim2SF (of_Z z * f)) = true).
  { rewrite mul_spec, Ez, Ef. apply mul_ge; try assumption. rewrite Rz. nra. }
  assert (Hi : SFleb (Prim2SF (of_Z z * f)) (S754_finite false md ed) = true).
  { rewrite mul_spec, Ez, Ef. apply mul_le; try assumption. rewrite Rz, Rd.
    rewrite inject_Z_mult. change (inject_Z 2) with 2%Q. nra. }
  destruct (bright_product_shape z f mf ef Hz Ef Hef) as [E|(m & e & E & He)].
  { rewrite E in Lo. discriminate Lo. }
  rewrite E in Lo, Hi, Vp.
  apply (value_of_SFleb _ _ _ _ Vz Vp) in Lo. apply (value_of_SFleb _ _ _ _ Vp Vd) in Hi.
  rewrite Rz in Lo. rewrite Rd in Hi.
  rewrite (truncZ_finite _ false m e E) by lia.
  assert (P2 : 0 < 2 ^ (- e)) by (apply pow2_pos; lia).
  assert (A : (real z 0 <= real (Zpos m) e)%Q).
  { unfold real at 1. change (2 ^ 0)%Q with 1%Q. rewrite Qmult_1_r. exact Lo. }
  assert (B : (real (Zpos m) e <= real (2 * z) 0)%Q).
  { unfold real at 2. change (2 ^ 0)%Q with 1%Q. rewrite Qmult_1_r. exact Hi. }
  apply real_le_high in A; [|lia]. apply real_le_low in B; [|lia].
  replace (0 - e) with (- e) in A, B by lia.
  split.
  - apply Z.div_le_lower_bound; [exact P2|]. rewrite Z.mul_comm. exact A.
  - apply Z.div_le_upper_bound; [exact P2|]. rewrite Z.mul_comm. exact B.
Qed.

Lemma lighten_channel_bounds (z : Z) (p : value) :
  0 <= z <= 255 -> isNaN (parseFloat p) = false ->
  exists z', stored_channel (VNumber (of_Z z * (1 + clamped_percent p))) = Num (of_Z z') /\
             z <= z' <= Z.min 255 (2 * z).
Proof.
  intros Hz Hp. pose proof (clamp01_shape _ Hp) as Hu.
  destruct (clamped_percent_range p Hp) as [C0 C1].
  pose proof (unit_at_most _ C0 C1) as Ha.
  fold (clamped_percent p) in Hu.
  destruct (one_plus_bounds _ Hu Ha) as (mf & ef & Ef & Hef & L1 & L2).
  pose proof (bright_bounds z _ mf ef Hz Ef Hef L1 L2) as Hb.
  rewrite (lighten_channel z _ Hz Hu). unfold truncated.
  eexists. split; [reflexivity|]. unfold clampZ. lia.
Qed.

(** X17. [lighten] with a percentage that is a number never lowers a channel
    that is set, and at most doubles it: each channel ends between its
    old value and the smaller of 255 and twice that value. *)
Theorem lighten_bounds (h : heap) (this : loc) (o : t) (p : value) (zr zg zb : Z) :
  h !! this = Some o ->
  r o = Num (of_Z zr) -> g o = Num (of_Z zg) -> b o = Num (of_Z zb) ->
  0 <= zr <= 255 -> 0 <= zg <= 255 -> 0 <= zb <= 255 ->
  isNaN (parseFloat p) = false ->
  exists zr' zg' zb',
    lighten this p h
    = (this, <[this := mk (Num (of_Z zr')) (Num (of_Z zg')) (Num (of_Z zb')) (opacity o)]> h) /\
    zr <= zr' <= Z.min 255 (2 * zr) /\ zg <= zg' <= Z.min 255 (2 * zg) /\
    zb <= zb' <= Z.min 255 (2 * zb).
Proof.
  intros Ho Er Eg Eb Rr Rg Rb Hp.
  destruct (lighten_channel_bounds zr p Rr Hp) as (zr' & Sr & Br).
  destruct (lighten_channel_bounds zg p Rg Hp) as (zg' & Sg & Bg).
  destruct (lighten_channel_bounds zb p Rb Hp) as (zb' & Sb & Bb).
  exists zr', zg', zb'. split; [|auto].
  rewrite (lighten_at _ _ _ _ Ho), (scaled_set _ o zr zg zb Er Eg Eb).
  fold (clamped_percent p). rewrite Sr, Sg, Sb. reflexivity.
Qed.

Lemma lighten_bounds_witness :
  exists zr' zg' zb',
    lighten 1%positive (VNumber 0.2)
      {[1%positive := mk (Num (of_Z 255)) (Num (of_Z 170)) (Num (of_Z 17)) (Num 1)]}
    = (1%positive,
       <[1%positive := mk (Num (of_Z zr')) (Num (of_Z zg')) (Num (of_Z zb')) (Num 1)]>
         {[1%positive := mk (Num (of_Z 255)) (Num (of_Z 170)) (Num (of_Z 17)) (Num 1)]}) /\
    255 <= zr' <= Z.min 255 (2 * 255) /\ 170 <= zg' <= Z.min 255 (2 * 170) /\
    17 <= zb' <= Z.min 255 (2 * 17).
Proof.
  pose (o := mk (Num (of_Z 255)) (Num (of_Z 170)) (Num (of_Z 17)) (Num 1)).
  assert (Ho : ({[1%positive := o]} : heap) !! 1%positive = Some o) by reflexivity.
  assert (Hp : isNaN (parseFloat (VNumber 0.2)) = false) by (vm_compute; reflexivity).
  exact (lighten_bounds _ 1%positive o (VNumber 0.2) 255 170 17 Ho eq_refl eq_refl eq_refl
           ltac:(lia) ltac:(lia) ltac:(lia) Hp).
Defined.

(** ** The contrast of a colour with itself *)

Lemma SFleb_antisym (m : positive) (e : Z) (y : spec_float) :
  SFleb (S754_finite false m e) y = true -> SFleb y (S754_finite false m e) = true ->
  y = S754_finite false m e.
Proof.
  unfold SFleb. intros H1 H2. apply SFcompare_Eq_finite.
  destruct (SFcompare (S754_finite false m e) y) as [c|] eqn:E; [|discriminate H1].
  rewrite (SFcompare_antisym _ _ _ E) in H2.
  destruct c; [reflexivity|discriminate H2|discriminate H1].
Qed.

(** A positive normal double divided by itself is 1. *)
Lemma div_self (x : number) (m : positive) (e : Z) :
  Prim2SF x = S754_finite false m e -> valid_binary (S754_finite false m e) = true ->
  Zpos (digits2_pos m) = 53 -> (x / x = 1)%float.
Proof.
  intros E V D. apply Prim2SF_inj. rewrite div_spec, E, Prim2SF_1.
  assert (R1 : (real 4503599627370496 (-52) == 1)%Q) by (vm_compute; reflexivity).
  apply SFleb_antisym.
  - apply div_ge; try assumption; [lia|reflexivity|]. rewrite R1. lra.
  - apply div_le; try assumption; [lia|reflexivity|]. rewrite R1. lra.
Qed.

Lemma contrast_ratio_same (l : number) : at_most 1 (Prim2SF l) -> contrast_ratio l l = 1%float.
Proof.
  intros Hl. destruct (luminance_offset l Hl) as [X0 X1].
  destruct Prim2SF_contrast_constants as (E5 & E105 & _ & _).
  destruct (between_shape _ _ _ _ _ _ _ E5 E105 ltac:(lia) X0 X1)
    as (m & e & E & V & _ & D & _ & _).
  unfold contrast_ratio. cbv zeta. rewrite (div_self _ m e E V D). reflexivity.
Qed.

(** X18. Under the assumption on [Math.pow], the contrast of a colour whose
    channels are set with itself, or with another colour of the same
    channels, is exactly 1. *)
Theorem contrast_with_itself (pow : number -> number -> number)
    (h : heap) (this color : loc) (o oc : t) (zr zg zb : Z) :
  pow_in_unit pow ->
  h !! this = Some o -> h !! color = Some oc ->
  r o = Num (of_Z zr) -> g o = Num (of_Z zg) -> b o = Num (of_Z zb) ->
  r oc = r o -> g oc = g o -> b oc = b o ->
  0 <= zr <= 255 -> 0 <= zg <= 255 -> 0 <= zb <= 255 ->
  compareContrastTo pow this color h = (1%float, h) /\
  compareContrastTo pow this this h = (1%float, h).
Proof.
  intros Hp Ho Hc Er Eg Eb Fr Fg Fb Rr Rg Rb.
  pose proof (luminance_unit pow zr zg zb Hp Rr Rg Rb) as Hl.
  rewrite luminanace_spec in Hl.
  rewrite (compareContrastTo_at pow _ _ _ _ _ Ho Hc), (compareContrastTo_at pow _ _ _ _ _ Ho Ho).
  rewrite Fr, Fg, Fb, Er, Eg, Eb, contrast_spec, (contrast_ratio_same _ Hl). auto.
Qed.

Lemma contrast_with_itself_witness :
  compareContrastTo (fun x _ => x) 1%positive 1%positive
    {[1%positive := mk (Num (of_Z 255)) (Num (of_Z 170)) (Num (of_Z 17)) (Num 1)]}
  = (1%float, {[1%positive := mk (Num (of_Z 255)) (Num (of_Z 170)) (Num (of_Z 17)) (Num 1)]}).
Proof.
  pose (o := mk (Num (of_Z 255)) (Num (of_Z 170)) (Num (of_Z 17)) (Num 1)).
  assert (Hp : pow_in_unit (fun x _ => x)) by (intros x H0 H1; split; assumption).
  assert (Ho : ({[1%positive := o]} : heap) !! 1%positive = Some o) by reflexivity.
  exact (proj2 (contrast_with_itself (fun x _ => x) _ 1%positive 1%positive o o 255 170 17
                  Hp Ho Ho eq_refl eq_refl eq_refl eq_refl eq_refl eq_refl
                  ltac:(lia) ltac:(lia) ltac:(lia))).
Defined.

(** ** Positive numbers below [1e-6] as setter arguments *)

(** Exponent notation: the magnitude of a decimal for a double below
    [1e-6] is at most [-6]. *)
Lemma magnitude_small (m : positive) (e s k n : Z) :
  e <= 0 -> Zpos m < 2 ^ 53 -> below_1em6 m e ->
  1 <= k -> 10 ^ (k - 1) <= s < 10 ^ k ->
  rounds_to m e (decimal s (n - k)) = true ->
  n <= -6.
Proof.
  intros He Hm Hb Hk Hs Hr. apply rounds_to_between in Hr. destruct Hr as [_ Hhi].
  apply upper_mid_ge in Hhi; [|exact He].
  pose proof (pow2_pos (- e) ltac:(lia)) as HD.
  pose proof (pow10_pos (k - 1) ltac:(lia)) as HK1.
  change (2 ^ 53) with 9007199254740992 in Hm.
  destruct (Z.le_gt_cases n (-6)) as [|Hn]; [assumption|exfalso].
  assert (HD72 : 4722366482869645213696 <= 2 ^ (- e)).
  { change 4722366482869645213696 with (2 ^ 72). apply pow2_le.
    destruct Hb as [Hb|[Hb _]]; lia. }
  set (D := 2 ^ (- e)) in *.
  assert (Hgoal : 4 * D <= (4 * Zpos m + 2) * 1000000).
  { destruct (Z.leb_spec 0 (n - k)).
    - pose proof (pow10_pos (n - k) ltac:(lia)) as HT. set (T := 10 ^ (n - k)) in *.
      assert (H1 : 1 * 1 <= s * T) by (apply Z.mul_le_mono_nonneg; lia).
      assert (H2 : 1 * (4 * D) <= s * T * (4 * D)) by (apply Z.mul_le_mono_nonneg_r; lia).
      lia.
    - pose proof (pow10_split (- (n - k)) (n + 5) ltac:(lia) ltac:(lia)) as E1.
      replace (- (n - k) + (n + 5)) with (k - 1 + 6) in E1 by lia.
      rewrite (pow10_split (k - 1) 6) in E1 by lia. change (10 ^ 6) with 1000000 in E1.
      pose proof (pow10_pos (- (n - k)) ltac:(lia)) as HT.
      pose proof (pow10_pos (n + 5) ltac:(lia)) as HN.
      set (T := 10 ^ (- (n - k))) in *. set (N := 10 ^ (n + 5)) in *.
      set (K1 := 10 ^ (k - 1)) in *. set (X := 4 * Zpos m + 2) in *.
      assert (H1 : K1 * (4 * D) <= s * (4 * D)) by (apply Z.mul_le_mono_nonneg_r; lia).
      assert (H2 : X * T * 1 <= X * T * N) by (apply Z.mul_le_mono_nonneg_l; unfold X; lia).
      assert (H3 : X * T * N = X * 1000000 * K1).
      { rewrite <- Z.mul_assoc, <- E1. ring. }
      assert (H4 : 4 * D * K1 <= X * 1000000 * K1) by lia.
      apply (Z.mul_le_mono_pos_r _ _ K1); [exact HK1|exact H4]. }
  destruct Hb as [Hb|[Hb1 Hb2]].
  - assert (HD73 : 9444732965739290427392 <= D).
    { change 9444732965739290427392 with (2 ^ 73). apply pow2_le. lia. }
    lia.
  - unfold mantissa_1em6 in Hb2. lia.
Qed.

Lemma parseInt_mantissa (q : Z) (rest : string) :
  0 <= q -> ends_mantissa rest -> parseInt_math (show_radix 10 q ++ rest) 0 = Some (false, q).
Proof.
  intros Hq Hr. pose proof (read_show q Hq rest 0 O) as R.
  destruct (show_head q Hq) as (c & tl & E & Hc & H0). rewrite E in R |- *.
  rewrite string_app_cons in R |- *.
  assert (Hx : strip_0x (String c (tl ++ rest)) = None).
  { destruct (ascii_dec c "0") as [->|Hn]; [|apply strip_0x_other, Hn].
    rewrite (H0 eq_refl). destruct Hr as [(s & ->)|(s & ->)]; reflexivity. }
  assert (Hs : strip_sign (trim_start (String c (tl ++ rest))) = (false, String c (tl ++ rest))).
  { cbn [trim_start]. rewrite (digit_not_white c Hc). apply strip_sign_digit, Hc. }
  assert (Hstop : read_digits 10 rest (0 * 10 ^ Z.of_nat (numeral_length q) + q)
                    (0 + numeral_length q)
                  = (0 * 10 ^ Z.of_nat (numeral_length q) + q, (0 + numeral_length q)%nat, rest)).
  { destruct Hr as [(s & ->)|(s & ->)]; reflexivity. }
  unfold parseInt_math. rewrite Hs.
  change (negb (0 =? 0) && ((0 <? 2) || (36 <? 0))) with false.
  change ((0 =? 0) || (0 =? 16)) with true. change (if 0 =? 0 then 10 else 0) with 10.
  cbv iota beta.
  rewrite Hx, R, Hstop. cbn [Nat.add].
  unfold numeral_length at 1. rewrite E. cbn [String.length]. f_equal.
Qed.

Lemma layout_small (s k n : Z) :
  1 <= k -> 10 ^ (k - 1) <= s < 10 ^ k -> n <= -6 ->
  parseInt_math (layout s k n) 0 = Some (false, s / 10 ^ (k - 1)) /\
  1 <= s / 10 ^ (k - 1) <= 9.
Proof.
  intros Hk Hs Hn. pose proof (pow10_pos (k - 1) ltac:(lia)) as Hp.
  assert (Hd : 1 <= s / 10 ^ (k - 1) <= 9).
  { replace k with (k - 1 + 1) in Hs at 2 by lia.
    rewrite pow10_split in Hs by lia. change (10 ^ 1) with 10 in Hs.
    split.
    - apply Z.div_le_lower_bound; lia.
    - assert (s / 10 ^ (k - 1) < 10) by (apply Z.div_lt_upper_bound; lia). lia. }
  split; [|exact Hd].
  unfold layout.
  destruct (Z.leb_spec k n); [lia|]. cbn [andb].
  destruct (Z.ltb_spec 0 n); [lia|]. cbn [andb].
  destruct (Z.ltb_spec (-6) n); [lia|]. cbn [andb]. cbv zeta.
  destruct (Z.ltb_spec (n - 1) 0); [|lia].
  destruct (Z.eqb_spec k 1) as [->|Hk1].
  - change (10 ^ (1 - 1)) with 1. rewrite Z.div_1_r. unfold dec.
    apply parseInt_mantissa; [lia|]. right. eexists. reflexivity.
  - unfold dec. apply parseInt_mantissa; [lia|]. left. eexists. reflexivity.
Qed.

Lemma tiny_shape (x : number) :
  (0 <? x)%float = true -> (x <? 1e-6)%float = true ->
  exists m e, Prim2SF x = S754_finite false m e /\ below_1em6 m e.
Proof.
  rewrite !FloatAxioms.ltb_spec, Prim2SF_1em6, Prim2SF_zero.
  destruct (Prim2SF x) as [s|s| |s m e]; intros H0 H1.
  - destruct s; discriminate H0.
  - exfalso. revert H1. generalize 4722366482869645%positive. intros q H1.
    destruct s; [discriminate H0|discriminate H1].
  - discriminate H0.
  - destruct s; [discriminate H0|].
    exists m, e. split; [reflexivity|].
    apply (SFltb_finite false) in H1. exact H1.
Qed.

Lemma tiny_parse (x : number) :
  (0 <? x)%float = true -> (x <? 1e-6)%float = true ->
  truncZ x = 0 /\
  exists d, 1 <= d <= 9 /\ stored_channel (VNumber x) = Num (of_Z d).
Proof.
  intros H0 H1. destruct (tiny_shape x H0 H1) as (m & e & Ex & Hb).
  pose proof (Prim2SF_valid x) as Hv. rewrite Ex in Hv.
  apply valid_mantissa in Hv. destruct Hv as [Hm _].
  assert (He : e <= 0) by (destruct Hb as [Hb|[Hb _]]; lia).
  split.
  - rewrite (truncZ_finite x false m e Ex He). apply Z.div_small. split; [lia|].
    eapply Z.lt_le_trans; [exact Hm|]. apply pow2_le. destruct Hb as [Hb|[Hb _]]; lia.
  - destruct (shortest m e) as [[s k] n] eqn:Es.
    destruct (shortest_spec _ _ _ _ _ He Es) as (Hk & Hs & Hr & _).
    pose proof (magnitude_small m e s k n He Hm Hb Hk Hs Hr) as Hn.
    destruct (layout_small s k n Hk Hs Hn) as [Hp Hd].
    exists (s / 10 ^ (k - 1)). split; [exact Hd|].
    rewrite channel_of_eq. unfold channel_of.
    change (ToString (VNumber x)) with (Number_toString x).
    unfold Number_toString. rewrite Ex, Es.
    change ("" ++ layout s k n)%string with (layout s k n). rewrite Hp.
    unfold clampZ. f_equal. f_equal. lia.
Qed.

(** X19. A channel setter given a positive number below [1e-6] stores an
    integer from 1 to 9, although the number truncates to 0: the number
    is printed in exponent notation before [parseInt] reads it, and
    [parseInt] stops at its first digit. *)
Theorem setter_misreads_tiny (h : heap) (this : loc) (o : t) (x : number) :
  h !! this = Some o -> (0 <? x)%float = true -> (x <? 1e-6)%float = true ->
  truncZ x = 0 /\
  exists d, 1 <= d <= 9 /\
    setRed this (VNumber x) h = (this, <[this := with_r (Num (of_Z d)) o]> h) /\
    setGreen this (VNumber x) h = (this, <[this := with_g (Num (of_Z d)) o]> h) /\
    setBlue this (VNumber x) h = (this, <[this := with_b (Num (of_Z d)) o]> h).
Proof.
  intros Ho H0 H1. destruct (tiny_parse x H0 H1) as [Ht (d & Hd & E)].
  split; [exact Ht|]. exists d. split; [exact Hd|].
  rewrite (setRed_at _ _ _ _ Ho), (setGreen_at _ _ _ _ Ho), (setBlue_at _ _ _ _ Ho), E.
  repeat split.
Qed.

Lemma setter_misreads_tiny_witness :
  truncZ 2.55e-7 = 0 /\
  exists d, 1 <= d <= 9 /\
    setRed 1%positive (VNumber 2.55e-7) {[1%positive := init]}
    = (1%positive, <[1%positive := with_r (Num (of_Z d)) init]> {[1%positive := init]}) /\
    setGreen 1%positive (VNumber 2.55e-7) {[1%positive := init]}
    = (1%positive, <[1%positive := with_g (Num (of_Z d)) init]> {[1%positive := init]}) /\
    setBlue 1%positive (VNumber 2.55e-7) {[1%positive := init]}
    = (1%positive, <[1%positive := with_b (Num (of_Z d)) init]> {[1%positive := init]}).
Proof.
  assert (Ho : ({[1%positive := init]} : heap) !! 1%positive = Some init) by reflexivity.
  assert (H0 : (0 <? 2.55e-7)%float = true) by reflexivity.
  assert (H1 : (2.55e-7 <? 1e-6)%float = true) by reflexivity.
  exact (setter_misreads_tiny _ 1%positive init 2.55e-7%float Ho H0 H1).
Defined.

(** ** How far [darken] moves a channel *)

(** [1 - p] for a clamped percentage [p] lies between 0 and 1. *)
Lemma one_minus_at_most (c : number) :
  at_most 1 (Prim2SF c) -> at_most 1 (Prim2SF (1 - c)).
Proof.
  intros Ha. pose proof (Prim2SF_valid (1 - c)) as V. rewrite sub_spec, Prim2SF_1 in *.
  assert (R1 : (real 4503599627370496 (-52) == 1)%Q) by (vm_compute; reflexivity).
  destruct (Prim2SF c) as [s|s| |[] mc ec]; simpl in Ha; try contradiction.
  - cbn. rewrite R1. lra.
  - unfold SF64sub, SFsub in *. cbn [cond_Zopp] in *.
    set (ez := Z.min (-52) ec) in *.
    pose proof (shl_align_value 4503599627370496 (-52) ez) as [H1 S1].
    pose proof (shl_align_value mc ec ez) as [Hc Sc].
    replace (Z.min (-52) ez) with ez in S1 by (unfold ez; lia).
    replace (Z.min ec ez) with ez in Sc by (unfold ez; lia).
    rewrite S1 in H1. rewrite Sc in Hc.
    set (a := fst (shl_align 4503599627370496 (-52) ez)) in *.
    set (b := fst (shl_align mc ec ez)) in *.
    assert (Hba : Zpos b <= Zpos a).
    { apply (real_le _ _ ez). rewrite H1, Hc, R1. exact Ha. }
    destruct (Zpos a - Zpos b) as [|p|p] eqn:E; [exact I| |lia].
    cbn [binary_normalize] in *.
    assert (Hp : (real (Zpos p) ez <= real 4503599627370496 (-52))%Q).
    { rewrite <- E. rewrite <- H1. apply real_le. lia. }
    apply (at_most_weaken (real 4503599627370496 (-52)) 1); [rewrite R1; lra|].
    apply at_most_intro; [apply br_nonneg|exact V|reflexivity|].
    apply br_le; [reflexivity|exact Hp].
Qed.

(** A channel times a factor between 0 and 1, truncated, lies between 0
    and the channel. *)
Lemma dark_bounds (z : Z) (f : number) :
  0 <= z <= 255 -> at_most 1 (Prim2SF f) -> finite_shape 0 (Prim2SF (of_Z z * f)) ->
  0 <= truncZ (of_Z z * f) <= z.
Proof.
  intros Hz Hf Hs.
  destruct (Z.eq_dec z 0) as [->|Hn].
  { rewrite of_Z_0 in *. unfold truncZ.
    assert (Fs : exists k, finite_shape k (Prim2SF f)).
    { destruct (Prim2SF f) as [s|s| |[] m e]; simpl in Hf; try contradiction.
      - exists 0, s. left. reflexivity.
      - exists e, false. right. exists m, e. split; [reflexivity|lia]. }
    destruct Fs as [k Fs].
    destruct (zero_mul_finite f k Fs) as [-> | ->]; cbn; lia. }
  assert (Hz1 : 0 < z < 2 ^ 53) by (change (2 ^ 53) with 9007199254740992; lia).
  destruct (real_of_Z z Hz1) as (mz & ez & Ez & Rz).
  pose proof (mul_at_most f (of_Z z) mz ez Hf Ez) as Hm.
  rewrite mul_comm in Hm.
  destruct Hs as (s & [E|(m & e & E & He)]).
  - unfold truncZ. rewrite E. lia.
  - rewrite E in Hm. destruct s; simpl in Hm; [contradiction|].
    rewrite (truncZ_finite _ false m e E He).
    assert (P2 : 0 < 2 ^ (- e)) by (apply pow2_pos; lia).
    rewrite Rz in Hm.
    assert (B : (real (Zpos m) e <= real z 0)%Q).
    { unfold real at 2. change (2 ^ 0)%Q with 1%Q. rewrite Qmult_1_r. exact Hm. }
    apply real_le_low in B; [|lia]. replace (0 - e) with (- e) in B by lia.
    split.
    + apply Z.div_pos; lia.
    + apply Z.div_le_upper_bound; [exact P2|]. rewrite Z.mul_comm. exact B.
Qed.

Lemma darken_channel_bounds (z : Z) (p : value) :
  0 <= z <= 255 -> isNaN (parseFloat p) = false ->
  plain_notation (of_Z z * (1 - clamped_percent p)) = true ->
  exists z', stored_channel (VNumber (of_Z z * (1 - clamped_percent p))) = Num (of_Z z') /\
             0 <= z' <= z.
Proof.
  intros Hz Hp Hn. pose proof (clamp01_shape _ Hp) as Hu.
  destruct (clamped_percent_range p Hp) as [C0 C1].
  pose proof (one_minus_at_most _ (unit_at_most _ C0 C1)) as Ha.
  fold (clamped_percent p) in Hu.
  assert (Hs : finite_shape 0 (Prim2SF (of_Z z * (1 - clamped_percent p))))
    by (apply (mul_fits _ _ 8 3); [apply channel_mag, Hz|apply factor_mag, Hu|lia]).
  pose proof (dark_bounds z _ Hz Ha Hs) as Hb.
  rewrite (darken_channel z _ Hz Hu Hn). unfold truncated.
  eexists. split; [reflexivity|]. unfold clampZ. lia.
Qed.

(** X20. [darken] with a percentage that is a number never raises a channel
    that is set, as long as no product falls below [1e-6] without being
    zero: each channel ends between 0 and its old value. *)
Theorem darken_bounds (h : heap) (this : loc) (o : t) (p : value) (zr zg zb : Z) :
  h !! this = Some o ->
  r o = Num (of_Z zr) -> g o = Num (of_Z zg) -> b o = Num (of_Z zb) ->
  0 <= zr <= 255 -> 0 <= zg <= 255 -> 0 <= zb <= 255 ->
  isNaN (parseFloat p) = false ->
  plain_notation (of_Z zr * (1 - clamped_percent p)) = true ->
  plain_notation (of_Z zg * (1 - clamped_percent p)) = true ->
  plain_notation (of_Z zb * (1 - clamped_percent p)) = true ->
  exists zr' zg' zb',
    darken this p h
    = (this, <[this := mk (Num (of_Z zr')) (Num (of_Z zg')) (Num (of_Z zb')) (opacity o)]> h) /\
    0 <= zr' <= zr /\ 0 <= zg' <= zg /\ 0 <= zb' <= zb.
Proof.
  intros Ho Er Eg Eb Rr Rg Rb Hp Nr Ng Nb.
  destruct (darken_channel_bounds zr p Rr Hp Nr) as (zr' & Sr & Br).
  destruct (darken_channel_bounds zg p Rg Hp Ng) as (zg' & Sg & Bg).
  destruct (darken_channel_bounds zb p Rb Hp Nb) as (zb' & Sb & Bb).
  exists zr', zg', zb'. split; [|auto].
  rewrite (darken_at _ _ _ _ Ho), (scaled_set _ o zr zg zb Er Eg Eb).
  fold (clamped_percent p). rewrite Sr, Sg, Sb. reflexivity.
Qed.

Lemma darken_bounds_witness :
  exists zr' zg' zb',
    darken 1%positive (VNumber 0.2)
      {[1%positive := mk (Num (of_Z 255)) (Num (of_Z 170)) (Num (of_Z 0)) (Num 1)]}
    = (1%positive,
       <[1%positive := mk (Num (of_Z zr')) (Num (of_Z zg')) (Num (of_Z zb')) (Num 1)]>
         {[1%positive := mk (Num (of_Z 255)) (Num (of_Z 170)) (Num (of_Z 0)) (Num 1)]}) /\
    0 <= zr' <= 255 /\ 0 <= zg' <= 170 /\ 0 <= zb' <= 0.
Proof.
  pose (o := mk (Num (of_Z 255)) (Num (of_Z 170)) (Num (of_Z 0)) (Num 1)).
  assert (Ho : ({[1%positive := o]} : heap) !! 1%positive = Some o) by reflexivity.
  assert (Hp : isNaN (parseFloat (VNumber 0.2)) = false) by (vm_compute; reflexivity).
  assert (Nr : plain_notation (of_Z 255 * (1 - clamped_percent (VNumber 0.2))) = true)
    by (vm_compute; reflexivity).
  assert (Ng : plain_notation (of_Z 170 * (1 - clamped_percent (VNumber 0.2))) = true)
    by (vm_compute; reflexivity).
  assert (Nb : plain_notation (of_Z 0 * (1 - clamped_percent (VNumber 0.2))) = true)
    by (vm_compute; reflexivity).
  exact (darken_bounds _ 1%positive o (VNumber 0.2) 255 170 0 Ho eq_refl eq_refl eq_refl
           ltac:(lia) ltac:(lia) ltac:(lia) Hp Nr Ng Nb).
Defined.

(** ** [numberBound] as a clamp *)

Lemma leb_not_ltb (a b : number) : (a <=? b)%float = true -> (b <? a)%float = false.
Proof.
  rewrite FloatAxioms.leb_spec, FloatAxioms.ltb_spec. unfold SFleb, SFltb.
  destruct (SFcompare (Prim2SF a) (Prim2SF b)) as [c|] eqn:E; [|discriminate].
  rewrite (SFcompare_antisym _ _ _ E). destruct c; try discriminate; reflexivity.
Qed.

Lemma leb_not_NaN (a b : number) : (a <=? b)%float = true -> isNaN a = false /\ isNaN b = false.
Proof.
  rewrite FloatAxioms.leb_spec. unfold SFleb. intros H.
  split; apply isNaN_false_Prim2SF; intros E; rewrite E in H;
    [|destruct (Prim2SF a)]; discriminate H.
Qed.

Lemma numberBound_inside (x hi : number) (mh : positive) (eh : Z) :
  Prim2SF hi = S754_finite false mh eh ->
  (0 <=? x)%float = true -> (x <=? hi)%float = true -> is_neg_zero x = false ->
  numberBound x 0 hi = x.
Proof.
  intros Eh H0 H1 Hz. rewrite (numberBound_eq x hi mh eh Eh).
  rewrite (proj2 (leb_not_NaN _ _ H0)), (leb_not_ltb _ _ H0), (leb_not_ltb _ _ H1), Hz.
  reflexivity.
Qed.

Lemma numberBound_not_neg_zero (x hi : number) (mh : positive) (eh : Z) :
  Prim2SF hi = S754_finite false mh eh -> is_neg_zero (numberBound x 0 hi) = false.
Proof.
  intros Eh. rewrite (numberBound_eq x hi mh eh Eh).
  assert (Hh : is_neg_zero hi = false) by (rewrite is_neg_zero_Prim2SF, Eh; reflexivity).
  destruct (isNaN x); [reflexivity|]. destruct (x <? 0)%float; [reflexivity|].
  destruct (hi <? x)%float; [exact Hh|]. destruct (is_neg_zero x) eqn:E; [reflexivity|exact E].
Qed.

(** X21. [numberBound(x, 0, hi)] for a positive finite [hi], as both callers
    use it: the result is [NaN] exactly when [x] is; otherwise it lies
    between 0 and [hi] and is never [-0]; an [x] in that range is
    returned as it is; and clamping twice is clamping once. *)
Theorem numberBound_clamps (x hi : number) (mh : positive) (eh : Z) :
  Prim2SF hi = S754_finite false mh eh ->
  isNaN (numberBound x 0 hi) = isNaN x /\
  (isNaN x = false ->
   (0 <=? numberBound x 0 hi)%float = true /\ (numberBound x 0 hi <=? hi)%float = true) /\
  is_neg_zero (numberBound x 0 hi) = false /\
  ((0 <=? x)%float = true -> (x <=? hi)%float = true -> is_neg_zero x = false ->
   numberBound x 0 hi = x) /\
  numberBound (numberBound x 0 hi) 0 hi = numberBound x 0 hi.
Proof.
  intros Eh. split; [exact (numberBound_NaN x hi mh eh Eh)|].
  split; [exact (numberBound_range x hi mh eh Eh)|].
  split; [exact (numberBound_not_neg_zero x hi mh eh Eh)|].
  split; [exact (numberBound_inside x hi mh eh Eh)|].
  destruct (isNaN x) eqn:N.
  - rewrite (numberBound_eq x hi mh eh Eh), N. rewrite (numberBound_eq nan hi mh eh Eh).
    reflexivity.
  - destruct (numberBound_range x hi mh eh Eh N) as [H0 H1].
    exact (numberBound_inside _ hi mh eh Eh H0 H1 (numberBound_not_neg_zero x hi mh eh Eh)).
Qed.

Lemma numberBound_clamps_witness :
  numberBound 300 0 255 = 255%float /\ numberBound (-0.5) 0 1 = 0%float /\
  numberBound (numberBound 0.3 0 1) 0 1 = numberBound 0.3 0 1.
Proof.
  split; [reflexivity|]. split; [reflexivity|].
  exact (proj2 (proj2 (proj2 (proj2 (numberBound_clamps 0.3 1 _ _ Prim2SF_1))))).
Defined.
